(** * OSFS: the in-memory, bitmap-backed filesystem of lab4

    A shallow embedding of the multi-level ("bonus") variant of the
    filesystem core: [lab4_bonus/osfs.h], [lab4_bonus/inode.c],
    [lab4_bonus/dir.c], [lab4_bonus/file.c], with the mount path of
    [Lab4_Template_Update/super.c].

    The C code keeps everything in one [vmalloc] region that is cut into
    superblock header, two bitmaps, the inode table and the data-block
    area.  The model keeps the same four parts as fields of one record
    that is threaded through every operation:
    - 32-bit counters are [Z] with the wrap-around written out ([wrap32]);
    - a bitmap is a [Z] read with [Z.testbit] and changed with
      [Z.setbit] / [Z.clearbit];
    - the data-block area is a flat byte array ([list byte]); index blocks
      are data blocks read as little-endian 32-bit words, exactly as the
      casts to [uint32_t *] do on the machines the module runs on;
    - the inode table is a list of inode records indexed by inode number.

    Kernel services that the code only calls ([new_inode], [vmalloc],
    [d_make_root], [copy_to_user], [current_time]) appear as arguments
    saying whether the call succeeds, or what it returns. *)

From Stdlib Require Import ZArith List Lia Bool.
From coqutil Require Import Byte Word.LittleEndianList.
Import ListNotations.
Local Open Scope Z_scope.

(** ** Error codes and results *)

Inductive errno : Type :=
| ENOSPC | ENOENT | EFBIG | EEXIST | ENAMETOOLONG
| EINVAL | ENOMEM | EIO | EFAULT.

Inductive result (A : Type) : Type :=
| Ok (a : A)
| Err (e : errno).
Arguments Ok {A} a.
Arguments Err {A} e.

(** ** Constants of [osfs.h] *)

Definition OSFS_MAGIC : Z := 0x051AB520.
Definition INODE_COUNT : Z := 20.
Definition DATA_BLOCK_COUNT : Z := 20.
Definition MAX_FILENAME_LEN : Z := 255.
Definition OSFS_N_DIRECT : Z := 12.
Definition OSFS_N_INDIRECT : Z := 1.
Definition OSFS_N_DINDIRECT : Z := 1.
Definition OSFS_N_BLOCKS : Z := OSFS_N_DIRECT + OSFS_N_INDIRECT + OSFS_N_DINDIRECT.
Definition ROOT_INODE : Z := 1.

(** [struct osfs_dir_entry] is [char filename[255]] followed by a
    [uint32_t]: the integer is aligned to 4, so it sits at offset 256 and
    the record is 260 bytes long; byte 255 is padding. *)
Definition INODE_NO_OFFSET : Z := 256.
Definition DIR_ENTRY_SIZE : Z := 260.

(** File-type bits of [i_mode] (from the kernel's [stat.h]). *)
Definition S_IFMT : Z := 0xF000.
Definition S_IFDIR : Z := 0x4000.
Definition S_IFREG : Z := 0x8000.
Definition S_IFLNK : Z := 0xA000.
Definition S_ISDIR (m : Z) : bool := Z.land m S_IFMT =? S_IFDIR.
Definition S_ISREG (m : Z) : bool := Z.land m S_IFMT =? S_IFREG.
Definition S_ISLNK (m : Z) : bool := Z.land m S_IFMT =? S_IFLNK.

Definition wrap32 (x : Z) : Z := x mod 2 ^ 32.
Definition wrap16 (x : Z) : Z := x mod 2 ^ 16.

(** ** Lists updated by index, and the byte array *)

Fixpoint list_upd {A : Type} (l : list A) (n : nat) (x : A) : list A :=
  match l, n with
  | [], _ => []
  | _ :: t, O => x :: t
  | h :: t, S n' => h :: list_upd t n' x
  end.

Definition mem : Type := list byte.

(** [n] bytes starting at byte offset [a]. *)
Definition load_bytes (m : mem) (a : Z) (n : nat) : list byte :=
  firstn n (skipn (Z.to_nat a) m).

(** Overwrite the bytes at [a .. a + length bs).  The C code never
    bounds-checks; a store that would leave the data area is outside the
    modelled region and leaves it as it is. *)
Definition store_bytes (m : mem) (a : Z) (bs : list byte) : mem :=
  if (0 <=? a) && (a + Z.of_nat (length bs) <=? Z.of_nat (length m))
  then firstn (Z.to_nat a) m ++ bs ++ skipn (Z.to_nat a + length bs) m
  else m.

Definition load32 (m : mem) (a : Z) : Z := le_combine (load_bytes m a 4).
Definition store32 (m : mem) (a : Z) (v : Z) : mem := store_bytes m a (le_split 4 v).

Definition zeros (n : Z) : list byte := repeat Byte.x00 (Z.to_nat n).

(** [strlen]: bytes before the first NUL. *)
Fixpoint c_strlen (s : list byte) : Z :=
  match s with
  | [] => 0
  | b :: t => if Byte.eqb b Byte.x00 then 0 else 1 + c_strlen t
  end.

(** [strncmp (a, b, n) == 0]: the first [n] bytes agree, or both strings
    end at the same earlier position.  A list that has run out reads as
    its terminating NUL. *)
Fixpoint c_strncmp_eq (a b : list byte) (n : nat) : bool :=
  match n with
  | O => true
  | S n' =>
      let ca := hd Byte.x00 a in
      let cb := hd Byte.x00 b in
      if Byte.eqb ca cb
      then (if Byte.eqb ca Byte.x00 then true else c_strncmp_eq (tl a) (tl b) n')
      else false
  end.

(** ** Data model *)

(** [struct osfs_inode]; a [timespec64] is kept as one number. *)
Record osfs_inode : Type := mk_inode {
  i_ino : Z;
  i_size : Z;
  i_blocks : Z;
  i_mode : Z;
  i_links_count : Z;
  i_uid : Z;
  i_gid : Z;
  i_atime : Z;
  i_mtime : Z;
  i_ctime : Z;
  i_block : list Z   (* [0-11] direct, [12] indirect, [13] double indirect *)
}.

(** [struct osfs_sb_info], with the regions its four pointers point at. *)
Record osfs_sb_info : Type := mk_sb {
  magic : Z;
  block_size : Z;
  inode_count : Z;
  block_count : Z;
  nr_free_inodes : Z;
  nr_free_blocks : Z;
  inode_bitmap : Z;
  block_bitmap : Z;
  inode_table : list osfs_inode;
  data_blocks : mem
}.

(** What [memset (p, 0, sizeof *p)] leaves in an inode record. *)
Definition zero_inode : osfs_inode :=
  mk_inode 0 0 0 0 0 0 0 0 0 0 (repeat 0 (Z.to_nat OSFS_N_BLOCKS)).

Definition with_i_block (ind : osfs_inode) (v : list Z) : osfs_inode :=
  mk_inode (i_ino ind) (i_size ind) (i_blocks ind) (i_mode ind) (i_links_count ind)
           (i_uid ind) (i_gid ind) (i_atime ind) (i_mtime ind) (i_ctime ind) v.
Definition with_i_blocks (ind : osfs_inode) (v : Z) : osfs_inode :=
  mk_inode (i_ino ind) (i_size ind) v (i_mode ind) (i_links_count ind)
           (i_uid ind) (i_gid ind) (i_atime ind) (i_mtime ind) (i_ctime ind) (i_block ind).
Definition with_i_size (ind : osfs_inode) (v : Z) : osfs_inode :=
  mk_inode (i_ino ind) v (i_blocks ind) (i_mode ind) (i_links_count ind)
           (i_uid ind) (i_gid ind) (i_atime ind) (i_mtime ind) (i_ctime ind) (i_block ind).
Definition with_mctime (ind : osfs_inode) (t : Z) : osfs_inode :=
  mk_inode (i_ino ind) (i_size ind) (i_blocks ind) (i_mode ind) (i_links_count ind)
           (i_uid ind) (i_gid ind) (i_atime ind) t t (i_block ind).

Definition with_inode_table (sb : osfs_sb_info) (v : list osfs_inode) : osfs_sb_info :=
  mk_sb (magic sb) (block_size sb) (inode_count sb) (block_count sb)
        (nr_free_inodes sb) (nr_free_blocks sb) (inode_bitmap sb) (block_bitmap sb)
        v (data_blocks sb).
Definition with_data_blocks (sb : osfs_sb_info) (v : mem) : osfs_sb_info :=
  mk_sb (magic sb) (block_size sb) (inode_count sb) (block_count sb)
        (nr_free_inodes sb) (nr_free_blocks sb) (inode_bitmap sb) (block_bitmap sb)
        (inode_table sb) v.
Definition with_inode_alloc (sb : osfs_sb_info) (bm n : Z) : osfs_sb_info :=
  mk_sb (magic sb) (block_size sb) (inode_count sb) (block_count sb)
        n (nr_free_blocks sb) bm (block_bitmap sb)
        (inode_table sb) (data_blocks sb).
Definition with_block_alloc (sb : osfs_sb_info) (bm n : Z) : osfs_sb_info :=
  mk_sb (magic sb) (block_size sb) (inode_count sb) (block_count sb)
        (nr_free_inodes sb) n (inode_bitmap sb) bm
        (inode_table sb) (data_blocks sb).
Definition with_nr_free_inodes (sb : osfs_sb_info) (n : Z) : osfs_sb_info :=
  with_inode_alloc sb (inode_bitmap sb) n.

(** The record behind [inode->i_private], and its fields, by inode number. *)
Definition inode_at (sb : osfs_sb_info) (ino : Z) : osfs_inode :=
  nth (Z.to_nat ino) (inode_table sb) zero_inode.
Definition set_inode (sb : osfs_sb_info) (ino : Z) (ind : osfs_inode) : osfs_sb_info :=
  with_inode_table sb (list_upd (inode_table sb) (Z.to_nat ino) ind).

(** [osfs_inode->i_block[k]] *)
Definition slot (sb : osfs_sb_info) (ino k : Z) : Z :=
  nth (Z.to_nat k) (i_block (inode_at sb ino)) 0.
Definition set_slot (sb : osfs_sb_info) (ino k v : Z) : osfs_sb_info :=
  set_inode sb ino
    (with_i_block (inode_at sb ino) (list_upd (i_block (inode_at sb ino)) (Z.to_nat k) v)).
(** [osfs_inode->i_blocks++] *)
Definition inc_i_blocks (sb : osfs_sb_info) (ino : Z) : osfs_sb_info :=
  set_inode sb ino
    (with_i_blocks (inode_at sb ino) (wrap32 (i_blocks (inode_at sb ino) + 1))).

(** ** Bitmap allocator ([inode.c]) *)

Definition test_bit (nr bm : Z) : bool := Z.testbit bm nr.
Definition set_bit (nr bm : Z) : Z := Z.setbit bm nr.
Definition clear_bit (nr bm : Z) : Z := Z.clearbit bm nr.

(** The scanning loops: the first index among [i, i+1, ..., i+n-1] whose
    bit is clear. *)
Fixpoint find_zero_bit (bm : Z) (i : Z) (n : nat) : option Z :=
  match n with
  | O => None
  | S n' => if test_bit i bm then find_zero_bit bm (i + 1) n' else Some i
  end.

(** Number of clear bits among the first [n] bits. *)
Definition zero_bits (bm : Z) (n : Z) : Z :=
  Z.of_nat (length (filter (fun i => negb (test_bit (Z.of_nat i) bm)) (seq 0 (Z.to_nat n)))).

(** [osfs_get_osfs_inode]: [NULL] for number 0 and for numbers past the
    table ([ino] is unsigned). *)
Definition osfs_get_osfs_inode (sb : osfs_sb_info) (ino : Z) : option osfs_inode :=
  if (ino <=? 0) || (inode_count sb <=? ino) then None
  else nth_error (inode_table sb) (Z.to_nat ino).

(** [osfs_get_free_inode]: scan from 1. *)
Definition osfs_get_free_inode (sb : osfs_sb_info) : osfs_sb_info * result Z :=
  match find_zero_bit (inode_bitmap sb) 1 (Z.to_nat (inode_count sb - 1)) with
  | Some ino =>
      (with_inode_alloc sb (set_bit ino (inode_bitmap sb)) (wrap32 (nr_free_inodes sb - 1)),
       Ok ino)
  | None => (sb, Err ENOSPC)
  end.

(** [osfs_alloc_data_block]: scan from 0; the block number goes to the
    caller, who stores it where [block_no] points. *)
Definition osfs_alloc_data_block (sb : osfs_sb_info) : osfs_sb_info * result Z :=
  match find_zero_bit (block_bitmap sb) 0 (Z.to_nat (block_count sb)) with
  | Some i =>
      (with_block_alloc sb (set_bit i (block_bitmap sb)) (wrap32 (nr_free_blocks sb - 1)),
       Ok i)
  | None => (sb, Err ENOSPC)
  end.

(** [osfs_free_data_block]: no check that the block was in use, nor that
    its number is below [block_count].  The bitmap of the model is a
    [Z]; for a number past the bitmap, where the C [clear_bit] writes
    outside the bitmap, the model has no counterpart; the theorem that
    says which bits [osfs_free_inode_blocks] clears is stated for trees
    whose pointers are below [block_count]. *)
Definition osfs_free_data_block (sb : osfs_sb_info) (block_no : Z) : osfs_sb_info :=
  with_block_alloc sb (clear_bit block_no (block_bitmap sb)) (wrap32 (nr_free_blocks sb + 1)).

(** The VFS inode as [osfs_iget] fills it: the fields it copies, the
    number of the record [i_private] points at, and which pair of
    operation tables it installs. *)
Inductive inode_ops : Type := DirOps | FileOps | NoOps.

Record vfs_inode : Type := mk_vfs_inode {
  v_ino : Z;
  v_mode : Z;
  v_uid : Z;
  v_gid : Z;
  v_atime : Z;
  v_mtime : Z;
  v_ctime : Z;
  v_size : Z;
  v_blocks : Z;
  v_private : Z;
  v_ops : inode_ops
}.

(** [osfs_iget (sb, ino)].  [ino] is an [unsigned long]; the call of
    [osfs_get_osfs_inode] takes a [uint32_t], so the record is chosen by
    the low 32 bits of [ino], while [inode->i_ino] keeps the whole
    number.  [vfs_ok] says whether the kernel's [new_inode] returns an
    inode. *)
Definition osfs_iget (vfs_ok : bool) (sb : osfs_sb_info) (ino : Z) : result vfs_inode :=
  match osfs_get_osfs_inode sb (wrap32 ino) with
  | None => Err EFAULT
  | Some ind =>
      if negb vfs_ok then Err ENOMEM
      else
        Ok (mk_vfs_inode ino (i_mode ind) (i_uid ind) (i_gid ind)
              (i_atime ind) (i_mtime ind) (i_ctime ind) (i_size ind) (i_blocks ind)
              (wrap32 ino)
              (if S_ISDIR (i_mode ind) then DirOps
               else if S_ISREG (i_mode ind) then FileOps
               else NoOps))
  end.

Section WithBlockSize.

(** [BLOCK_SIZE] is not defined in [osfs.h] (the line is commented out); it
    comes from the kernel headers.  The model takes it as a parameter. *)
Variable BLOCK_SIZE : Z.

Definition OSFS_ADDR_PER_BLOCK : Z := BLOCK_SIZE / 4.
Definition MAX_DIR_ENTRIES : Z := BLOCK_SIZE / DIR_ENTRY_SIZE.

(** [sb_info->data_blocks + blk * BLOCK_SIZE]: the product of a
    [uint32_t] and an [int] is computed in 32 bits. *)
Definition blk_addr (blk : Z) : Z := wrap32 (blk * BLOCK_SIZE).

(** [((uint32_t * ) (data_blocks + tbl * BLOCK_SIZE))[idx]] *)
Definition load_entry (sb : osfs_sb_info) (tbl idx : Z) : Z :=
  load32 (data_blocks sb) (blk_addr tbl + 4 * idx).
Definition store_entry (sb : osfs_sb_info) (tbl idx v : Z) : osfs_sb_info :=
  with_data_blocks sb (store32 (data_blocks sb) (blk_addr tbl + 4 * idx) v).
(** [memset (data_blocks + blk * BLOCK_SIZE, 0, BLOCK_SIZE)] *)
Definition zero_block (sb : osfs_sb_info) (blk : Z) : osfs_sb_info :=
  with_data_blocks sb (store_bytes (data_blocks sb) (blk_addr blk) (zeros BLOCK_SIZE)).

(** ** Block indexer: [osfs_get_block] *)

(** A data pointer kept in the inode (part 1 of [osfs_get_block]). *)
Definition get_data_slot (sb : osfs_sb_info) (ino k : Z) (create : bool)
  : osfs_sb_info * result Z :=
  if (slot sb ino k =? 0) && create then
    match osfs_alloc_data_block sb with
    | (sb1, Err e) => (sb1, Err e)
    | (sb1, Ok blk) =>
        let sb2 := inc_i_blocks (set_slot sb1 ino k blk) ino in
        (sb2, Ok (slot sb2 ino k))
    end
  else (sb, Ok (slot sb ino k)).

(** An index block whose pointer is kept in the inode (parts 2.1, 3.1):
    allocated and zero-filled when absent; the result is the pointer. *)
Definition get_index_slot (sb : osfs_sb_info) (ino k : Z) (create : bool)
  : osfs_sb_info * result Z :=
  if slot sb ino k =? 0 then
    if negb create then (sb, Err ENOENT)
    else
      match osfs_alloc_data_block sb with
      | (sb1, Err e) => (sb1, Err e)
      | (sb1, Ok blk) =>
          let sb2 := set_slot sb1 ino k blk in
          let sb3 := zero_block sb2 (slot sb2 ino k) in
          let sb4 := inc_i_blocks sb3 ino in
          (sb4, Ok (slot sb4 ino k))
      end
  else (sb, Ok (slot sb ino k)).

(** A second-level index block whose pointer is entry [idx] of the
    index block [tbl] (part 3.2). *)
Definition get_index_entry (sb : osfs_sb_info) (ino tbl idx : Z) (create : bool)
  : osfs_sb_info * result Z :=
  if load_entry sb tbl idx =? 0 then
    if negb create then (sb, Err ENOENT)
    else
      match osfs_alloc_data_block sb with
      | (sb1, Err e) => (sb1, Err e)
      | (sb1, Ok blk) =>
          let sb2 := store_entry sb1 tbl idx blk in
          let sb3 := zero_block sb2 (load_entry sb2 tbl idx) in
          let sb4 := inc_i_blocks sb3 ino in
          (sb4, Ok (load_entry sb4 tbl idx))
      end
  else (sb, Ok (load_entry sb tbl idx)).

(** A data pointer kept in entry [idx] of index block [tbl]
    (parts 2.2, 3.3). *)
Definition get_data_entry (sb : osfs_sb_info) (ino tbl idx : Z) (create : bool)
  : osfs_sb_info * result Z :=
  if (load_entry sb tbl idx =? 0) && create then
    match osfs_alloc_data_block sb with
    | (sb1, Err e) => (sb1, Err e)
    | (sb1, Ok blk) =>
        let sb2 := inc_i_blocks (store_entry sb1 tbl idx blk) ino in
        (sb2, Ok (load_entry sb2 tbl idx))
    end
  else (sb, Ok (load_entry sb tbl idx)).

(** [osfs_get_block (inode, block, &phys_block, create)].  [block] is a
    [sector_t], unsigned, so the subtractions below never go negative on
    the path that reaches them.  An inode number without a record has no
    VFS inode at all ([osfs_iget] answers [-EFAULT]). *)
Definition osfs_get_block (sb : osfs_sb_info) (ino block : Z) (create : bool)
  : osfs_sb_info * result Z :=
  match osfs_get_osfs_inode sb ino with
  | None => (sb, Err EFAULT)
  | Some _ =>
      if block <? OSFS_N_DIRECT then get_data_slot sb ino block create
      else
        let block := block - OSFS_N_DIRECT in
        if block <? OSFS_ADDR_PER_BLOCK then
          match get_index_slot sb ino OSFS_N_DIRECT create with
          | (sb1, Err e) => (sb1, Err e)
          | (sb1, Ok tbl) => get_data_entry sb1 ino tbl block create
          end
        else
          let block := block - OSFS_ADDR_PER_BLOCK in
          if block <? OSFS_ADDR_PER_BLOCK * OSFS_ADDR_PER_BLOCK then
            match get_index_slot sb ino (OSFS_N_DIRECT + 1) create with
            | (sb1, Err e) => (sb1, Err e)
            | (sb1, Ok top) =>
                let dindirect_idx1 := block / OSFS_ADDR_PER_BLOCK in
                let dindirect_idx2 := block mod OSFS_ADDR_PER_BLOCK in
                match get_index_entry sb1 ino top dindirect_idx1 create with
                | (sb2, Err e) => (sb2, Err e)
                | (sb2, Ok tbl) => get_data_entry sb2 ino tbl dindirect_idx2 create
                end
            end
          else (sb, Err EFBIG)
  end.


(** ** [osfs_free_inode_blocks] *)

(** The loop over the entries of one index block: frees every non-zero
    entry.  The table itself is not written. *)
Definition free_entries (sb : osfs_sb_info) (tbl : Z) : osfs_sb_info :=
  fold_left
    (fun acc i =>
       if load_entry acc tbl (Z.of_nat i) =? 0 then acc
       else osfs_free_data_block acc (load_entry acc tbl (Z.of_nat i)))
    (seq 0 (Z.to_nat OSFS_ADDR_PER_BLOCK)) sb.

Definition free_direct (sb : osfs_sb_info) (ino : Z) : osfs_sb_info :=
  fold_left
    (fun acc i =>
       if slot acc ino (Z.of_nat i) =? 0 then acc
       else set_slot (osfs_free_data_block acc (slot acc ino (Z.of_nat i)))
                     ino (Z.of_nat i) 0)
    (seq 0 (Z.to_nat OSFS_N_DIRECT)) sb.

Definition free_indirect (sb : osfs_sb_info) (ino : Z) : osfs_sb_info :=
  if slot sb ino OSFS_N_DIRECT =? 0 then sb
  else
    let sb1 := free_entries sb (slot sb ino OSFS_N_DIRECT) in
    let sb2 := osfs_free_data_block sb1 (slot sb1 ino OSFS_N_DIRECT) in
    set_slot sb2 ino OSFS_N_DIRECT 0.

Definition free_dindirect (sb : osfs_sb_info) (ino : Z) : osfs_sb_info :=
  if slot sb ino (OSFS_N_DIRECT + 1) =? 0 then sb
  else
    let top := slot sb ino (OSFS_N_DIRECT + 1) in
    let sb1 :=
      fold_left
        (fun acc i =>
           if load_entry acc top (Z.of_nat i) =? 0 then acc
           else
             let acc1 := free_entries acc (load_entry acc top (Z.of_nat i)) in
             osfs_free_data_block acc1 (load_entry acc1 top (Z.of_nat i)))
        (seq 0 (Z.to_nat OSFS_ADDR_PER_BLOCK)) sb in
    let sb2 := osfs_free_data_block sb1 (slot sb1 ino (OSFS_N_DIRECT + 1)) in
    set_slot sb2 ino (OSFS_N_DIRECT + 1) 0.

Definition osfs_free_inode_blocks (sb : osfs_sb_info) (ino : Z) : osfs_sb_info :=
  match osfs_get_osfs_inode sb ino with
  | None => sb
  | Some _ =>
      let sb1 := free_direct sb ino in
      let sb2 := free_indirect sb1 ino in
      let sb3 := free_dindirect sb2 ino in
      set_inode sb3 ino (with_i_blocks (inode_at sb3 ino) 0)
  end.

(** ** Directory entry store ([dir.c]) *)

(** Byte offset of [dir_entries[i]] in the data area of directory [dir]. *)
Definition dir_entry_addr (sb : osfs_sb_info) (dir i : Z) : Z :=
  blk_addr (slot sb dir 0) + i * DIR_ENTRY_SIZE.

(** The test of the duplicate scan (and of [osfs_lookup]) on entry [i]. *)
Definition dir_entry_matches (sb : osfs_sb_info) (dir i : Z) (name : list byte) : bool :=
  let filename := skipn (Z.to_nat (dir_entry_addr sb dir i)) (data_blocks sb) in
  (c_strlen filename =? Z.of_nat (length name))
  && c_strncmp_eq filename name (length name).

Definition dir_find (sb : osfs_sb_info) (dir : Z) (name : list byte) (count : Z) : option Z :=
  option_map Z.of_nat
    (find (fun i => dir_entry_matches sb dir (Z.of_nat i) name) (seq 0 (Z.to_nat count))).

(** The three stores that fill [dir_entries[i]]: [strncpy] of the name,
    the NUL at [filename[name_len]], and [inode_no]. *)
Definition dir_entry_store (m : mem) (base : Z) (name : list byte) (inode_no : Z) : mem :=
  let m1 := store_bytes m base name in
  let m2 := store_bytes m1 (base + Z.of_nat (length name)) [Byte.x00] in
  store32 m2 (base + INODE_NO_OFFSET) inode_no.

(** [osfs_add_dir_entry (dir, inode_no, name, name_len)]; the name is
    the list of its [name_len] bytes. *)
Definition osfs_add_dir_entry (sb : osfs_sb_info) (dir inode_no : Z) (name : list byte)
  : osfs_sb_info * result unit :=
  let first :=
    if i_blocks (inode_at sb dir) =? 0 then
      match osfs_alloc_data_block sb with
      | (sb1, Err e) => (sb1, Err e)
      | (sb1, Ok blk) =>
          let sb2 := set_slot sb1 dir 0 blk in
          let sb3 := set_inode sb2 dir (with_i_blocks (inode_at sb2 dir) 1) in
          (zero_block sb3 (slot sb3 dir 0), Ok tt)
      end
    else (sb, Ok tt) in
  match first with
  | (sb1, Err e) => (sb1, Err e)
  | (sb1, Ok _) =>
      let dir_entry_count := i_size (inode_at sb1 dir) / DIR_ENTRY_SIZE in
      if MAX_DIR_ENTRIES <=? dir_entry_count then (sb1, Err ENOSPC)
      else
        match dir_find sb1 dir name dir_entry_count with
        | Some _ => (sb1, Err EEXIST)
        | None =>
            let sb2 :=
              with_data_blocks sb1
                (dir_entry_store (data_blocks sb1)
                   (dir_entry_addr sb1 dir dir_entry_count) name inode_no) in
            (set_inode sb2 dir
               (with_i_size (inode_at sb2 dir)
                  (wrap32 (i_size (inode_at sb2 dir) + DIR_ENTRY_SIZE))),
             Ok tt)
        end
  end.

(** The loop of [osfs_lookup]: the [inode_no] stored in the first entry
    whose name matches, if there is one. *)
Definition lookup_scan (sb : osfs_sb_info) (dir : Z) (name : list byte) : option Z :=
  match dir_find sb dir name (i_size (inode_at sb dir) / DIR_ENTRY_SIZE) with
  | Some i => Some (load32 (data_blocks sb) (dir_entry_addr sb dir i + INODE_NO_OFFSET))
  | None => None
  end.

(** [osfs_lookup (dir, dentry, flags)]: [Ok None] is the [NULL] returned
    when no entry matches; for the first matching entry the function
    calls [osfs_iget] on the stored inode number and returns its error
    ([ERR_CAST]) or the inode it built ([d_splice_alias (inode, dentry)]).
    [vfs_ok] says whether the kernel's [new_inode] succeeds. *)
Definition osfs_lookup (vfs_ok : bool) (sb : osfs_sb_info) (dir : Z) (name : list byte)
  : result (option vfs_inode) :=
  match dir_find sb dir name (i_size (inode_at sb dir) / DIR_ENTRY_SIZE) with
  | Some i =>
      match osfs_iget vfs_ok sb
              (load32 (data_blocks sb) (dir_entry_addr sb dir i + INODE_NO_OFFSET)) with
      | Err e => Err e
      | Ok inode => Ok (Some inode)
      end
  | None => Ok None
  end.

(** The inode number a lookup ends with: the [i_ino] of the inode
    found, nothing, or the error. *)
Definition found_ino (r : result (option vfs_inode)) : result (option Z) :=
  match r with
  | Ok (Some inode) => Ok (Some (v_ino inode))
  | Ok None => Ok None
  | Err e => Err e
  end.

(** *** Directory listing ([osfs_iterate]) *)

(** What [dir_emit] is handed for entry [i]: the first
    [strlen (entry->filename)] bytes of [entry->filename], and
    [entry->inode_no]. *)
Definition dir_entry_name (sb : osfs_sb_info) (dir i : Z) : list byte :=
  let filename := skipn (Z.to_nat (dir_entry_addr sb dir i)) (data_blocks sb) in
  firstn (Z.to_nat (c_strlen filename)) filename.

Definition dir_entry_ino (sb : osfs_sb_info) (dir i : Z) : Z :=
  load32 (data_blocks sb) (dir_entry_addr sb dir i + INODE_NO_OFFSET).

(** [int i = ctx->pos - 2]: the conversion of a [loff_t] to [int]. *)
Definition to_int (x : Z) : Z := (x + 2 ^ 31) mod 2 ^ 32 - 2 ^ 31.

(** The loop of [osfs_iterate].  [A] is the state of the actor behind
    [dir_emit]; [emit a name ino] is
    [dir_emit (ctx, name, strlen (name), ino, DT_UNKNOWN)]: the new state
    of the actor, or [None] when the call returns false. *)
Fixpoint osfs_iterate_loop {A : Type} (emit : A -> list byte -> Z -> option A)
    (fuel : nat) (sb : osfs_sb_info) (dir : Z) (dir_entry_count i pos : Z) (a : A)
  : Z * A * result unit :=
  match fuel with
  | O => (pos, a, Ok tt)
  | S fuel' =>
      if dir_entry_count <=? i then (pos, a, Ok tt)
      else
        match emit a (dir_entry_name sb dir i) (dir_entry_ino sb dir i) with
        | None => (pos, a, Err EINVAL)
        | Some a' =>
            osfs_iterate_loop emit fuel' sb dir dir_entry_count (i + 1) (pos + 1) a'
        end
  end.

(** [osfs_iterate (filp, ctx)]: the new [ctx->pos], the new state of the
    actor and the return value.  [dots pos a] is the kernel's
    [dir_emit_dots]: the position and actor state it leaves, and whether
    it returned true. *)
Definition osfs_iterate {A : Type} (dots : Z -> A -> Z * A * bool)
    (emit : A -> list byte -> Z -> option A)
    (sb : osfs_sb_info) (dir : Z) (pos : Z) (a : A) : Z * A * result unit :=
  let '(pos1, a1, ok) := if pos =? 0 then dots pos a else (pos, a, true) in
  if negb ok then (pos1, a1, Ok tt)
  else
    let dir_entry_count := i_size (inode_at sb dir) / DIR_ENTRY_SIZE in
    let i := to_int (pos1 - 2) in
    osfs_iterate_loop emit (Z.to_nat (dir_entry_count - i)) sb dir dir_entry_count i pos1 a1.

(** [osfs_new_inode (dir, mode)].  [vfs_ok] says whether the kernel's
    [new_inode] returns an inode; [uid], [gid] are what
    [inode_init_owner] assigns and [now] is [current_time]. *)
Definition osfs_new_inode (vfs_ok : bool) (uid gid now : Z)
    (sb : osfs_sb_info) (mode : Z) : osfs_sb_info * result Z :=
  if negb (S_ISDIR mode) && negb (S_ISREG mode) && negb (S_ISLNK mode)
  then (sb, Err EINVAL)
  else if nr_free_inodes sb =? 0 then (sb, Err ENOSPC)
  else
    match osfs_get_free_inode sb with
    | (sb1, Err _) => (sb1, Err ENOSPC)
    | (sb1, Ok ino) =>
        if (ino <? 0) || (inode_count sb1 <=? ino) then (sb1, Err ENOSPC)
        else if negb vfs_ok then (sb1, Err ENOMEM)
        else
          match osfs_get_osfs_inode sb1 ino with
          | None => (sb1, Err EIO)
          | Some _ =>
              let rec_ :=
                mk_inode ino 0 0 (wrap16 mode) 0 uid gid now now now
                         (repeat 0 (Z.to_nat OSFS_N_BLOCKS)) in
              let sb2 := set_inode sb1 ino rec_ in
              (with_nr_free_inodes sb2 (wrap32 (nr_free_inodes sb2 - 1)), Ok ino)
          end
    end.

(** [osfs_create (idmap, dir, dentry, mode, excl)]; on success the model
    returns the number of the inode bound to the dentry. *)
Definition osfs_create (vfs_ok : bool) (uid gid now : Z)
    (sb : osfs_sb_info) (dir : Z) (name : list byte) (mode : Z)
  : osfs_sb_info * result Z :=
  if MAX_FILENAME_LEN <? Z.of_nat (length name) then (sb, Err ENAMETOOLONG)
  else
    match osfs_new_inode vfs_ok uid gid now sb mode with
    | (sb1, Err e) => (sb1, Err e)
    | (sb1, Ok ino) =>
        match osfs_add_dir_entry sb1 dir ino name with
        | (sb2, Err e) => (sb2, Err e)      (* [iput (inode)]: nothing of osfs is undone *)
        | (sb2, Ok _) => (sb2, Ok ino)
        end
    end.

(** ** File operations ([file.c]) *)

(** The loop of [osfs_read].  [uok] says whether the user buffer can be
    written ([copy_to_user] and [clear_user] succeed); [out] is what has
    been placed in the buffer so far, so [bytes_read] is its length. *)
Fixpoint osfs_read_loop (fuel : nat) (uok : bool) (sb : osfs_sb_info) (ino : Z)
    (pos len : Z) (out : list byte) : osfs_sb_info * Z * result (list byte) :=
  match fuel with
  | O => (sb, pos, Ok out)
  | S fuel' =>
      if len <=? 0 then (sb, pos, Ok out)
      else
        let block := pos / BLOCK_SIZE in
        let offset := pos mod BLOCK_SIZE in
        let to_read := Z.min len (BLOCK_SIZE - offset) in
        let '(sb1, r) := osfs_get_block sb ino block false in
        let chunk :=
          match r with
          | Err _ => zeros to_read
          | Ok phys_block =>
              if phys_block =? 0 then zeros to_read
              else load_bytes (data_blocks sb1) (blk_addr phys_block + offset)
                              (Z.to_nat to_read)
          end in
        if negb uok
        then (sb1, pos, match out with [] => Err EFAULT | _ => Ok out end)
        else osfs_read_loop fuel' uok sb1 ino (pos + to_read) (len - to_read) (out ++ chunk)
  end.

(** [osfs_read (filp, buf, len, ppos)]: the new state, the new [*ppos]
    and the bytes delivered. *)
Definition osfs_read (uok : bool) (sb : osfs_sb_info) (ino : Z) (len pos : Z)
  : osfs_sb_info * Z * result (list byte) :=
  match osfs_get_osfs_inode sb ino with
  | None => (sb, pos, Err EFAULT)
  | Some ind =>
      if i_blocks ind =? 0 then (sb, pos, Ok [])
      else if i_size ind <=? pos then (sb, pos, Ok [])
      else
        let len := if i_size ind <? pos + len then i_size ind - pos else len in
        osfs_read_loop (Z.to_nat len) uok sb ino pos len []
  end.

(** The loop of [osfs_write]; the last component is the error of an
    early [return], [None] when the loop ends or is left by [break]. *)
Fixpoint osfs_write_loop (fuel : nat) (uok : bool) (sb : osfs_sb_info) (ino : Z)
    (buf : list byte) (pos bytes_written len : Z)
  : osfs_sb_info * Z * Z * option errno :=
  match fuel with
  | O => (sb, pos, bytes_written, None)
  | S fuel' =>
      if len <=? 0 then (sb, pos, bytes_written, None)
      else
        let block := pos / BLOCK_SIZE in
        let offset := pos mod BLOCK_SIZE in
        let to_write := Z.min len (BLOCK_SIZE - offset) in
        let stop sb' e :=
          (sb', pos, bytes_written, if 0 <? bytes_written then None else Some e) in
        match osfs_get_block sb ino block true with
        | (sb1, Err e) => stop sb1 e
        | (sb1, Ok phys_block) =>
            if phys_block =? 0 then stop sb1 EIO
            else if negb uok then stop sb1 EFAULT
            else
              let sb2 :=
                with_data_blocks sb1
                  (store_bytes (data_blocks sb1) (blk_addr phys_block + offset)
                     (firstn (Z.to_nat to_write) (skipn (Z.to_nat bytes_written) buf))) in
              osfs_write_loop fuel' uok sb2 ino buf
                (pos + to_write) (bytes_written + to_write) (len - to_write)
        end
  end.

(** [osfs_write (filp, buf, len, ppos)] with [len] the length of [buf]:
    the new state, the new [*ppos] and the return value. *)
Definition osfs_write (uok : bool) (now : Z) (sb : osfs_sb_info) (ino : Z)
    (buf : list byte) (pos : Z) : osfs_sb_info * Z * result Z :=
  match osfs_get_osfs_inode sb ino with
  | None => (sb, pos, Err EFAULT)
  | Some _ =>
      let len := Z.of_nat (length buf) in
      match osfs_write_loop (Z.to_nat len) uok sb ino buf pos 0 len with
      | (sb1, pos1, _, Some e) => (sb1, pos, Err e)
      | (sb1, pos1, bytes_written, None) =>
          let sb2 :=
            if i_size (inode_at sb1 ino) <? pos1
            then set_inode sb1 ino (with_i_size (inode_at sb1 ino) (wrap32 pos1))
            else sb1 in
          (set_inode sb2 ino (with_mctime (inode_at sb2 ino) now), pos1, Ok bytes_written)
      end
  end.

(** ** Mount ([super.c]) *)

(** [osfs_fill_super].  The three flags say whether [vmalloc],
    [new_inode] and [d_make_root] succeed; [now] is [current_time]. *)
Definition osfs_fill_super (vmalloc_ok new_inode_ok make_root_ok : bool) (now : Z)
  : result osfs_sb_info :=
  if negb vmalloc_ok then Err ENOMEM
  else
    let sb :=
      mk_sb OSFS_MAGIC BLOCK_SIZE INODE_COUNT DATA_BLOCK_COUNT
            (INODE_COUNT - 1) DATA_BLOCK_COUNT 0 0
            (repeat zero_inode (Z.to_nat INODE_COUNT))
            (zeros (DATA_BLOCK_COUNT * BLOCK_SIZE)) in
    if negb new_inode_ok then Err ENOMEM
    else
      match osfs_get_osfs_inode sb ROOT_INODE with
      | None => Err EIO
      | Some _ =>
          let root :=
            mk_inode ROOT_INODE 0 0 (Z.lor S_IFDIR 493) 2 0 0 now now now
                     (repeat 0 (Z.to_nat OSFS_N_BLOCKS)) in
          let sb1 := set_inode sb ROOT_INODE root in
          let sb2 :=
            with_inode_alloc sb1 (set_bit ROOT_INODE (inode_bitmap sb1)) (nr_free_inodes sb1) in
          if negb make_root_ok then Err ENOMEM else Ok sb2
      end.

End WithBlockSize.

(** * Properties *)

(** ** Fresh mount *)

(** The state a mount leaves behind when every kernel service succeeds. *)
Definition mounted (BLOCK_SIZE now : Z) : osfs_sb_info :=
  match osfs_fill_super BLOCK_SIZE true true true now with
  | Ok sb => sb
  | Err _ => mk_sb 0 0 0 0 0 0 0 0 [] []
  end.

Lemma fill_super_succeeds (BLOCK_SIZE now : Z) :
  osfs_fill_super BLOCK_SIZE true true true now = Ok (mounted BLOCK_SIZE now).
Proof. reflexivity. Qed.

(** C4.  Every freshly mounted instance has root inode number 1 with a
    record in the table, no directory entry in the root (size divided by
    the entry size is 0), [nr_free_inodes = inode_count - 1] and
    [nr_free_blocks = block_count]. *)
Theorem fill_super_fresh_state (BLOCK_SIZE : Z) (v n d : bool) (now : Z) (sb : osfs_sb_info) :
  osfs_fill_super BLOCK_SIZE v n d now = Ok sb ->
  ROOT_INODE = 1
  /\ (exists root, osfs_get_osfs_inode sb ROOT_INODE = Some root /\ i_ino root = 1
                   /\ i_size root / DIR_ENTRY_SIZE = 0
                   /\ S_ISDIR (i_mode root) = true)
  /\ test_bit ROOT_INODE (inode_bitmap sb) = true
  /\ nr_free_inodes sb = inode_count sb - 1
  /\ nr_free_blocks sb = block_count sb.
Proof.
  unfold osfs_fill_super.
  destruct v, n, d; cbn -[zeros Z.mul]; intros H; inversion H; subst; clear H;
    cbn -[zeros Z.mul].
  repeat split.
  eexists; repeat split.
Qed.

Lemma fill_super_fresh_state_witness :
  osfs_fill_super 4096 true true true 0 = Ok (mounted 4096 0)
  /\ nr_free_inodes (mounted 4096 0) = inode_count (mounted 4096 0) - 1
  /\ nr_free_blocks (mounted 4096 0) = block_count (mounted 4096 0).
Proof.
  split; [reflexivity|].
  apply (fill_super_fresh_state 4096 true true true 0 (mounted 4096 0)).
  reflexivity.
Defined.

(** ** Concrete runs on the reference configuration

    20 inodes, 20 data blocks; blocks of 4096 bytes. *)

Definition name_a_txt : list byte := [Byte.x61; Byte.x2e; Byte.x74; Byte.x78; Byte.x74].
Definition name_b : list byte := [Byte.x62].

(** Mount, then [create "a.txt"] in the root. *)
Definition after_create : osfs_sb_info * result Z :=
  osfs_create 4096 true 0 0 1 (mounted 4096 0) ROOT_INODE name_a_txt S_IFREG.

(** ... then [create "a.txt"] once more. *)
Definition after_duplicate : osfs_sb_info * result Z :=
  osfs_create 4096 true 0 0 2 (fst after_create) ROOT_INODE name_a_txt S_IFREG.

(** C1.  What the code does on a fresh mount followed by one successful
    create: the invariant holds after the mount, the create sets exactly
    one bit of the inode bitmap (bit 2) and lowers [nr_free_inodes] by
    two, from 19 to 17, so the counter no longer equals the number of
    clear bits (18).  [osfs_get_free_inode] already decrements the
    counter and [osfs_new_inode] decrements it again. *)
Theorem create_decrements_free_inodes_twice :
  nr_free_inodes (mounted 4096 0)
    = zero_bits (inode_bitmap (mounted 4096 0)) (inode_count (mounted 4096 0))
  /\ snd after_create = Ok 2
  /\ inode_bitmap (fst after_create) = set_bit 2 (inode_bitmap (mounted 4096 0))
  /\ zero_bits (inode_bitmap (fst after_create)) (inode_count (fst after_create))
     = zero_bits (inode_bitmap (mounted 4096 0)) (inode_count (mounted 4096 0)) - 1
  /\ nr_free_inodes (fst after_create) = nr_free_inodes (mounted 4096 0) - 2
  /\ nr_free_inodes (fst after_create)
     <> zero_bits (inode_bitmap (fst after_create)) (inode_count (fst after_create)).
Proof. vm_compute. repeat split; discriminate. Qed.

(** C3.  What the code does on a fresh mount followed by one successful
    create: the directory block of the root is obtained by a successful
    allocation that returns physical block 0 (bit 0 of the block bitmap
    goes from clear to set, [nr_free_blocks] drops by one, [i_blocks]
    becomes 1) and that number is stored in the root's direct pointer 0,
    which therefore still reads 0 although the block is in use and holds
    the entry that [osfs_lookup] finds. *)
Theorem first_allocation_stores_block_zero :
  snd (osfs_alloc_data_block (mounted 4096 0)) = Ok 0
  /\ snd after_create = Ok 2
  /\ test_bit 0 (block_bitmap (mounted 4096 0)) = false
  /\ test_bit 0 (block_bitmap (fst after_create)) = true
  /\ nr_free_blocks (fst after_create) = nr_free_blocks (mounted 4096 0) - 1
  /\ i_blocks (inode_at (fst after_create) ROOT_INODE) = 1
  /\ slot (fst after_create) ROOT_INODE 0 = 0
  /\ found_ino (osfs_lookup 4096 true (fst after_create) ROOT_INODE name_a_txt) = Ok (Some 2).
Proof. vm_compute. repeat split. Qed.

(** C7.  What the code does when the name already exists: the second
    create answers [EEXIST], yet it has taken inode 3 from the bitmap and
    lowered [nr_free_inodes] by two; nothing is given back. *)
Theorem duplicate_create_leaks_inode :
  snd after_create = Ok 2
  /\ found_ino (osfs_lookup 4096 true (fst after_create) ROOT_INODE name_a_txt) = Ok (Some 2)
  /\ snd after_duplicate = Err EEXIST
  /\ test_bit 3 (inode_bitmap (fst after_create)) = false
  /\ test_bit 3 (inode_bitmap (fst after_duplicate)) = true
  /\ nr_free_inodes (fst after_create) = 17
  /\ nr_free_inodes (fst after_duplicate) = 15
  /\ zero_bits (inode_bitmap (fst after_duplicate)) (inode_count (fst after_duplicate))
     = zero_bits (inode_bitmap (fst after_create)) (inode_count (fst after_create)) - 1.
Proof. vm_compute. repeat split. Qed.

(** A name of exactly [MAX_FILENAME_LEN] bytes. *)
Definition name_255 : list byte := repeat Byte.x61 255.

(** C10.  What the code does with a name of length 255: the length check
    lets it through, the create succeeds, and the terminator is stored at
    index 255 of the entry, one past the last byte (index 254) of
    [filename].  On an entry whose 260 bytes all hold 0xff, the stores of
    [osfs_add_dir_entry] put the 255 name bytes at offsets 0..254 and
    turn the byte at offset 255 from 0xff into 0. *)
Theorem name_terminator_overruns_filename :
  Z.of_nat (length name_255) = MAX_FILENAME_LEN
  /\ snd (osfs_create 4096 true 0 0 1 (mounted 4096 0) ROOT_INODE name_255 S_IFREG) = Ok 2
  /\ load_bytes (repeat Byte.xff 260) MAX_FILENAME_LEN 1 = [Byte.xff]
  /\ load_bytes (dir_entry_store (repeat Byte.xff 260) 0 name_255 2) MAX_FILENAME_LEN 1
     = [Byte.x00]
  /\ load_bytes (dir_entry_store (repeat Byte.xff 260) 0 name_255 2) 0 255 = name_255
  /\ ~ (Z.of_nat (length name_255) < MAX_FILENAME_LEN).
Proof. vm_compute. repeat split; discriminate. Qed.

(** ** Tier selection of [osfs_get_block] *)

Section Tiers.

Variable BLOCK_SIZE : Z.
Hypothesis BLOCK_SIZE_pos : 0 < BLOCK_SIZE.
Local Notation "'APB'" := (OSFS_ADDR_PER_BLOCK BLOCK_SIZE).

Lemma addr_per_block_nonneg : 0 <= APB.
Proof. unfold OSFS_ADDR_PER_BLOCK. apply Z.div_pos; lia. Qed.

(** The single-indirect path: index block of the inode, then entry [idx]. *)
Definition resolve_indirect (sb : osfs_sb_info) (ino idx : Z) (create : bool)
  : osfs_sb_info * result Z :=
  match get_index_slot BLOCK_SIZE sb ino OSFS_N_DIRECT create with
  | (sb1, Err e) => (sb1, Err e)
  | (sb1, Ok tbl) => get_data_entry BLOCK_SIZE sb1 ino tbl idx create
  end.

(** The double-indirect path: top-level index block of the inode, entry
    [outer] of it, then entry [inner] of the second-level block. *)
Definition resolve_dindirect (sb : osfs_sb_info) (ino outer inner : Z) (create : bool)
  : osfs_sb_info * result Z :=
  match get_index_slot BLOCK_SIZE sb ino (OSFS_N_DIRECT + 1) create with
  | (sb1, Err e) => (sb1, Err e)
  | (sb1, Ok top) =>
      match get_index_entry BLOCK_SIZE sb1 ino top outer create with
      | (sb2, Err e) => (sb2, Err e)
      | (sb2, Ok tbl) => get_data_entry BLOCK_SIZE sb2 ino tbl inner create
      end
  end.

Lemma addr_per_block_sq_nonneg : 0 <= APB + APB * APB.
Proof. nia. Qed.

(** The tiers of [osfs_get_block], as the equations used below. *)
Lemma get_block_tiers (sb : osfs_sb_info) (ino b : Z) (create : bool) :
  osfs_get_osfs_inode sb ino <> None ->
  (0 <= b < OSFS_N_DIRECT ->
     osfs_get_block BLOCK_SIZE sb ino b create = get_data_slot sb ino b create
     /\ osfs_get_block BLOCK_SIZE sb ino b false = (sb, Ok (slot sb ino b)))
  /\ (OSFS_N_DIRECT <= b -> b - OSFS_N_DIRECT < APB ->
     osfs_get_block BLOCK_SIZE sb ino b create
       = resolve_indirect sb ino (b - OSFS_N_DIRECT) create
     /\ osfs_get_block BLOCK_SIZE sb ino b false
       = if slot sb ino OSFS_N_DIRECT =? 0 then (sb, Err ENOENT)
         else (sb, Ok (load_entry BLOCK_SIZE sb (slot sb ino OSFS_N_DIRECT)
                                  (b - OSFS_N_DIRECT))))
  /\ (OSFS_N_DIRECT + APB <= b -> b - OSFS_N_DIRECT - APB < APB * APB ->
     osfs_get_block BLOCK_SIZE sb ino b create
       = resolve_dindirect sb ino ((b - OSFS_N_DIRECT - APB) / APB)
                           ((b - OSFS_N_DIRECT - APB) mod APB) create
     /\ osfs_get_block BLOCK_SIZE sb ino b false
       = if slot sb ino (OSFS_N_DIRECT + 1) =? 0 then (sb, Err ENOENT)
         else
           let top := slot sb ino (OSFS_N_DIRECT + 1) in
           let tbl := load_entry BLOCK_SIZE sb top ((b - OSFS_N_DIRECT - APB) / APB) in
           if tbl =? 0 then (sb, Err ENOENT)
           else (sb, Ok (load_entry BLOCK_SIZE sb tbl ((b - OSFS_N_DIRECT - APB) mod APB))))
  /\ (OSFS_N_DIRECT + APB + APB * APB <= b ->
     osfs_get_block BLOCK_SIZE sb ino b create = (sb, Err EFBIG)).
Proof.
  intros Hino.
  pose proof addr_per_block_sq_nonneg as Hsq.
  assert (Hdir : forall c, 0 <= b < OSFS_N_DIRECT ->
            osfs_get_block BLOCK_SIZE sb ino b c = get_data_slot sb ino b c).
  { intros c Hb. unfold osfs_get_block.
    destruct (osfs_get_osfs_inode sb ino); [|congruence].
    destruct (Z.ltb_spec b OSFS_N_DIRECT); [reflexivity|lia]. }
  assert (Hind : forall c, OSFS_N_DIRECT <= b -> b - OSFS_N_DIRECT < APB ->
            osfs_get_block BLOCK_SIZE sb ino b c
            = resolve_indirect sb ino (b - OSFS_N_DIRECT) c).
  { intros c Hb1 Hb2. unfold osfs_get_block, resolve_indirect.
    destruct (osfs_get_osfs_inode sb ino); [|congruence].
    destruct (Z.ltb_spec b OSFS_N_DIRECT); [lia|].
    destruct (Z.ltb_spec (b - OSFS_N_DIRECT) APB); [reflexivity|lia]. }
  assert (Hdbl : forall c, OSFS_N_DIRECT + APB <= b ->
            b - OSFS_N_DIRECT - APB < APB * APB ->
            osfs_get_block BLOCK_SIZE sb ino b c
            = resolve_dindirect sb ino ((b - OSFS_N_DIRECT - APB) / APB)
                                ((b - OSFS_N_DIRECT - APB) mod APB) c).
  { intros c Hb1 Hb2. unfold osfs_get_block, resolve_dindirect.
    destruct (osfs_get_osfs_inode sb ino); [|congruence].
    pose proof addr_per_block_nonneg.
    destruct (Z.ltb_spec b OSFS_N_DIRECT); [lia|].
    destruct (Z.ltb_spec (b - OSFS_N_DIRECT) APB); [lia|].
    destruct (Z.ltb_spec (b - OSFS_N_DIRECT - APB) (APB * APB)); [reflexivity|lia]. }
  repeat split.
  - apply Hdir; assumption.
  - rewrite Hdir by assumption. unfold get_data_slot.
    rewrite andb_false_r. reflexivity.
  - apply Hind; assumption.
  - rewrite Hind by assumption. unfold resolve_indirect, get_index_slot, get_data_entry.
    destruct (slot sb ino OSFS_N_DIRECT =? 0); cbn [negb]; [reflexivity|].
    rewrite andb_false_r. reflexivity.
  - apply Hdbl; assumption.
  - rewrite Hdbl by assumption.
    unfold resolve_dindirect, get_index_slot, get_index_entry, get_data_entry.
    destruct (slot sb ino (OSFS_N_DIRECT + 1) =? 0); cbn [negb]; [reflexivity|].
    cbv zeta.
    destruct (load_entry BLOCK_SIZE sb (slot sb ino (OSFS_N_DIRECT + 1))
                ((b - OSFS_N_DIRECT - APB) / APB) =? 0); cbn [negb]; [reflexivity|].
    rewrite andb_false_r. reflexivity.
  - intros Hb. unfold osfs_get_block.
    destruct (osfs_get_osfs_inode sb ino); [|congruence].
    pose proof (Z.square_nonneg APB) as Hsq2.
    destruct (Z.ltb_spec b OSFS_N_DIRECT); [lia|].
    destruct (Z.ltb_spec (b - OSFS_N_DIRECT) APB); [lia|].
    destruct (Z.ltb_spec (b - OSFS_N_DIRECT - APB) (APB * APB)); [lia|reflexivity].
Qed.

End Tiers.

(** ** Basic facts about the state *)

Lemma list_upd_length {A : Type} (l : list A) (n : nat) (x : A) :
  length (list_upd l n x) = length l.
Proof.
  revert n; induction l as [|h t IH]; intros [|n]; simpl; auto.
Qed.

Lemma nth_list_upd_same {A : Type} (l : list A) (n : nat) (x d : A) :
  (n < length l)%nat -> nth n (list_upd l n x) d = x.
Proof.
  revert n; induction l as [|h t IH]; intros [|n] H; simpl in *; try lia; auto.
  apply IH; lia.
Qed.

Lemma nth_list_upd_other {A : Type} (l : list A) (n m : nat) (x d : A) :
  n <> m -> nth m (list_upd l n x) d = nth m l d.
Proof.
  revert n m; induction l as [|h t IH]; intros [|n] [|m] H; simpl; auto; try congruence.
Qed.

Lemma list_upd_nth_same {A : Type} (l : list A) (n : nat) (d : A) :
  list_upd l n (nth n l d) = l.
Proof.
  revert n; induction l as [|h t IH]; intros [|n]; simpl; auto.
  f_equal; apply IH.
Qed.

Lemma nth_error_list_upd_some {A : Type} (l : list A) (n m : nat) (x : A) :
  nth_error (list_upd l n x) m <> None <-> nth_error l m <> None.
Proof.
  rewrite !nth_error_Some, list_upd_length. reflexivity.
Qed.

(** An inode number with a record in the table. *)
Definition valid_ino (sb : osfs_sb_info) (ino : Z) : Prop :=
  0 < ino < inode_count sb /\ (Z.to_nat ino < length (inode_table sb))%nat.

Lemma get_osfs_inode_valid (sb : osfs_sb_info) (ino : Z) :
  osfs_get_osfs_inode sb ino <> None <-> valid_ino sb ino.
Proof.
  unfold osfs_get_osfs_inode, valid_ino.
  destruct (Z.leb_spec ino 0); cbn [orb].
  - split; [congruence|lia].
  - destruct (Z.leb_spec (inode_count sb) ino).
    + split; [congruence|lia].
    + rewrite nth_error_Some. split; [intros; split; [lia|assumption] | tauto].
Qed.

Lemma get_osfs_inode_some (sb : osfs_sb_info) (ino : Z) (ind : osfs_inode) :
  osfs_get_osfs_inode sb ino = Some ind -> valid_ino sb ino /\ inode_at sb ino = ind.
Proof.
  intros H. split.
  - apply get_osfs_inode_valid. congruence.
  - unfold osfs_get_osfs_inode in H.
    destruct ((ino <=? 0) || (inode_count sb <=? ino)); [discriminate|].
    unfold inode_at. apply nth_error_nth. assumption.
Qed.

Lemma valid_get_osfs_inode (sb : osfs_sb_info) (ino : Z) :
  valid_ino sb ino -> osfs_get_osfs_inode sb ino = Some (inode_at sb ino).
Proof.
  intros H. destruct (osfs_get_osfs_inode sb ino) eqn:E.
  - apply get_osfs_inode_some in E. destruct E as [_ E]. congruence.
  - apply get_osfs_inode_valid in H. congruence.
Qed.

Lemma inode_at_set_inode_same (sb : osfs_sb_info) (ino : Z) (ind : osfs_inode) :
  (Z.to_nat ino < length (inode_table sb))%nat ->
  inode_at (set_inode sb ino ind) ino = ind.
Proof.
  intros H. unfold inode_at, set_inode. cbn. apply nth_list_upd_same. assumption.
Qed.

Lemma valid_ino_set_inode (sb : osfs_sb_info) (ino j : Z) (ind : osfs_inode) :
  valid_ino (set_inode sb j ind) ino <-> valid_ino sb ino.
Proof.
  unfold valid_ino, set_inode. cbn. rewrite list_upd_length. reflexivity.
Qed.

Lemma set_inode_same (sb : osfs_sb_info) (ino : Z) :
  set_inode sb ino (inode_at sb ino) = sb.
Proof.
  unfold set_inode, inode_at, with_inode_table.
  rewrite list_upd_nth_same. destruct sb; reflexivity.
Qed.

(** Facts about the two scanning loops. *)
Lemma find_zero_bit_some (bm : Z) (n : nat) (i q : Z) :
  find_zero_bit bm i n = Some q ->
  i <= q < i + Z.of_nat n
  /\ test_bit q bm = false
  /\ (forall j, i <= j < q -> test_bit j bm = true).
Proof.
  revert i; induction n as [|n IH]; intros i H; simpl in H; [discriminate|].
  destruct (test_bit i bm) eqn:E.
  - apply IH in H. destruct H as (H1 & H2 & H3).
    split; [lia|]. split; [assumption|].
    intros j Hj. destruct (Z.eq_dec j i) as [->|]; [assumption|]. apply H3. lia.
  - inversion H; subst. split; [lia|]. split; [assumption|]. intros; lia.
Qed.

Lemma find_zero_bit_none (bm : Z) (n : nat) (i : Z) :
  find_zero_bit bm i n = None ->
  forall j, i <= j < i + Z.of_nat n -> test_bit j bm = true.
Proof.
  revert i; induction n as [|n IH]; intros i H j Hj; simpl in H; [lia|].
  destruct (test_bit i bm) eqn:E; [|discriminate].
  destruct (Z.eq_dec j i) as [->|]; [assumption|]. apply (IH (i + 1)); [assumption|lia].
Qed.

Lemma test_bit_set_bit (bm q j : Z) :
  0 <= q -> test_bit j (set_bit q bm) = (q =? j) || test_bit j bm.
Proof. intros. unfold test_bit, set_bit. apply Z.setbit_eqb. assumption. Qed.

Lemma alloc_data_block_ok (sb sb1 : osfs_sb_info) (blk : Z) :
  osfs_alloc_data_block sb = (sb1, Ok blk) ->
  0 <= blk < block_count sb
  /\ test_bit blk (block_bitmap sb) = false
  /\ (forall j, 0 <= j < blk -> test_bit j (block_bitmap sb) = true)
  /\ sb1 = with_block_alloc sb (set_bit blk (block_bitmap sb)) (wrap32 (nr_free_blocks sb - 1)).
Proof.
  unfold osfs_alloc_data_block.
  destruct (find_zero_bit (block_bitmap sb) 0 (Z.to_nat (block_count sb))) eqn:E;
    intros H; inversion H; subst; clear H.
  apply find_zero_bit_some in E. destruct E as (H1 & H2 & H3).
  repeat split; try assumption; lia.
Qed.

Lemma alloc_data_block_err (sb sb1 : osfs_sb_info) (e : errno) :
  osfs_alloc_data_block sb = (sb1, Err e) ->
  sb1 = sb /\ e = ENOSPC
  /\ (forall j, 0 <= j < block_count sb -> test_bit j (block_bitmap sb) = true).
Proof.
  unfold osfs_alloc_data_block.
  destruct (find_zero_bit (block_bitmap sb) 0 (Z.to_nat (block_count sb))) eqn:E;
    intros H; inversion H; subst; clear H.
  repeat split. intros j Hj. eapply find_zero_bit_none; [eassumption|lia].
Qed.

(** ** The byte array: loads after stores *)

Lemma store_bytes_length (m : mem) (a : Z) (bs : list byte) :
  length (store_bytes m a bs) = length m.
Proof.
  unfold store_bytes.
  destruct (Z.leb_spec 0 a); cbn [andb]; [|reflexivity].
  destruct (Z.leb_spec (a + Z.of_nat (length bs)) (Z.of_nat (length m))); [|reflexivity].
  rewrite !length_app, length_firstn, length_skipn. lia.
Qed.

Lemma store_bytes_in_range (m : mem) (a : Z) (bs : list byte) :
  0 <= a -> a + Z.of_nat (length bs) <= Z.of_nat (length m) ->
  store_bytes m a bs = firstn (Z.to_nat a) m ++ bs ++ skipn (Z.to_nat a + length bs) m.
Proof.
  intros H1 H2. unfold store_bytes.
  destruct (Z.leb_spec 0 a); [|lia].
  destruct (Z.leb_spec (a + Z.of_nat (length bs)) (Z.of_nat (length m))); [|lia].
  reflexivity.
Qed.

(** A load that lies inside the stored range reads the stored bytes. *)
Lemma load_store_inside (m : mem) (a : Z) (bs : list byte) (i k : nat) :
  0 <= a -> a + Z.of_nat (length bs) <= Z.of_nat (length m) ->
  (i + k <= length bs)%nat ->
  load_bytes (store_bytes m a bs) (a + Z.of_nat i) k = firstn k (skipn i bs).
Proof.
  intros H1 H2 H3. rewrite store_bytes_in_range by assumption.
  unfold load_bytes.
  replace (Z.to_nat (a + Z.of_nat i)) with (Z.to_nat a + i)%nat by lia.
  rewrite skipn_app, length_firstn.
  replace (Nat.min (Z.to_nat a) (length m)) with (Z.to_nat a) by lia.
  rewrite (skipn_all2 (firstn (Z.to_nat a) m)) by (rewrite length_firstn; lia).
  cbn [app].
  replace (Z.to_nat a + i - Z.to_nat a)%nat with i by lia.
  rewrite skipn_app, firstn_app, length_skipn.
  replace (k - (length bs - i))%nat with 0%nat by lia.
  cbn [firstn]. rewrite app_nil_r. reflexivity.
Qed.

(** A load that does not meet the stored range is unaffected. *)
Lemma load_store_outside (m : mem) (a a' : Z) (bs : list byte) (k : nat) :
  0 <= a' ->
  a' + Z.of_nat k <= a \/ a + Z.of_nat (length bs) <= a' ->
  load_bytes (store_bytes m a bs) a' k = load_bytes m a' k.
Proof.
  intros H0 Hd. unfold store_bytes.
  destruct (Z.leb_spec 0 a); cbn [andb]; [|reflexivity].
  destruct (Z.leb_spec (a + Z.of_nat (length bs)) (Z.of_nat (length m))); [|reflexivity].
  unfold load_bytes. destruct Hd as [Hd|Hd].
  - rewrite skipn_app, firstn_app, length_skipn, length_firstn.
    replace (k - (Nat.min (Z.to_nat a) (length m) - Z.to_nat a'))%nat with 0%nat by lia.
    cbn [firstn]. rewrite app_nil_r.
    rewrite skipn_firstn_comm, firstn_firstn.
    f_equal. lia.
  - rewrite app_assoc, skipn_app.
    rewrite skipn_all2 by (rewrite length_app, length_firstn; lia).
    cbn [app]. rewrite length_app, length_firstn, skipn_skipn.
    do 2 f_equal. lia.
Qed.

Lemma load_bytes_length (m : mem) (a : Z) (k : nat) :
  0 <= a -> a + Z.of_nat k <= Z.of_nat (length m) ->
  length (load_bytes m a k) = k.
Proof.
  intros. unfold load_bytes. rewrite length_firstn, length_skipn. lia.
Qed.

Lemma load32_store32_same (m : mem) (a v : Z) :
  0 <= a -> a + 4 <= Z.of_nat (length m) -> 0 <= v < 2 ^ 32 ->
  load32 (store32 m a v) a = v.
Proof.
  intros H1 H2 H3. unfold load32, store32.
  pose proof (load_store_inside m a (le_split 4 v) 0 4) as L.
  rewrite Z.add_0_r in L. rewrite L.
  - cbn [skipn]. rewrite <- (length_le_split 4 v) at 1. rewrite firstn_all.
    rewrite le_combine_split. apply Z.mod_small. cbn. lia.
  - assumption.
  - rewrite length_le_split. lia.
  - rewrite length_le_split. lia.
Qed.

Lemma load32_store_outside (m : mem) (a a' : Z) (bs : list byte) :
  0 <= a' ->
  a' + 4 <= a \/ a + Z.of_nat (length bs) <= a' ->
  load32 (store_bytes m a bs) a' = load32 m a'.
Proof.
  intros. unfold load32. rewrite load_store_outside; auto.
Qed.

Lemma firstn_skipn_repeat {A : Type} (x : A) (n i k : nat) :
  (i + k <= n)%nat -> firstn k (skipn i (repeat x n)) = repeat x k.
Proof.
  revert i k; induction n as [|n IH]; intros i k H.
  - assert (i = 0%nat) by lia. assert (k = 0%nat) by lia. subst. reflexivity.
  - destruct i as [|i].
    + cbn [skipn]. destruct k as [|k]; [reflexivity|].
      cbn [repeat firstn]. f_equal.
      specialize (IH 0%nat k). cbn [skipn] in IH. apply IH. lia.
    + cbn [repeat skipn]. apply IH. lia.
Qed.

Lemma load32_zeros_inside (m : mem) (a n : Z) (i : Z) :
  0 <= a -> 0 <= n -> a + n <= Z.of_nat (length m) ->
  0 <= i -> i + 4 <= n ->
  load32 (store_bytes m a (zeros n)) (a + i) = 0.
Proof.
  intros H1 H2 H3 H4 H5. unfold load32.
  pose proof (load_store_inside m a (zeros n) (Z.to_nat i) 4) as L.
  replace (Z.of_nat (Z.to_nat i)) with i in L by lia.
  unfold zeros in *. rewrite repeat_length in L.
  rewrite L by lia.
  rewrite firstn_skipn_repeat by lia.
  reflexivity.
Qed.

(** ** What each state update leaves alone *)

Lemma wrap32_range (x : Z) : 0 <= wrap32 x < 2 ^ 32.
Proof. unfold wrap32. apply Z.mod_pos_bound. lia. Qed.

Lemma wrap32_small (x : Z) : 0 <= x < 2 ^ 32 -> wrap32 x = x.
Proof. intros. unfold wrap32. apply Z.mod_small. assumption. Qed.

Lemma wrap32_sub_wrap32 (a x y : Z) :
  wrap32 (wrap32 (a - x) - y) = wrap32 (a - (x + y)).
Proof.
  unfold wrap32. rewrite Zminus_mod_idemp_l. f_equal. lia.
Qed.

Lemma inode_at_with_data_blocks (sb : osfs_sb_info) (m : mem) (ino : Z) :
  inode_at (with_data_blocks sb m) ino = inode_at sb ino.
Proof. reflexivity. Qed.

Lemma inode_at_with_block_alloc (sb : osfs_sb_info) (bm n ino : Z) :
  inode_at (with_block_alloc sb bm n) ino = inode_at sb ino.
Proof. reflexivity. Qed.

Lemma slot_with_data_blocks (sb : osfs_sb_info) (m : mem) (ino k : Z) :
  slot (with_data_blocks sb m) ino k = slot sb ino k.
Proof. reflexivity. Qed.

Lemma slot_with_block_alloc (sb : osfs_sb_info) (bm n ino k : Z) :
  slot (with_block_alloc sb bm n) ino k = slot sb ino k.
Proof. reflexivity. Qed.

Lemma slot_set_slot_same (sb : osfs_sb_info) (ino k v : Z) :
  (Z.to_nat ino < length (inode_table sb))%nat ->
  (Z.to_nat k < length (i_block (inode_at sb ino)))%nat ->
  slot (set_slot sb ino k v) ino k = v.
Proof.
  intros H1 H2. unfold slot, set_slot.
  rewrite inode_at_set_inode_same by assumption.
  cbn [i_block with_i_block]. apply nth_list_upd_same. assumption.
Qed.

Lemma slot_set_slot_other (sb : osfs_sb_info) (ino k k' v : Z) :
  (Z.to_nat ino < length (inode_table sb))%nat ->
  0 <= k -> 0 <= k' -> k <> k' ->
  slot (set_slot sb ino k v) ino k' = slot sb ino k'.
Proof.
  intros H1 H2 H3 H4. unfold slot, set_slot.
  rewrite inode_at_set_inode_same by assumption.
  cbn [i_block with_i_block]. apply nth_list_upd_other. lia.
Qed.

Lemma slot_inc_i_blocks (sb : osfs_sb_info) (ino k : Z) :
  (Z.to_nat ino < length (inode_table sb))%nat ->
  slot (inc_i_blocks sb ino) ino k = slot sb ino k.
Proof.
  intros H1. unfold slot, inc_i_blocks.
  rewrite inode_at_set_inode_same by assumption. reflexivity.
Qed.

Lemma i_blocks_set_slot (sb : osfs_sb_info) (ino k v : Z) :
  (Z.to_nat ino < length (inode_table sb))%nat ->
  i_blocks (inode_at (set_slot sb ino k v) ino) = i_blocks (inode_at sb ino).
Proof.
  intros H1. unfold set_slot. rewrite inode_at_set_inode_same by assumption. reflexivity.
Qed.

Lemma i_blocks_inc_i_blocks (sb : osfs_sb_info) (ino : Z) :
  (Z.to_nat ino < length (inode_table sb))%nat ->
  i_blocks (inode_at (inc_i_blocks sb ino) ino) = wrap32 (i_blocks (inode_at sb ino) + 1).
Proof.
  intros H1. unfold inc_i_blocks. rewrite inode_at_set_inode_same by assumption. reflexivity.
Qed.

Lemma i_size_set_slot (sb : osfs_sb_info) (ino k v : Z) :
  (Z.to_nat ino < length (inode_table sb))%nat ->
  i_size (inode_at (set_slot sb ino k v) ino) = i_size (inode_at sb ino).
Proof.
  intros H1. unfold set_slot. rewrite inode_at_set_inode_same by assumption. reflexivity.
Qed.

Lemma i_size_inc_i_blocks (sb : osfs_sb_info) (ino : Z) :
  (Z.to_nat ino < length (inode_table sb))%nat ->
  i_size (inode_at (inc_i_blocks sb ino) ino) = i_size (inode_at sb ino).
Proof.
  intros H1. unfold inc_i_blocks. rewrite inode_at_set_inode_same by assumption. reflexivity.
Qed.

Lemma i_block_length_set_slot (sb : osfs_sb_info) (ino k v : Z) :
  (Z.to_nat ino < length (inode_table sb))%nat ->
  length (i_block (inode_at (set_slot sb ino k v) ino))
  = length (i_block (inode_at sb ino)).
Proof.
  intros H1. unfold set_slot. rewrite inode_at_set_inode_same by assumption.
  cbn [i_block with_i_block]. apply list_upd_length.
Qed.

Lemma i_block_length_inc_i_blocks (sb : osfs_sb_info) (ino : Z) :
  (Z.to_nat ino < length (inode_table sb))%nat ->
  length (i_block (inode_at (inc_i_blocks sb ino) ino))
  = length (i_block (inode_at sb ino)).
Proof.
  intros H1. unfold inc_i_blocks. rewrite inode_at_set_inode_same by assumption. reflexivity.
Qed.

Lemma table_length_set_slot (sb : osfs_sb_info) (ino k v : Z) :
  length (inode_table (set_slot sb ino k v)) = length (inode_table sb).
Proof. unfold set_slot, set_inode. cbn. apply list_upd_length. Qed.

Lemma table_length_inc_i_blocks (sb : osfs_sb_info) (ino : Z) :
  length (inode_table (inc_i_blocks sb ino)) = length (inode_table sb).
Proof. unfold inc_i_blocks, set_inode. cbn. apply list_upd_length. Qed.

(** ** The block tree of one inode *)

Section BlockTree.

Variable BLOCK_SIZE : Z.
Hypothesis BLOCK_SIZE_pos : 0 < BLOCK_SIZE.
Variable ino : Z.
Local Notation "'APB'" := (OSFS_ADDR_PER_BLOCK BLOCK_SIZE).

(** A pointer of the tree is named by the indices that lead to it, last
    index first: [[k]] is [i_block[k]]; [[i; 12]] is entry [i] of the
    indirect block; [[o; 13]] is entry [o] of the top double-indirect
    block and [[i; o; 13]] entry [i] of the second-level block found
    there.  A pointer below a zero pointer reads as zero. *)
Fixpoint ptr (sb : osfs_sb_info) (p : list Z) : Z :=
  match p with
  | [] => 0
  | i :: par =>
      match par with
      | [] => slot sb ino i
      | _ :: _ =>
          if ptr sb par =? 0 then 0
          else load_entry BLOCK_SIZE sb (ptr sb par) i
      end
  end.

Definition is_leaf (p : list Z) : Prop :=
  match p with
  | [k] => 0 <= k < OSFS_N_DIRECT
  | [i; t] => t = 12 /\ 0 <= i < APB
  | [i; o; t] => t = 13 /\ 0 <= o < APB /\ 0 <= i < APB
  | _ => False
  end.

Definition is_index (p : list Z) : Prop :=
  match p with
  | [k] => k = 12 \/ k = 13
  | [o; t] => t = 13 /\ 0 <= o < APB
  | _ => False
  end.

Definition vpath (p : list Z) : Prop := is_leaf p \/ is_index p.

(** The leaf that holds logical block [b]. *)
Definition path_of (b : Z) : list Z :=
  if b <? OSFS_N_DIRECT then [b]
  else if b - OSFS_N_DIRECT <? APB then [b - OSFS_N_DIRECT; 12]
  else [(b - OSFS_N_DIRECT - APB) mod APB; (b - OSFS_N_DIRECT - APB) / APB; 13].

Definition max_blocks : Z := OSFS_N_DIRECT + APB + APB * APB.

Lemma apb_nonneg : 0 <= APB.
Proof. unfold OSFS_ADDR_PER_BLOCK. apply Z.div_pos; lia. Qed.

Lemma apb_bytes : 4 * APB <= BLOCK_SIZE.
Proof.
  unfold OSFS_ADDR_PER_BLOCK.
  pose proof (Z.mul_div_le BLOCK_SIZE 4). lia.
Qed.

Lemma ptr_cons (sb : osfs_sb_info) (i : Z) (par : list Z) :
  par <> [] ->
  ptr sb (i :: par)
  = if ptr sb par =? 0 then 0 else load_entry BLOCK_SIZE sb (ptr sb par) i.
Proof. destruct par; [congruence|reflexivity]. Qed.

Lemma vpath_parent (i : Z) (par : list Z) :
  vpath (i :: par) -> par <> [] -> is_index par /\ 0 <= i < APB.
Proof.
  intros [H|H] Hne.
  - destruct par as [|t [|t' [|? ?]]]; cbn in H; try tauto; try congruence.
    + destruct H as [-> H]. split; [left; reflexivity | assumption].
    + destruct H as (-> & Ho & Hi). split; [cbn; tauto | assumption].
  - destruct par as [|t [|? ?]]; cbn in H; try tauto; try congruence.
    destruct H as [-> H]. split; [right; reflexivity | assumption].
Qed.

Lemma leaf_not_index (p : list Z) : is_leaf p -> is_index p -> False.
Proof.
  destruct p as [|a [|b [|c [|? ?]]]]; cbn; unfold OSFS_N_DIRECT; try tauto; lia.
Qed.

Lemma path_of_leaf (b : Z) : 0 <= b < max_blocks -> is_leaf (path_of b).
Proof.
  intros H. unfold path_of, max_blocks in *. pose proof apb_nonneg.
  destruct (Z.ltb_spec b OSFS_N_DIRECT); [cbn; lia|].
  destruct (Z.ltb_spec (b - OSFS_N_DIRECT) APB); [cbn; lia|].
  cbn. split; [reflexivity|].
  assert (0 < APB) by nia.
  split.
  - split; [apply Z.div_pos; lia | apply Z.div_lt_upper_bound; lia].
  - apply Z.mod_pos_bound. lia.
Qed.

Lemma path_of_inj (b b' : Z) :
  0 <= b < max_blocks -> 0 <= b' < max_blocks -> path_of b = path_of b' -> b = b'.
Proof.
  intros H H'. unfold path_of, max_blocks in *. pose proof apb_nonneg.
  destruct (Z.ltb_spec b OSFS_N_DIRECT); destruct (Z.ltb_spec b' OSFS_N_DIRECT);
    try destruct (Z.ltb_spec (b - OSFS_N_DIRECT) APB);
    try destruct (Z.ltb_spec (b' - OSFS_N_DIRECT) APB);
    intros E; inversion E; try lia.
  assert (0 < APB) by nia.
  pose proof (Z.div_mod (b - OSFS_N_DIRECT - APB) APB ltac:(lia)).
  pose proof (Z.div_mod (b' - OSFS_N_DIRECT - APB) APB ltac:(lia)).
  nia.
Qed.

(** What [osfs_get_block] answers in read mode for an allocated leaf. *)
Lemma get_block_read_ptr (sb : osfs_sb_info) (b : Z) :
  valid_ino sb ino -> 0 <= b < max_blocks -> ptr sb (path_of b) <> 0 ->
  osfs_get_block BLOCK_SIZE sb ino b false = (sb, Ok (ptr sb (path_of b))).
Proof.
  intros Hv Hb Hp.
  apply get_osfs_inode_valid in Hv.
  pose proof (get_block_tiers BLOCK_SIZE BLOCK_SIZE_pos sb ino b false Hv)
    as (T1 & T2 & T3 & _).
  unfold path_of, max_blocks in *. pose proof apb_nonneg.
  destruct (Z.ltb_spec b OSFS_N_DIRECT).
  - destruct T1 as [_ ->]; [lia|]. reflexivity.
  - destruct (Z.ltb_spec (b - OSFS_N_DIRECT) APB).
    + destruct T2 as [_ ->]; [lia|lia|].
      cbn [ptr] in *. unfold OSFS_N_DIRECT in *.
      destruct (slot sb ino 12 =? 0); [congruence|reflexivity].
    + destruct T3 as [_ ->]; [lia|lia|].
      cbn [ptr] in *. change (OSFS_N_DIRECT + 1) with 13 in *.
      change OSFS_N_DIRECT with 12 in *.
      destruct (slot sb ino 13 =? 0); [cbn in Hp; congruence|].
      cbv zeta.
      destruct (load_entry BLOCK_SIZE sb (slot sb ino 13) ((b - 12 - APB) / APB) =? 0);
        [congruence|reflexivity].
Qed.

(** *** Stores that stay inside one block *)

(** The data area has [block_count] blocks and can be addressed with the
    32-bit products of [blk_addr]. *)
Definition area_ok (sb : osfs_sb_info) : Prop :=
  Z.of_nat (length (data_blocks sb)) = block_count sb * BLOCK_SIZE
  /\ block_count sb * BLOCK_SIZE <= 2 ^ 32.

Lemma blk_addr_in_area (sb : osfs_sb_info) (r : Z) :
  area_ok sb -> 0 <= r < block_count sb -> blk_addr BLOCK_SIZE r = r * BLOCK_SIZE.
Proof.
  intros [_ H] Hr. unfold blk_addr. apply wrap32_small. nia.
Qed.

(** Every store of the code has this shape: bytes [bs] at offset [off]
    of block [q]. *)
Definition poke (sb : osfs_sb_info) (q off : Z) (bs : list byte) : osfs_sb_info :=
  with_data_blocks sb (store_bytes (data_blocks sb) (blk_addr BLOCK_SIZE q + off) bs).

Lemma store_entry_poke (sb : osfs_sb_info) (t i v : Z) :
  store_entry BLOCK_SIZE sb t i v = poke sb t (4 * i) (le_split 4 v).
Proof. reflexivity. Qed.

Lemma zero_block_poke (sb : osfs_sb_info) (q : Z) :
  zero_block BLOCK_SIZE sb q = poke sb q 0 (zeros BLOCK_SIZE).
Proof. unfold zero_block, poke. rewrite Z.add_0_r. reflexivity. Qed.

Lemma zeros_length (n : Z) : 0 <= n -> Z.of_nat (length (zeros n)) = n.
Proof. intros. unfold zeros. rewrite repeat_length. lia. Qed.

Lemma area_ok_poke (sb : osfs_sb_info) (q off : Z) (bs : list byte) :
  area_ok sb -> area_ok (poke sb q off bs).
Proof.
  unfold area_ok, poke. cbn. rewrite store_bytes_length. tauto.
Qed.

Lemma poke_frame (sb : osfs_sb_info) (q off : Z) (bs : list byte) (t off' : Z) (n : nat) :
  area_ok sb ->
  0 <= q < block_count sb -> 0 <= t < block_count sb ->
  0 <= off -> off + Z.of_nat (length bs) <= BLOCK_SIZE ->
  0 <= off' -> off' + Z.of_nat n <= BLOCK_SIZE ->
  q <> t \/ off' + Z.of_nat n <= off \/ off + Z.of_nat (length bs) <= off' ->
  load_bytes (data_blocks (poke sb q off bs)) (blk_addr BLOCK_SIZE t + off') n
  = load_bytes (data_blocks sb) (blk_addr BLOCK_SIZE t + off') n.
Proof.
  intros Ha Hq Ht Ho1 Ho2 Ho3 Ho4 Hd. unfold poke. cbn [data_blocks with_data_blocks].
  rewrite (blk_addr_in_area sb q), (blk_addr_in_area sb t) by assumption.
  assert (0 <= t * BLOCK_SIZE) by (apply Z.mul_nonneg_nonneg; lia).
  apply load_store_outside; [lia|].
  destruct (Z.eq_dec q t) as [->|Hne]; [lia|].
  assert (q < t \/ t < q) as [Hlt|Hlt] by lia; [right|left].
  - assert ((q + 1) * BLOCK_SIZE <= t * BLOCK_SIZE)
      by (apply Z.mul_le_mono_nonneg_r; lia). lia.
  - assert ((t + 1) * BLOCK_SIZE <= q * BLOCK_SIZE)
      by (apply Z.mul_le_mono_nonneg_r; lia). lia.
Qed.

Lemma poke_read_back (sb : osfs_sb_info) (q off : Z) (bs : list byte) :
  area_ok sb -> 0 <= q < block_count sb ->
  0 <= off -> off + Z.of_nat (length bs) <= BLOCK_SIZE ->
  load_bytes (data_blocks (poke sb q off bs)) (blk_addr BLOCK_SIZE q + off) (length bs) = bs.
Proof.
  intros Ha Hq Ho1 Ho2. unfold poke. cbn [data_blocks with_data_blocks].
  rewrite (blk_addr_in_area sb q) by assumption.
  pose proof (load_store_inside (data_blocks sb) (q * BLOCK_SIZE + off) bs 0 (length bs)) as L.
  rewrite Z.add_0_r in L. rewrite L.
  - cbn [skipn]. apply firstn_all.
  - assert (0 <= q * BLOCK_SIZE) by (apply Z.mul_nonneg_nonneg; lia). lia.
  - destruct Ha as [Ha _]. rewrite Ha.
    assert ((q + 1) * BLOCK_SIZE <= block_count sb * BLOCK_SIZE)
      by (apply Z.mul_le_mono_nonneg_r; lia). lia.
  - lia.
Qed.

Lemma load_entry_poke_frame (sb : osfs_sb_info) (q off : Z) (bs : list byte) (t i : Z) :
  area_ok sb ->
  0 <= q < block_count sb -> 0 <= t < block_count sb ->
  0 <= off -> off + Z.of_nat (length bs) <= BLOCK_SIZE ->
  0 <= i < APB ->
  q <> t \/ 4 * i + 4 <= off \/ off + Z.of_nat (length bs) <= 4 * i ->
  load_entry BLOCK_SIZE (poke sb q off bs) t i = load_entry BLOCK_SIZE sb t i.
Proof.
  intros Ha Hq Ht Ho1 Ho2 Hi Hd. unfold load_entry, load32.
  pose proof apb_bytes.
  rewrite (poke_frame sb q off bs t (4 * i) 4); auto; lia.
Qed.

Lemma load_entry_store_entry_same (sb : osfs_sb_info) (t i v : Z) :
  area_ok sb -> 0 <= t < block_count sb -> 0 <= i < APB -> 0 <= v < 2 ^ 32 ->
  load_entry BLOCK_SIZE (store_entry BLOCK_SIZE sb t i v) t i = v.
Proof.
  intros Ha Ht Hi Hv. unfold load_entry, store_entry. cbn [data_blocks with_data_blocks].
  pose proof apb_bytes. destruct Ha as [Ha1 Ha2].
  rewrite (blk_addr_in_area sb t) by first [assumption | split; assumption].
  assert (0 <= t * BLOCK_SIZE) by (apply Z.mul_nonneg_nonneg; lia).
  assert ((t + 1) * BLOCK_SIZE <= block_count sb * BLOCK_SIZE)
    by (apply Z.mul_le_mono_nonneg_r; lia).
  apply load32_store32_same; [lia| |assumption].
  rewrite Ha1. lia.
Qed.

Lemma load_entry_zero_block_same (sb : osfs_sb_info) (q i : Z) :
  area_ok sb -> 0 <= q < block_count sb -> 0 <= i < APB ->
  load_entry BLOCK_SIZE (zero_block BLOCK_SIZE sb q) q i = 0.
Proof.
  intros Ha Hq Hi. unfold load_entry, zero_block. cbn [data_blocks with_data_blocks].
  pose proof apb_bytes. destruct Ha as [Ha1 Ha2].
  rewrite (blk_addr_in_area sb q) by first [assumption | split; assumption].
  assert (0 <= q * BLOCK_SIZE) by (apply Z.mul_nonneg_nonneg; lia).
  assert ((q + 1) * BLOCK_SIZE <= block_count sb * BLOCK_SIZE)
    by (apply Z.mul_le_mono_nonneg_r; lia).
  apply load32_zeros_inside; try lia.
Qed.

(** *** The invariant of the tree *)

(** The pointers of the inode name blocks of the data area that are
    marked in the bitmap, and no block is named twice.  [wf_high] is
    what lowest-first allocation gives: every allocation made for this
    inode went to a block number above the count of the earlier ones. *)
Record WF (sb : osfs_sb_info) : Prop := {
  wf_valid : valid_ino sb ino;
  wf_slots : length (i_block (inode_at sb ino)) = 14%nat;
  wf_area : area_ok sb;
  wf_ib : 0 <= i_blocks (inode_at sb ino);
  wf_ibc : i_blocks (inode_at sb ino) = 0
           \/ i_blocks (inode_at sb ino) < block_count sb;
  wf_high : forall j, 0 <= j <= i_blocks (inode_at sb ino) ->
                      test_bit j (block_bitmap sb) = true;
  wf_ptr : forall p, vpath p -> ptr sb p <> 0 ->
                     0 < ptr sb p < block_count sb
                     /\ test_bit (ptr sb p) (block_bitmap sb) = true;
  wf_inj : forall p q, vpath p -> vpath q -> ptr sb p <> 0 ->
                       ptr sb p = ptr sb q -> p = q
}.

Lemma path_eq_dec (p q : list Z) : {p = q} + {p <> q}.
Proof. apply list_eq_dec. apply Z.eq_dec. Qed.

Lemma vpath_top (k : Z) : vpath [k] -> 0 <= k < 14.
Proof. intros [H|H]; cbn in H; unfold OSFS_N_DIRECT in *; lia. Qed.

(** The pointers after one allocation: a fresh block [q] is stored at the
    zero pointer [p0] (in the inode by [set_slot], or in the parent index
    block by [store_entry]), and memory changes nowhere else but inside
    block [q]. *)
Lemma alloc_event_ptr (sb sb' : osfs_sb_info) (p0 : list Z) (q : Z) :
  WF sb -> vpath p0 -> ptr sb p0 = 0 ->
  (forall i0 par0, p0 = i0 :: par0 -> par0 <> [] -> ptr sb par0 <> 0) ->
  0 <= q < block_count sb -> test_bit q (block_bitmap sb) = false ->
  (forall k, p0 = [k] -> slot sb' ino k = q) ->
  (forall k, 0 <= k < 14 -> [k] <> p0 -> slot sb' ino k = slot sb ino k) ->
  (forall i0 par0, p0 = i0 :: par0 -> par0 <> [] ->
                   load_entry BLOCK_SIZE sb' (ptr sb par0) i0 = q) ->
  (forall t i, 0 <= t < block_count sb -> t <> q -> 0 <= i < APB ->
               (forall i0 par0, p0 = i0 :: par0 -> par0 <> [] -> t = ptr sb par0 -> i <> i0) ->
               load_entry BLOCK_SIZE sb' t i = load_entry BLOCK_SIZE sb t i) ->
  (forall i, vpath (i :: p0) -> load_entry BLOCK_SIZE sb' q i = 0) ->
  ptr sb' p0 = q /\ (forall p, vpath p -> p <> p0 -> ptr sb' p = ptr sb p).
Proof.
  intros Hwf Hv0 H0 Hpar Hq Hfresh Hslot0 Hslots Hword Hmem Hzero.
  (* an entry of an allocated index block other than the one written *)
  assert (Hent : forall par i, vpath (i :: par) -> par <> [] -> i :: par <> p0 ->
                   ptr sb par <> 0 ->
                   load_entry BLOCK_SIZE sb' (ptr sb par) i
                   = load_entry BLOCK_SIZE sb (ptr sb par) i).
  { intros par i Hv Hne Hnp Hnz.
    destruct (vpath_parent i par Hv Hne) as [Hidx Hi].
    destruct (wf_ptr sb Hwf par (or_intror Hidx) Hnz) as [Hr Hb].
    apply Hmem; [lia| |assumption|].
    - intros E. rewrite E in Hb. congruence.
    - intros i0 par0 E0 Hne0 Heq Ei. subst p0 i.
      destruct (vpath_parent i0 par0 Hv0 Hne0) as [Hidx0 _].
      apply Hnp. f_equal.
      apply (wf_inj sb Hwf par par0); auto; right; assumption. }
  assert (L1 : forall k, vpath [k] -> [k] <> p0 -> ptr sb' [k] = ptr sb [k]).
  { intros k Hk Hn. cbn [ptr]. apply Hslots; [apply vpath_top; assumption|assumption]. }
  assert (T1 : forall k, p0 = [k] -> ptr sb' p0 = q).
  { intros k ->. cbn [ptr]. apply Hslot0. reflexivity. }
  (* a pointer one level below [par], given what is known of [par] *)
  assert (Lstep : forall i par, vpath (i :: par) -> par <> [] -> i :: par <> p0 ->
                    (par = p0 -> ptr sb' p0 = q) ->
                    (par <> p0 -> ptr sb' par = ptr sb par) ->
                    ptr sb' (i :: par) = ptr sb (i :: par)).
  { intros i par Hv Hne Hnp Hsame Hother.
    rewrite !ptr_cons by assumption.
    destruct (path_eq_dec par p0) as [E|E].
    - pose proof (Hsame E) as Hq'. subst par. rewrite Hq', H0. cbn [Z.eqb].
      destruct (q =? 0); [reflexivity|]. apply Hzero. assumption.
    - rewrite (Hother E).
      destruct (Z.eqb_spec (ptr sb par) 0); [reflexivity|].
      apply Hent; assumption. }
  assert (Tstep : forall i0 par0, p0 = i0 :: par0 -> par0 <> [] ->
                    ptr sb' par0 = ptr sb par0 -> ptr sb' p0 = q).
  { intros i0 par0 E Hne Hsame. rewrite E.
    rewrite ptr_cons by assumption. rewrite Hsame.
    pose proof (Hpar i0 par0 E Hne) as Hnz.
    destruct (Z.eqb_spec (ptr sb par0) 0); [congruence|].
    apply Hword; assumption. }
  assert (Hidx_v : forall i par, vpath (i :: par) -> par <> [] -> vpath par).
  { intros i par Hv Hne. right. apply (vpath_parent i par Hv Hne). }
  assert (L2 : forall a b, vpath [a; b] -> [a; b] <> p0 -> ptr sb' [a; b] = ptr sb [a; b]).
  { intros a b Hv Hn. apply Lstep; try assumption; try congruence.
    - intros E. apply (T1 b). congruence.
    - intros E. apply L1; [apply (Hidx_v a); [assumption|congruence] | assumption]. }
  assert (T2 : forall a b, p0 = [a; b] -> ptr sb' p0 = q).
  { intros a b E. apply (Tstep a [b] E); [congruence|].
    apply L1; [apply (Hidx_v a); [congruence|congruence] | subst p0; congruence]. }
  assert (L3 : forall a b c, vpath [a; b; c] -> [a; b; c] <> p0 ->
                 ptr sb' [a; b; c] = ptr sb [a; b; c]).
  { intros a b c Hv Hn. apply Lstep; try assumption; try congruence.
    - intros E. apply (T2 b c). congruence.
    - intros E. apply L2; [apply (Hidx_v a); [assumption|congruence] | assumption]. }
  assert (T3 : forall a b c, p0 = [a; b; c] -> ptr sb' p0 = q).
  { intros a b c E. apply (Tstep a [b; c] E); [congruence|].
    apply L2; [apply (Hidx_v a); [congruence|congruence] | subst p0; congruence]. }
  split.
  - destruct p0 as [|a [|b [|c [|d r]]]].
    + destruct Hv0 as [[]|[]].
    + apply (T1 a). reflexivity.
    + apply (T2 a b). reflexivity.
    + apply (T3 a b c). reflexivity.
    + destruct Hv0 as [H|H]; cbn in H; tauto.
  - intros p Hp Hn.
    destruct p as [|a [|b [|c [|d r]]]].
    + destruct Hp as [[]|[]].
    + apply L1; assumption.
    + apply L2; assumption.
    + apply L3; assumption.
    + destruct Hp as [H|H]; cbn in H; tauto.
Qed.

(** *** What one step leaves in place *)

(** Either no allocation happened, or [i_blocks] grew and
    [nr_free_blocks] fell by as much (modulo 2^32). *)
Definition cnt_rel (sb sb' : osfs_sb_info) : Prop :=
  (nr_free_blocks sb' = nr_free_blocks sb
   /\ i_blocks (inode_at sb' ino) = i_blocks (inode_at sb ino))
  \/ (i_blocks (inode_at sb ino) < i_blocks (inode_at sb' ino)
      /\ nr_free_blocks sb'
         = wrap32 (nr_free_blocks sb
                   - (i_blocks (inode_at sb' ino) - i_blocks (inode_at sb ino)))).

(** Allocated pointers keep their value, the data blocks they name keep
    their bytes, and the size of the file is not touched. *)
Definition Frame (sb sb' : osfs_sb_info) : Prop :=
  block_count sb' = block_count sb
  /\ (forall p, vpath p -> ptr sb p <> 0 -> ptr sb' p = ptr sb p)
  /\ (forall lf off n, is_leaf lf -> ptr sb lf <> 0 ->
        0 <= off -> off + Z.of_nat n <= BLOCK_SIZE ->
        load_bytes (data_blocks sb') (blk_addr BLOCK_SIZE (ptr sb lf) + off) n
        = load_bytes (data_blocks sb) (blk_addr BLOCK_SIZE (ptr sb lf) + off) n)
  /\ i_size (inode_at sb' ino) = i_size (inode_at sb ino)
  /\ cnt_rel sb sb'.

Lemma cnt_rel_refl (sb : osfs_sb_info) : cnt_rel sb sb.
Proof. left. split; reflexivity. Qed.

Lemma cnt_rel_trans (a b c : osfs_sb_info) : cnt_rel a b -> cnt_rel b c -> cnt_rel a c.
Proof.
  intros [[H1 H2]|[H1 H2]] [[H3 H4]|[H3 H4]].
  - left. split; congruence.
  - right. rewrite <- H1, <- H2. split; assumption.
  - right. rewrite H3, H4. split; assumption.
  - right. split; [lia|]. rewrite H4, H2, wrap32_sub_wrap32. f_equal. lia.
Qed.

Lemma Frame_refl (sb : osfs_sb_info) : Frame sb sb.
Proof. repeat split; auto using cnt_rel_refl. Qed.

Lemma Frame_trans (a b c : osfs_sb_info) : Frame a b -> Frame b c -> Frame a c.
Proof.
  intros (A1 & A2 & A3 & A4 & A5) (B1 & B2 & B3 & B4 & B5).
  split; [congruence|]. split; [|split; [|split; [congruence|eapply cnt_rel_trans; eassumption]]].
  - intros p Hp Hn. rewrite B2; [apply A2; assumption|assumption|].
    rewrite A2; assumption.
  - intros lf off n Hl Hn Ho1 Ho2.
    rewrite <- (A2 lf (or_introl Hl) Hn).
    rewrite B3; try assumption.
    + rewrite (A2 lf (or_introl Hl) Hn). apply A3; assumption.
    + rewrite (A2 lf (or_introl Hl) Hn). assumption.
Qed.

(** The outcome of making sure that the pointer [p0] is allocated. *)
Definition Ensured (sb sb' : osfs_sb_info) (p0 : list Z) (v : Z) : Prop :=
  WF sb' /\ Frame sb sb' /\ ptr sb' p0 = v /\ v <> 0
  /\ (forall p, vpath p -> p <> p0 -> ptr sb' p = ptr sb p)
  /\ (ptr sb p0 = 0 ->
      i_blocks (inode_at sb' ino) = i_blocks (inode_at sb ino) + 1)
  /\ (ptr sb p0 <> 0 -> sb' = sb)
  /\ (ptr sb p0 = 0 ->
      test_bit v (block_bitmap sb) = false
      /\ block_bitmap sb' = set_bit v (block_bitmap sb)
      /\ nr_free_blocks sb' = wrap32 (nr_free_blocks sb - 1)).

Lemma Ensured_already (sb : osfs_sb_info) (p0 : list Z) :
  WF sb -> ptr sb p0 <> 0 -> Ensured sb sb p0 (ptr sb p0).
Proof.
  intros Hwf Hn. unfold Ensured.
  split; [assumption|]. split; [apply Frame_refl|]. split; [reflexivity|].
  split; [assumption|]. split; [reflexivity|]. split; [congruence|].
  split; [reflexivity|congruence].
Qed.

Lemma block_count_bound (sb : osfs_sb_info) : area_ok sb -> block_count sb <= 2 ^ 32.
Proof. intros [_ H]. nia. Qed.

(** One allocation, seen from the tree. *)
Lemma alloc_event (sb sb' : osfs_sb_info) (p0 : list Z) (q : Z) :
  WF sb -> vpath p0 -> ptr sb p0 = 0 ->
  (forall i0 par0, p0 = i0 :: par0 -> par0 <> [] -> ptr sb par0 <> 0) ->
  0 <= q < block_count sb -> test_bit q (block_bitmap sb) = false ->
  (forall j, 0 <= j < q -> test_bit j (block_bitmap sb) = true) ->
  inode_count sb' = inode_count sb -> block_count sb' = block_count sb ->
  length (inode_table sb') = length (inode_table sb) ->
  length (i_block (inode_at sb' ino)) = length (i_block (inode_at sb ino)) ->
  length (data_blocks sb') = length (data_blocks sb) ->
  block_bitmap sb' = set_bit q (block_bitmap sb) ->
  nr_free_blocks sb' = wrap32 (nr_free_blocks sb - 1) ->
  i_blocks (inode_at sb' ino) = wrap32 (i_blocks (inode_at sb ino) + 1) ->
  i_size (inode_at sb' ino) = i_size (inode_at sb ino) ->
  (forall k, p0 = [k] -> slot sb' ino k = q) ->
  (forall k, 0 <= k < 14 -> [k] <> p0 -> slot sb' ino k = slot sb ino k) ->
  (forall i0 par0, p0 = i0 :: par0 -> par0 <> [] ->
                   load_entry BLOCK_SIZE sb' (ptr sb par0) i0 = q) ->
  (forall t off n, 0 <= t < block_count sb -> t <> q ->
       0 <= off -> off + Z.of_nat n <= BLOCK_SIZE ->
       (forall i0 par0, p0 = i0 :: par0 -> par0 <> [] -> t = ptr sb par0 ->
                        off + Z.of_nat n <= 4 * i0 \/ 4 * i0 + 4 <= off) ->
       load_bytes (data_blocks sb') (blk_addr BLOCK_SIZE t + off) n
       = load_bytes (data_blocks sb) (blk_addr BLOCK_SIZE t + off) n) ->
  (forall i, vpath (i :: p0) -> load_entry BLOCK_SIZE sb' q i = 0) ->
  Ensured sb sb' p0 q.
Proof.
  intros Hwf Hv0 H0 Hpar Hq Hfresh Hlow Hic Hbc Htl Hsl Hdl Hbm Hnfb Hib Hsz
         Hslot0 Hslots Hword Hmem Hzero.
  pose proof apb_bytes as Hapb.
  assert (Hq0 : q <> 0).
  { intros ->. rewrite (wf_high sb Hwf 0) in Hfresh; [discriminate|].
    pose proof (wf_ib sb Hwf). lia. }
  assert (Hqhigh : i_blocks (inode_at sb ino) < q).
  { destruct (Z.lt_ge_cases (i_blocks (inode_at sb ino)) q) as [|Hle]; [assumption|].
    rewrite (wf_high sb Hwf q) in Hfresh; [discriminate|lia]. }
  pose proof (wf_ib sb Hwf) as Hib0.
  pose proof (block_count_bound sb (wf_area sb Hwf)) as Hbc32.
  assert (Hib' : i_blocks (inode_at sb' ino) = i_blocks (inode_at sb ino) + 1).
  { rewrite Hib. apply wrap32_small. lia. }
  assert (Hnew : forall p, vpath p -> ptr sb p <> q).
  { intros p Hp E.
    destruct (wf_ptr sb Hwf p Hp) as [_ Hb]; [congruence|]. congruence. }
  destruct (alloc_event_ptr sb sb' p0 q Hwf Hv0 H0 Hpar Hq Hfresh Hslot0 Hslots Hword)
    as [Hp0 Hothers].
  { intros t i Ht Htq Hi Hd. unfold load_entry, load32. f_equal.
    apply Hmem; try assumption; try lia.
    intros i0 par0 E Hne Et. specialize (Hd i0 par0 E Hne Et). lia. }
  { assumption. }
  assert (Hbit : forall j, test_bit j (block_bitmap sb) = true ->
                           test_bit j (block_bitmap sb') = true).
  { intros j Hj. rewrite Hbm, test_bit_set_bit by lia. rewrite Hj. apply orb_true_r. }
  assert (Hbitq : test_bit q (block_bitmap sb') = true).
  { rewrite Hbm, test_bit_set_bit by lia. rewrite Z.eqb_refl. reflexivity. }
  split; [|split; [|split; [|split; [|split; [|split; [|split]]]]]].
  - (* WF *)
    constructor.
    + destruct (wf_valid sb Hwf) as [V1 V2]. split; [rewrite Hic|rewrite Htl]; assumption.
    + rewrite Hsl. apply Hwf.
    + destruct (wf_area sb Hwf) as [A1 A2]. split; [rewrite Hdl, Hbc|rewrite Hbc]; assumption.
    + lia.
    + right. rewrite Hbc. lia.
    + intros j Hj. rewrite Hib' in Hj.
      destruct (Z.eq_dec j q) as [->|Hjq]; [assumption|].
      apply Hbit. apply Hlow. lia.
    + intros p Hp Hn. destruct (path_eq_dec p p0) as [->|Hne].
      * rewrite Hp0. rewrite Hbc. split; [lia|assumption].
      * rewrite (Hothers p Hp Hne) in *. rewrite Hbc.
        destruct (wf_ptr sb Hwf p Hp Hn) as [R B]. split; [assumption|apply Hbit; assumption].
    + intros p p' Hp Hp' Hn E.
      destruct (path_eq_dec p p0) as [->|Hne]; destruct (path_eq_dec p' p0) as [->|Hne'];
        try reflexivity.
      * rewrite Hp0, (Hothers p' Hp' Hne') in E. exfalso. apply (Hnew p' Hp'). congruence.
      * rewrite Hp0, (Hothers p Hp Hne) in E. exfalso. apply (Hnew p Hp). congruence.
      * rewrite (Hothers p Hp Hne) in *. rewrite (Hothers p' Hp' Hne') in E.
        apply (wf_inj sb Hwf); assumption.
  - (* Frame *)
    split; [assumption|]. split; [|split; [|split; [assumption|]]].
    + intros p Hp Hn. apply Hothers; [assumption|]. congruence.
    + intros lf off n Hl Hn Ho1 Ho2.
      destruct (wf_ptr sb Hwf lf (or_introl Hl) Hn) as [R B].
      apply Hmem; try assumption; try lia.
      * intros E. apply (Hnew lf (or_introl Hl)). assumption.
      * intros i0 par0 E Hne Et. exfalso.
        destruct (vpath_parent i0 par0) as [Hidx _]; [congruence|assumption|].
        assert (lf = par0)
          by (apply (wf_inj sb Hwf); auto; [left|right]; assumption).
        subst par0. apply (leaf_not_index lf); assumption.
    + right. split; [lia|]. rewrite Hnfb. f_equal. lia.
  - assumption.
  - assumption.
  - assumption.
  - intros _. assumption.
  - intros Hn. congruence.
  - intros _. repeat split; assumption.
Qed.

(** *** The four allocating steps of [osfs_get_block] *)

Lemma load_entry_same_data (sb sb' : osfs_sb_info) (t i : Z) :
  data_blocks sb' = data_blocks sb ->
  load_entry BLOCK_SIZE sb' t i = load_entry BLOCK_SIZE sb t i.
Proof. intros H. unfold load_entry. rewrite H. reflexivity. Qed.

Lemma area_ok_same (sb sb' : osfs_sb_info) :
  data_blocks sb' = data_blocks sb -> block_count sb' = block_count sb ->
  area_ok sb -> area_ok sb'.
Proof. unfold area_ok. intros -> ->. tauto. Qed.

Lemma get_data_slot_create (sb sb' : osfs_sb_info) (k v : Z) :
  WF sb -> 0 <= k < OSFS_N_DIRECT ->
  get_data_slot sb ino k true = (sb', Ok v) ->
  Ensured sb sb' [k] v.
Proof.
  intros Hwf Hk. unfold get_data_slot.
  destruct (Z.eqb_spec (slot sb ino k) 0) as [Hz|Hnz]; cbn [andb].
  2:{ intros [= <- <-]. apply (Ensured_already sb [k] Hwf). assumption. }
  destruct (osfs_alloc_data_block sb) as [sb1 [q|e]] eqn:Ea; [|discriminate].
  apply alloc_data_block_ok in Ea. destruct Ea as (Hq & Hfresh & Hlow & ->).
  set (s1 := with_block_alloc sb (set_bit q (block_bitmap sb)) (wrap32 (nr_free_blocks sb - 1))).
  destruct (wf_valid sb Hwf) as [_ Vt].
  pose proof (wf_slots sb Hwf) as Hs.
  assert (V1 : (Z.to_nat ino < length (inode_table s1))%nat) by exact Vt.
  assert (V2 : (Z.to_nat ino < length (inode_table (set_slot s1 ino k q)))%nat)
    by (rewrite table_length_set_slot; exact Vt).
  assert (Hk' : (Z.to_nat k < length (i_block (inode_at s1 ino)))%nat)
    by (change (inode_at s1 ino) with (inode_at sb ino); unfold OSFS_N_DIRECT in Hk; lia).
  assert (Hv : slot (inc_i_blocks (set_slot s1 ino k q) ino) ino k = q).
  { rewrite slot_inc_i_blocks, slot_set_slot_same by assumption. reflexivity. }
  rewrite Hv. intros [= <- <-].
  apply alloc_event; try assumption; try reflexivity.
  - left; exact Hk.
  - intros i0 par0 E Hne. inversion E; subst. congruence.
  - rewrite table_length_inc_i_blocks, table_length_set_slot. reflexivity.
  - rewrite i_block_length_inc_i_blocks, i_block_length_set_slot by assumption. reflexivity.
  - rewrite i_blocks_inc_i_blocks, i_blocks_set_slot by assumption. reflexivity.
  - rewrite i_size_inc_i_blocks, i_size_set_slot by assumption. reflexivity.
  - intros k' E. inversion E; subst. assumption.
  - intros k' Hk'' Hn. rewrite slot_inc_i_blocks, slot_set_slot_other by (try assumption; try lia; congruence).
    reflexivity.
  - intros i0 par0 E Hne. inversion E; subst. congruence.
  - intros i [H|H]; cbn in H; unfold OSFS_N_DIRECT in *; lia.
Qed.

Lemma area_ok_alloc (sb : osfs_sb_info) (bm n : Z) :
  area_ok sb -> area_ok (with_block_alloc sb bm n).
Proof. intros H. exact H. Qed.

Lemma area_ok_set_slot (sb : osfs_sb_info) (j k v : Z) :
  area_ok sb -> area_ok (set_slot sb j k v).
Proof. intros H. exact H. Qed.

Lemma get_index_slot_create (sb sb' : osfs_sb_info) (k v : Z) :
  WF sb -> k = 12 \/ k = 13 ->
  get_index_slot BLOCK_SIZE sb ino k true = (sb', Ok v) ->
  Ensured sb sb' [k] v.
Proof.
  intros Hwf Hk. unfold get_index_slot.
  destruct (Z.eqb_spec (slot sb ino k) 0) as [Hz|Hnz]; cbn [negb].
  2:{ intros [= <- <-]. apply (Ensured_already sb [k] Hwf). assumption. }
  destruct (osfs_alloc_data_block sb) as [sb1 [q|e]] eqn:Ea; [|discriminate].
  apply alloc_data_block_ok in Ea. destruct Ea as (Hq & Hfresh & Hlow & ->).
  set (s1 := with_block_alloc sb (set_bit q (block_bitmap sb)) (wrap32 (nr_free_blocks sb - 1))).
  set (s2 := set_slot s1 ino k q).
  destruct (wf_valid sb Hwf) as [_ Vt].
  pose proof (wf_slots sb Hwf) as Hs.
  pose proof (wf_area sb Hwf) as Har.
  assert (V1 : (Z.to_nat ino < length (inode_table s1))%nat) by exact Vt.
  assert (V2 : (Z.to_nat ino < length (inode_table s2))%nat)
    by (unfold s2; rewrite table_length_set_slot; exact Vt).
  assert (Hk' : (Z.to_nat k < length (i_block (inode_at s1 ino)))%nat)
    by (change (inode_at s1 ino) with (inode_at sb ino); lia).
  assert (Hv2 : slot s2 ino k = q) by (apply slot_set_slot_same; assumption).
  cbv zeta. fold s2. rewrite Hv2.
  set (s3 := zero_block BLOCK_SIZE s2 q).
  assert (V3 : (Z.to_nat ino < length (inode_table s3))%nat) by exact V2.
  assert (Hv : slot (inc_i_blocks s3 ino) ino k = q).
  { rewrite slot_inc_i_blocks by assumption. exact Hv2. }
  rewrite Hv. intros [= <- <-].
  assert (Har2 : area_ok s2) by exact Har.
  assert (Hq2 : 0 <= q < block_count s2) by exact Hq.
  apply alloc_event; try assumption; try reflexivity.
  - right; cbn; exact Hk.
  - intros i0 par0 [= _ <-] Hne. congruence.
  - rewrite table_length_inc_i_blocks. change (inode_table s3) with (inode_table s2).
    unfold s2. rewrite table_length_set_slot. reflexivity.
  - rewrite i_block_length_inc_i_blocks by assumption.
    change (inode_at s3 ino) with (inode_at s2 ino).
    unfold s2. rewrite i_block_length_set_slot by assumption. reflexivity.
  - change (data_blocks (inc_i_blocks s3 ino)) with (data_blocks s3).
    unfold s3, zero_block. cbn [data_blocks with_data_blocks].
    rewrite store_bytes_length. reflexivity.
  - rewrite i_blocks_inc_i_blocks by assumption.
    change (inode_at s3 ino) with (inode_at s2 ino).
    unfold s2. rewrite i_blocks_set_slot by assumption. reflexivity.
  - rewrite i_size_inc_i_blocks by assumption.
    change (inode_at s3 ino) with (inode_at s2 ino).
    unfold s2. rewrite i_size_set_slot by assumption. reflexivity.
  - intros k' [= <-]. assumption.
  - intros k' Hk'' Hn. rewrite slot_inc_i_blocks by assumption.
    change (slot s3 ino k') with (slot s2 ino k').
    unfold s2. rewrite slot_set_slot_other by (try assumption; try lia; congruence).
    reflexivity.
  - intros i0 par0 [= _ <-] Hne. congruence.
  - intros t off n Ht Htq Ho1 Ho2 _.
    change (data_blocks (inc_i_blocks s3 ino)) with (data_blocks s3).
    unfold s3. rewrite zero_block_poke.
    rewrite (poke_frame s2 q 0 (zeros BLOCK_SIZE) t off n); try assumption; try lia.
    + reflexivity.
    + rewrite zeros_length; lia.
  - intros i Hi. destruct (vpath_parent i [k] Hi) as [_ Hir]; [congruence|].
    rewrite (load_entry_same_data s3 (inc_i_blocks s3 ino)) by reflexivity.
    apply load_entry_zero_block_same; assumption.
Qed.

Lemma get_index_entry_create (sb sb' : osfs_sb_info) (par0 : list Z) (o v : Z) :
  WF sb -> is_index (o :: par0) -> par0 <> [] -> ptr sb par0 <> 0 ->
  get_index_entry BLOCK_SIZE sb ino (ptr sb par0) o true = (sb', Ok v) ->
  Ensured sb sb' (o :: par0) v.
Proof.
  intros Hwf Hidx Hne Hpz.
  assert (Hvp : vpath (o :: par0)) by (right; assumption).
  destruct (vpath_parent o par0 Hvp Hne) as [Hidx0 Ho].
  destruct (wf_ptr sb Hwf par0 (or_intror Hidx0) Hpz) as [HT HTb].
  assert (Hptr : ptr sb (o :: par0) = load_entry BLOCK_SIZE sb (ptr sb par0) o).
  { rewrite ptr_cons by assumption. destruct (Z.eqb_spec (ptr sb par0) 0); [congruence|reflexivity]. }
  set (T := ptr sb par0) in *.
  unfold get_index_entry.
  destruct (Z.eqb_spec (load_entry BLOCK_SIZE sb T o) 0) as [Hz|Hnz]; cbn [negb].
  2:{ intros [= <- <-]. rewrite <- Hptr. apply (Ensured_already sb (o :: par0) Hwf). congruence. }
  destruct (osfs_alloc_data_block sb) as [sb1 [q|e]] eqn:Ea; [|discriminate].
  apply alloc_data_block_ok in Ea. destruct Ea as (Hq & Hfresh & Hlow & ->).
  set (s1 := with_block_alloc sb (set_bit q (block_bitmap sb)) (wrap32 (nr_free_blocks sb - 1))).
  set (s2 := store_entry BLOCK_SIZE s1 T o q).
  destruct (wf_valid sb Hwf) as [_ Vt].
  pose proof (wf_area sb Hwf) as Har.
  pose proof (block_count_bound sb Har) as Hbc32.
  assert (Har1 : area_ok s1) by exact Har.
  assert (HqT : q <> T) by (intros ->; congruence).
  assert (HT1 : 0 <= T < block_count s1)
    by (change (block_count s1) with (block_count sb); lia).
  assert (Hq1 : 0 <= q < block_count s1) by exact Hq.
  assert (Hv2 : load_entry BLOCK_SIZE s2 T o = q).
  { apply load_entry_store_entry_same; try assumption; lia. }
  cbv zeta. fold s2. rewrite Hv2.
  set (s3 := zero_block BLOCK_SIZE s2 q).
  assert (Har2 : area_ok s2) by (unfold s2; rewrite store_entry_poke; apply area_ok_poke; exact Har1).
  assert (Hq2 : 0 <= q < block_count s2) by exact Hq.
  assert (HT2 : 0 <= T < block_count s2) by (change (block_count s2) with (block_count sb); lia).
  assert (V3 : (Z.to_nat ino < length (inode_table s3))%nat) by exact Vt.
  assert (Hv : load_entry BLOCK_SIZE (inc_i_blocks s3 ino) T o = q).
  { rewrite (load_entry_same_data s3 (inc_i_blocks s3 ino)) by reflexivity.
    unfold s3. rewrite zero_block_poke.
    rewrite load_entry_poke_frame; try assumption; try lia.
    rewrite zeros_length; lia. }
  rewrite Hv. intros [= <- <-].
  apply alloc_event; try assumption; try reflexivity.
  - congruence.
  - intros i0 par0' [= _ <-] _. assumption.
  - rewrite table_length_inc_i_blocks. reflexivity.
  - rewrite i_block_length_inc_i_blocks by assumption. reflexivity.
  - change (data_blocks (inc_i_blocks s3 ino)) with (data_blocks s3).
    unfold s3, zero_block, s2, store_entry, store32. cbn [data_blocks with_data_blocks].
    rewrite !store_bytes_length. reflexivity.
  - rewrite i_blocks_inc_i_blocks by assumption. reflexivity.
  - rewrite i_size_inc_i_blocks by assumption. reflexivity.
  - intros k [= _ E]. congruence.
  - intros k Hk Hn. rewrite slot_inc_i_blocks by assumption. reflexivity.
  - intros i0 par0' [= <- <-] _. exact Hv.
  - intros t off n Ht Htq Ho1 Ho2 Hd.
    change (data_blocks (inc_i_blocks s3 ino)) with (data_blocks s3).
    unfold s3. rewrite zero_block_poke.
    rewrite (poke_frame s2 q 0 (zeros BLOCK_SIZE) t off n); try assumption; try lia.
    2:{ rewrite zeros_length; lia. }
    unfold s2. rewrite store_entry_poke.
    rewrite (poke_frame s1 T (4 * o) (le_split 4 q) t off n); try assumption;
      try (rewrite length_le_split); try lia.
    + reflexivity.
    + pose proof apb_bytes. lia.
    + destruct (Z.eq_dec T t) as [E|E]; [|left; assumption].
      right. specialize (Hd o par0 eq_refl Hne (eq_sym E)). lia.
  - intros i Hi. destruct (vpath_parent i (o :: par0) Hi) as [_ Hir]; [congruence|].
    rewrite (load_entry_same_data s3 (inc_i_blocks s3 ino)) by reflexivity.
    apply load_entry_zero_block_same; assumption.
Qed.

Lemma get_data_entry_create (sb sb' : osfs_sb_info) (par0 : list Z) (i0 v : Z) :
  WF sb -> is_leaf (i0 :: par0) -> par0 <> [] -> ptr sb par0 <> 0 ->
  get_data_entry BLOCK_SIZE sb ino (ptr sb par0) i0 true = (sb', Ok v) ->
  Ensured sb sb' (i0 :: par0) v.
Proof.
  intros Hwf Hlf Hne Hpz.
  assert (Hvp : vpath (i0 :: par0)) by (left; assumption).
  destruct (vpath_parent i0 par0 Hvp Hne) as [Hidx0 Ho].
  destruct (wf_ptr sb Hwf par0 (or_intror Hidx0) Hpz) as [HT HTb].
  assert (Hptr : ptr sb (i0 :: par0) = load_entry BLOCK_SIZE sb (ptr sb par0) i0).
  { rewrite ptr_cons by assumption. destruct (Z.eqb_spec (ptr sb par0) 0); [congruence|reflexivity]. }
  set (T := ptr sb par0) in *.
  unfold get_data_entry.
  destruct (Z.eqb_spec (load_entry BLOCK_SIZE sb T i0) 0) as [Hz|Hnz]; cbn [andb].
  2:{ intros [= <- <-]. rewrite <- Hptr. apply (Ensured_already sb (i0 :: par0) Hwf). congruence. }
  destruct (osfs_alloc_data_block sb) as [sb1 [q|e]] eqn:Ea; [|discriminate].
  apply alloc_data_block_ok in Ea. destruct Ea as (Hq & Hfresh & Hlow & ->).
  set (s1 := with_block_alloc sb (set_bit q (block_bitmap sb)) (wrap32 (nr_free_blocks sb - 1))).
  set (s2 := store_entry BLOCK_SIZE s1 T i0 q).
  destruct (wf_valid sb Hwf) as [_ Vt].
  pose proof (wf_area sb Hwf) as Har.
  pose proof (block_count_bound sb Har) as Hbc32.
  assert (Har1 : area_ok s1) by exact Har.
  assert (HT1 : 0 <= T < block_count s1)
    by (change (block_count s1) with (block_count sb); lia).
  assert (Hq1 : 0 <= q < block_count s1) by exact Hq.
  assert (Hv2 : load_entry BLOCK_SIZE s2 T i0 = q).
  { apply load_entry_store_entry_same; try assumption; lia. }
  assert (V2 : (Z.to_nat ino < length (inode_table s2))%nat) by exact Vt.
  assert (Hv : load_entry BLOCK_SIZE (inc_i_blocks s2 ino) T i0 = q).
  { rewrite (load_entry_same_data s2 (inc_i_blocks s2 ino)) by reflexivity. exact Hv2. }
  cbv zeta. fold s2. rewrite Hv. intros [= <- <-].
  apply alloc_event; try assumption; try reflexivity.
  - congruence.
  - intros i1 par0' [= _ <-] _. assumption.
  - rewrite table_length_inc_i_blocks. reflexivity.
  - rewrite i_block_length_inc_i_blocks by assumption. reflexivity.
  - change (data_blocks (inc_i_blocks s2 ino)) with (data_blocks s2).
    unfold s2, store_entry, store32. cbn [data_blocks with_data_blocks].
    rewrite !store_bytes_length. reflexivity.
  - rewrite i_blocks_inc_i_blocks by assumption. reflexivity.
  - rewrite i_size_inc_i_blocks by assumption. reflexivity.
  - intros k [= _ E]. congruence.
  - intros k Hk Hn. rewrite slot_inc_i_blocks by assumption. reflexivity.
  - intros i1 par0' [= <- <-] _. exact Hv.
  - intros t off n Ht Htq Ho1 Ho2 Hd.
    change (data_blocks (inc_i_blocks s2 ino)) with (data_blocks s2).
    unfold s2. rewrite store_entry_poke.
    rewrite (poke_frame s1 T (4 * i0) (le_split 4 q) t off n); try assumption;
      try (rewrite length_le_split); try lia.
    + reflexivity.
    + pose proof apb_bytes. lia.
    + destruct (Z.eq_dec T t) as [E|E]; [|left; assumption].
      right. specialize (Hd i0 par0 eq_refl Hne (eq_sym E)). lia.
  - intros i Hi. exfalso.
    destruct (vpath_parent i (i0 :: par0) Hi) as [Hx _]; [congruence|].
    apply (leaf_not_index (i0 :: par0)); assumption.
Qed.

(** *** [osfs_get_block] in write mode *)

Lemma Ensured_i_blocks_le (sb sb' : osfs_sb_info) (p0 : list Z) (v : Z) :
  Ensured sb sb' p0 v ->
  i_blocks (inode_at sb ino) <= i_blocks (inode_at sb' ino).
Proof.
  intros (_ & (_ & _ & _ & _ & [[_ H]|[H _]]) & _); lia.
Qed.

Lemma get_block_create (sb sb' : osfs_sb_info) (b v : Z) :
  WF sb -> 0 <= b ->
  osfs_get_block BLOCK_SIZE sb ino b true = (sb', Ok v) ->
  b < max_blocks /\ WF sb' /\ Frame sb sb'
  /\ ptr sb' (path_of b) = v /\ v <> 0
  /\ (forall lf, is_leaf lf -> lf <> path_of b -> ptr sb' lf = ptr sb lf)
  /\ (ptr sb (path_of b) = 0 ->
      i_blocks (inode_at sb ino) < i_blocks (inode_at sb' ino)).
Proof.
  intros Hwf Hb0 Hget.
  pose proof (wf_valid sb Hwf) as Hv. apply get_osfs_inode_valid in Hv.
  pose proof (get_block_tiers BLOCK_SIZE BLOCK_SIZE_pos sb ino b true Hv)
    as (T1 & T2 & T3 & T4).
  pose proof apb_nonneg as Hapb.
  unfold max_blocks, path_of.
  change (OSFS_N_DIRECT + 1) with 13 in *. change OSFS_N_DIRECT with 12 in *.
  destruct (Z.ltb_spec b 12) as [Hlt|Hge].
  - (* direct *)
    destruct T1 as [T1 _]; [lia|]. rewrite T1 in Hget.
    apply get_data_slot_create in Hget; [|assumption|unfold OSFS_N_DIRECT; lia].
    destruct Hget as (W & F & P & Vn & O & I & S).
    split; [pose proof (Z.square_nonneg APB); lia|].
    repeat (split; [assumption|]). split.
    + intros lf Hl Hn. apply O; [left|]; assumption.
    + intros Hz. specialize (I Hz). lia.
  - destruct (Z.ltb_spec (b - 12) APB) as [Hlt2|Hge2].
    + (* single indirect *)
      destruct T2 as [T2 _]; [lia|lia|]. rewrite T2 in Hget.
      unfold resolve_indirect in Hget. change OSFS_N_DIRECT with 12 in Hget.
      destruct (get_index_slot BLOCK_SIZE sb ino 12 true) as [s1 [tbl|e]] eqn:E1;
        [|discriminate].
      apply get_index_slot_create in E1; [|assumption|left; reflexivity].
      destruct E1 as (W1 & F1 & P1 & Vn1 & O1 & I1 & S1).
      assert (Hlf : is_leaf [b - 12; 12]) by (cbn; lia).
      rewrite <- P1 in Hget.
      apply (get_data_entry_create s1 sb' [12]) in Hget;
        [|assumption|assumption|congruence|congruence].
      destruct Hget as (W2 & F2 & P2 & Vn2 & O2 & I2 & S2).
      split; [pose proof (Z.square_nonneg APB); lia|].
      split; [assumption|]. split; [eapply Frame_trans; eassumption|].
      split; [assumption|]. split; [assumption|]. split.
      * intros lf Hl Hn. rewrite O2; [|left; assumption|assumption].
        apply O1; [left; assumption|].
        intros ->. apply (leaf_not_index [12]); [assumption|left; reflexivity].
      * intros Hz.
        assert (ptr s1 [b - 12; 12] = 0).
        { rewrite O1; [assumption|left; assumption|congruence]. }
        specialize (I2 H).
        pose proof (Ensured_i_blocks_le sb s1 [12] tbl
                      (conj W1 (conj F1 (conj P1 (conj Vn1 (conj O1 (conj I1 S1))))))).
        lia.
    + destruct (Z.ltb_spec (b - 12 - APB) (APB * APB)) as [Hlt3|Hge3].
      * (* double indirect *)
        destruct T3 as [T3 _]; [lia|lia|]. rewrite T3 in Hget.
        unfold resolve_dindirect in Hget. change (OSFS_N_DIRECT + 1) with 13 in Hget.
        destruct (get_index_slot BLOCK_SIZE sb ino 13 true) as [s1 [top|e]] eqn:E1;
          [|discriminate].
        apply get_index_slot_create in E1; [|assumption|right; reflexivity].
        destruct E1 as (W1 & F1 & P1 & Vn1 & O1 & I1 & S1).
        set (o := (b - 12 - APB) / APB) in *.
        set (i := (b - 12 - APB) mod APB) in *.
        assert (Hapb_pos : 0 < APB) by nia.
        assert (Ho : 0 <= o < APB).
        { unfold o. split; [apply Z.div_pos; lia | apply Z.div_lt_upper_bound; lia]. }
        assert (Hi : 0 <= i < APB) by (unfold i; apply Z.mod_pos_bound; lia).
        rewrite <- P1 in Hget.
        destruct (get_index_entry BLOCK_SIZE s1 ino (ptr s1 [13]) o true)
          as [s2 [tbl|e]] eqn:E2; [|discriminate].
        apply (get_index_entry_create s1 s2 [13]) in E2;
          [|assumption|cbn; lia|congruence|congruence].
        destruct E2 as (W2 & F2 & P2 & Vn2 & O2 & I2 & S2).
        rewrite <- P2 in Hget.
        apply (get_data_entry_create s2 sb' [o; 13]) in Hget;
          [|assumption|cbn; lia|congruence|congruence].
        destruct Hget as (W3 & F3 & P3 & Vn3 & O3 & I3 & S3).
        split; [lia|].
        split; [assumption|].
        split; [eapply Frame_trans; [eapply Frame_trans|]; eassumption|].
        split; [assumption|]. split; [assumption|]. split.
        -- intros lf Hl Hn. rewrite O3; [|left; assumption|assumption].
           rewrite O2; [|left; assumption|].
           ++ apply O1; [left; assumption|].
              intros ->. apply (leaf_not_index [13]); [assumption|right; reflexivity].
           ++ intros ->. apply (leaf_not_index [o; 13]); [assumption|cbn; lia].
        -- intros Hz.
           assert (ptr s2 [i; o; 13] = 0).
           { rewrite O2; [|left; cbn; lia|congruence].
             rewrite O1; [assumption|left; cbn; lia|congruence]. }
           specialize (I3 H).
           pose proof (Ensured_i_blocks_le sb s1 [13] top
                         (conj W1 (conj F1 (conj P1 (conj Vn1 (conj O1 (conj I1 S1))))))).
           pose proof (Ensured_i_blocks_le s1 s2 [o; 13] tbl
                         (conj W2 (conj F2 (conj P2 (conj Vn2 (conj O2 (conj I2 S2))))))).
           lia.
      * rewrite T4 in Hget by lia. discriminate.
Qed.

(** *** Copying user data into a data block *)

Lemma data_store (sb : osfs_sb_info) (lf : list Z) (off : Z) (bs : list byte) :
  WF sb -> is_leaf lf -> ptr sb lf <> 0 ->
  0 <= off -> off + Z.of_nat (length bs) <= BLOCK_SIZE ->
  let sb' :=
    with_data_blocks sb
      (store_bytes (data_blocks sb) (blk_addr BLOCK_SIZE (ptr sb lf) + off) bs) in
  WF sb'
  /\ (forall p, vpath p -> ptr sb' p = ptr sb p)
  /\ load_bytes (data_blocks sb') (blk_addr BLOCK_SIZE (ptr sb lf) + off) (length bs) = bs
  /\ (forall lf' off' n, is_leaf lf' -> lf' <> lf -> ptr sb lf' <> 0 ->
        0 <= off' -> off' + Z.of_nat n <= BLOCK_SIZE ->
        load_bytes (data_blocks sb') (blk_addr BLOCK_SIZE (ptr sb lf') + off') n
        = load_bytes (data_blocks sb) (blk_addr BLOCK_SIZE (ptr sb lf') + off') n).
Proof.
  intros Hwf Hl Hn Ho1 Ho2 sb'.
  set (v := ptr sb lf) in *.
  destruct (wf_ptr sb Hwf lf (or_introl Hl) Hn) as [Hv Hvb].
  pose proof (wf_area sb Hwf) as Har.
  assert (Hpoke : sb' = poke sb v off bs) by reflexivity.
  assert (Hent : forall par i, vpath (i :: par) -> par <> [] -> ptr sb par <> 0 ->
            load_entry BLOCK_SIZE sb' (ptr sb par) i = load_entry BLOCK_SIZE sb (ptr sb par) i).
  { intros par i Hvp Hne Hnz.
    destruct (vpath_parent i par Hvp Hne) as [Hidx Hi].
    destruct (wf_ptr sb Hwf par (or_intror Hidx) Hnz) as [Hr _].
    rewrite Hpoke. apply load_entry_poke_frame; try assumption; try lia.
    left. intros E. apply (leaf_not_index lf); [assumption|].
    assert (lf = par) by (apply (wf_inj sb Hwf); auto; [left|right]; assumption).
    congruence. }
  assert (Lstep : forall i par, vpath (i :: par) -> par <> [] ->
            ptr sb' par = ptr sb par -> ptr sb' (i :: par) = ptr sb (i :: par)).
  { intros i par Hvp Hne Hs. rewrite !ptr_cons by assumption. rewrite Hs.
    destruct (Z.eqb_spec (ptr sb par) 0); [reflexivity|]. apply Hent; assumption. }
  assert (Hptr : forall p, vpath p -> ptr sb' p = ptr sb p).
  { intros p Hp. destruct p as [|a [|b [|c [|d r]]]].
    - reflexivity.
    - reflexivity.
    - apply Lstep; [assumption|congruence|reflexivity].
    - apply Lstep; [assumption|congruence|].
      apply Lstep; [right; apply (vpath_parent a [b; c] Hp); congruence|congruence|reflexivity].
    - destruct Hp as [H|H]; cbn in H; tauto. }
  split; [|split; [assumption|split]].
  - constructor.
    + exact (wf_valid sb Hwf).
    + exact (wf_slots sb Hwf).
    + rewrite Hpoke. apply area_ok_poke. assumption.
    + exact (wf_ib sb Hwf).
    + exact (wf_ibc sb Hwf).
    + exact (wf_high sb Hwf).
    + intros p Hp Hnz. rewrite (Hptr p Hp) in *. exact (wf_ptr sb Hwf p Hp Hnz).
    + intros p p' Hp Hp' Hnz E. rewrite (Hptr p Hp) in *. rewrite (Hptr p' Hp') in E.
      exact (wf_inj sb Hwf p p' Hp Hp' Hnz E).
  - rewrite Hpoke. apply poke_read_back; try assumption; lia.
  - intros lf' off' n Hl' Hne Hnz Ho1' Ho2'.
    destruct (wf_ptr sb Hwf lf' (or_introl Hl') Hnz) as [Hr _].
    rewrite Hpoke. apply poke_frame; try assumption; try lia.
    left. intros E. apply Hne. symmetry.
    apply (wf_inj sb Hwf); auto; left; assumption.
Qed.

(** *** The loop of [osfs_write], block by block *)

(** The part of the user buffer that goes to logical block [k] when the
    write starts at offset 0. *)
Definition chunk (B : list byte) (k : Z) : list byte :=
  firstn (Z.to_nat BLOCK_SIZE) (skipn (Z.to_nat (k * BLOCK_SIZE)) B).

Lemma chunk_length (B : list byte) (k : Z) :
  0 <= k ->
  Z.of_nat (length (chunk B k))
  = Z.max 0 (Z.min BLOCK_SIZE (Z.of_nat (length B) - k * BLOCK_SIZE)).
Proof.
  intros Hk. unfold chunk. rewrite length_firstn, length_skipn.
  assert (0 <= k * BLOCK_SIZE) by (apply Z.mul_nonneg_nonneg; lia). lia.
Qed.

Lemma firstn_min_chunk (B : list byte) (k len : Z) :
  0 <= k -> len = Z.of_nat (length B) - k * BLOCK_SIZE -> 0 < len ->
  firstn (Z.to_nat (Z.min len (BLOCK_SIZE - 0))) (skipn (Z.to_nat (k * BLOCK_SIZE)) B)
  = chunk B k.
Proof.
  intros Hk Hlen Hpos. unfold chunk. rewrite Z.sub_0_r.
  assert (0 <= k * BLOCK_SIZE) by (apply Z.mul_nonneg_nonneg; lia).
  destruct (Z.le_ge_cases BLOCK_SIZE len) as [Hle|Hge].
  - rewrite Z.min_r by assumption. reflexivity.
  - rewrite Z.min_l by assumption.
    rewrite !firstn_all2; [reflexivity| |]; rewrite length_skipn; lia.
Qed.

(** If the loop, started at the beginning of block [k], ends having
    written the whole buffer, then every iteration resolved its block to
    a non-zero number and stored its chunk there; a property [P] kept by
    such an iteration holds at the end. *)
Lemma write_loop_blocks (B : list byte) (P : Z -> osfs_sb_info -> Prop) :
  (forall k sb sb1 v,
      0 <= k -> k * BLOCK_SIZE < Z.of_nat (length B) -> P k sb ->
      osfs_get_block BLOCK_SIZE sb ino k true = (sb1, Ok v) -> v <> 0 ->
      P (k + 1)
        (with_data_blocks sb1
           (store_bytes (data_blocks sb1) (blk_addr BLOCK_SIZE v + 0) (chunk B k)))) ->
  forall fuel k sb sb' pos' w' err,
    0 <= k -> P k sb ->
    osfs_write_loop BLOCK_SIZE fuel true sb ino B
      (Z.min (k * BLOCK_SIZE) (Z.of_nat (length B)))
      (Z.min (k * BLOCK_SIZE) (Z.of_nat (length B)))
      (Z.of_nat (length B) - Z.min (k * BLOCK_SIZE) (Z.of_nat (length B)))
    = (sb', pos', w', err) ->
    err = None -> w' = Z.of_nat (length B) ->
    pos' = Z.of_nat (length B)
    /\ exists k', k <= k' /\ Z.of_nat (length B) <= k' * BLOCK_SIZE
                  /\ (k' = k \/ (k' - 1) * BLOCK_SIZE < Z.of_nat (length B))
                  /\ P k' sb'.
Proof.
  intros Hstep. set (L := Z.of_nat (length B)).
  assert (Hend : forall k sb sb' pos' w' err,
             P k sb ->
             (sb, Z.min (k * BLOCK_SIZE) L, Z.min (k * BLOCK_SIZE) L, @None errno)
             = (sb', pos', w', err) ->
             w' = L ->
             pos' = L /\ exists k', k <= k' /\ L <= k' * BLOCK_SIZE
                        /\ (k' = k \/ (k' - 1) * BLOCK_SIZE < L) /\ P k' sb').
  { intros k sb sb' pos' w' err HP [= <- <- <- <-] Hw.
    split; [assumption|]. exists k. repeat split; try lia. assumption. }
  induction fuel as [|fuel IH]; intros k sb sb' pos' w' err Hk HP Hloop Herr Hw.
  - cbn [osfs_write_loop] in Hloop. eapply Hend; eassumption.
  - cbn [osfs_write_loop] in Hloop.
    destruct (Z.leb_spec (L - Z.min (k * BLOCK_SIZE) L) 0) as [Hdone|Hmore].
    + eapply Hend; eassumption.
    + assert (Hlt : k * BLOCK_SIZE < L) by lia.
      rewrite Z.min_l in Hloop by lia.
      rewrite Z.div_mul, Z_mod_mult in Hloop by lia.
      destruct (osfs_get_block BLOCK_SIZE sb ino k true) as [sb1 [v|e]] eqn:Eg.
      2:{ exfalso. destruct (0 <? k * BLOCK_SIZE);
            injection Hloop as <- <- <- <-; [lia|discriminate]. }
      destruct (Z.eqb_spec v 0) as [Hv0|Hv0].
      { exfalso. destruct (0 <? k * BLOCK_SIZE);
          injection Hloop as <- <- <- <-; [lia|discriminate]. }
      cbn [negb] in Hloop.
      rewrite (firstn_min_chunk B k (L - k * BLOCK_SIZE)) in Hloop by (fold L; lia).
      pose proof (Hstep k sb sb1 v Hk Hlt HP Eg Hv0) as HP'.
      assert (Hnext : k * BLOCK_SIZE + Z.min (L - k * BLOCK_SIZE) (BLOCK_SIZE - 0)
                      = Z.min ((k + 1) * BLOCK_SIZE) L) by lia.
      rewrite Hnext in Hloop.
      replace (L - k * BLOCK_SIZE - Z.min (L - k * BLOCK_SIZE) (BLOCK_SIZE - 0))
        with (L - Z.min ((k + 1) * BLOCK_SIZE) L) in Hloop by lia.
      destruct (IH (k + 1) _ sb' pos' w' err ltac:(lia) HP' Hloop Herr Hw)
        as (Hpos & k' & Hk1 & Hk2 & Hk3 & HPk').
      split; [assumption|]. exists k'. repeat split; try lia. assumption.
Qed.

(** *** Writing a fresh file from offset 0 *)

(** After [k] blocks: the first [k] logical blocks are allocated and hold
    their chunks, every other leaf is still a hole. *)
Definition written_upto (B : list byte) (size0 : Z) (k : Z) (sb : osfs_sb_info) : Prop :=
  WF sb
  /\ k <= max_blocks
  /\ k <= i_blocks (inode_at sb ino)
  /\ i_size (inode_at sb ino) = size0
  /\ (forall j, 0 <= j < k ->
        ptr sb (path_of j) <> 0
        /\ load_bytes (data_blocks sb) (blk_addr BLOCK_SIZE (ptr sb (path_of j)) + 0)
                      (length (chunk B j))
           = chunk B j)
  /\ (forall lf, is_leaf lf -> (forall j, 0 <= j < k -> lf <> path_of j) -> ptr sb lf = 0).

Lemma chunk_fits (B : list byte) (k : Z) :
  0 + Z.of_nat (length (chunk B k)) <= BLOCK_SIZE.
Proof. unfold chunk. rewrite length_firstn. lia. Qed.

Lemma written_upto_step (B : list byte) (size0 : Z) (k : Z) (sb sb1 : osfs_sb_info) (v : Z) :
  0 <= k -> k * BLOCK_SIZE < Z.of_nat (length B) ->
  written_upto B size0 k sb ->
  osfs_get_block BLOCK_SIZE sb ino k true = (sb1, Ok v) -> v <> 0 ->
  written_upto B size0 (k + 1)
    (with_data_blocks sb1
       (store_bytes (data_blocks sb1) (blk_addr BLOCK_SIZE v + 0) (chunk B k))).
Proof.
  intros Hk Hlt (Hwf & Hmax & Hib & Hsz & Hdone & Hholes) Hget Hv.
  destruct (get_block_create sb sb1 k v Hwf Hk Hget)
    as (Hkm & W1 & F1 & P1 & _ & O1 & I1).
  destruct F1 as (Fbc & Fptr & Fdata & Fsz & Fcnt).
  assert (Hhole : ptr sb (path_of k) = 0).
  { apply Hholes; [apply path_of_leaf; lia|].
    intros j Hj E. apply path_of_inj in E; lia. }
  specialize (I1 Hhole).
  assert (Hlk : is_leaf (path_of k)) by (apply path_of_leaf; lia).
  assert (Hnz1 : ptr sb1 (path_of k) <> 0) by congruence.
  pose proof (data_store sb1 (path_of k) 0 (chunk B k) W1 Hlk Hnz1 ltac:(lia) (chunk_fits B k))
    as D.
  rewrite P1 in D. cbv zeta in D.
  set (sb2 := with_data_blocks sb1
                (store_bytes (data_blocks sb1) (blk_addr BLOCK_SIZE v + 0) (chunk B k))) in *.
  destruct D as (W2 & Dptr & Dback & Dother).
  unfold written_upto.
  split; [assumption|]. split; [lia|].
  split; [change (inode_at sb2 ino) with (inode_at sb1 ino); lia|].
  split; [change (inode_at sb2 ino) with (inode_at sb1 ino); congruence|].
  split.
  - intros j Hj.
    destruct (Z.eq_dec j k) as [->|Hjk].
    + rewrite Dptr by (left; assumption). rewrite P1. split; assumption.
    + destruct (Hdone j ltac:(lia)) as [Hnz Hc].
      assert (Hlj : is_leaf (path_of j)) by (apply path_of_leaf; lia).
      assert (Hp1 : ptr sb1 (path_of j) = ptr sb (path_of j))
        by (apply Fptr; [left|]; assumption).
      rewrite Dptr by (left; assumption). rewrite Hp1.
      split; [assumption|].
      rewrite <- Hp1. rewrite Dother; try assumption; try lia.
      * rewrite Hp1. rewrite Fdata; try assumption; try lia.
        apply chunk_fits.
      * intros E. apply path_of_inj in E; lia.
      * apply chunk_fits.
  - intros lf Hl Hno.
    rewrite Dptr by (left; assumption).
    rewrite O1; [|assumption|apply Hno; lia].
    apply Hholes; [assumption|]. intros j Hj. apply Hno. lia.
Qed.

(** *** Reading the file back *)

Lemma ptr_ext (sb sb' : osfs_sb_info) :
  (forall k, slot sb' ino k = slot sb ino k) ->
  data_blocks sb' = data_blocks sb ->
  forall p, ptr sb' p = ptr sb p.
Proof.
  intros Hs Hd p. induction p as [|i par IH]; [reflexivity|].
  destruct par as [|j r]; [apply Hs|].
  rewrite !ptr_cons by congruence. rewrite IH.
  rewrite (load_entry_same_data sb sb') by assumption. reflexivity.
Qed.

Lemma ptr_all_zero (sb : osfs_sb_info) :
  (forall k, slot sb ino k = 0) -> forall p, ptr sb p = 0.
Proof.
  intros Hs p. induction p as [|i par IH]; [reflexivity|].
  destruct par as [|j r]; [apply Hs|].
  rewrite ptr_cons by congruence. rewrite IH. reflexivity.
Qed.

Lemma firstn_app_skipn {A : Type} (l : list A) (a b : nat) :
  firstn a l ++ firstn b (skipn a l) = firstn (a + b) l.
Proof.
  revert l; induction a as [|a IH]; intros l; [reflexivity|].
  destruct l as [|x l]; cbn [firstn skipn Nat.add app].
  - rewrite firstn_nil. reflexivity.
  - f_equal. apply IH.
Qed.

Lemma read_loop_blocks (B : list byte) (sb : osfs_sb_info) :
  valid_ino sb ino ->
  (forall j, 0 <= j -> j * BLOCK_SIZE < Z.of_nat (length B) ->
      j < max_blocks /\ ptr sb (path_of j) <> 0
      /\ load_bytes (data_blocks sb) (blk_addr BLOCK_SIZE (ptr sb (path_of j)) + 0)
                    (length (chunk B j))
         = chunk B j) ->
  forall fuel k,
    0 <= k ->
    (Z.to_nat (Z.of_nat (length B) - Z.min (k * BLOCK_SIZE) (Z.of_nat (length B))) <= fuel)%nat ->
    osfs_read_loop BLOCK_SIZE fuel true sb ino
      (Z.min (k * BLOCK_SIZE) (Z.of_nat (length B)))
      (Z.of_nat (length B) - Z.min (k * BLOCK_SIZE) (Z.of_nat (length B)))
      (firstn (Z.to_nat (Z.min (k * BLOCK_SIZE) (Z.of_nat (length B)))) B)
    = (sb, Z.of_nat (length B), Ok B).
Proof.
  intros Hv Hblocks. set (L := Z.of_nat (length B)).
  assert (Hend : forall k, 0 <= k -> L - Z.min (k * BLOCK_SIZE) L <= 0 ->
            (sb, Z.min (k * BLOCK_SIZE) L,
             @Ok (list byte) (firstn (Z.to_nat (Z.min (k * BLOCK_SIZE) L)) B))
            = (sb, L, Ok B)).
  { intros k Hk Hd. replace (Z.min (k * BLOCK_SIZE) L) with L by lia.
    unfold L. rewrite Nat2Z.id, firstn_all. reflexivity. }
  induction fuel as [|fuel IH]; intros k Hk Hfuel.
  - cbn [osfs_read_loop]. apply Hend; [assumption|fold L in Hfuel; lia].
  - cbn [osfs_read_loop].
    destruct (Z.leb_spec (L - Z.min (k * BLOCK_SIZE) L) 0) as [Hdone|Hmore].
    + apply Hend; assumption.
    + assert (Hlt : k * BLOCK_SIZE < L) by lia.
      assert (Hk0 : 0 <= k * BLOCK_SIZE) by (apply Z.mul_nonneg_nonneg; lia).
      rewrite Z.min_l by lia.
      rewrite Z.div_mul, Z_mod_mult by lia.
      destruct (Hblocks k Hk Hlt) as (Hkm & Hnz & Hc).
      rewrite (get_block_read_ptr sb k Hv) by (try assumption; lia).
      destruct (Z.eqb_spec (ptr sb (path_of k)) 0) as [E|_]; [congruence|].
      cbn [negb].
      assert (Hlen : Z.to_nat (Z.min (L - k * BLOCK_SIZE) (BLOCK_SIZE - 0))
                     = length (chunk B k)).
      { pose proof (chunk_length B k Hk) as Hcl. fold L in Hcl. lia. }
      rewrite Hlen, Hc.
      assert (Hout : firstn (Z.to_nat (k * BLOCK_SIZE)) B ++ chunk B k
                     = firstn (Z.to_nat (Z.min ((k + 1) * BLOCK_SIZE) L)) B).
      { unfold chunk. rewrite firstn_app_skipn.
        destruct (Z.le_ge_cases ((k + 1) * BLOCK_SIZE) L) as [Hle|Hge].
        - f_equal. lia.
        - rewrite !firstn_all2; [reflexivity| |]; unfold L in *; lia. }
      rewrite Hout.
      replace (k * BLOCK_SIZE + Z.min (L - k * BLOCK_SIZE) (BLOCK_SIZE - 0))
        with (Z.min ((k + 1) * BLOCK_SIZE) L) by lia.
      replace (L - k * BLOCK_SIZE - Z.min (L - k * BLOCK_SIZE) (BLOCK_SIZE - 0))
        with (L - Z.min ((k + 1) * BLOCK_SIZE) L) by lia.
      apply IH; lia.
Qed.

(** *** A freshly created file *)

Lemma fresh_slots (sb : osfs_sb_info) :
  i_block (inode_at sb ino) = repeat 0 (Z.to_nat OSFS_N_BLOCKS) ->
  forall k, slot sb ino k = 0.
Proof. intros H k. unfold slot. rewrite H. apply nth_repeat. Qed.

Lemma fresh_WF (sb : osfs_sb_info) :
  valid_ino sb ino ->
  i_block (inode_at sb ino) = repeat 0 (Z.to_nat OSFS_N_BLOCKS) ->
  i_blocks (inode_at sb ino) = 0 ->
  area_ok sb ->
  test_bit 0 (block_bitmap sb) = true ->
  WF sb.
Proof.
  intros Hv Hb Hib Har Hbit.
  pose proof (ptr_all_zero sb (fresh_slots sb Hb)) as Hz.
  constructor; try assumption.
  - rewrite Hb. reflexivity.
  - lia.
  - left. assumption.
  - intros j Hj. replace j with 0 by lia. assumption.
  - intros p _ Hn. rewrite Hz in Hn. congruence.
  - intros p q _ _ Hn. rewrite Hz in Hn. congruence.
Qed.

(** With block 0 free, the first block of a write to a fresh file is
    resolved to physical block 0 and the write gives up. *)
Lemma write_loop_block_zero_free (B : list byte) (sb : osfs_sb_info) (fuel : nat) :
  valid_ino sb ino ->
  i_block (inode_at sb ino) = repeat 0 (Z.to_nat OSFS_N_BLOCKS) ->
  test_bit 0 (block_bitmap sb) = false ->
  0 < Z.of_nat (length B) ->
  exists sb1 e,
    osfs_write_loop BLOCK_SIZE (S fuel) true sb ino B 0 0 (Z.of_nat (length B))
    = (sb1, 0, 0, Some e).
Proof.
  intros Hv Hb Hbit Hlen.
  cbn [osfs_write_loop].
  destruct (Z.leb_spec (Z.of_nat (length B)) 0); [lia|].
  rewrite Z.div_0_l, Zmod_0_l by lia.
  unfold osfs_get_block. rewrite (valid_get_osfs_inode sb ino Hv).
  change (0 <? OSFS_N_DIRECT) with true. cbv iota.
  unfold get_data_slot. rewrite (fresh_slots sb Hb 0). cbn [Z.eqb andb].
  destruct (osfs_alloc_data_block sb) as [sb1 [q|e]] eqn:Ea.
  - apply alloc_data_block_ok in Ea. destruct Ea as (Hq & _ & Hlow & ->).
    assert (q = 0).
    { destruct (Z.eq_dec q 0); [assumption|].
      rewrite (Hlow 0) in Hbit; [discriminate|lia]. }
    subst q.
    set (s1 := with_block_alloc sb (set_bit 0 (block_bitmap sb)) (wrap32 (nr_free_blocks sb - 1))).
    destruct Hv as [_ Vt].
    assert (Hs : slot (inc_i_blocks (set_slot s1 ino 0 0) ino) ino 0 = 0).
    { rewrite slot_inc_i_blocks by (rewrite table_length_set_slot; exact Vt).
      apply slot_set_slot_same; [exact Vt|].
      change (inode_at s1 ino) with (inode_at sb ino). rewrite Hb, repeat_length.
      change (Z.to_nat OSFS_N_BLOCKS) with 14%nat. lia. }
    rewrite Hs. cbn [Z.eqb Z.ltb Z.compare]. eexists; eexists; reflexivity.
  - cbn [Z.ltb Z.compare]. eexists; eexists; reflexivity.
Qed.

(** The state seen by a read after the metadata update of a write. *)
Lemma meta_update_view (sb : osfs_sb_info) (rec_ : osfs_inode) :
  valid_ino sb ino ->
  i_block rec_ = i_block (inode_at sb ino) ->
  valid_ino (set_inode sb ino rec_) ino
  /\ inode_at (set_inode sb ino rec_) ino = rec_
  /\ data_blocks (set_inode sb ino rec_) = data_blocks sb
  /\ (forall k, slot (set_inode sb ino rec_) ino k = slot sb ino k).
Proof.
  intros Hv Hb. destruct Hv as [V1 V2].
  split; [apply valid_ino_set_inode; split; assumption|].
  split; [apply inode_at_set_inode_same; assumption|].
  split; [reflexivity|].
  intros k. unfold slot. rewrite inode_at_set_inode_same by assumption. rewrite Hb. reflexivity.
Qed.

(** C2 (amended).  For a freshly created empty file (all block pointers
    zero, size 0, no block counted) in a filesystem whose data area has
    [block_count] blocks addressable in 32 bits: whenever [osfs_write] of
    the bytes [B] at offset 0 returns [length B] (the write was not cut
    short), [osfs_read] of [length B] bytes from offset 0 delivers
    exactly [B] and leaves the position at [length B].  The length of [B]
    is arbitrary, so this covers files that stay in the direct blocks,
    that use the indirect block and that use the double-indirect blocks. *)
Theorem write_then_read_returns_written (sb sb' : osfs_sb_info) (ind : osfs_inode)
    (B : list byte) (now pos' : Z) :
  osfs_get_osfs_inode sb ino = Some ind ->
  i_block ind = repeat 0 (Z.to_nat OSFS_N_BLOCKS) ->
  i_blocks ind = 0 -> i_size ind = 0 ->
  Z.of_nat (length (data_blocks sb)) = block_count sb * BLOCK_SIZE ->
  block_count sb * BLOCK_SIZE <= 2 ^ 32 ->
  osfs_write BLOCK_SIZE true now sb ino B 0 = (sb', pos', Ok (Z.of_nat (length B))) ->
  osfs_read BLOCK_SIZE true sb' ino (Z.of_nat (length B)) 0
  = (sb', Z.of_nat (length B), Ok B).
Proof.
  intros Hget Hb Hib Hsz Ha1 Ha2 Hw.
  destruct (get_osfs_inode_some sb ino ind Hget) as [Hv Hind]. subst ind.
  assert (Har : area_ok sb) by (split; assumption).
  unfold osfs_write in Hw. rewrite Hget in Hw.
  set (L := Z.of_nat (length B)) in *.
  destruct (osfs_write_loop BLOCK_SIZE (Z.to_nat L) true sb ino B 0 0 L)
    as [[[sbL posL] wL] [e|]] eqn:EL; [discriminate|].
  injection Hw as Hsb' Hpos' HwL.
  destruct (Z.eq_dec L 0) as [HL0|HLpos].
  - (* nothing to write *)
    assert (B = []) by (apply length_zero_iff_nil; unfold L in HL0; lia). subst B.
    cbn in EL. injection EL as <- <- <-.
    rewrite Hsz in Hsb'. cbn [Z.ltb Z.compare] in Hsb'.
    destruct (meta_update_view sb (with_mctime (inode_at sb ino) now) Hv eq_refl)
      as (V' & I' & _ & _).
    rewrite Hsb' in V', I'.
    unfold osfs_read. rewrite (valid_get_osfs_inode sb' ino V'), I'.
    cbn [i_blocks with_mctime]. rewrite Hib. reflexivity.
  - assert (HLgt : 0 < L) by (unfold L in *; lia).
    destruct (test_bit 0 (block_bitmap sb)) eqn:Hbit.
    2:{ exfalso.
        destruct (Z.to_nat L) as [|fuel] eqn:Ef; [lia|].
        destruct (write_loop_block_zero_free B sb fuel Hv Hb Hbit HLgt) as (s1 & e & Hbad).
        fold L in Hbad. congruence. }
    pose proof (fresh_WF sb Hv Hb Hib Har Hbit) as Hwf.
    pose proof (ptr_all_zero sb (fresh_slots sb Hb)) as Hzero.
    assert (HP0 : written_upto B 0 0 sb).
    { split; [assumption|]. split; [unfold max_blocks; pose proof apb_nonneg;
                                    pose proof (Z.square_nonneg APB);
                                    unfold OSFS_N_DIRECT; lia|].
      split; [lia|]. split; [assumption|]. split; [intros; lia|].
      intros; apply Hzero. }
    assert (EL' : osfs_write_loop BLOCK_SIZE (Z.to_nat L) true sb ino B
                    (Z.min (0 * BLOCK_SIZE) L) (Z.min (0 * BLOCK_SIZE) L)
                    (L - Z.min (0 * BLOCK_SIZE) L) = (sbL, posL, wL, None)).
    { replace (Z.min (0 * BLOCK_SIZE) L) with 0 by lia.
      replace (L - 0) with L by lia. exact EL. }
    destruct (write_loop_blocks B (written_upto B 0) (written_upto_step B 0)
                (Z.to_nat L) 0 sb sbL posL wL None ltac:(lia) HP0 EL' eq_refl HwL)
      as (HposL & k' & Hk0 & Hk1 & Hk2 & HPk).
    destruct HPk as (WL & Hmax & Hibk & HszL & Hdone & _).
    assert (Hk'pos : 1 <= k').
    { destruct (Z.lt_ge_cases k' 1); [|assumption].
      assert (k' * BLOCK_SIZE <= 0) by nia. fold L in Hk1. lia. }
    assert (HL32 : 0 <= L < 2 ^ 32).
    { split; [lia|].
      destruct (wf_ibc sbL WL) as [E|Hlt]; [lia|].
      assert (Hbc : block_count sbL * BLOCK_SIZE <= 2 ^ 32) by apply (wf_area sbL WL).
      assert (k' + 1 <= block_count sbL) by lia.
      assert ((k' + 1) * BLOCK_SIZE <= block_count sbL * BLOCK_SIZE)
        by (apply Z.mul_le_mono_nonneg_r; lia).
      fold L in Hk1. lia. }
    fold L in HposL. rewrite HposL, HszL in Hsb'.
    assert (Hlt0 : (0 <? L) = true) by (apply Z.ltb_lt; lia).
    rewrite Hlt0, (wrap32_small L HL32) in Hsb'.
    pose proof (wf_valid sbL WL) as VL.
    set (rec1 := with_i_size (inode_at sbL ino) L) in *.
    destruct (meta_update_view sbL rec1 VL eq_refl) as (V1 & I1 & D1 & S1).
    set (sb2 := set_inode sbL ino rec1) in *.
    rewrite I1 in Hsb'.
    destruct (meta_update_view sb2 (with_mctime rec1 now) V1) as (V2 & I2 & D2 & S2).
    { rewrite I1. reflexivity. }
    rewrite Hsb' in V2, I2, D2, S2.
    unfold osfs_read. rewrite (valid_get_osfs_inode sb' ino V2), I2.
    cbn [i_blocks i_size with_mctime with_i_size rec1].
    destruct (Z.eqb_spec (i_blocks (inode_at sbL ino)) 0) as [E|_]; [lia|].
    destruct (Z.leb_spec L 0); [lia|].
    destruct (Z.ltb_spec L (0 + L)); [lia|].
    assert (Hptr : forall p, ptr sb' p = ptr sbL p).
    { apply ptr_ext; [intros k; rewrite S2; apply S1 | congruence]. }
    pose proof (read_loop_blocks B sb' V2) as R.
    specialize (R ltac:(
      intros j Hj0 Hj; fold L in Hj;
      assert (Hjk : j < k') by nia;
      destruct (Hdone j ltac:(lia)) as [Hn Hc];
      rewrite Hptr; split; [lia|]; split; [assumption|];
      rewrite D2, D1; exact Hc) (Z.to_nat L) 0 ltac:(lia)).
    fold L in R.
    replace (Z.min (0 * BLOCK_SIZE) L) with 0 in R by lia.
    replace (L - 0) with L in R by lia.
    apply R. lia.
Qed.

(** *** The boundary between direct and indirect blocks *)

(** The metadata update that ends [osfs_write] touches neither the block
    pointers nor the block count of the inode. *)
Lemma WF_meta_update (sb : osfs_sb_info) (rec_ : osfs_inode) :
  WF sb ->
  i_block rec_ = i_block (inode_at sb ino) ->
  i_blocks rec_ = i_blocks (inode_at sb ino) ->
  WF (set_inode sb ino rec_).
Proof.
  intros Hwf Hb Hib.
  destruct (meta_update_view sb rec_ (wf_valid sb Hwf) Hb) as (V & I & D & S).
  pose proof (ptr_ext sb (set_inode sb ino rec_) S D) as Hp.
  constructor.
  - assumption.
  - rewrite I, Hb. apply Hwf.
  - exact (wf_area sb Hwf).
  - rewrite I, Hib. apply Hwf.
  - rewrite I, Hib. exact (wf_ibc sb Hwf).
  - rewrite I, Hib. exact (wf_high sb Hwf).
  - intros p Hv Hn. rewrite Hp in *. exact (wf_ptr sb Hwf p Hv Hn).
  - intros p q Hv Hq Hn E. rewrite !Hp in *. exact (wf_inj sb Hwf p q Hv Hq Hn E).
Qed.

(** After [k] blocks of a write that stays below [N_DIRECT] blocks: the
    direct pointers [0 .. k-1] are allocated, nothing else is, and
    exactly [k] blocks have been taken. *)
Definition direct_upto (sb0 : osfs_sb_info) (k : Z) (sb : osfs_sb_info) : Prop :=
  WF sb
  /\ k <= 12
  /\ i_blocks (inode_at sb ino) = i_blocks (inode_at sb0 ino) + k
  /\ cnt_rel sb0 sb
  /\ i_size (inode_at sb ino) = i_size (inode_at sb0 ino)
  /\ (forall p, vpath p -> (forall j, 0 <= j < k -> p <> [j]) -> ptr sb p = 0)
  /\ (forall j, 0 <= j < k -> ptr sb [j] <> 0).

Lemma direct_upto_step (B : list byte) (sb0 : osfs_sb_info) (k : Z)
    (sb sb1 : osfs_sb_info) (v : Z) :
  Z.of_nat (length B) = OSFS_N_DIRECT * BLOCK_SIZE ->
  0 <= k -> k * BLOCK_SIZE < Z.of_nat (length B) ->
  direct_upto sb0 k sb ->
  osfs_get_block BLOCK_SIZE sb ino k true = (sb1, Ok v) -> v <> 0 ->
  direct_upto sb0 (k + 1)
    (with_data_blocks sb1
       (store_bytes (data_blocks sb1) (blk_addr BLOCK_SIZE v + 0) (chunk B k))).
Proof.
  intros HB Hk Hlt (Hwf & Hk12 & Hib & Hcnt & Hsz & Hholes & Hdone) Hget Hv.
  assert (Hk' : k < 12).
  { rewrite HB in Hlt. unfold OSFS_N_DIRECT in Hlt.
    apply (Z.mul_lt_mono_pos_r BLOCK_SIZE); assumption. }
  pose proof (wf_valid sb Hwf) as Hval. apply get_osfs_inode_valid in Hval.
  pose proof (get_block_tiers BLOCK_SIZE BLOCK_SIZE_pos sb ino k true Hval)
    as (T1 & _).
  destruct T1 as [T1 _]; [unfold OSFS_N_DIRECT; lia|]. rewrite T1 in Hget.
  apply get_data_slot_create in Hget; [|assumption|unfold OSFS_N_DIRECT; lia].
  destruct Hget as (W1 & F1 & P1 & _ & O1 & I1 & _ & _).
  destruct F1 as (_ & _ & _ & Fsz & Fcnt).
  assert (Hlk : is_leaf [k]) by (cbn; unfold OSFS_N_DIRECT; lia).
  assert (Hhole : ptr sb [k] = 0).
  { apply Hholes; [left; assumption|]. intros j Hj [= E]. lia. }
  specialize (I1 Hhole).
  assert (Hnz1 : ptr sb1 [k] <> 0) by congruence.
  pose proof (data_store sb1 [k] 0 (chunk B k) W1 Hlk Hnz1 ltac:(lia) (chunk_fits B k)) as D.
  rewrite P1 in D. cbv zeta in D.
  set (sb2 := with_data_blocks sb1
                (store_bytes (data_blocks sb1) (blk_addr BLOCK_SIZE v + 0) (chunk B k))) in *.
  destruct D as (W2 & Dptr & _ & _).
  split; [assumption|]. split; [lia|].
  split; [change (inode_at sb2 ino) with (inode_at sb1 ino); lia|].
  split; [apply (cnt_rel_trans sb0 sb sb2); [assumption|exact Fcnt]|].
  split; [change (inode_at sb2 ino) with (inode_at sb1 ino); congruence|].
  split.
  - intros p Hp Hno. rewrite Dptr by assumption.
    rewrite O1; [|assumption|apply Hno; lia].
    apply Hholes; [assumption|]. intros j Hj. apply Hno. lia.
  - intros j Hj. rewrite Dptr by (left; cbn; unfold OSFS_N_DIRECT; lia).
    destruct (Z.eq_dec j k) as [->|Hjk]; [congruence|].
    rewrite O1; [apply Hdone; lia|left; cbn; unfold OSFS_N_DIRECT; lia|congruence].
Qed.

(** The end of [osfs_write]: size and timestamps only. *)
Lemma write_tail_view (sy : osfs_sb_info) (posf now : Z) :
  valid_ino sy ino ->
  forall sz sf,
    sz = (if i_size (inode_at sy ino) <? posf
          then set_inode sy ino (with_i_size (inode_at sy ino) (wrap32 posf))
          else sy) ->
    sf = set_inode sz ino (with_mctime (inode_at sz ino) now) ->
    (forall k, slot sf ino k = slot sy ino k)
    /\ data_blocks sf = data_blocks sy
    /\ i_blocks (inode_at sf ino) = i_blocks (inode_at sy ino)
    /\ block_bitmap sf = block_bitmap sy
    /\ nr_free_blocks sf = nr_free_blocks sy
    /\ valid_ino sf ino.
Proof.
  intros Hv sz sf Hsz Hsf.
  assert (Hz : (forall k, slot sz ino k = slot sy ino k)
               /\ data_blocks sz = data_blocks sy
               /\ i_blocks (inode_at sz ino) = i_blocks (inode_at sy ino)
               /\ block_bitmap sz = block_bitmap sy
               /\ nr_free_blocks sz = nr_free_blocks sy
               /\ valid_ino sz ino).
  { subst sz. destruct (i_size (inode_at sy ino) <? posf).
    - destruct (meta_update_view sy (with_i_size (inode_at sy ino) (wrap32 posf)) Hv eq_refl)
        as (V & I & D & S).
      rewrite I. repeat split; try assumption; try reflexivity; apply V.
    - repeat split; try reflexivity; apply Hv. }
  destruct Hz as (S1 & D1 & I1 & B1 & N1 & V1).
  destruct (meta_update_view sz (with_mctime (inode_at sz ino) now) V1 eq_refl)
    as (V & I & D & S).
  subst sf. rewrite I.
  split; [intros k; rewrite S; apply S1|].
  split; [congruence|]. split; [exact I1|]. split; [exact B1|]. split; [exact N1|exact V].
Qed.

(** A one-byte write at offset [N_DIRECT * BLOCK_SIZE] into a file whose
    indirect pointer is still zero. *)
Lemma extend_into_indirect (s1 s2 : osfs_sb_info) (B2 : list byte) (now pos2 : Z) :
  WF s1 -> ptr s1 [12] = 0 -> length B2 = 1%nat ->
  osfs_write BLOCK_SIZE true now s1 ino B2 (12 * BLOCK_SIZE) = (s2, pos2, Ok 1) ->
  exists X Y,
    X <> 0 /\ Y <> 0 /\ X <> Y
    /\ test_bit X (block_bitmap s1) = false /\ test_bit Y (block_bitmap s1) = false
    /\ block_bitmap s2 = set_bit Y (set_bit X (block_bitmap s1))
    /\ ptr s2 [12] = X /\ ptr s2 [0; 12] = Y
    /\ (forall p, vpath p -> p <> [12] -> p <> [0; 12] -> ptr s2 p = ptr s1 p)
    /\ i_blocks (inode_at s2 ino) = i_blocks (inode_at s1 ino) + 2
    /\ nr_free_blocks s2 = wrap32 (nr_free_blocks s1 - 2).
Proof.
  intros Hwf Hz HB Hw.
  pose proof (wf_valid s1 Hwf) as Hv.
  unfold osfs_write in Hw. rewrite (valid_get_osfs_inode s1 ino Hv) in Hw.
  rewrite HB in Hw. change (Z.to_nat (Z.of_nat 1)) with 1%nat in Hw.
  change (Z.of_nat 1) with 1 in Hw.
  cbn [osfs_write_loop] in Hw. change (1 <=? 0) with false in Hw. cbv iota in Hw.
  rewrite Z.div_mul, Z_mod_mult in Hw by lia.
  change (0 <? 0) with false in Hw.
  destruct (osfs_get_block BLOCK_SIZE s1 ino 12 true) as [sx [v|e]] eqn:Eg; [|discriminate].
  destruct (Z.eqb_spec v 0) as [Hv0|Hv0]; [discriminate|].
  cbn [negb] in Hw.
  (* the block is in the single-indirect range *)
  destruct (get_block_create s1 sx 12 v Hwf ltac:(lia) Eg) as (Hmax & _).
  pose proof apb_nonneg as Hapb0.
  assert (Hapb : 0 < APB).
  { unfold max_blocks, OSFS_N_DIRECT in Hmax. nia. }
  apply get_osfs_inode_valid in Hv.
  pose proof (get_block_tiers BLOCK_SIZE BLOCK_SIZE_pos s1 ino 12 true Hv)
    as (_ & T2 & _).
  destruct T2 as [T2 _]; [unfold OSFS_N_DIRECT; lia|unfold OSFS_N_DIRECT; lia|].
  rewrite T2 in Eg. unfold resolve_indirect in Eg.
  change (12 - OSFS_N_DIRECT) with 0 in Eg. change OSFS_N_DIRECT with 12 in Eg.
  destruct (get_index_slot BLOCK_SIZE s1 ino 12 true) as [sa [X|e]] eqn:E1; [|discriminate].
  apply get_index_slot_create in E1; [|assumption|left; reflexivity].
  destruct E1 as (W1 & F1 & P1 & Vn1 & O1 & I1 & _ & N1).
  specialize (I1 Hz). destruct (N1 Hz) as (NX1 & NX2 & NX3).
  assert (Hlf : is_leaf [0; 12]) by (cbn; lia).
  rewrite <- P1 in Eg.
  apply (get_data_entry_create sa sx [12]) in Eg;
    [|assumption|assumption|congruence|congruence].
  destruct Eg as (W2 & F2 & P2 & Vn2 & O2 & I2 & _ & N2).
  assert (Hz2 : ptr sa [0; 12] = 0).
  { rewrite O1; [|left; assumption|congruence]. cbn [ptr] in *. rewrite Hz. reflexivity. }
  specialize (I2 Hz2). destruct (N2 Hz2) as (NY1 & NY2 & NY3).
  (* the byte goes into the new data block *)
  assert (Hnz : ptr sx [0; 12] <> 0) by congruence.
  set (bytes := firstn (Z.to_nat (Z.min 1 (BLOCK_SIZE - 0))) (skipn (Z.to_nat 0) B2)) in *.
  assert (Hfit : 0 + Z.of_nat (length bytes) <= BLOCK_SIZE).
  { unfold bytes. rewrite length_firstn. lia. }
  pose proof (data_store sx [0; 12] 0 bytes W2 Hlf Hnz ltac:(lia) Hfit) as D.
  rewrite P2 in D. cbv zeta in D.
  set (sy := with_data_blocks sx
               (store_bytes (data_blocks sx) (blk_addr BLOCK_SIZE v + 0) bytes)) in *.
  destruct D as (W3 & Dptr & _ & _).
  injection Hw as Hs2 Hp2 _.
  destruct (write_tail_view sy (12 * BLOCK_SIZE + Z.min 1 (BLOCK_SIZE - 0)) now
              (wf_valid sy W3) _ s2 eq_refl (eq_sym Hs2))
    as (S & Dt & It & Bt & Nt & Vt).
  pose proof (ptr_ext sy s2 S Dt) as Hp.
  assert (HXY : X <> v /\ test_bit v (block_bitmap s1) = false).
  { rewrite NX2, test_bit_set_bit in NY1.
    - apply orb_false_iff in NY1. destruct NY1 as [E1 E2].
      split; [apply Z.eqb_neq; assumption|assumption].
    - destruct (wf_ptr sa W1 [12] (or_intror (or_introl eq_refl))) as [R _]; [congruence|lia]. }
  exists X, v.
  split; [assumption|]. split; [assumption|]. split; [apply HXY|].
  split; [assumption|]. split; [apply HXY|].
  split; [rewrite Bt; change (block_bitmap sy) with (block_bitmap sx); congruence|].
  split.
  { rewrite Hp, Dptr by (right; left; reflexivity).
    rewrite O2; [assumption|right; left; reflexivity|congruence]. }
  split.
  { rewrite Hp, Dptr by (left; assumption). assumption. }
  split.
  { intros p Hvp Hn1 Hn2. rewrite Hp, Dptr by assumption.
    rewrite O2 by assumption. apply O1; assumption. }
  split.
  { rewrite It. change (inode_at sy ino) with (inode_at sx ino). lia. }
  rewrite Nt. change (nr_free_blocks sy) with (nr_free_blocks sx).
  rewrite NY3, NX3. rewrite (wrap32_sub_wrap32 (nr_free_blocks s1) 1 1). reflexivity.
Qed.

Lemma write_tail_WF (sy : osfs_sb_info) (posf now : Z) :
  WF sy ->
  WF (set_inode
        (if i_size (inode_at sy ino) <? posf
         then set_inode sy ino (with_i_size (inode_at sy ino) (wrap32 posf))
         else sy) ino
        (with_mctime
           (inode_at (if i_size (inode_at sy ino) <? posf
                      then set_inode sy ino (with_i_size (inode_at sy ino) (wrap32 posf))
                      else sy) ino) now)).
Proof.
  intros Hwf.
  assert (Hz : WF (if i_size (inode_at sy ino) <? posf
                   then set_inode sy ino (with_i_size (inode_at sy ino) (wrap32 posf))
                   else sy)).
  { destruct (i_size (inode_at sy ino) <? posf); [|assumption].
    apply WF_meta_update; [assumption|reflexivity|reflexivity]. }
  apply WF_meta_update; [assumption|reflexivity|reflexivity].
Qed.


End BlockTree.

(** ** The reference configuration, with a file in it

    After mount and [create "a.txt"]: inode 2 is the new empty file and
    block 0 holds the root directory. *)

Definition file_state : osfs_sb_info := fst after_create.

(** 5000 bytes, two blocks. *)
Definition bytes_5000 : list byte := repeat Byte.x41 (Z.to_nat 5000).
Local Notation "'write_5000'" := (osfs_write 4096 true 3 file_state 2 bytes_5000 0).

(** A result is the triple of its parts; only the last one is computed
    when a run is checked. *)
Lemma triple_eta {A B C : Type} (x : A * B * C) (c : C) :
  snd x = c -> x = (fst (fst x), snd (fst x), c).
Proof. destruct x as [[a b] c']. cbn. intros ->. reflexivity. Defined.

Lemma write_then_read_returns_written_witness :
  osfs_read 4096 true (fst (fst write_5000)) 2 (Z.of_nat (length bytes_5000)) 0
  = (fst (fst write_5000), Z.of_nat (length bytes_5000), Ok bytes_5000).
Proof.
  apply (write_then_read_returns_written 4096 ltac:(lia) 2 file_state
           (fst (fst write_5000)) (inode_at file_state 2) bytes_5000 3
           (snd (fst write_5000))).
  - vm_compute. reflexivity.
  - vm_compute. reflexivity.
  - vm_compute. reflexivity.
  - vm_compute. reflexivity.
  - vm_compute. reflexivity.
  - vm_compute. discriminate.
  - apply triple_eta. vm_compute. reflexivity.
Defined.

(** More bytes than the 19 free blocks hold. *)
Definition bytes_19_blocks : list byte := repeat Byte.x01 (Z.to_nat (19 * 4096)).
Local Notation "'write_19_blocks'" :=
  (osfs_write 4096 true 3 file_state 2 bytes_19_blocks 0).

(** Number of bytes a read delivered. *)
Definition delivered (r : result (list byte)) : Z :=
  match r with
  | Ok out => Z.of_nat (length out)
  | Err _ => -1
  end.

Lemma delivered_neq (r : result (list byte)) (B : list byte) (n : Z) :
  delivered r = n -> n <> Z.of_nat (length B) -> r <> Ok B.
Proof. intros H1 H2 E. subst r. cbn in H1. congruence. Qed.

(** C2, as stated, fails: the file is fresh and empty, the buffer has
    77824 bytes, the write stores 73728 of them (twelve direct blocks,
    the index block and six blocks behind it use up the data area), and
    reading 77824 bytes from offset 0 delivers 73728 bytes, not the
    buffer. *)
Lemma write_beyond_capacity_counterexample :
  i_block (inode_at file_state 2) = repeat 0 (Z.to_nat OSFS_N_BLOCKS)
  /\ i_size (inode_at file_state 2) = 0
  /\ Z.of_nat (length bytes_19_blocks) = 77824
  /\ snd write_19_blocks = Ok 73728
  /\ delivered (snd (osfs_read 4096 true (fst (fst write_19_blocks)) 2
                       (Z.of_nat (length bytes_19_blocks)) 0)) = 73728
  /\ snd (osfs_read 4096 true (fst (fst write_19_blocks)) 2
            (Z.of_nat (length bytes_19_blocks)) 0)
     <> Ok bytes_19_blocks.
Proof.
  split; [vm_compute; reflexivity|].
  split; [vm_compute; reflexivity|].
  split; [vm_compute; reflexivity|].
  split; [vm_compute; reflexivity|].
  split; [vm_compute; reflexivity|].
  apply (delivered_neq
           (snd (osfs_read 4096 true (fst (fst write_19_blocks)) 2
                   (Z.of_nat (length bytes_19_blocks)) 0))
           bytes_19_blocks 73728).
  - vm_compute. reflexivity.
  - vm_compute. discriminate.
Qed.

(** Twelve full blocks, then one more byte. *)
Definition bytes_12_blocks : list byte := repeat Byte.x41 (Z.to_nat (12 * 4096)).
Local Notation "'write_direct'" := (osfs_write 4096 true 3 file_state 2 bytes_12_blocks 0).
Local Notation "'write_extend'" :=
  (osfs_write 4096 true 4 (fst (fst write_direct)) 2 [Byte.x42] (snd (fst write_direct))).


(** The same two writes when 13 blocks are free.  The file [a.txt]
    (inode 2) is given six blocks, then [b] (inode 3) is created. *)
Definition bytes_6_blocks : list byte := repeat Byte.x43 (Z.to_nat (6 * 4096)).
Definition crowded_state : osfs_sb_info :=
  fst (osfs_create 4096 true 0 0 4
         (fst (fst (osfs_write 4096 true 3 file_state 2 bytes_6_blocks 0)))
         ROOT_INODE name_b S_IFREG).
Local Notation "'crowded_direct'" :=
  (osfs_write 4096 true 5 crowded_state 3 bytes_12_blocks 0).
Local Notation "'crowded_extend'" :=
  (osfs_write 4096 true 6 (fst (fst crowded_direct)) 3 [Byte.x42]
     (snd (fst crowded_direct))).


(** ** Freeing the blocks of an inode *)

Section FreeBlocks.

Variable BLOCK_SIZE : Z.
Variable ino : Z.

(** The inode table is where it was: same records, same count. *)
Definition same_table (sb sb' : osfs_sb_info) : Prop :=
  inode_table sb' = inode_table sb /\ inode_count sb' = inode_count sb.

Lemma same_table_refl (sb : osfs_sb_info) : same_table sb sb.
Proof. split; reflexivity. Qed.

Lemma same_table_trans (a b c : osfs_sb_info) :
  same_table a b -> same_table b c -> same_table a c.
Proof. intros [H1 H2] [H3 H4]. split; congruence. Qed.

Lemma same_table_slot (sb sb' : osfs_sb_info) (k : Z) :
  same_table sb sb' -> slot sb' ino k = slot sb ino k.
Proof. intros [H _]. unfold slot, inode_at. rewrite H. reflexivity. Qed.

Lemma same_table_inode_at (sb sb' : osfs_sb_info) :
  same_table sb sb' -> inode_at sb' ino = inode_at sb ino.
Proof. intros [H _]. unfold inode_at. rewrite H. reflexivity. Qed.

Lemma same_table_valid (sb sb' : osfs_sb_info) :
  same_table sb sb' -> valid_ino sb ino -> valid_ino sb' ino.
Proof. intros [H1 H2]. unfold valid_ino. rewrite H1, H2. tauto. Qed.

Lemma same_table_free_block (sb : osfs_sb_info) (b : Z) :
  same_table sb (osfs_free_data_block sb b).
Proof. split; reflexivity. Qed.

Lemma same_table_free_entries (sb : osfs_sb_info) (tbl : Z) :
  same_table sb (free_entries BLOCK_SIZE sb tbl).
Proof.
  unfold free_entries.
  generalize (seq 0 (Z.to_nat (OSFS_ADDR_PER_BLOCK BLOCK_SIZE))) as l.
  intros l; revert sb; induction l as [|i l IH]; intros sb; cbn [fold_left].
  - apply same_table_refl.
  - eapply same_table_trans; [|apply IH].
    destruct (load_entry BLOCK_SIZE sb tbl (Z.of_nat i) =? 0);
      [apply same_table_refl|apply same_table_free_block].
Qed.

Lemma nth_list_upd_zero (l : list Z) (n : nat) : nth n (list_upd l n 0) 0 = 0.
Proof.
  revert n; induction l as [|h t IH]; intros [|n]; cbn; auto.
Qed.

Lemma slot_set_slot_zero (sb : osfs_sb_info) (k : Z) :
  valid_ino sb ino -> slot (set_slot sb ino k 0) ino k = 0.
Proof.
  intros [_ Hv]. unfold slot, set_slot.
  rewrite inode_at_set_inode_same by assumption.
  cbn [i_block with_i_block]. apply nth_list_upd_zero.
Qed.

Lemma valid_ino_set_slot (sb : osfs_sb_info) (k v : Z) :
  valid_ino sb ino -> valid_ino (set_slot sb ino k v) ino.
Proof. intros H. unfold set_slot. apply valid_ino_set_inode. assumption. Qed.

(** One step of the loop over the direct pointers. *)
Definition free_direct_step (acc : osfs_sb_info) (i : nat) : osfs_sb_info :=
  if slot acc ino (Z.of_nat i) =? 0 then acc
  else set_slot (osfs_free_data_block acc (slot acc ino (Z.of_nat i))) ino (Z.of_nat i) 0.

Lemma free_direct_step_spec (acc : osfs_sb_info) (i : nat) :
  valid_ino acc ino ->
  valid_ino (free_direct_step acc i) ino
  /\ slot (free_direct_step acc i) ino (Z.of_nat i) = 0
  /\ (forall k, 0 <= k -> k <> Z.of_nat i ->
        slot (free_direct_step acc i) ino k = slot acc ino k).
Proof.
  intros Hv. unfold free_direct_step.
  destruct (Z.eqb_spec (slot acc ino (Z.of_nat i)) 0) as [E|E].
  - split; [assumption|]. split; [assumption|]. intros; reflexivity.
  - set (a1 := osfs_free_data_block acc (slot acc ino (Z.of_nat i))).
    assert (Hv1 : valid_ino a1 ino) by exact Hv.
    split; [apply valid_ino_set_slot; assumption|].
    split; [apply slot_set_slot_zero; assumption|].
    intros k Hk Hne. rewrite slot_set_slot_other; [reflexivity|apply Hv1|lia|assumption|congruence].
Qed.

Lemma free_direct_fold (l : list nat) (acc : osfs_sb_info) :
  valid_ino acc ino ->
  valid_ino (fold_left free_direct_step l acc) ino
  /\ (forall k, 0 <= k -> (exists i, In i l /\ k = Z.of_nat i) \/ slot acc ino k = 0 ->
        slot (fold_left free_direct_step l acc) ino k = 0)
  /\ (forall k, 0 <= k -> (forall i, In i l -> k <> Z.of_nat i) ->
        slot (fold_left free_direct_step l acc) ino k = slot acc ino k).
Proof.
  revert acc; induction l as [|i l IH]; intros acc Hv; cbn [fold_left].
  - split; [assumption|]. split.
    + intros k Hk [(i & [] & _)|H]; assumption.
    + intros; reflexivity.
  - destruct (free_direct_step_spec acc i Hv) as (Hv1 & Hz1 & Ho1).
    destruct (IH (free_direct_step acc i) Hv1) as (Hv2 & Hz2 & Ho2).
    split; [assumption|]. split.
    + intros k Hk H. apply Hz2; [assumption|].
      destruct H as [(j & [Hj|Hj] & ->)|H].
      * subst j. right. assumption.
      * left. exists j. split; [assumption|reflexivity].
      * right. destruct (Z.eq_dec k (Z.of_nat i)) as [->|Hne]; [assumption|].
        rewrite Ho1; assumption.
    + intros k Hk H. rewrite Ho2.
      * apply Ho1; [assumption|]. apply H. left; reflexivity.
      * assumption.
      * intros j Hj. apply H. right; assumption.
Qed.

Lemma free_direct_eq (sb : osfs_sb_info) :
  free_direct sb ino = fold_left free_direct_step (seq 0 (Z.to_nat OSFS_N_DIRECT)) sb.
Proof. reflexivity. Qed.

Lemma free_direct_spec (sb : osfs_sb_info) :
  valid_ino sb ino ->
  valid_ino (free_direct sb ino) ino
  /\ (forall k, 0 <= k < 12 -> slot (free_direct sb ino) ino k = 0)
  /\ (forall k, 12 <= k -> slot (free_direct sb ino) ino k = slot sb ino k)
  /\ (forall k, 0 <= k -> slot sb ino k = 0 -> slot (free_direct sb ino) ino k = 0).
Proof.
  intros Hv. rewrite free_direct_eq.
  destruct (free_direct_fold (seq 0 (Z.to_nat OSFS_N_DIRECT)) sb Hv) as (Hv1 & Hz & Ho).
  split; [assumption|]. split; [|split].
  - intros k Hk. apply Hz; [lia|]. left. exists (Z.to_nat k).
    split; [apply in_seq; change (Z.to_nat OSFS_N_DIRECT) with 12%nat; lia|lia].
  - intros k Hk. apply Ho; [lia|].
    intros i Hi. apply in_seq in Hi. change (Z.to_nat OSFS_N_DIRECT) with 12%nat in Hi. lia.
  - intros k Hk H. apply Hz; [assumption|]. right. assumption.
Qed.

(** Freeing through an index pointer kept in slot [k] of the inode. *)
Lemma free_index_slot_spec (sb sb1 : osfs_sb_info) (k b : Z) :
  valid_ino sb ino -> same_table sb sb1 -> 0 <= k ->
  let sb' := set_slot (osfs_free_data_block sb1 b) ino k 0 in
  valid_ino sb' ino
  /\ slot sb' ino k = 0
  /\ (forall k', 0 <= k' -> k' <> k -> slot sb' ino k' = slot sb ino k').
Proof.
  intros Hv Hs Hk sb'.
  assert (Hv1 : valid_ino (osfs_free_data_block sb1 b) ino)
    by (apply (same_table_valid sb sb1); assumption).
  split; [apply valid_ino_set_slot; assumption|].
  split; [apply slot_set_slot_zero; assumption|].
  intros k' Hk' Hne. unfold sb'.
  rewrite slot_set_slot_other; [|apply Hv1|assumption|assumption|congruence].
  change (slot (osfs_free_data_block sb1 b) ino k') with (slot sb1 ino k').
  apply same_table_slot. assumption.
Qed.

Lemma free_indirect_spec (sb : osfs_sb_info) :
  valid_ino sb ino ->
  valid_ino (free_indirect BLOCK_SIZE sb ino) ino
  /\ slot (free_indirect BLOCK_SIZE sb ino) ino 12 = 0
  /\ (forall k, 0 <= k -> k <> 12 ->
        slot (free_indirect BLOCK_SIZE sb ino) ino k = slot sb ino k).
Proof.
  intros Hv. unfold free_indirect. change OSFS_N_DIRECT with 12.
  destruct (Z.eqb_spec (slot sb ino 12) 0) as [E|E].
  - split; [assumption|]. split; [assumption|]. intros; reflexivity.
  - cbv zeta.
    apply (free_index_slot_spec sb (free_entries BLOCK_SIZE sb (slot sb ino 12)));
      [assumption|apply same_table_free_entries|lia].
Qed.

Lemma same_table_free_dindirect_fold (top : Z) (l : list nat) (sb : osfs_sb_info) :
  same_table sb
    (fold_left
       (fun acc i =>
          if load_entry BLOCK_SIZE acc top (Z.of_nat i) =? 0 then acc
          else
            let acc1 := free_entries BLOCK_SIZE acc (load_entry BLOCK_SIZE acc top (Z.of_nat i)) in
            osfs_free_data_block acc1 (load_entry BLOCK_SIZE acc1 top (Z.of_nat i)))
       l sb).
Proof.
  revert sb; induction l as [|i l IH]; intros sb; cbn [fold_left].
  - apply same_table_refl.
  - eapply same_table_trans; [|apply IH].
    destruct (load_entry BLOCK_SIZE sb top (Z.of_nat i) =? 0); [apply same_table_refl|].
    cbv zeta. eapply same_table_trans; [apply same_table_free_entries|apply same_table_free_block].
Qed.

Lemma free_dindirect_spec (sb : osfs_sb_info) :
  valid_ino sb ino ->
  valid_ino (free_dindirect BLOCK_SIZE sb ino) ino
  /\ slot (free_dindirect BLOCK_SIZE sb ino) ino 13 = 0
  /\ (forall k, 0 <= k -> k <> 13 ->
        slot (free_dindirect BLOCK_SIZE sb ino) ino k = slot sb ino k).
Proof.
  intros Hv. unfold free_dindirect. change (OSFS_N_DIRECT + 1) with 13.
  destruct (Z.eqb_spec (slot sb ino 13) 0) as [E|E].
  - split; [assumption|]. split; [assumption|]. intros; reflexivity.
  - cbv zeta.
    apply (free_index_slot_spec sb); [assumption|apply same_table_free_dindirect_fold|lia].
Qed.

End FreeBlocks.

Lemma free_direct_fold_noop (ino : Z) (l : list nat) (acc : osfs_sb_info) :
  (forall i, In i l -> slot acc ino (Z.of_nat i) = 0) ->
  fold_left (free_direct_step ino) l acc = acc.
Proof.
  induction l as [|i l IH]; intros H; cbn [fold_left]; [reflexivity|].
  assert (E : free_direct_step ino acc i = acc).
  { unfold free_direct_step. rewrite (H i (or_introl eq_refl)). reflexivity. }
  rewrite E. apply IH. intros j Hj. apply H. right; assumption.
Qed.

Lemma free_direct_noop (sb : osfs_sb_info) (ino : Z) :
  (forall k, 0 <= k < OSFS_N_DIRECT -> slot sb ino k = 0) ->
  free_direct sb ino = sb.
Proof.
  intros H. rewrite free_direct_eq. apply free_direct_fold_noop.
  intros i Hi. apply in_seq in Hi. apply H.
  change (Z.to_nat OSFS_N_DIRECT) with 12%nat in Hi. change OSFS_N_DIRECT with 12. lia.
Qed.

Lemma with_i_blocks_zero_same (ind : osfs_inode) :
  i_blocks ind = 0 -> with_i_blocks ind 0 = ind.
Proof. destruct ind; cbn; intros ->; reflexivity. Qed.

(** On an inode whose fourteen pointers are all zero, the call only
    writes the usage counter. *)
Lemma free_inode_blocks_all_zero (BLOCK_SIZE : Z) (sb : osfs_sb_info) (ino : Z) :
  valid_ino sb ino ->
  (forall k, 0 <= k < OSFS_N_BLOCKS -> slot sb ino k = 0) ->
  osfs_free_inode_blocks BLOCK_SIZE sb ino
  = set_inode sb ino (with_i_blocks (inode_at sb ino) 0).
Proof.
  intros Hv Hz. unfold osfs_free_inode_blocks.
  rewrite (valid_get_osfs_inode sb ino Hv). cbv zeta.
  rewrite free_direct_noop
    by (intros k Hk; apply Hz; change OSFS_N_BLOCKS with 14;
        change OSFS_N_DIRECT with 12 in Hk; lia).
  unfold free_indirect. rewrite (Hz OSFS_N_DIRECT) by (cbv; split; congruence).
  cbn [Z.eqb].
  unfold free_dindirect. rewrite (Hz (OSFS_N_DIRECT + 1)) by (cbv; split; congruence).
  reflexivity.
Qed.

Lemma slot_reset_i_blocks (sb : osfs_sb_info) (ino k v : Z) :
  (Z.to_nat ino < length (inode_table sb))%nat ->
  slot (set_inode sb ino (with_i_blocks (inode_at sb ino) v)) ino k = slot sb ino k.
Proof.
  intros H. unfold slot. rewrite inode_at_set_inode_same by assumption. reflexivity.
Qed.

Lemma i_blocks_reset_i_blocks (sb : osfs_sb_info) (ino v : Z) :
  (Z.to_nat ino < length (inode_table sb))%nat ->
  i_blocks (inode_at (set_inode sb ino (with_i_blocks (inode_at sb ino) v)) ino) = v.
Proof.
  intros H. rewrite inode_at_set_inode_same by assumption. reflexivity.
Qed.

(** The three tiers in sequence leave every pointer of the inode zero. *)
Lemma free_tiers_zeroed (BLOCK_SIZE : Z) (sb : osfs_sb_info) (ino : Z) :
  valid_ino sb ino ->
  valid_ino (free_dindirect BLOCK_SIZE (free_indirect BLOCK_SIZE (free_direct sb ino) ino) ino) ino
  /\ (forall k, 0 <= k < 14 ->
        slot (free_dindirect BLOCK_SIZE (free_indirect BLOCK_SIZE (free_direct sb ino) ino) ino)
             ino k = 0).
Proof.
  intros Hv.
  destruct (free_direct_spec ino sb Hv) as (Hv1 & Hd1 & _ & _).
  revert Hv1 Hd1. generalize (free_direct sb ino). intros s1 Hv1 Hd1.
  destruct (free_indirect_spec BLOCK_SIZE ino s1 Hv1) as (Hv2 & Hi2 & Ho2).
  revert Hv2 Hi2 Ho2. generalize (free_indirect BLOCK_SIZE s1 ino). intros s2 Hv2 Hi2 Ho2.
  destruct (free_dindirect_spec BLOCK_SIZE ino s2 Hv2) as (Hv3 & Hi3 & Ho3).
  revert Hv3 Hi3 Ho3. generalize (free_dindirect BLOCK_SIZE s2 ino). intros s3 Hv3 Hi3 Ho3.
  split; [assumption|].
  intros k Hk.
  destruct (Z.eq_dec k 13) as [->|H13]; [assumption|].
  rewrite Ho3 by lia.
  destruct (Z.eq_dec k 12) as [->|H12]; [assumption|].
  rewrite Ho2 by lia.
  apply Hd1. lia.
Qed.

(** After the call every pointer of the inode is zero and so is its
    usage counter. *)
Lemma free_inode_blocks_zeroed (BLOCK_SIZE : Z) (sb : osfs_sb_info) (ino : Z) :
  valid_ino sb ino ->
  valid_ino (osfs_free_inode_blocks BLOCK_SIZE sb ino) ino
  /\ (forall k, 0 <= k < OSFS_N_BLOCKS ->
        slot (osfs_free_inode_blocks BLOCK_SIZE sb ino) ino k = 0)
  /\ i_blocks (inode_at (osfs_free_inode_blocks BLOCK_SIZE sb ino) ino) = 0.
Proof.
  intros Hv. unfold osfs_free_inode_blocks.
  rewrite (valid_get_osfs_inode sb ino Hv). cbv zeta.
  destruct (free_tiers_zeroed BLOCK_SIZE sb ino Hv) as (Hv3 & Hz3).
  revert Hv3 Hz3.
  generalize (free_dindirect BLOCK_SIZE (free_indirect BLOCK_SIZE (free_direct sb ino) ino) ino).
  intros s3 Hv3 Hz3.
  split; [apply valid_ino_set_inode; assumption|].
  split.
  - intros k Hk. rewrite slot_reset_i_blocks by apply Hv3. apply Hz3. exact Hk.
  - apply i_blocks_reset_i_blocks. apply Hv3.
Qed.

Lemma free_inode_blocks_invalid (BLOCK_SIZE : Z) (sb : osfs_sb_info) (ino : Z) :
  osfs_get_osfs_inode sb ino = None ->
  osfs_free_inode_blocks BLOCK_SIZE sb ino = sb.
Proof. intros H. unfold osfs_free_inode_blocks. rewrite H. reflexivity. Qed.

Lemma free_inode_blocks_zero_noop (BLOCK_SIZE : Z) (sb : osfs_sb_info) (ino : Z) :
  valid_ino sb ino ->
  (forall k, 0 <= k < OSFS_N_BLOCKS -> slot sb ino k = 0) ->
  i_blocks (inode_at sb ino) = 0 ->
  osfs_free_inode_blocks BLOCK_SIZE sb ino = sb.
Proof.
  intros Hv Hz Hb.
  rewrite (free_inode_blocks_all_zero BLOCK_SIZE sb ino Hv Hz).
  rewrite (with_i_blocks_zero_same _ Hb). apply set_inode_same.
Qed.

Lemma free_inode_blocks_twice (BLOCK_SIZE : Z) (sb : osfs_sb_info) (ino : Z) :
  osfs_free_inode_blocks BLOCK_SIZE (osfs_free_inode_blocks BLOCK_SIZE sb ino) ino
  = osfs_free_inode_blocks BLOCK_SIZE sb ino.
Proof.
  destruct (osfs_get_osfs_inode sb ino) as [ind|] eqn:Hget.
  - assert (Hv : valid_ino sb ino) by (apply get_osfs_inode_valid; congruence).
    destruct (free_inode_blocks_zeroed BLOCK_SIZE sb ino Hv) as (Hv1 & Hz1 & Hb1).
    apply free_inode_blocks_zero_noop; assumption.
  - rewrite (free_inode_blocks_invalid BLOCK_SIZE sb ino Hget).
    apply free_inode_blocks_invalid. assumption.
Qed.

(** C8. [osfs_free_inode_blocks] is idempotent on an inode: a second call
    right after the first returns the state of the first, so it changes no
    bit of the block bitmap and leaves [nr_free_blocks] as it is.  On an
    inode whose fourteen pointers are already zero the call changes neither
    the bitmap, nor the free-block counter, nor the data area, nor any
    pointer; the usage counter [i_blocks] is zero afterwards, and when it
    was zero before the whole state is unchanged. *)
Theorem free_inode_blocks_idempotent (BLOCK_SIZE : Z) (sb : osfs_sb_info) (ino : Z) :
  osfs_free_inode_blocks BLOCK_SIZE (osfs_free_inode_blocks BLOCK_SIZE sb ino) ino
  = osfs_free_inode_blocks BLOCK_SIZE sb ino
  /\ block_bitmap (osfs_free_inode_blocks BLOCK_SIZE
                     (osfs_free_inode_blocks BLOCK_SIZE sb ino) ino)
     = block_bitmap (osfs_free_inode_blocks BLOCK_SIZE sb ino)
  /\ nr_free_blocks (osfs_free_inode_blocks BLOCK_SIZE
                       (osfs_free_inode_blocks BLOCK_SIZE sb ino) ino)
     = nr_free_blocks (osfs_free_inode_blocks BLOCK_SIZE sb ino)
  /\ ((forall k, 0 <= k < OSFS_N_BLOCKS -> slot sb ino k = 0) ->
      block_bitmap (osfs_free_inode_blocks BLOCK_SIZE sb ino) = block_bitmap sb
      /\ nr_free_blocks (osfs_free_inode_blocks BLOCK_SIZE sb ino) = nr_free_blocks sb
      /\ data_blocks (osfs_free_inode_blocks BLOCK_SIZE sb ino) = data_blocks sb
      /\ (forall k, slot (osfs_free_inode_blocks BLOCK_SIZE sb ino) ino k = slot sb ino k)
      /\ (osfs_get_osfs_inode sb ino <> None ->
          i_blocks (inode_at (osfs_free_inode_blocks BLOCK_SIZE sb ino) ino) = 0)
      /\ (i_blocks (inode_at sb ino) = 0 ->
          osfs_free_inode_blocks BLOCK_SIZE sb ino = sb)).
Proof.
  split; [apply free_inode_blocks_twice|].
  split; [f_equal; apply free_inode_blocks_twice|].
  split; [f_equal; apply free_inode_blocks_twice|].
  intros Hz.
  destruct (osfs_get_osfs_inode sb ino) as [ind|] eqn:Hget.
  - assert (Hv : valid_ino sb ino) by (apply get_osfs_inode_valid; congruence).
    pose proof (free_inode_blocks_all_zero BLOCK_SIZE sb ino Hv Hz) as E.
    assert (Hat : inode_at (osfs_free_inode_blocks BLOCK_SIZE sb ino) ino
                  = with_i_blocks (inode_at sb ino) 0)
      by (rewrite E; apply inode_at_set_inode_same; apply Hv).
    split; [rewrite E; reflexivity|].
    split; [rewrite E; reflexivity|].
    split; [rewrite E; reflexivity|].
    split; [intros k; unfold slot; rewrite Hat; reflexivity|].
    split; [intros _; rewrite Hat; reflexivity|].
    intros H0. apply free_inode_blocks_zero_noop; assumption.
  - rewrite (free_inode_blocks_invalid BLOCK_SIZE sb ino Hget).
    split; [reflexivity|]. split; [reflexivity|]. split; [reflexivity|].
    split; [reflexivity|].
    split; [intros H; exfalso; apply H; reflexivity|]. intros _; reflexivity.
Qed.

Lemma free_inode_blocks_idempotent_witness :
  (forall k, 0 <= k < OSFS_N_BLOCKS -> slot file_state 2 k = 0)
  /\ block_bitmap (osfs_free_inode_blocks 4096 file_state 2) = block_bitmap file_state
  /\ nr_free_blocks (osfs_free_inode_blocks 4096 file_state 2) = nr_free_blocks file_state.
Proof.
  assert (H : forall k, 0 <= k < OSFS_N_BLOCKS -> slot file_state 2 k = 0).
  { intros k Hk. change OSFS_N_BLOCKS with 14 in Hk.
    assert (E : k = 0 \/ k = 1 \/ k = 2 \/ k = 3 \/ k = 4 \/ k = 5 \/ k = 6 \/ k = 7
                \/ k = 8 \/ k = 9 \/ k = 10 \/ k = 11 \/ k = 12 \/ k = 13) by lia.
    repeat (destruct E as [E|E]; [rewrite E; vm_compute; reflexivity|]).
    rewrite E; vm_compute; reflexivity. }
  split; [exact H|].
  destruct (free_inode_blocks_idempotent 4096 file_state 2) as (_ & _ & _ & Hz).
  destruct (Hz H) as (Hb & Hn & _).
  split; assumption.
Defined.

(** ** A hole in the direct pointers *)

(** In read mode a direct pointer that is 0 is handed back as it is. *)
Lemma read_direct_hole (BLOCK_SIZE : Z) (sb : osfs_sb_info) (ino b : Z)
    (ind : osfs_inode) :
  osfs_get_osfs_inode sb ino = Some ind ->
  0 <= b < OSFS_N_DIRECT ->
  slot sb ino b = 0 ->
  osfs_get_block BLOCK_SIZE sb ino b false = (sb, Ok 0).
Proof.
  intros Hget Hb Hs.
  assert (Hlt : (b <? OSFS_N_DIRECT) = true) by (apply Z.ltb_lt; lia).
  unfold osfs_get_block. rewrite Hget, Hlt. unfold get_data_slot.
  rewrite Hs. reflexivity.
Qed.

(** C6.  The read half of the claim fails.  On the empty file of
    [file_state] (inode 2) logical block 3 lies in the direct pointers and
    its slot is 0, a hole.  [osfs_get_block] with [create = false] returns
    success with physical block 0 and leaves the state as it is; it does
    not return [ENOENT], which the claim asks for and which the comment at
    the head of the function promises for the read mode when the block does
    not exist.  The same call on logical block 12, and on logical block
    12 + 1024, of the same file, where the index block is missing, does
    return [ENOENT].  With [create = true] the hole is filled as claimed:
    block 1, free before, is returned, stored in the slot and marked in the
    bitmap. *)
Theorem read_of_direct_hole_is_not_an_error :
  osfs_get_osfs_inode file_state 2 <> None
  /\ 0 <= 3 < OSFS_N_DIRECT
  /\ slot file_state 2 3 = 0
  /\ osfs_get_block 4096 file_state 2 3 false = (file_state, Ok 0)
  /\ snd (osfs_get_block 4096 file_state 2 3 false) <> Err ENOENT
  /\ snd (osfs_get_block 4096 file_state 2 12 false) = Err ENOENT
  /\ snd (osfs_get_block 4096 file_state 2 (12 + 1024) false) = Err ENOENT
  /\ snd (osfs_get_block 4096 file_state 2 3 true) = Ok 1
  /\ test_bit 1 (block_bitmap file_state) = false
  /\ slot (fst (osfs_get_block 4096 file_state 2 3 true)) 2 3 = 1
  /\ test_bit 1 (block_bitmap (fst (osfs_get_block 4096 file_state 2 3 true))) = true.
Proof.
  assert (Hb : 0 <= 3 < OSFS_N_DIRECT) by (cbv; split; congruence).
  assert (Hs : slot file_state 2 3 = 0) by (vm_compute; reflexivity).
  split; [vm_compute; discriminate|].
  split; [exact Hb|].
  split; [exact Hs|].
  split.
  { apply (read_direct_hole 4096 file_state 2 3 (inode_at file_state 2));
      [vm_compute; reflexivity|exact Hb|exact Hs]. }
  split; [vm_compute; discriminate|].
  do 5 (split; [vm_compute; reflexivity|]).
  vm_compute. reflexivity.
Qed.

(** A hole of the direct pointers in general.  For an inode and a
    logical block [b < N_DIRECT] whose direct pointer is 0: with
    [create = false], [osfs_get_block] returns success with physical
    block 0 and leaves the state as it is (it does not return [ENOENT];
    the callers test the block number for 0).
    With [create = true] it returns [ENOSPC] and leaves the state as it is
    when no block is free; otherwise it takes the lowest free block, sets
    its bit, stores its number in the slot [b], returns it, lowers
    [nr_free_blocks] by one and raises [i_blocks] by one (both in 32 bits),
    and leaves the other pointers and the data area as they are. *)
Theorem get_block_direct_hole (BLOCK_SIZE : Z) (sb : osfs_sb_info) (ino b : Z)
    (ind : osfs_inode) :
  osfs_get_osfs_inode sb ino = Some ind ->
  length (i_block ind) = Z.to_nat OSFS_N_BLOCKS ->
  0 <= b < OSFS_N_DIRECT ->
  slot sb ino b = 0 ->
  osfs_get_block BLOCK_SIZE sb ino b false = (sb, Ok 0)
  /\ match osfs_alloc_data_block sb with
     | (_, Err _) => osfs_get_block BLOCK_SIZE sb ino b true = (sb, Err ENOSPC)
     | (_, Ok blk) =>
         exists sb',
           osfs_get_block BLOCK_SIZE sb ino b true = (sb', Ok blk)
           /\ slot sb' ino b = blk
           /\ 0 <= blk < block_count sb
           /\ test_bit blk (block_bitmap sb) = false
           /\ (forall j, 0 <= j < blk -> test_bit j (block_bitmap sb) = true)
           /\ block_bitmap sb' = set_bit blk (block_bitmap sb)
           /\ nr_free_blocks sb' = wrap32 (nr_free_blocks sb - 1)
           /\ i_blocks (inode_at sb' ino) = wrap32 (i_blocks (inode_at sb ino) + 1)
           /\ (forall k, 0 <= k -> k <> b -> slot sb' ino k = slot sb ino k)
           /\ data_blocks sb' = data_blocks sb
     end.
Proof.
  intros Hget Hlen Hb Hs.
  destruct (get_osfs_inode_some sb ino ind Hget) as (Hv & Hat).
  assert (Hlt : (b <? OSFS_N_DIRECT) = true) by (apply Z.ltb_lt; lia).
  split.
  - unfold osfs_get_block. rewrite Hget, Hlt. unfold get_data_slot.
    rewrite Hs. reflexivity.
  - destruct (osfs_alloc_data_block sb) as [sb1 [blk|e]] eqn:Ha.
    + destruct (alloc_data_block_ok sb sb1 blk Ha) as (Hr & Hfree & Hlow & E).
      assert (Hin1 : (Z.to_nat ino < length (inode_table sb1))%nat)
        by (rewrite E; apply Hv).
      assert (Hin2 : (Z.to_nat ino < length (inode_table (set_slot sb1 ino b blk)))%nat)
        by (rewrite table_length_set_slot; assumption).
      assert (Hat1 : inode_at sb1 ino = ind) by (rewrite E; exact Hat).
      exists (inc_i_blocks (set_slot sb1 ino b blk) ino).
      assert (Hslot : slot (inc_i_blocks (set_slot sb1 ino b blk) ino) ino b = blk).
      { rewrite slot_inc_i_blocks by assumption.
        apply slot_set_slot_same; [assumption|].
        rewrite Hat1, Hlen. change (Z.to_nat OSFS_N_BLOCKS) with 14%nat.
        change OSFS_N_DIRECT with 12 in Hb. lia. }
      split.
      { unfold osfs_get_block. rewrite Hget, Hlt. unfold get_data_slot.
        rewrite Hs, Ha. cbn [Z.eqb andb]. cbv zeta. rewrite Hslot. reflexivity. }
      split; [exact Hslot|].
      split; [exact Hr|]. split; [exact Hfree|]. split; [exact Hlow|].
      split; [rewrite E; reflexivity|].
      split; [rewrite E; reflexivity|].
      split.
      { rewrite i_blocks_inc_i_blocks by assumption.
        rewrite i_blocks_set_slot by assumption. rewrite E. reflexivity. }
      split.
      { intros k Hk Hne. rewrite slot_inc_i_blocks by assumption.
        rewrite slot_set_slot_other; [|assumption|lia|assumption|congruence].
        rewrite E. reflexivity. }
      rewrite E. reflexivity.
    + destruct (alloc_data_block_err sb sb1 e Ha) as (E1 & E2 & _).
      unfold osfs_get_block. rewrite Hget, Hlt. unfold get_data_slot.
      rewrite Hs, Ha. cbn [Z.eqb andb]. rewrite E1, E2. reflexivity.
Qed.

Lemma get_block_direct_hole_witness :
  osfs_get_osfs_inode file_state 2 = Some (inode_at file_state 2)
  /\ osfs_get_block 4096 file_state 2 3 false = (file_state, Ok 0)
  /\ exists sb', osfs_get_block 4096 file_state 2 3 true = (sb', Ok 1)
                 /\ slot sb' 2 3 = 1
                 /\ block_bitmap sb' = set_bit 1 (block_bitmap file_state).
Proof.
  assert (Hget : osfs_get_osfs_inode file_state 2 = Some (inode_at file_state 2))
    by (vm_compute; reflexivity).
  split; [exact Hget|].
  assert (Hlen : length (i_block (inode_at file_state 2)) = Z.to_nat OSFS_N_BLOCKS)
    by (vm_compute; reflexivity).
  assert (Hb : 0 <= 3 < OSFS_N_DIRECT) by (cbv; split; congruence).
  assert (Hs : slot file_state 2 3 = 0) by (vm_compute; reflexivity).
  assert (Ha : osfs_alloc_data_block file_state
               = (fst (osfs_alloc_data_block file_state), Ok 1)).
  { destruct (osfs_alloc_data_block file_state) as [s1 r] eqn:E.
    cbn [fst]. f_equal. change r with (snd (s1, r)). rewrite <- E.
    vm_compute. reflexivity. }
  destruct (get_block_direct_hole 4096 file_state 2 3 (inode_at file_state 2)
              Hget Hlen Hb Hs) as [Hr Hc].
  split; [exact Hr|].
  rewrite Ha in Hc. destruct Hc as (sb' & Hg & Hslot & _ & _ & _ & Hbm & _).
  exists sb'. split; [exact Hg|]. split; [exact Hslot|exact Hbm].
Defined.

(** * The allocators *)

Lemma pair_eta {A B : Type} (x : A * B) (b : B) : snd x = b -> x = (fst x, b).
Proof. destruct x as [a b']. cbn. intros ->. reflexivity. Defined.

Lemma clear_bit_set_bit (bm q : Z) :
  test_bit q bm = false -> clear_bit q (set_bit q bm) = bm.
Proof.
  unfold test_bit, clear_bit, set_bit. intros H.
  apply Z.bits_inj'. intros n Hn.
  rewrite Z.clearbit_eqb.
  destruct (Z.eqb_spec q n) as [->|Hne]; cbn [negb].
  - rewrite andb_false_r. symmetry. assumption.
  - rewrite andb_true_r. destruct (Z.lt_ge_cases q 0) as [Hq|Hq].
    + rewrite Z.setbit_spec', (Z.pow_neg_r 2 q Hq), Z.lor_0_r. reflexivity.
    + apply Z.setbit_neq; assumption.
Qed.

Lemma wrap32_pred_succ (n : Z) : 0 <= n < 2 ^ 32 -> wrap32 (wrap32 (n - 1) + 1) = n.
Proof.
  intros H. unfold wrap32. rewrite Zplus_mod_idemp_l.
  replace (n - 1 + 1) with n by lia. apply Z.mod_small. assumption.
Qed.

(** [osfs_alloc_data_block] hands out the lowest block whose bit is
    clear: it sets that bit and no other, lowers [nr_free_blocks] by one
    (in 32 bits) and touches nothing else; it fails, with [ENOSPC] and
    without any change, exactly when every bit below [block_count] is
    set. *)
Theorem alloc_data_block_lowest_free (sb : osfs_sb_info) :
  match osfs_alloc_data_block sb with
  | (sb', Ok b) =>
      0 <= b < block_count sb
      /\ test_bit b (block_bitmap sb) = false
      /\ (forall j, 0 <= j < b -> test_bit j (block_bitmap sb) = true)
      /\ (forall j, test_bit j (block_bitmap sb') = (b =? j) || test_bit j (block_bitmap sb))
      /\ nr_free_blocks sb' = wrap32 (nr_free_blocks sb - 1)
      /\ inode_table sb' = inode_table sb
      /\ data_blocks sb' = data_blocks sb
      /\ inode_bitmap sb' = inode_bitmap sb
      /\ nr_free_inodes sb' = nr_free_inodes sb
  | (sb', Err e) =>
      e = ENOSPC /\ sb' = sb
      /\ (forall j, 0 <= j < block_count sb -> test_bit j (block_bitmap sb) = true)
  end.
Proof.
  destruct (osfs_alloc_data_block sb) as [sb' [b|e]] eqn:E.
  - destruct (alloc_data_block_ok sb sb' b E) as (H1 & H2 & H3 & ->).
    split; [exact H1|]. split; [exact H2|]. split; [exact H3|].
    split; [intros j; apply test_bit_set_bit; lia|].
    repeat split.
  - destruct (alloc_data_block_err sb sb' e E) as (-> & -> & H). auto.
Qed.

(** Freeing the block that [osfs_alloc_data_block] has just returned
    gives back the state before the allocation, counter included. *)
Theorem alloc_then_free_data_block (sb sb1 : osfs_sb_info) (b : Z) :
  0 <= nr_free_blocks sb < 2 ^ 32 ->
  osfs_alloc_data_block sb = (sb1, Ok b) ->
  osfs_free_data_block sb1 b = sb.
Proof.
  intros Hn E.
  destruct (alloc_data_block_ok sb sb1 b E) as (_ & Hfree & _ & ->).
  unfold osfs_free_data_block, with_block_alloc. cbn.
  rewrite clear_bit_set_bit by assumption.
  rewrite wrap32_pred_succ by assumption.
  destruct sb; reflexivity.
Qed.

Lemma alloc_then_free_data_block_witness :
  osfs_free_data_block (fst (osfs_alloc_data_block (mounted 4096 0))) 0 = mounted 4096 0.
Proof.
  apply (alloc_then_free_data_block (mounted 4096 0)).
  - vm_compute. split; [discriminate|reflexivity].
  - apply pair_eta. vm_compute. reflexivity.
Defined.

(** [osfs_get_free_inode] hands out the lowest inode number from 1 on
    whose bit is clear, never number 0 and never a number past the table;
    it sets that bit, lowers [nr_free_inodes] by one (in 32 bits) and
    touches nothing else; it fails, with [ENOSPC] and without any change,
    exactly when the bits 1 .. [inode_count - 1] are all set. *)
Theorem get_free_inode_lowest_free (sb : osfs_sb_info) :
  match osfs_get_free_inode sb with
  | (sb', Ok ino) =>
      1 <= ino < inode_count sb
      /\ test_bit ino (inode_bitmap sb) = false
      /\ (forall j, 1 <= j < ino -> test_bit j (inode_bitmap sb) = true)
      /\ (forall j, test_bit j (inode_bitmap sb') = (ino =? j) || test_bit j (inode_bitmap sb))
      /\ nr_free_inodes sb' = wrap32 (nr_free_inodes sb - 1)
      /\ inode_table sb' = inode_table sb
      /\ data_blocks sb' = data_blocks sb
      /\ block_bitmap sb' = block_bitmap sb
      /\ nr_free_blocks sb' = nr_free_blocks sb
  | (sb', Err e) =>
      e = ENOSPC /\ sb' = sb
      /\ (forall j, 1 <= j < inode_count sb -> test_bit j (inode_bitmap sb) = true)
  end.
Proof.
  unfold osfs_get_free_inode.
  destruct (find_zero_bit (inode_bitmap sb) 1 (Z.to_nat (inode_count sb - 1))) as [ino|] eqn:E.
  - apply find_zero_bit_some in E. destruct E as (H1 & H2 & H3).
    split; [lia|]. split; [exact H2|]. split; [exact H3|].
    split; [intros j; cbn; apply test_bit_set_bit; lia|].
    repeat split.
  - split; [reflexivity|]. split; [reflexivity|].
    intros j Hj. eapply find_zero_bit_none; [eassumption|lia].
Qed.

(** * Mount *)

Lemma zero_bits_clear (n : nat) :
  zero_bits 0 (Z.of_nat n) = Z.of_nat n.
Proof.
  unfold zero_bits. rewrite Nat2Z.id. f_equal.
  assert (H : forall l : list nat,
             filter (fun i => negb (test_bit (Z.of_nat i) 0)) l = l).
  { induction l as [|x l IH]; [reflexivity|]. cbn [filter].
    unfold test_bit at 1. rewrite Z.bits_0. cbn [negb]. f_equal. exact IH. }
  rewrite H. apply length_seq.
Qed.

(** [osfs_fill_super] has two outcomes: [ENOMEM] when [vmalloc],
    [new_inode] or [d_make_root] fails (the [EIO] exit is never taken),
    and otherwise an empty filesystem, whatever the block size: only the
    root inode is marked in the inode bitmap, no block is marked, every
    byte of the data area is zero, the two counters equal the number of
    clear bits of their bitmaps, and [osfs_lookup] finds no name in the
    root. *)
Theorem fill_super_outcomes (BLOCK_SIZE : Z) (v n d : bool) (now : Z) :
  osfs_fill_super BLOCK_SIZE v n d now
  = (if v && n && d then Ok (mounted BLOCK_SIZE now) else Err ENOMEM)
  /\ (forall j, test_bit j (inode_bitmap (mounted BLOCK_SIZE now)) = (ROOT_INODE =? j))
  /\ (forall j, test_bit j (block_bitmap (mounted BLOCK_SIZE now)) = false)
  /\ data_blocks (mounted BLOCK_SIZE now) = zeros (DATA_BLOCK_COUNT * BLOCK_SIZE)
  /\ nr_free_inodes (mounted BLOCK_SIZE now)
     = zero_bits (inode_bitmap (mounted BLOCK_SIZE now)) (inode_count (mounted BLOCK_SIZE now))
  /\ nr_free_blocks (mounted BLOCK_SIZE now)
     = zero_bits (block_bitmap (mounted BLOCK_SIZE now)) (block_count (mounted BLOCK_SIZE now))
  /\ (forall vfs_ok name,
        osfs_lookup BLOCK_SIZE vfs_ok (mounted BLOCK_SIZE now) ROOT_INODE name = Ok None).
Proof.
  split; [destruct v, n, d; reflexivity|].
  split.
  { intros j. change (inode_bitmap (mounted BLOCK_SIZE now)) with (set_bit ROOT_INODE 0).
    rewrite test_bit_set_bit by (cbv; congruence).
    unfold test_bit. rewrite Z.bits_0. apply orb_false_r. }
  split; [intros j; apply Z.bits_0|].
  split; [reflexivity|].
  split; [reflexivity|].
  split; [apply (zero_bits_clear 20)|].
  intros vfs_ok name. reflexivity.
Qed.

(** * Directories *)

(** ** Names as C strings *)

(** The test that [osfs_lookup] and the duplicate scan apply to the
    bytes [s] found at [entry->filename]. *)
Definition str_match (s name : list byte) : bool :=
  (c_strlen s =? Z.of_nat (length name)) && c_strncmp_eq s name (length name).

Lemma c_strlen_nonneg (s : list byte) : 0 <= c_strlen s.
Proof.
  induction s as [|b t IH]; cbn [c_strlen]; [lia|].
  destruct (Byte.eqb b Byte.x00); lia.
Qed.

Lemma c_strlen_le_length (s : list byte) : c_strlen s <= Z.of_nat (length s).
Proof.
  induction s as [|b t IH]; cbn [c_strlen length]; [lia|].
  destruct (Byte.eqb b Byte.x00); lia.
Qed.

Lemma str_match_nil (s : list byte) : str_match s [] = (c_strlen s =? 0).
Proof. unfold str_match. cbn. apply andb_true_r. Qed.

Lemma str_match_cons (b : byte) (t : list byte) (x : byte) (r : list byte) :
  str_match (b :: t) (x :: r)
  = if Byte.eqb b Byte.x00 then false
    else if Byte.eqb b x then str_match t r else false.
Proof.
  unfold str_match. cbn [c_strlen c_strncmp_eq length hd tl].
  destruct (Byte.eqb b Byte.x00) eqn:E0.
  - reflexivity.
  - replace (1 + c_strlen t =? Z.of_nat (S (length r)))
      with (c_strlen t =? Z.of_nat (length r))
      by (destruct (Z.eqb_spec (c_strlen t) (Z.of_nat (length r)));
          destruct (Z.eqb_spec (1 + c_strlen t) (Z.of_nat (S (length r)))); lia).
    destruct (Byte.eqb b x); [reflexivity|apply andb_false_r].
Qed.

Lemma str_match_empty (x : byte) (r : list byte) : str_match [] (x :: r) = false.
Proof. reflexivity. Qed.

(** The test succeeds exactly when the string at [s] (its bytes up to
    the first NUL) is [name]. *)
Lemma str_match_iff (s name : list byte) :
  str_match s name = true <-> firstn (Z.to_nat (c_strlen s)) s = name.
Proof.
  revert name; induction s as [|b t IH]; intros name.
  - destruct name as [|x r]; cbn; split; congruence.
  - destruct name as [|x r].
    + rewrite str_match_nil. cbn [c_strlen].
      destruct (Byte.eqb b Byte.x00).
      * cbn. tauto.
      * pose proof (c_strlen_nonneg t).
        replace (Z.to_nat (1 + c_strlen t)) with (S (Z.to_nat (c_strlen t))) by lia.
        cbn [firstn]. split; [intros H'; apply Z.eqb_eq in H'; lia|discriminate].
    + rewrite str_match_cons. cbn [c_strlen].
      destruct (Byte.eqb b Byte.x00).
      * cbn. split; discriminate.
      * pose proof (c_strlen_nonneg t).
        replace (Z.to_nat (1 + c_strlen t)) with (S (Z.to_nat (c_strlen t))) by lia.
        cbn [firstn].
        destruct (Decidable.Byte.eqb_spec b x) as [->|Hne].
        -- rewrite IH. split; [intros ->; reflexivity|intros [= ->]; reflexivity].
        -- split; [discriminate|intros [= ? ?]; contradiction].
Qed.

(** The test reads at most [length name + 1] bytes of [s]. *)
Lemma str_match_prefix (name s s' : list byte) (k : nat) :
  (length name < k)%nat -> firstn k s = firstn k s' ->
  str_match s name = str_match s' name.
Proof.
  revert s s' k; induction name as [|x r IH]; intros s s' k Hk Hp.
  - rewrite !str_match_nil. destruct k as [|k]; [lia|].
    destruct s as [|b t], s' as [|b' t']; cbn [firstn] in Hp; try discriminate;
      try reflexivity.
    injection Hp as -> _. cbn [c_strlen].
    destruct (Byte.eqb b' Byte.x00); [reflexivity|].
    pose proof (c_strlen_nonneg t). pose proof (c_strlen_nonneg t').
    destruct (Z.eqb_spec (1 + c_strlen t) 0); destruct (Z.eqb_spec (1 + c_strlen t') 0); lia.
  - destruct k as [|k]; [lia|]. cbn [length] in Hk.
    destruct s as [|b t], s' as [|b' t']; cbn [firstn] in Hp; try discriminate;
      try reflexivity.
    injection Hp as -> Hp. rewrite !str_match_cons.
    destruct (Byte.eqb b' Byte.x00); [reflexivity|].
    destruct (Byte.eqb b' x); [|reflexivity].
    apply (IH t t' k); [lia|assumption].
Qed.

Definition nul_free (name : list byte) : Prop := Forall (fun b => b <> Byte.x00) name.

Lemma str_match_self (name rest : list byte) :
  nul_free name -> str_match (name ++ Byte.x00 :: rest) name = true.
Proof.
  intros H. induction H as [|x r Hx Hr IH].
  - reflexivity.
  - cbn [app]. rewrite str_match_cons.
    destruct (Decidable.Byte.eqb_spec x Byte.x00); [contradiction|].
    destruct (Decidable.Byte.eqb_spec x x); [assumption|contradiction].
Qed.

Lemma c_strlen_self (name rest : list byte) :
  nul_free name -> c_strlen (name ++ Byte.x00 :: rest) = Z.of_nat (length name).
Proof.
  intros H. induction H as [|x r Hx Hr IH].
  - reflexivity.
  - cbn [app c_strlen length].
    destruct (Decidable.Byte.eqb_spec x Byte.x00); [contradiction|]. lia.
Qed.

(** A string that matches [name] does not match another name. *)
Lemma str_match_unique (s name name' : list byte) :
  str_match s name = true -> str_match s name' = true -> name = name'.
Proof.
  rewrite !str_match_iff. congruence.
Qed.

(** ** Loads of several bytes *)

Lemma load_bytes_split (m : mem) (a : Z) (n k : nat) :
  0 <= a ->
  load_bytes m a (n + k) = load_bytes m a n ++ load_bytes m (a + Z.of_nat n) k.
Proof.
  intros Ha. unfold load_bytes.
  replace (Z.to_nat (a + Z.of_nat n)) with (n + Z.to_nat a)%nat by lia.
  rewrite <- skipn_skipn. apply eq_sym, firstn_app_skipn.
Qed.

Lemma firstn_load_bytes (m : mem) (a : Z) (n k : nat) :
  (k <= n)%nat -> firstn k (load_bytes m a n) = load_bytes m a k.
Proof.
  intros H. unfold load_bytes. rewrite firstn_firstn. f_equal. lia.
Qed.

(** ** The stores that fill one entry *)

Lemma dir_entry_store_length (m : mem) (base : Z) (name : list byte) (inode_no : Z) :
  length (dir_entry_store m base name inode_no) = length m.
Proof.
  unfold dir_entry_store, store32. rewrite !store_bytes_length. reflexivity.
Qed.

Lemma dir_entry_store_outside (m : mem) (base : Z) (name : list byte) (inode_no : Z)
    (a' : Z) (k : nat) :
  0 <= a' -> Z.of_nat (length name) <= MAX_FILENAME_LEN ->
  a' + Z.of_nat k <= base \/ base + DIR_ENTRY_SIZE <= a' ->
  load_bytes (dir_entry_store m base name inode_no) a' k = load_bytes m a' k.
Proof.
  unfold MAX_FILENAME_LEN, DIR_ENTRY_SIZE. intros Ha Hl Hd.
  unfold dir_entry_store, store32, INODE_NO_OFFSET.
  rewrite !load_store_outside; try assumption.
  - reflexivity.
  - lia.
  - cbn [length]. lia.
  - rewrite length_le_split. lia.
Qed.

Lemma dir_entry_store_name (m : mem) (base : Z) (name : list byte) (inode_no : Z) :
  0 <= base -> base + DIR_ENTRY_SIZE <= Z.of_nat (length m) ->
  Z.of_nat (length name) <= MAX_FILENAME_LEN ->
  load_bytes (dir_entry_store m base name inode_no) base (length name + 1)
  = name ++ [Byte.x00].
Proof.
  unfold MAX_FILENAME_LEN, DIR_ENTRY_SIZE. intros Hb Hm Hl.
  unfold dir_entry_store, store32, INODE_NO_OFFSET.
  rewrite load_store_outside by lia.
  rewrite load_bytes_split by assumption. f_equal.
  - rewrite load_store_outside by lia.
    pose proof (load_store_inside m base name 0 (length name)) as L.
    rewrite Z.add_0_r in L. rewrite L by lia.
    cbn [skipn]. apply firstn_all.
  - pose proof (load_store_inside (store_bytes m base name)
                  (base + Z.of_nat (length name)) [Byte.x00] 0 1) as L.
    rewrite Z.add_0_r in L. rewrite L; [reflexivity|lia| |cbn; lia].
    rewrite store_bytes_length. cbn [length]. lia.
Qed.

Lemma dir_entry_store_ino (m : mem) (base : Z) (name : list byte) (inode_no : Z) :
  0 <= base -> base + DIR_ENTRY_SIZE <= Z.of_nat (length m) ->
  0 <= inode_no < 2 ^ 32 ->
  load32 (dir_entry_store m base name inode_no) (base + INODE_NO_OFFSET) = inode_no.
Proof.
  unfold DIR_ENTRY_SIZE. intros Hb Hm Hi.
  unfold dir_entry_store, INODE_NO_OFFSET.
  apply load32_store32_same; [lia| |assumption].
  rewrite !store_bytes_length. lia.
Qed.

(** ** Searching a range of indices *)

Lemma find_seq_snoc (f : nat -> bool) (n : nat) :
  find f (seq 0 (S n))
  = match find f (seq 0 n) with
    | Some i => Some i
    | None => if f n then Some n else None
    end.
Proof.
  rewrite seq_S. cbn [Nat.add].
  generalize (seq 0 n) as l. induction l as [|x l IH]; cbn [app find].
  - reflexivity.
  - destruct (f x); [reflexivity|assumption].
Qed.

Lemma find_ext_in {A : Type} (f g : A -> bool) (l : list A) :
  (forall x, In x l -> f x = g x) -> find f l = find g l.
Proof.
  induction l as [|x l IH]; intros H; cbn [find]; [reflexivity|].
  rewrite (H x (or_introl eq_refl)).
  destruct (g x); [reflexivity|]. apply IH. intros y Hy. apply H. right; assumption.
Qed.

Lemma find_seq_some (f : nat -> bool) (n i : nat) :
  find f (seq 0 n) = Some i ->
  (i < n)%nat /\ f i = true /\ (forall j, (j < i)%nat -> f j = false).
Proof.
  induction n as [|n IH]; [discriminate|].
  rewrite find_seq_snoc.
  destruct (find f (seq 0 n)) as [i'|] eqn:E.
  - intros [= <-]. destruct (IH eq_refl) as (H1 & H2 & H3).
    split; [lia|]. split; assumption.
  - destruct (f n) eqn:En; [|discriminate].
    intros [= <-]. split; [lia|]. split; [assumption|].
    intros j Hj. apply (find_none _ _ E). apply in_seq. lia.
Qed.

Lemma find_map {A B : Type} (f : B -> bool) (g : A -> B) (l : list A) :
  find f (map g l) = option_map g (find (fun x => f (g x)) l).
Proof.
  induction l as [|x l IH]; cbn [map find option_map]; [reflexivity|].
  destruct (f (g x)); [reflexivity|assumption].
Qed.

(** ** Entries of one directory *)

Definition name_eqb (a b : list byte) : bool :=
  if list_eq_dec Byte.byte_eq_dec a b then true else false.

Section Directory.

Variable BLOCK_SIZE : Z.
Hypothesis BLOCK_SIZE_pos : 0 < BLOCK_SIZE.
Hypothesis BLOCK_SIZE_int : BLOCK_SIZE < 2 ^ 31.

(** What the directory code takes for granted about [dir]: it has a
    record with its fourteen pointers, the data area has [block_count]
    blocks, and once the directory owns a block ([i_blocks != 0]) its
    pointer 0 names a block of the data area. *)
Definition dir_ready (sb : osfs_sb_info) (dir : Z) : Prop :=
  valid_ino sb dir
  /\ length (i_block (inode_at sb dir)) = Z.to_nat OSFS_N_BLOCKS
  /\ area_ok BLOCK_SIZE sb
  /\ 0 <= i_size (inode_at sb dir)
  /\ (i_blocks (inode_at sb dir) <> 0 -> 0 <= slot sb dir 0 < block_count sb).

(** The names and inode numbers that [osfs_iterate] hands to
    [dir_emit], in the order of the entries. *)
Definition dir_listing (sb : osfs_sb_info) (dir : Z) : list (list byte * Z) :=
  map (fun i => (dir_entry_name BLOCK_SIZE sb dir (Z.of_nat i),
                 dir_entry_ino BLOCK_SIZE sb dir (Z.of_nat i)))
      (seq 0 (Z.to_nat (i_size (inode_at sb dir) / DIR_ENTRY_SIZE))).

Lemma dir_entry_matches_str (sb : osfs_sb_info) (dir i : Z) (name : list byte) :
  dir_entry_matches BLOCK_SIZE sb dir i name
  = str_match (skipn (Z.to_nat (dir_entry_addr BLOCK_SIZE sb dir i)) (data_blocks sb)) name.
Proof. reflexivity. Qed.

Lemma dir_entry_matches_name (sb : osfs_sb_info) (dir i : Z) (name : list byte) :
  dir_entry_matches BLOCK_SIZE sb dir i name = true
  <-> dir_entry_name BLOCK_SIZE sb dir i = name.
Proof. rewrite dir_entry_matches_str. apply str_match_iff. Qed.

Lemma dir_entry_matches_name_eqb (sb : osfs_sb_info) (dir i : Z) (name : list byte) :
  dir_entry_matches BLOCK_SIZE sb dir i name
  = name_eqb (dir_entry_name BLOCK_SIZE sb dir i) name.
Proof.
  unfold name_eqb.
  destruct (list_eq_dec Byte.byte_eq_dec (dir_entry_name BLOCK_SIZE sb dir i) name) as [E|E].
  - apply dir_entry_matches_name. assumption.
  - destruct (dir_entry_matches BLOCK_SIZE sb dir i name) eqn:M; [|reflexivity].
    apply dir_entry_matches_name in M. contradiction.
Qed.

Lemma dir_entry_name_length (sb : osfs_sb_info) (dir i : Z) :
  Z.of_nat (length (dir_entry_name BLOCK_SIZE sb dir i))
  = c_strlen (skipn (Z.to_nat (dir_entry_addr BLOCK_SIZE sb dir i)) (data_blocks sb)).
Proof.
  unfold dir_entry_name. cbv zeta.
  set (s := skipn _ _). pose proof (c_strlen_nonneg s). pose proof (c_strlen_le_length s).
  rewrite length_firstn. lia.
Qed.

(** *** [dir_find] *)

Lemma dir_find_snoc (sb : osfs_sb_info) (dir : Z) (name : list byte) (n : Z) :
  0 <= n ->
  dir_find BLOCK_SIZE sb dir name (n + 1)
  = match dir_find BLOCK_SIZE sb dir name n with
    | Some i => Some i
    | None => if dir_entry_matches BLOCK_SIZE sb dir n name then Some n else None
    end.
Proof.
  intros Hn. unfold dir_find.
  replace (Z.to_nat (n + 1)) with (S (Z.to_nat n)) by lia.
  rewrite find_seq_snoc.
  destruct (find _ (seq 0 (Z.to_nat n))); [reflexivity|].
  rewrite Z2Nat.id by assumption.
  destruct (dir_entry_matches BLOCK_SIZE sb dir n name); cbn [option_map]; [|reflexivity].
  rewrite Z2Nat.id by assumption. reflexivity.
Qed.

Lemma dir_find_ext (sb sb' : osfs_sb_info) (dir : Z) (name : list byte) (n : Z) :
  (forall i, 0 <= i < n ->
     dir_entry_matches BLOCK_SIZE sb' dir i name = dir_entry_matches BLOCK_SIZE sb dir i name) ->
  dir_find BLOCK_SIZE sb' dir name n = dir_find BLOCK_SIZE sb dir name n.
Proof.
  intros H. unfold dir_find. f_equal. apply find_ext_in.
  intros i Hi. apply in_seq in Hi. apply H. lia.
Qed.

Lemma dir_find_some (sb : osfs_sb_info) (dir : Z) (name : list byte) (n i : Z) :
  dir_find BLOCK_SIZE sb dir name n = Some i ->
  0 <= i < n
  /\ dir_entry_matches BLOCK_SIZE sb dir i name = true
  /\ (forall j, 0 <= j < i -> dir_entry_matches BLOCK_SIZE sb dir j name = false).
Proof.
  unfold dir_find.
  destruct (find _ (seq 0 (Z.to_nat n))) as [k|] eqn:E; [|discriminate].
  cbn [option_map]. intros [= <-].
  apply find_seq_some in E. destruct E as (H1 & H2 & H3).
  split; [lia|]. split; [assumption|].
  intros j Hj. specialize (H3 (Z.to_nat j)).
  rewrite Z2Nat.id in H3 by lia. apply H3. lia.
Qed.

Lemma dir_find_none (sb : osfs_sb_info) (dir : Z) (name : list byte) (n : Z) :
  dir_find BLOCK_SIZE sb dir name n = None ->
  forall i, 0 <= i < n -> dir_entry_matches BLOCK_SIZE sb dir i name = false.
Proof.
  unfold dir_find.
  destruct (find _ (seq 0 (Z.to_nat n))) as [k|] eqn:E; [discriminate|].
  intros _ i Hi.
  pose proof (find_none _ _ E (Z.to_nat i)) as H. cbv beta in H.
  rewrite Z2Nat.id in H by lia. apply H. apply in_seq. lia.
Qed.

(** *** The first step of [osfs_add_dir_entry]: the directory block *)

Definition dir_block_ensure (sb : osfs_sb_info) (dir : Z) : osfs_sb_info * result unit :=
  if i_blocks (inode_at sb dir) =? 0 then
    match osfs_alloc_data_block sb with
    | (sb1, Err e) => (sb1, Err e)
    | (sb1, Ok blk) =>
        let sb2 := set_slot sb1 dir 0 blk in
        let sb3 := set_inode sb2 dir (with_i_blocks (inode_at sb2 dir) 1) in
        (zero_block BLOCK_SIZE sb3 (slot sb3 dir 0), Ok tt)
    end
  else (sb, Ok tt).

Definition dir_entry_append (sb1 : osfs_sb_info) (dir inode_no : Z) (name : list byte)
  : osfs_sb_info :=
  let sb2 :=
    with_data_blocks sb1
      (dir_entry_store (data_blocks sb1)
         (dir_entry_addr BLOCK_SIZE sb1 dir (i_size (inode_at sb1 dir) / DIR_ENTRY_SIZE))
         name inode_no) in
  set_inode sb2 dir
    (with_i_size (inode_at sb2 dir) (wrap32 (i_size (inode_at sb2 dir) + DIR_ENTRY_SIZE))).

Lemma add_dir_entry_steps (sb : osfs_sb_info) (dir inode_no : Z) (name : list byte) :
  osfs_add_dir_entry BLOCK_SIZE sb dir inode_no name
  = match dir_block_ensure sb dir with
    | (sb1, Err e) => (sb1, Err e)
    | (sb1, Ok _) =>
        if MAX_DIR_ENTRIES BLOCK_SIZE <=? i_size (inode_at sb1 dir) / DIR_ENTRY_SIZE
        then (sb1, Err ENOSPC)
        else
          match dir_find BLOCK_SIZE sb1 dir name (i_size (inode_at sb1 dir) / DIR_ENTRY_SIZE) with
          | Some _ => (sb1, Err EEXIST)
          | None => (dir_entry_append sb1 dir inode_no name, Ok tt)
          end
    end.
Proof. reflexivity. Qed.

Lemma dir_block_ensure_ok (sb sb1 : osfs_sb_info) (dir : Z) :
  dir_ready sb dir ->
  dir_block_ensure sb dir = (sb1, Ok tt) ->
  dir_ready sb1 dir
  /\ 0 <= slot sb1 dir 0 < block_count sb1
  /\ i_size (inode_at sb1 dir) = i_size (inode_at sb dir)
  /\ (i_blocks (inode_at sb dir) <> 0 -> sb1 = sb)
  /\ (forall j, j <> dir -> inode_at sb1 j = inode_at sb j)
  /\ inode_bitmap sb1 = inode_bitmap sb
  /\ nr_free_inodes sb1 = nr_free_inodes sb
  /\ inode_count sb1 = inode_count sb.
Proof.
  intros (Hv & Hl & Ha & Hs & Hb). unfold dir_block_ensure.
  destruct (Z.eqb_spec (i_blocks (inode_at sb dir)) 0) as [E|E].
  - destruct (osfs_alloc_data_block sb) as [sa [blk|e]] eqn:Al; [|discriminate].
    destruct (alloc_data_block_ok sb sa blk Al) as (Hr & _ & _ & ->).
    intros [= <-].
    set (sa := with_block_alloc sb (set_bit blk (block_bitmap sb))
                 (wrap32 (nr_free_blocks sb - 1))).
    assert (Hta : (Z.to_nat dir < length (inode_table sa))%nat) by apply Hv.
    set (s2 := set_slot sa dir 0 blk).
    assert (Ht2 : (Z.to_nat dir < length (inode_table s2))%nat)
      by (unfold s2; rewrite table_length_set_slot; assumption).
    set (s3 := set_inode s2 dir (with_i_blocks (inode_at s2 dir) 1)).
    assert (Hat3 : inode_at s3 dir = with_i_blocks (inode_at s2 dir) 1)
      by (apply inode_at_set_inode_same; assumption).
    assert (Hslot2 : slot s2 dir 0 = blk).
    { apply slot_set_slot_same; [assumption|].
      change (inode_at sa dir) with (inode_at sb dir). rewrite Hl. cbv. lia. }
    assert (Hslot3 : slot s3 dir 0 = blk).
    { unfold slot. rewrite Hat3. exact Hslot2. }
    assert (Hat1 : inode_at (zero_block BLOCK_SIZE s3 (slot s3 dir 0)) dir
                   = with_i_blocks (inode_at s2 dir) 1) by exact Hat3.
    assert (Hsl1 : slot (zero_block BLOCK_SIZE s3 (slot s3 dir 0)) dir 0 = blk) by exact Hslot3.
    assert (Hsz2 : i_size (inode_at s2 dir) = i_size (inode_at sb dir))
      by (unfold s2; rewrite i_size_set_slot by assumption; reflexivity).
    assert (Hbl2 : length (i_block (inode_at s2 dir)) = length (i_block (inode_at sb dir)))
      by (unfold s2; rewrite i_block_length_set_slot by assumption; reflexivity).
    assert (Hvalid : valid_ino (zero_block BLOCK_SIZE s3 (slot s3 dir 0)) dir).
    { change (valid_ino s3 dir). unfold s3. apply valid_ino_set_inode.
      unfold s2, set_slot. apply valid_ino_set_inode. exact Hv. }
    assert (Harea : area_ok BLOCK_SIZE (zero_block BLOCK_SIZE s3 (slot s3 dir 0))).
    { rewrite zero_block_poke. apply area_ok_poke. exact Ha. }
    split.
    { split; [exact Hvalid|]. split; [rewrite Hat1; cbn [i_block with_i_blocks]; congruence|].
      split; [exact Harea|].
      split; [rewrite Hat1; cbn [i_size with_i_blocks]; lia|].
      intros _. rewrite Hsl1. exact Hr. }
    split; [rewrite Hsl1; exact Hr|].
    split; [rewrite Hat1; cbn [i_size with_i_blocks]; exact Hsz2|].
    split; [intros Hne; contradiction|].
    split; [|repeat split].
    intros j Hj.
    change (inode_at s3 j = inode_at sb j).
    assert (Hn : Z.to_nat dir <> Z.to_nat j).
    { destruct Hv as [Hd _]. destruct (Z.lt_ge_cases j 0); lia. }
    unfold s3, inode_at, set_inode. cbn [inode_table with_inode_table].
    rewrite nth_list_upd_other by assumption.
    unfold s2, set_slot, set_inode. cbn [inode_table with_inode_table].
    rewrite nth_list_upd_other by assumption. reflexivity.
  - intros [= <-].
    split; [split; [exact Hv|split; [exact Hl|split; [exact Ha|split; [exact Hs|exact Hb]]]]|].
    split; [apply Hb; assumption|].
    split; [reflexivity|]. split; [reflexivity|]. split; [reflexivity|].
    split; [reflexivity|]. split; reflexivity.
Qed.

Lemma max_dir_entries_fit (i : Z) :
  0 <= i < MAX_DIR_ENTRIES BLOCK_SIZE ->
  0 <= i * DIR_ENTRY_SIZE /\ i * DIR_ENTRY_SIZE + DIR_ENTRY_SIZE <= BLOCK_SIZE.
Proof.
  unfold MAX_DIR_ENTRIES, DIR_ENTRY_SIZE. intros H.
  pose proof (Z.mul_div_le BLOCK_SIZE 260 ltac:(lia)). lia.
Qed.

Lemma dir_entry_addr_in_area (sb : osfs_sb_info) (dir i : Z) :
  area_ok BLOCK_SIZE sb -> 0 <= slot sb dir 0 < block_count sb ->
  0 <= i < MAX_DIR_ENTRIES BLOCK_SIZE ->
  dir_entry_addr BLOCK_SIZE sb dir i = slot sb dir 0 * BLOCK_SIZE + i * DIR_ENTRY_SIZE
  /\ 0 <= slot sb dir 0 * BLOCK_SIZE
  /\ slot sb dir 0 * BLOCK_SIZE + BLOCK_SIZE <= Z.of_nat (length (data_blocks sb)).
Proof.
  intros Ha Hs Hi. unfold dir_entry_addr.
  rewrite (blk_addr_in_area BLOCK_SIZE BLOCK_SIZE_pos sb) by assumption.
  split; [reflexivity|]. destruct Ha as [Ha _]. rewrite Ha.
  assert (0 <= slot sb dir 0 * BLOCK_SIZE) by (apply Z.mul_nonneg_nonneg; lia).
  assert ((slot sb dir 0 + 1) * BLOCK_SIZE <= block_count sb * BLOCK_SIZE)
    by (apply Z.mul_le_mono_nonneg_r; lia).
  lia.
Qed.

(** *** The last step: the new entry and the new size *)

Lemma dir_entry_append_view (sb1 : osfs_sb_info) (dir inode_no : Z) (name : list byte) :
  dir_ready sb1 dir ->
  0 <= slot sb1 dir 0 < block_count sb1 ->
  i_size (inode_at sb1 dir) / DIR_ENTRY_SIZE < MAX_DIR_ENTRIES BLOCK_SIZE ->
  Z.of_nat (length name) <= MAX_FILENAME_LEN ->
  dir_ready (dir_entry_append sb1 dir inode_no name) dir
  /\ i_size (inode_at (dir_entry_append sb1 dir inode_no name) dir)
     = i_size (inode_at sb1 dir) + DIR_ENTRY_SIZE
  /\ i_size (inode_at (dir_entry_append sb1 dir inode_no name) dir) / DIR_ENTRY_SIZE
     = i_size (inode_at sb1 dir) / DIR_ENTRY_SIZE + 1
  /\ (forall k, slot (dir_entry_append sb1 dir inode_no name) dir k = slot sb1 dir k)
  /\ i_blocks (inode_at (dir_entry_append sb1 dir inode_no name) dir)
     = i_blocks (inode_at sb1 dir)
  /\ (forall i name', 0 <= i < i_size (inode_at sb1 dir) / DIR_ENTRY_SIZE ->
        Z.of_nat (length name') <= MAX_FILENAME_LEN ->
        dir_entry_matches BLOCK_SIZE (dir_entry_append sb1 dir inode_no name) dir i name'
        = dir_entry_matches BLOCK_SIZE sb1 dir i name')
  /\ (forall i, 0 <= i < i_size (inode_at sb1 dir) / DIR_ENTRY_SIZE ->
        dir_entry_ino BLOCK_SIZE (dir_entry_append sb1 dir inode_no name) dir i
        = dir_entry_ino BLOCK_SIZE sb1 dir i)
  /\ (nul_free name ->
      dir_entry_matches BLOCK_SIZE (dir_entry_append sb1 dir inode_no name) dir
        (i_size (inode_at sb1 dir) / DIR_ENTRY_SIZE) name = true)
  /\ (0 <= inode_no < 2 ^ 32 ->
      dir_entry_ino BLOCK_SIZE (dir_entry_append sb1 dir inode_no name) dir
        (i_size (inode_at sb1 dir) / DIR_ENTRY_SIZE) = inode_no)
  /\ (forall j, j <> dir ->
        inode_at (dir_entry_append sb1 dir inode_no name) j = inode_at sb1 j)
  /\ inode_bitmap (dir_entry_append sb1 dir inode_no name) = inode_bitmap sb1
  /\ nr_free_inodes (dir_entry_append sb1 dir inode_no name) = nr_free_inodes sb1
  /\ block_bitmap (dir_entry_append sb1 dir inode_no name) = block_bitmap sb1
  /\ nr_free_blocks (dir_entry_append sb1 dir inode_no name) = nr_free_blocks sb1.
Proof.
  intros (Hv & Hl & Ha & Hs & Hb) Hslot Hn Hlen.
  set (n := i_size (inode_at sb1 dir) / DIR_ENTRY_SIZE) in *.
  assert (Hn0 : 0 <= n) by (apply Z.div_pos; [assumption|cbv; reflexivity]).
  destruct (max_dir_entries_fit n (conj Hn0 Hn)) as [Hf1 Hf2].
  destruct (dir_entry_addr_in_area sb1 dir n Ha Hslot (conj Hn0 Hn)) as (Hbase & Hb0 & Hb1).
  set (base := dir_entry_addr BLOCK_SIZE sb1 dir n) in *.
  set (m' := dir_entry_store (data_blocks sb1) base name inode_no).
  assert (Hsz : i_size (inode_at sb1 dir) + DIR_ENTRY_SIZE < 2 ^ 32).
  { pose proof (Z.div_mod (i_size (inode_at sb1 dir)) DIR_ENTRY_SIZE ltac:(cbv; congruence)) as D.
    pose proof (Z.mod_pos_bound (i_size (inode_at sb1 dir)) DIR_ENTRY_SIZE ltac:(cbv; reflexivity)) as M.
    fold n in D. unfold DIR_ENTRY_SIZE in *. lia. }
  set (rec' := with_i_size (inode_at sb1 dir)
                 (wrap32 (i_size (inode_at sb1 dir) + DIR_ENTRY_SIZE))).
  assert (Hsb' : dir_entry_append sb1 dir inode_no name
                 = set_inode (with_data_blocks sb1 m') dir rec') by reflexivity.
  rewrite Hsb'. clear Hsb'.
  set (sb' := set_inode (with_data_blocks sb1 m') dir rec').
  assert (Hat : inode_at sb' dir = rec')
    by (apply inode_at_set_inode_same; apply Hv).
  assert (Hsize : i_size (inode_at sb' dir) = i_size (inode_at sb1 dir) + DIR_ENTRY_SIZE).
  { rewrite Hat. unfold rec'. cbn [i_size with_i_size]. apply wrap32_small.
    unfold DIR_ENTRY_SIZE in *. lia. }
  assert (Hslots : forall k, slot sb' dir k = slot sb1 dir k)
    by (intros k; unfold slot; rewrite Hat; reflexivity).
  assert (Haddr : forall i, dir_entry_addr BLOCK_SIZE sb' dir i
                            = dir_entry_addr BLOCK_SIZE sb1 dir i)
    by (intros i; unfold dir_entry_addr; rewrite Hslots; reflexivity).
  assert (Hdata : data_blocks sb' = m') by reflexivity.
  assert (Hold : forall i, 0 <= i < n ->
            dir_entry_addr BLOCK_SIZE sb1 dir i = slot sb1 dir 0 * BLOCK_SIZE + i * DIR_ENTRY_SIZE).
  { intros i Hi. apply dir_entry_addr_in_area; [assumption|assumption|lia]. }
  split.
  { split; [apply valid_ino_set_inode; exact Hv|].
    split; [rewrite Hat; exact Hl|].
    split.
    { destruct Ha as [Ha1 Ha2]. split; [|exact Ha2].
      change (Z.of_nat (length m') = block_count sb1 * BLOCK_SIZE).
      unfold m'. rewrite dir_entry_store_length. exact Ha1. }
    split; [rewrite Hsize; unfold DIR_ENTRY_SIZE; lia|].
    intros _. rewrite Hslots. exact Hslot. }
  split; [exact Hsize|].
  split.
  { rewrite Hsize. fold n.
    replace (i_size (inode_at sb1 dir) + DIR_ENTRY_SIZE)
      with (i_size (inode_at sb1 dir) + 1 * DIR_ENTRY_SIZE) by lia.
    rewrite Z.div_add by (cbv; congruence). reflexivity. }
  split; [exact Hslots|].
  split; [rewrite Hat; reflexivity|].
  split.
  { intros i name' Hi Hl'.
    rewrite !dir_entry_matches_str, Haddr, Hdata.
    apply (str_match_prefix name' _ _ 256).
    - unfold MAX_FILENAME_LEN in Hl'. lia.
    - change (load_bytes m' (dir_entry_addr BLOCK_SIZE sb1 dir i) 256
              = load_bytes (data_blocks sb1) (dir_entry_addr BLOCK_SIZE sb1 dir i) 256).
      unfold m'. rewrite (Hold i Hi). apply dir_entry_store_outside.
      + unfold DIR_ENTRY_SIZE. lia.
      + assumption.
      + left. rewrite Hbase. unfold DIR_ENTRY_SIZE. lia. }
  split.
  { intros i Hi. unfold dir_entry_ino, load32. rewrite Haddr, Hdata.
    unfold m'. rewrite (Hold i Hi). f_equal. apply dir_entry_store_outside.
    - unfold DIR_ENTRY_SIZE, INODE_NO_OFFSET. lia.
    - assumption.
    - left. rewrite Hbase. unfold DIR_ENTRY_SIZE, INODE_NO_OFFSET. lia. }
  split.
  { intros Hnf. rewrite dir_entry_matches_str, Haddr, Hdata. fold base.
    rewrite (str_match_prefix name _ (name ++ [Byte.x00]) (length name + 1)).
    - apply str_match_self. assumption.
    - lia.
    - change (load_bytes m' base (length name + 1)
              = firstn (length name + 1) (name ++ [Byte.x00])).
      unfold m'. rewrite dir_entry_store_name.
      + symmetry. apply firstn_all2. rewrite length_app. cbn [length]. lia.
      + rewrite Hbase. lia.
      + rewrite Hbase. unfold DIR_ENTRY_SIZE in *. lia.
      + assumption. }
  split.
  { intros Hino. unfold dir_entry_ino. rewrite Haddr, Hdata. fold base.
    unfold m'. apply dir_entry_store_ino.
    - rewrite Hbase. lia.
    - rewrite Hbase. unfold DIR_ENTRY_SIZE in *. lia.
    - assumption. }
  split.
  { intros j Hj. unfold sb', inode_at, set_inode. cbn [inode_table with_inode_table with_data_blocks].
    apply nth_list_upd_other.
    destruct Hv as [Hd _]. destruct (Z.lt_ge_cases j 0); lia. }
  split; [reflexivity|]. split; [reflexivity|]. split; reflexivity.
Qed.

(** What a successful [osfs_add_dir_entry] consists of. *)
Lemma add_dir_entry_ok (sb sb' : osfs_sb_info) (dir inode_no : Z) (name : list byte) :
  dir_ready sb dir ->
  osfs_add_dir_entry BLOCK_SIZE sb dir inode_no name = (sb', Ok tt) ->
  exists sb1,
    dir_block_ensure sb dir = (sb1, Ok tt)
    /\ dir_ready sb1 dir
    /\ 0 <= slot sb1 dir 0 < block_count sb1
    /\ i_size (inode_at sb1 dir) / DIR_ENTRY_SIZE < MAX_DIR_ENTRIES BLOCK_SIZE
    /\ dir_find BLOCK_SIZE sb1 dir name (i_size (inode_at sb1 dir) / DIR_ENTRY_SIZE) = None
    /\ sb' = dir_entry_append sb1 dir inode_no name.
Proof.
  intros Hr. rewrite add_dir_entry_steps.
  destruct (dir_block_ensure sb dir) as [sb1 [[]|e]] eqn:E1; [|discriminate].
  destruct (dir_block_ensure_ok sb sb1 dir Hr E1) as (Hr1 & Hs1 & _).
  destruct (Z.leb_spec (MAX_DIR_ENTRIES BLOCK_SIZE) (i_size (inode_at sb1 dir) / DIR_ENTRY_SIZE));
    [discriminate|].
  destruct (dir_find BLOCK_SIZE sb1 dir name (i_size (inode_at sb1 dir) / DIR_ENTRY_SIZE))
    eqn:F; [discriminate|].
  intros [= <-]. exists sb1.
  split; [reflexivity|]. split; [exact Hr1|]. split; [exact Hs1|].
  split; [assumption|]. split; [assumption|reflexivity].
Qed.

Lemma lookup_after_append (sb1 : osfs_sb_info) (dir inode_no : Z) (name name' : list byte) :
  dir_ready sb1 dir ->
  0 <= slot sb1 dir 0 < block_count sb1 ->
  i_size (inode_at sb1 dir) / DIR_ENTRY_SIZE < MAX_DIR_ENTRIES BLOCK_SIZE ->
  Z.of_nat (length name) <= MAX_FILENAME_LEN ->
  Z.of_nat (length name') <= MAX_FILENAME_LEN ->
  lookup_scan BLOCK_SIZE (dir_entry_append sb1 dir inode_no name) dir name'
  = match lookup_scan BLOCK_SIZE sb1 dir name' with
    | Some i => Some i
    | None =>
        if dir_entry_matches BLOCK_SIZE (dir_entry_append sb1 dir inode_no name) dir
             (i_size (inode_at sb1 dir) / DIR_ENTRY_SIZE) name'
        then Some (dir_entry_ino BLOCK_SIZE (dir_entry_append sb1 dir inode_no name) dir
                     (i_size (inode_at sb1 dir) / DIR_ENTRY_SIZE))
        else None
    end.
Proof.
  intros Hr Hs Hn Hl Hl'.
  destruct (dir_entry_append_view sb1 dir inode_no name Hr Hs Hn Hl)
    as (_ & _ & Hcnt & _ & _ & Hm & Hi & _).
  assert (Hn0 : 0 <= i_size (inode_at sb1 dir) / DIR_ENTRY_SIZE)
    by (apply Z.div_pos; [apply Hr|cbv; reflexivity]).
  unfold lookup_scan. rewrite Hcnt, dir_find_snoc by assumption.
  rewrite (dir_find_ext sb1 (dir_entry_append sb1 dir inode_no name))
    by (intros i Hi'; apply Hm; assumption).
  destruct (dir_find BLOCK_SIZE sb1 dir name' (i_size (inode_at sb1 dir) / DIR_ENTRY_SIZE))
    as [i|] eqn:F.
  - apply dir_find_some in F. destruct F as (Hi' & _).
    f_equal. apply Hi. assumption.
  - destruct (dir_entry_matches BLOCK_SIZE (dir_entry_append sb1 dir inode_no name) dir
                (i_size (inode_at sb1 dir) / DIR_ENTRY_SIZE) name'); reflexivity.
Qed.

Lemma lookup_added_name (sb sb' : osfs_sb_info) (dir inode_no : Z) (name : list byte) :
  dir_ready sb dir ->
  nul_free name ->
  Z.of_nat (length name) <= MAX_FILENAME_LEN ->
  0 <= inode_no < 2 ^ 32 ->
  osfs_add_dir_entry BLOCK_SIZE sb dir inode_no name = (sb', Ok tt) ->
  lookup_scan BLOCK_SIZE sb' dir name = Some inode_no.
Proof.
  intros Hr Hnf Hl Hino Hadd.
  destruct (add_dir_entry_ok sb sb' dir inode_no name Hr Hadd)
    as (sb1 & _ & Hr1 & Hs1 & Hn1 & Hf1 & ->).
  rewrite (lookup_after_append sb1 dir inode_no name name Hr1 Hs1 Hn1 Hl Hl).
  destruct (dir_entry_append_view sb1 dir inode_no name Hr1 Hs1 Hn1 Hl)
    as (_ & _ & _ & _ & _ & _ & _ & Hm & Hi & _).
  unfold lookup_scan at 1. rewrite Hf1, (Hm Hnf), (Hi Hino). reflexivity.
Qed.

(** [osfs_lookup] is its scan followed by [osfs_iget]. *)
Lemma lookup_by_scan (vfs_ok : bool) (sb : osfs_sb_info) (dir : Z) (name : list byte) :
  osfs_lookup BLOCK_SIZE vfs_ok sb dir name
  = match lookup_scan BLOCK_SIZE sb dir name with
    | Some n =>
        match osfs_iget vfs_ok sb n with
        | Err e => Err e
        | Ok inode => Ok (Some inode)
        end
    | None => Ok None
    end.
Proof.
  unfold osfs_lookup, lookup_scan.
  destruct (dir_find BLOCK_SIZE sb dir name (i_size (inode_at sb dir) / DIR_ENTRY_SIZE));
    reflexivity.
Qed.

Lemma found_ino_lookup (vfs_ok : bool) (sb : osfs_sb_info) (dir : Z) (name : list byte) :
  found_ino (osfs_lookup BLOCK_SIZE vfs_ok sb dir name)
  = match lookup_scan BLOCK_SIZE sb dir name with
    | Some n =>
        match osfs_get_osfs_inode sb (wrap32 n) with
        | None => Err EFAULT
        | Some _ => if negb vfs_ok then Err ENOMEM else Ok (Some n)
        end
    | None => Ok None
    end.
Proof.
  rewrite lookup_by_scan. destruct (lookup_scan BLOCK_SIZE sb dir name) as [n|]; [|reflexivity].
  unfold osfs_iget. destruct (osfs_get_osfs_inode sb (wrap32 n)); [|reflexivity].
  destruct vfs_ok; reflexivity.
Qed.

(** The inode table keeps its size in [osfs_add_dir_entry]. *)
Lemma add_dir_entry_valid (sb sb' : osfs_sb_info) (dir inode_no : Z) (name : list byte)
    (r : result unit) :
  osfs_add_dir_entry BLOCK_SIZE sb dir inode_no name = (sb', r) ->
  forall m, valid_ino sb' m <-> valid_ino sb m.
Proof.
  intros Hadd.
  assert (H : inode_count sb' = inode_count sb
              /\ length (inode_table sb') = length (inode_table sb)).
  { revert Hadd. rewrite add_dir_entry_steps.
    assert (E : forall sb1 r1, dir_block_ensure sb dir = (sb1, r1) ->
                  inode_count sb1 = inode_count sb
                  /\ length (inode_table sb1) = length (inode_table sb)).
    { intros sb1 r1. unfold dir_block_ensure.
      destruct (i_blocks (inode_at sb dir) =? 0); [|intros [= <- _]; split; reflexivity].
      destruct (osfs_alloc_data_block sb) as [sa [blk|e]] eqn:Al.
      - destruct (alloc_data_block_ok sb sa blk Al) as (_ & _ & _ & ->).
        intros [= <- _]. split; [reflexivity|].
        unfold zero_block, set_slot, set_inode.
        cbn [inode_table with_inode_table with_data_blocks with_block_alloc].
        rewrite !list_upd_length. reflexivity.
      - destruct (alloc_data_block_err sb sa e Al) as (-> & _).
        intros [= <- _]. split; reflexivity. }
    destruct (dir_block_ensure sb dir) as [sb1 [u|e]] eqn:D.
    2:{ intros [= <- _]. apply (E sb1 (Err e)). reflexivity. }
    destruct (E sb1 (Ok u) eq_refl) as [E1 E2].
    destruct (MAX_DIR_ENTRIES BLOCK_SIZE <=? i_size (inode_at sb1 dir) / DIR_ENTRY_SIZE);
      [intros [= <- _]; split; assumption|].
    destruct (dir_find BLOCK_SIZE sb1 dir name (i_size (inode_at sb1 dir) / DIR_ENTRY_SIZE));
      intros [= <- _]; [split; assumption|].
    unfold dir_entry_append, set_inode.
    cbn [inode_count inode_table with_inode_table with_data_blocks].
    rewrite list_upd_length. split; assumption. }
  destruct H as [H1 H2]. intros m. unfold valid_ino. rewrite H1, H2. tauto.
Qed.

(** A name entered by [osfs_add_dir_entry] is the one [osfs_lookup]
    finds afterwards: the lookup of that name ends in [osfs_iget] on the
    inode number that was entered and returns what [osfs_iget] returns,
    the inode or its error, whether or not the directory block had to be
    allocated first, and whatever the directory held.  In particular
    the lookup fails with [EFAULT] when the number entered is 0 or not
    below [inode_count]. *)
Theorem add_dir_entry_then_lookup (vfs_ok : bool) (sb sb' : osfs_sb_info)
    (dir inode_no : Z) (name : list byte) :
  dir_ready sb dir ->
  nul_free name ->
  Z.of_nat (length name) <= MAX_FILENAME_LEN ->
  0 <= inode_no < 2 ^ 32 ->
  osfs_add_dir_entry BLOCK_SIZE sb dir inode_no name = (sb', Ok tt) ->
  osfs_lookup BLOCK_SIZE vfs_ok sb' dir name
  = match osfs_iget vfs_ok sb' inode_no with
    | Err e => Err e
    | Ok inode => Ok (Some inode)
    end
  /\ (inode_no = 0 \/ inode_count sb' <= inode_no ->
      osfs_lookup BLOCK_SIZE vfs_ok sb' dir name = Err EFAULT).
Proof.
  intros Hr Hnf Hl Hino Hadd.
  rewrite lookup_by_scan, (lookup_added_name sb sb' dir inode_no name Hr Hnf Hl Hino Hadd).
  split; [reflexivity|].
  intros Hbad. unfold osfs_iget, osfs_get_osfs_inode. rewrite wrap32_small by assumption.
  destruct (Z.leb_spec inode_no 0); [reflexivity|].
  destruct (Z.leb_spec (inode_count sb') inode_no); [reflexivity|lia].
Qed.

(** Entering a name leaves the answer of [osfs_lookup] for every other
    name as it was: the scan stops at the same entry with the same
    stored inode number, and the lookup ends the same way, with no
    entry, with the same error of [osfs_iget], or with an inode of the
    same number. *)
Theorem add_dir_entry_keeps_other_names (sb sb' : osfs_sb_info) (dir inode_no : Z)
    (name name' : list byte) :
  dir_ready sb dir ->
  i_blocks (inode_at sb dir) <> 0 ->
  nul_free name ->
  Z.of_nat (length name) <= MAX_FILENAME_LEN ->
  Z.of_nat (length name') <= MAX_FILENAME_LEN ->
  name' <> name ->
  osfs_add_dir_entry BLOCK_SIZE sb dir inode_no name = (sb', Ok tt) ->
  lookup_scan BLOCK_SIZE sb' dir name' = lookup_scan BLOCK_SIZE sb dir name'
  /\ forall vfs_ok,
       found_ino (osfs_lookup BLOCK_SIZE vfs_ok sb' dir name')
       = found_ino (osfs_lookup BLOCK_SIZE vfs_ok sb dir name').
Proof.
  intros Hr Hb Hnf Hl Hl' Hne Hadd.
  pose proof (add_dir_entry_valid sb sb' dir inode_no name _ Hadd) as Hval.
  assert (Hscan : lookup_scan BLOCK_SIZE sb' dir name' = lookup_scan BLOCK_SIZE sb dir name').
  { destruct (add_dir_entry_ok sb sb' dir inode_no name Hr Hadd)
      as (sb1 & He & Hr1 & Hs1 & Hn1 & Hf1 & ->).
    destruct (dir_block_ensure_ok sb sb1 dir Hr He) as (_ & _ & _ & Hsame & _).
    rewrite (Hsame Hb) in *. clear Hsame He.
    rewrite (lookup_after_append sb dir inode_no name name' Hr1 Hs1 Hn1 Hl Hl').
    destruct (lookup_scan BLOCK_SIZE sb dir name'); [reflexivity|].
    destruct (dir_entry_append_view sb dir inode_no name Hr1 Hs1 Hn1 Hl)
      as (_ & _ & _ & _ & _ & _ & _ & Hm & _).
    destruct (dir_entry_matches BLOCK_SIZE (dir_entry_append sb dir inode_no name) dir
                (i_size (inode_at sb dir) / DIR_ENTRY_SIZE) name') eqn:M; [|reflexivity].
    exfalso. apply Hne.
    rewrite dir_entry_matches_str in M. specialize (Hm Hnf).
    rewrite dir_entry_matches_str in Hm.
    exact (str_match_unique _ _ _ M Hm). }
  split; [exact Hscan|].
  intros vfs_ok. rewrite !found_ino_lookup, Hscan.
  destruct (lookup_scan BLOCK_SIZE sb dir name') as [n|]; [|reflexivity].
  pose proof (get_osfs_inode_valid sb' (wrap32 n)) as V'.
  pose proof (get_osfs_inode_valid sb (wrap32 n)) as V.
  specialize (Hval (wrap32 n)).
  destruct (osfs_get_osfs_inode sb' (wrap32 n)), (osfs_get_osfs_inode sb (wrap32 n));
    try reflexivity; exfalso.
  - assert (X : @None osfs_inode <> None) by (apply V, Hval, V'; discriminate).
    congruence.
  - assert (X : @None osfs_inode <> None) by (apply V', Hval, V; discriminate).
    congruence.
Qed.

Lemma scan_first_listed (sb : osfs_sb_info) (dir : Z) (name : list byte) :
  lookup_scan BLOCK_SIZE sb dir name
  = option_map snd (find (fun e => name_eqb (fst e) name) (dir_listing sb dir)).
Proof.
  unfold lookup_scan, dir_listing, dir_find.
  rewrite find_map. cbn [fst].
  rewrite (find_ext_in
             (fun i => dir_entry_matches BLOCK_SIZE sb dir (Z.of_nat i) name)
             (fun i => name_eqb (dir_entry_name BLOCK_SIZE sb dir (Z.of_nat i)) name))
    by (intros i _; apply dir_entry_matches_name_eqb).
  destruct (find _ (seq 0 _)); reflexivity.
Qed.

(** [osfs_lookup] goes by the first entry of the listing that carries
    the name: it returns what [osfs_iget] returns for the inode number
    of that entry, the inode or the error ([EFAULT] for a stored number
    that is 0 or not below [inode_count], [ENOMEM] when [new_inode]
    fails), and [NULL] when no listed entry carries the name. *)
Theorem lookup_first_listed (vfs_ok : bool) (sb : osfs_sb_info) (dir : Z)
    (name : list byte) :
  osfs_lookup BLOCK_SIZE vfs_ok sb dir name
  = match find (fun e => name_eqb (fst e) name) (dir_listing sb dir) with
    | Some e =>
        match osfs_iget vfs_ok sb (snd e) with
        | Err er => Err er
        | Ok inode => Ok (Some inode)
        end
    | None => Ok None
    end.
Proof.
  rewrite lookup_by_scan, scan_first_listed.
  destruct (find (fun e => name_eqb (fst e) name) (dir_listing sb dir)); reflexivity.
Qed.

(** The listing after one more entry. *)
Lemma dir_listing_append (sb1 : osfs_sb_info) (dir inode_no : Z) (name : list byte) :
  dir_ready sb1 dir ->
  0 <= slot sb1 dir 0 < block_count sb1 ->
  i_size (inode_at sb1 dir) / DIR_ENTRY_SIZE < MAX_DIR_ENTRIES BLOCK_SIZE ->
  (forall e, In e (dir_listing sb1 dir) -> Z.of_nat (length (fst e)) <= MAX_FILENAME_LEN) ->
  nul_free name ->
  Z.of_nat (length name) <= MAX_FILENAME_LEN ->
  0 <= inode_no < 2 ^ 32 ->
  dir_listing (dir_entry_append sb1 dir inode_no name) dir
  = dir_listing sb1 dir ++ [(name, inode_no)].
Proof.
  intros Hr Hs Hn Hold Hnf Hl Hino.
  destruct (dir_entry_append_view sb1 dir inode_no name Hr Hs Hn Hl)
    as (_ & _ & Hcnt & _ & _ & Hm & Hi & Hnew & Hnewi & _).
  assert (Hn0 : 0 <= i_size (inode_at sb1 dir) / DIR_ENTRY_SIZE)
    by (apply Z.div_pos; [apply Hr|cbv; reflexivity]).
  unfold dir_listing at 1. rewrite Hcnt.
  replace (Z.to_nat (i_size (inode_at sb1 dir) / DIR_ENTRY_SIZE + 1))
    with (S (Z.to_nat (i_size (inode_at sb1 dir) / DIR_ENTRY_SIZE))) by lia.
  rewrite seq_S, map_app. cbn [Nat.add map]. rewrite Z2Nat.id by assumption.
  f_equal.
  - unfold dir_listing. apply map_ext_in. intros i Hin. apply in_seq in Hin.
    assert (Hi' : 0 <= Z.of_nat i < i_size (inode_at sb1 dir) / DIR_ENTRY_SIZE) by lia.
    f_equal; [|apply Hi; assumption].
    apply dir_entry_matches_name. rewrite Hm.
    + apply dir_entry_matches_name. reflexivity.
    + assumption.
    + apply (Hold (dir_entry_name BLOCK_SIZE sb1 dir (Z.of_nat i),
                   dir_entry_ino BLOCK_SIZE sb1 dir (Z.of_nat i))).
      unfold dir_listing. apply in_map_iff. exists i. split; [reflexivity|].
      apply in_seq. lia.
  - f_equal. f_equal; [|apply Hnewi; assumption].
    apply dir_entry_matches_name. apply Hnew. assumption.
Qed.

(** The first step of [osfs_add_dir_entry] keeps the listing: of a
    directory that has its block nothing changes, and a directory
    without a block and of size 0 lists nothing before and after. *)
Lemma dir_listing_ensure (sb sb1 : osfs_sb_info) (dir : Z) :
  dir_ready sb dir ->
  (i_blocks (inode_at sb dir) = 0 -> i_size (inode_at sb dir) = 0) ->
  dir_block_ensure sb dir = (sb1, Ok tt) ->
  dir_listing sb1 dir = dir_listing sb dir.
Proof.
  intros Hr He0 He.
  destruct (dir_block_ensure_ok sb sb1 dir Hr He) as (_ & _ & Hsz & Hsame & _).
  destruct (Z.eq_dec (i_blocks (inode_at sb dir)) 0) as [E|E].
  - unfold dir_listing. rewrite Hsz, (He0 E). reflexivity.
  - rewrite (Hsame E). reflexivity.
Qed.

(** A successful [osfs_add_dir_entry] puts the new name and number at
    the end of what [osfs_iterate] lists and leaves the entries before
    it as they were.  This holds for a directory that has its block and
    for one that has none yet and is of size 0, where the block is
    allocated and zero-filled first and the new entry is the only
    one. *)
Theorem add_dir_entry_appends_to_listing (sb sb' : osfs_sb_info) (dir inode_no : Z)
    (name : list byte) :
  dir_ready sb dir ->
  (i_blocks (inode_at sb dir) = 0 -> i_size (inode_at sb dir) = 0) ->
  (forall e, In e (dir_listing sb dir) -> Z.of_nat (length (fst e)) <= MAX_FILENAME_LEN) ->
  nul_free name ->
  Z.of_nat (length name) <= MAX_FILENAME_LEN ->
  0 <= inode_no < 2 ^ 32 ->
  osfs_add_dir_entry BLOCK_SIZE sb dir inode_no name = (sb', Ok tt) ->
  dir_listing sb' dir = dir_listing sb dir ++ [(name, inode_no)].
Proof.
  intros Hr Hb Hold Hnf Hl Hino Hadd.
  destruct (add_dir_entry_ok sb sb' dir inode_no name Hr Hadd)
    as (sb1 & He & Hr1 & Hs1 & Hn1 & Hf1 & ->).
  rewrite <- (dir_listing_ensure sb sb1 dir Hr Hb He) in *.
  apply dir_listing_append; assumption.
Qed.

(** Names stay unique: if no name is listed twice, none is after a
    successful [osfs_add_dir_entry], in a directory that has its block
    and in one that has none yet and is of size 0. *)
Theorem add_dir_entry_names_stay_unique (sb sb' : osfs_sb_info) (dir inode_no : Z)
    (name : list byte) :
  dir_ready sb dir ->
  (i_blocks (inode_at sb dir) = 0 -> i_size (inode_at sb dir) = 0) ->
  (forall e, In e (dir_listing sb dir) -> Z.of_nat (length (fst e)) <= MAX_FILENAME_LEN) ->
  NoDup (map fst (dir_listing sb dir)) ->
  nul_free name ->
  Z.of_nat (length name) <= MAX_FILENAME_LEN ->
  0 <= inode_no < 2 ^ 32 ->
  osfs_add_dir_entry BLOCK_SIZE sb dir inode_no name = (sb', Ok tt) ->
  NoDup (map fst (dir_listing sb' dir)).
Proof.
  intros Hr Hb Hold Hnd Hnf Hl Hino Hadd.
  destruct (add_dir_entry_ok sb sb' dir inode_no name Hr Hadd)
    as (sb1 & He & Hr1 & Hs1 & Hn1 & Hf1 & ->).
  rewrite <- (dir_listing_ensure sb sb1 dir Hr Hb He) in *.
  rewrite dir_listing_append by assumption.
  rewrite map_app. cbn [map fst].
  apply NoDup_app; [assumption|repeat constructor; intros []|].
  intros a Hin [<-|[]].
  apply in_map_iff in Hin. destruct Hin as ([nm i] & Hfst & Hin). cbn [fst] in Hfst. subst nm.
  unfold dir_listing in Hin. apply in_map_iff in Hin. destruct Hin as (k & [= Hk _] & Hin).
  apply in_seq in Hin.
  pose proof (dir_find_none sb1 dir name _ Hf1 (Z.of_nat k) ltac:(lia)) as M.
  apply dir_entry_matches_name in Hk. congruence.
Qed.

(** A name that [osfs_lookup] finds cannot be entered again: in a
    directory that has its block, [osfs_add_dir_entry] fails and leaves
    the state as it is, with [ENOSPC] when the directory is full (that
    test comes first) and with [EEXIST] otherwise. *)
Theorem add_dir_entry_existing_name (vfs_ok : bool) (sb : osfs_sb_info)
    (dir inode_no : Z) (name : list byte) :
  i_blocks (inode_at sb dir) <> 0 ->
  osfs_lookup BLOCK_SIZE vfs_ok sb dir name <> Ok None ->
  osfs_add_dir_entry BLOCK_SIZE sb dir inode_no name
  = (sb, Err (if MAX_DIR_ENTRIES BLOCK_SIZE <=? i_size (inode_at sb dir) / DIR_ENTRY_SIZE
              then ENOSPC else EEXIST)).
Proof.
  intros Hb Hl. rewrite add_dir_entry_steps. unfold dir_block_ensure.
  destruct (Z.eqb_spec (i_blocks (inode_at sb dir)) 0); [contradiction|].
  destruct (MAX_DIR_ENTRIES BLOCK_SIZE <=? i_size (inode_at sb dir) / DIR_ENTRY_SIZE);
    [reflexivity|].
  unfold osfs_lookup in Hl.
  destruct (dir_find BLOCK_SIZE sb dir name (i_size (inode_at sb dir) / DIR_ENTRY_SIZE));
    [reflexivity|contradiction].
Qed.

(** *** [osfs_iterate] *)

(** An actor that takes up to [room] entries and keeps them in order. *)
Definition take_entries (a : nat * list (list byte * Z)) (name : list byte) (ino : Z)
  : option (nat * list (list byte * Z)) :=
  match fst a with
  | O => None
  | S r => Some (r, snd a ++ [(name, ino)])
  end.

(** What a run over the entries [rest] leaves: the position after the
    entries taken, the room left and the entries kept, and [EINVAL] when
    an entry was refused. *)
Definition iterate_result (pos : Z) (room : nat) (out rest : list (list byte * Z))
  : Z * (nat * list (list byte * Z)) * result unit :=
  (pos + Z.of_nat (Nat.min room (length rest)),
   ((room - length rest)%nat, out ++ firstn room rest),
   if (room <? length rest)%nat then Err EINVAL else Ok tt).

Lemma iterate_result_nil (pos : Z) (room : nat) (out : list (list byte * Z)) :
  iterate_result pos room out [] = (pos, (room, out), Ok tt).
Proof.
  unfold iterate_result. cbn [length].
  rewrite firstn_nil, app_nil_r, Nat.min_0_r, Nat.sub_0_r, Z.add_0_r. reflexivity.
Qed.

Lemma iterate_loop_take (sb : osfs_sb_info) (dir count : Z) (fuel : nat) :
  forall (i pos : Z) (room : nat) (out : list (list byte * Z)),
    0 <= i -> (Z.to_nat (count - i) <= fuel)%nat ->
    osfs_iterate_loop BLOCK_SIZE take_entries fuel sb dir count i pos (room, out)
    = iterate_result pos room out
        (map (fun k => (dir_entry_name BLOCK_SIZE sb dir (Z.of_nat k),
                        dir_entry_ino BLOCK_SIZE sb dir (Z.of_nat k)))
             (seq (Z.to_nat i) (Z.to_nat (count - i)))).
Proof.
  induction fuel as [|fuel IH]; intros i pos room out Hi Hf.
  - replace (Z.to_nat (count - i)) with 0%nat by lia.
    cbn [osfs_iterate_loop seq map]. rewrite iterate_result_nil. reflexivity.
  - cbn [osfs_iterate_loop].
    destruct (Z.leb_spec count i) as [Hc|Hc].
    + replace (Z.to_nat (count - i)) with 0%nat by lia.
      cbn [seq map]. rewrite iterate_result_nil. reflexivity.
    + replace (Z.to_nat (count - i)) with (S (Z.to_nat (count - (i + 1)))) by lia.
      cbn [seq map]. rewrite Z2Nat.id by assumption.
      unfold take_entries at 1. cbn [fst snd].
      destruct room as [|r].
      * unfold iterate_result. cbn [length firstn Nat.min Nat.sub Nat.ltb Nat.leb].
        rewrite app_nil_r, Z.add_0_r. reflexivity.
      * rewrite IH by lia.
        replace (Z.to_nat (i + 1)) with (S (Z.to_nat i)) by lia.
        unfold iterate_result. cbn [length firstn Nat.min Nat.sub].
        rewrite <- app_assoc. cbn [app].
        apply f_equal2; [apply f_equal2; [lia|reflexivity]|reflexivity].
Qed.

Lemma to_int_small (x : Z) : - 2 ^ 31 <= x < 2 ^ 31 -> to_int x = x.
Proof. intros H. unfold to_int. rewrite Z.mod_small; lia. Qed.

Lemma iterate_take (dots : Z -> nat * list (list byte * Z) -> Z * (nat * list (list byte * Z)) * bool)
    (sb : osfs_sb_info) (dir pos : Z) (room : nat) (out : list (list byte * Z)) :
  2 <= pos < 2 ^ 31 ->
  osfs_iterate BLOCK_SIZE dots take_entries sb dir pos (room, out)
  = iterate_result pos room out (skipn (Z.to_nat (pos - 2)) (dir_listing sb dir)).
Proof.
  intros Hp. unfold osfs_iterate.
  destruct (Z.eqb_spec pos 0); [lia|]. cbn [negb].
  rewrite to_int_small by lia.
  rewrite iterate_loop_take by lia.
  unfold dir_listing. rewrite skipn_map, skipn_seq. cbn [Nat.add].
  do 3 f_equal. lia.
Qed.

(** Called at a position [pos >= 2], [osfs_iterate] hands the actor the
    listed entries from entry [pos - 2] on, in order.  When the actor
    takes them all the call returns 0 and leaves [pos] after the last
    entry; when the actor refuses one, the call returns [EINVAL] and
    leaves [pos] at the refused entry. *)
Theorem iterate_lists_from
    (dots : Z -> nat * list (list byte * Z) -> Z * (nat * list (list byte * Z)) * bool)
    (sb : osfs_sb_info) (dir pos : Z) (room : nat) (out : list (list byte * Z)) :
  2 <= pos < 2 ^ 31 ->
  osfs_iterate BLOCK_SIZE dots take_entries sb dir pos (room, out)
  = (pos + Z.of_nat (Nat.min room (length (skipn (Z.to_nat (pos - 2)) (dir_listing sb dir)))),
     ((room - length (skipn (Z.to_nat (pos - 2)) (dir_listing sb dir)))%nat,
      out ++ firstn room (skipn (Z.to_nat (pos - 2)) (dir_listing sb dir))),
     if (room <? length (skipn (Z.to_nat (pos - 2)) (dir_listing sb dir)))%nat
     then Err EINVAL else Ok tt).
Proof. intros Hp. apply iterate_take. assumption. Qed.

(** Past the dot entries ([2 <= pos], and [pos] plus the room of the
    first call below 2^31) two calls in a row, the second starting where
    the first stopped, leave the position and the entries that one call
    with the room of both would leave: no entry is lost or handed over
    twice when the listing is cut.  A position below 2 is outside this
    statement: there the code indexes the entries with [pos - 2]. *)
Theorem iterate_in_two_calls
    (dots : Z -> nat * list (list byte * Z) -> Z * (nat * list (list byte * Z)) * bool)
    (sb : osfs_sb_info) (dir pos : Z) (r1 r2 : nat) (out : list (list byte * Z)) :
  2 <= pos -> pos + Z.of_nat r1 < 2 ^ 31 ->
  fst (fst (osfs_iterate BLOCK_SIZE dots take_entries sb dir
              (fst (fst (osfs_iterate BLOCK_SIZE dots take_entries sb dir pos (r1, out))))
              (r2, snd (snd (fst (osfs_iterate BLOCK_SIZE dots take_entries sb dir pos (r1, out)))))))
  = fst (fst (osfs_iterate BLOCK_SIZE dots take_entries sb dir pos ((r1 + r2)%nat, out)))
  /\ snd (snd (fst (osfs_iterate BLOCK_SIZE dots take_entries sb dir
              (fst (fst (osfs_iterate BLOCK_SIZE dots take_entries sb dir pos (r1, out))))
              (r2, snd (snd (fst (osfs_iterate BLOCK_SIZE dots take_entries sb dir pos (r1, out))))))))
     = snd (snd (fst (osfs_iterate BLOCK_SIZE dots take_entries sb dir pos ((r1 + r2)%nat, out)))).
Proof.
  intros Hp Hr.
  rewrite (iterate_take dots sb dir pos r1 out) by lia.
  rewrite (iterate_take dots sb dir pos (r1 + r2) out) by lia.
  set (rest := skipn (Z.to_nat (pos - 2)) (dir_listing sb dir)).
  unfold iterate_result. cbn [fst snd].
  rewrite !iterate_take by lia.
  replace (skipn (Z.to_nat (pos + Z.of_nat (Nat.min r1 (length rest)) - 2)) (dir_listing sb dir))
    with (skipn (Nat.min r1 (length rest)) rest).
  2:{ unfold rest. rewrite skipn_skipn. f_equal. lia. }
  unfold iterate_result. cbn [fst snd].
  rewrite length_skipn.
  split; [lia|].
  rewrite <- app_assoc. f_equal.
  destruct (Nat.le_gt_cases r1 (length rest)) as [Hle|Hgt].
  - rewrite Nat.min_l by assumption. apply firstn_app_skipn.
  - rewrite Nat.min_r by lia.
    rewrite (firstn_all2 rest (n := r1)) by lia.
    rewrite (firstn_all2 rest (n := (r1 + r2)%nat)) by lia.
    rewrite skipn_all. rewrite firstn_nil. apply app_nil_r.
Qed.

(** *** New inodes *)

(** The record that [osfs_new_inode] leaves for a new inode. *)
Definition new_inode_record (ino mode uid gid now : Z) : osfs_inode :=
  mk_inode ino 0 0 (wrap16 mode) 0 uid gid now now now (repeat 0 (Z.to_nat OSFS_N_BLOCKS)).

Lemma land_wrap16_fmt (mode : Z) : Z.land (wrap16 mode) S_IFMT = Z.land mode S_IFMT.
Proof.
  unfold wrap16. rewrite <- Z.land_ones by lia.
  rewrite <- Z.land_assoc. reflexivity.
Qed.

Lemma file_type_wrap16 (mode : Z) :
  S_ISDIR (wrap16 mode) = S_ISDIR mode
  /\ S_ISREG (wrap16 mode) = S_ISREG mode
  /\ S_ISLNK (wrap16 mode) = S_ISLNK mode.
Proof.
  unfold S_ISDIR, S_ISREG, S_ISLNK. rewrite land_wrap16_fmt. auto.
Qed.

Lemma new_inode_ok (vfs_ok : bool) (uid gid now : Z) (sb sb' : osfs_sb_info) (mode ino : Z) :
  osfs_new_inode vfs_ok uid gid now sb mode = (sb', Ok ino) ->
  1 <= ino < inode_count sb
  /\ (Z.to_nat ino < length (inode_table sb))%nat
  /\ test_bit ino (inode_bitmap sb) = false
  /\ (forall j, test_bit j (inode_bitmap sb') = (ino =? j) || test_bit j (inode_bitmap sb))
  /\ inode_at sb' ino = new_inode_record ino mode uid gid now
  /\ (forall j, j <> ino -> inode_at sb' j = inode_at sb j)
  /\ inode_count sb' = inode_count sb
  /\ length (inode_table sb') = length (inode_table sb)
  /\ data_blocks sb' = data_blocks sb
  /\ block_bitmap sb' = block_bitmap sb
  /\ nr_free_blocks sb' = nr_free_blocks sb
  /\ block_count sb' = block_count sb
  /\ (S_ISDIR mode || S_ISREG mode || S_ISLNK mode = true)
  /\ nr_free_inodes sb <> 0
  /\ vfs_ok = true.
Proof.
  unfold osfs_new_inode.
  destruct (S_ISDIR mode) eqn:Ed, (S_ISREG mode) eqn:Er, (S_ISLNK mode) eqn:El;
    cbn [negb andb orb]; try discriminate;
    (destruct (Z.eqb_spec (nr_free_inodes sb) 0) as [|Hnf]; [discriminate|]);
    unfold osfs_get_free_inode;
    (destruct (find_zero_bit (inode_bitmap sb) 1 (Z.to_nat (inode_count sb - 1)))
       as [q|] eqn:F; [|discriminate]);
    apply find_zero_bit_some in F; destruct F as (Hq & Hfree & _);
    cbn [inode_count with_inode_alloc];
    (destruct (Z.ltb_spec q 0); [lia|]);
    (destruct (Z.leb_spec (inode_count sb) q); [lia|]);
    cbn [orb];
    (destruct vfs_ok; cbn [negb]; [|discriminate]);
    match goal with
    | |- context [osfs_get_osfs_inode ?s q] =>
        destruct (osfs_get_osfs_inode s q) as [r|] eqn:G; [|discriminate];
        apply get_osfs_inode_some in G; destruct G as [[_ Hlen] _]
    end;
    cbn [inode_table with_inode_alloc] in Hlen;
    intros [= <- <-];
    (split; [lia|]); (split; [exact Hlen|]); (split; [exact Hfree|]);
    (split; [intros j; cbn; apply test_bit_set_bit; lia|]);
    (split; [unfold inode_at; cbn; apply nth_list_upd_same; exact Hlen|]);
    (split; [intros j Hj; unfold inode_at; cbn; apply nth_list_upd_other;
             destruct (Z.lt_ge_cases j 0); lia|]);
    (split; [reflexivity|]);
    (split; [cbn; apply list_upd_length|]);
    repeat (split; [reflexivity|]); (split; [exact Hnf|reflexivity]).
Qed.

(** A successful [osfs_new_inode] returns a number from 1 to
    [inode_count - 1] whose bit was clear, sets that bit and no other,
    and leaves for it the record of an empty file of the requested type:
    size 0, no block, fourteen zero pointers.  The other records, the
    data area and the block bitmap stay as they were. *)
Theorem new_inode_gives_empty_file (vfs_ok : bool) (uid gid now : Z)
    (sb sb' : osfs_sb_info) (mode ino : Z) :
  osfs_new_inode vfs_ok uid gid now sb mode = (sb', Ok ino) ->
  1 <= ino < inode_count sb
  /\ test_bit ino (inode_bitmap sb) = false
  /\ (forall j, test_bit j (inode_bitmap sb') = (ino =? j) || test_bit j (inode_bitmap sb))
  /\ osfs_get_osfs_inode sb' ino = Some (new_inode_record ino mode uid gid now)
  /\ (forall k, slot sb' ino k = 0)
  /\ i_size (inode_at sb' ino) = 0
  /\ i_blocks (inode_at sb' ino) = 0
  /\ S_ISDIR (i_mode (inode_at sb' ino)) = S_ISDIR mode
  /\ S_ISREG (i_mode (inode_at sb' ino)) = S_ISREG mode
  /\ S_ISLNK (i_mode (inode_at sb' ino)) = S_ISLNK mode
  /\ (forall j, j <> ino -> inode_at sb' j = inode_at sb j)
  /\ data_blocks sb' = data_blocks sb
  /\ block_bitmap sb' = block_bitmap sb
  /\ nr_free_blocks sb' = nr_free_blocks sb.
Proof.
  intros H. apply new_inode_ok in H.
  destruct H as (H1 & H2 & H3 & H4 & H5 & H6 & H7 & H8 & H9 & H10 & H11 & _).
  destruct (file_type_wrap16 mode) as (Td & Tr & Tl).
  split; [exact H1|]. split; [exact H3|]. split; [exact H4|].
  split.
  { rewrite <- H5. apply valid_get_osfs_inode. split; [lia|]. rewrite H8. exact H2. }
  split; [intros k; unfold slot; rewrite H5; cbn [i_block new_inode_record];
          change (Z.to_nat OSFS_N_BLOCKS) with 14%nat;
          destruct (Nat.lt_ge_cases (Z.to_nat k) 14) as [Hk|Hk];
          [apply nth_repeat_lt; exact Hk|apply nth_overflow; rewrite repeat_length; exact Hk]|].
  rewrite H5. cbn [i_size i_blocks i_mode new_inode_record].
  split; [reflexivity|]. split; [reflexivity|].
  split; [exact Td|]. split; [exact Tr|]. split; [exact Tl|].
  split; [exact H6|]. split; [exact H9|]. split; [exact H10|exact H11].
Qed.

(** [osfs_iget] looks at the low 32 bits of the number it is given: it
    answers [EFAULT] when they are 0 or not below [inode_count].  On
    every number that [osfs_new_inode] has returned it succeeds when
    [new_inode] does: the VFS inode shows an empty file and gets the
    directory operations for a directory, the file operations for a
    regular file and no operations for a symbolic link, as the mode
    asked for; it answers [ENOMEM] when [new_inode] fails.  A number
    that differs from it by a multiple of 2^32 is served from the same
    record. *)
Theorem iget_after_new_inode (vfs_ok : bool) (uid gid now : Z)
    (sb sb' : osfs_sb_info) (mode ino : Z) :
  inode_count sb <= 2 ^ 32 ->
  osfs_new_inode vfs_ok uid gid now sb mode = (sb', Ok ino) ->
  (forall v j, wrap32 j = 0 \/ inode_count sb' <= wrap32 j -> osfs_iget v sb' j = Err EFAULT)
  /\ (exists vi,
        osfs_iget true sb' ino = Ok vi
        /\ v_ino vi = ino /\ v_private vi = ino
        /\ v_size vi = 0 /\ v_blocks vi = 0
        /\ v_mode vi = wrap16 mode
        /\ v_ops vi = (if S_ISDIR mode then DirOps
                       else if S_ISREG mode then FileOps else NoOps))
  /\ osfs_iget false sb' ino = Err ENOMEM
  /\ (forall k, exists vk,
        osfs_iget true sb' (ino + k * 2 ^ 32) = Ok vk
        /\ v_ino vk = ino + k * 2 ^ 32 /\ v_private vk = ino).
Proof.
  intros Hic H. apply new_inode_ok in H.
  destruct H as (H1 & H2 & H3 & H4 & H5 & H6 & H7 & H8 & _).
  destruct (file_type_wrap16 mode) as (Td & Tr & Tl).
  assert (Hw : wrap32 ino = ino) by (apply wrap32_small; lia).
  assert (Hwk : forall k, wrap32 (ino + k * 2 ^ 32) = ino)
    by (intros k; unfold wrap32 in *; rewrite Z.mod_add by lia; exact Hw).
  assert (G : osfs_get_osfs_inode sb' ino = Some (new_inode_record ino mode uid gid now)).
  { rewrite <- H5. apply valid_get_osfs_inode. split; [lia|]. rewrite H8. exact H2. }
  split.
  { intros v j Hj. unfold osfs_iget, osfs_get_osfs_inode.
    pose proof (wrap32_range j).
    destruct (Z.leb_spec (wrap32 j) 0); [reflexivity|].
    destruct (Z.leb_spec (inode_count sb') (wrap32 j)); [reflexivity|lia]. }
  split.
  { unfold osfs_iget. rewrite Hw, G. cbn [negb].
    eexists. split; [reflexivity|].
    cbn [v_ino v_private v_size v_blocks v_mode v_ops i_size i_blocks i_mode new_inode_record].
    rewrite Td, Tr. repeat split. }
  split; [unfold osfs_iget; rewrite Hw, G; reflexivity|].
  intros k. unfold osfs_iget. rewrite (Hwk k), G. cbn [negb].
  eexists. split; [reflexivity|]. split; reflexivity.
Qed.

(** *** [osfs_create] *)

Lemma add_dir_entry_frame (sb sb' : osfs_sb_info) (dir inode_no : Z) (name : list byte) :
  dir_ready sb dir ->
  Z.of_nat (length name) <= MAX_FILENAME_LEN ->
  osfs_add_dir_entry BLOCK_SIZE sb dir inode_no name = (sb', Ok tt) ->
  (forall j, j <> dir -> inode_at sb' j = inode_at sb j)
  /\ inode_bitmap sb' = inode_bitmap sb
  /\ nr_free_inodes sb' = nr_free_inodes sb.
Proof.
  intros Hr Hl Hadd.
  destruct (add_dir_entry_ok sb sb' dir inode_no name Hr Hadd)
    as (sb1 & He & Hr1 & Hs1 & Hn1 & Hf1 & ->).
  destruct (dir_block_ensure_ok sb sb1 dir Hr He) as (_ & _ & _ & _ & F1 & F2 & F3 & _).
  destruct (dir_entry_append_view sb1 dir inode_no name Hr1 Hs1 Hn1 Hl)
    as (_ & _ & _ & _ & _ & _ & _ & _ & _ & G1 & G2 & G3 & _).
  split; [intros j Hj; rewrite G1, F1 by assumption; reflexivity|].
  split; congruence.
Qed.

(** A file that [osfs_create] has created is found by [osfs_lookup]
    under its name: when [new_inode] succeeds the lookup returns an
    inode with the number that [osfs_create] bound to the dentry,
    showing an empty file of the mode asked for, and when [new_inode]
    fails the lookup returns [ENOMEM].  That number is not the
    directory's, its bit is set, and its record is that of an empty
    file. *)
Theorem create_then_lookup (vfs_ok : bool) (uid gid now : Z) (sb sb' : osfs_sb_info)
    (dir : Z) (name : list byte) (mode ino : Z) :
  dir_ready sb dir ->
  test_bit dir (inode_bitmap sb) = true ->
  inode_count sb <= 2 ^ 32 ->
  nul_free name ->
  osfs_create BLOCK_SIZE vfs_ok uid gid now sb dir name mode = (sb', Ok ino) ->
  (exists inode,
     osfs_lookup BLOCK_SIZE true sb' dir name = Ok (Some inode)
     /\ v_ino inode = ino /\ v_private inode = ino
     /\ v_size inode = 0 /\ v_blocks inode = 0
     /\ v_mode inode = wrap16 mode)
  /\ osfs_lookup BLOCK_SIZE false sb' dir name = Err ENOMEM
  /\ ino <> dir
  /\ test_bit ino (inode_bitmap sb') = true
  /\ inode_at sb' ino = new_inode_record ino mode uid gid now.
Proof.
  intros (Hv & Hl & Ha & Hs & Hb) Hbit Hic Hnf. unfold osfs_create.
  destruct (Z.ltb_spec MAX_FILENAME_LEN (Z.of_nat (length name))) as [|Hlen]; [discriminate|].
  destruct (osfs_new_inode vfs_ok uid gid now sb mode) as [sb1 [q|e]] eqn:N; [|discriminate].
  destruct (new_inode_ok vfs_ok uid gid now sb sb1 mode q N)
    as (H1 & H2 & H3 & H4 & H5 & H6 & H7 & H8 & H9 & H10 & H11 & H12 & _).
  assert (Hne : q <> dir) by (intros ->; congruence).
  assert (Hat : inode_at sb1 dir = inode_at sb dir) by (apply H6; congruence).
  assert (Hr1 : dir_ready sb1 dir).
  { split; [unfold valid_ino; rewrite H7, H8; exact Hv|].
    split; [rewrite Hat; exact Hl|].
    split; [unfold area_ok; rewrite H9, H12; exact Ha|].
    split; [rewrite Hat; exact Hs|].
    unfold slot. rewrite Hat, H12. exact Hb. }
  destruct (osfs_add_dir_entry BLOCK_SIZE sb1 dir q name) as [sb2 [[]|e]] eqn:A; [|discriminate].
  intros [= <- <-].
  destruct (add_dir_entry_frame sb1 sb2 dir q name Hr1 Hlen A) as (F1 & F2 & _).
  assert (Hscan : lookup_scan BLOCK_SIZE sb2 dir name = Some q)
    by (apply (lookup_added_name sb1 sb2 dir q name); try assumption; lia).
  assert (G : osfs_get_osfs_inode sb2 (wrap32 q)
              = Some (new_inode_record q mode uid gid now)).
  { rewrite wrap32_small by lia. rewrite <- H5, <- (F1 q Hne).
    apply valid_get_osfs_inode.
    apply (add_dir_entry_valid sb1 sb2 dir q name _ A).
    split; [rewrite H7; lia|rewrite H8; exact H2]. }
  split.
  { rewrite lookup_by_scan, Hscan. unfold osfs_iget. rewrite G. cbn [negb].
    eexists. split; [reflexivity|].
    cbn [v_ino v_private v_size v_blocks v_mode i_size i_blocks i_mode new_inode_record].
    rewrite wrap32_small by lia. repeat split. }
  split; [rewrite lookup_by_scan, Hscan; unfold osfs_iget; rewrite G; reflexivity|].
  split; [exact Hne|].
  split; [rewrite F2, H4, Z.eqb_refl; reflexivity|].
  rewrite F1 by assumption. exact H5.
Qed.

End Directory.

(** A first call, at position 0, with room for every entry: once
    [dir_emit_dots] has left position 2, the whole listing is handed
    over, the position ends after the last entry and the call
    returns 0. *)
Theorem iterate_whole_directory (BLOCK_SIZE : Z)
    (dots : Z -> nat * list (list byte * Z) -> Z * (nat * list (list byte * Z)) * bool)
    (sb : osfs_sb_info) (dir : Z) (room room' : nat) (out out' : list (list byte * Z)) :
  dots 0 (room, out) = (2, (room', out'), true) ->
  (length (dir_listing BLOCK_SIZE sb dir) <= room')%nat ->
  osfs_iterate BLOCK_SIZE dots take_entries sb dir 0 (room, out)
  = (2 + Z.of_nat (length (dir_listing BLOCK_SIZE sb dir)),
     ((room' - length (dir_listing BLOCK_SIZE sb dir))%nat,
      out' ++ dir_listing BLOCK_SIZE sb dir),
     Ok tt).
Proof.
  intros Hd Hr.
  assert (E : osfs_iterate BLOCK_SIZE dots take_entries sb dir 0 (room, out)
              = osfs_iterate BLOCK_SIZE dots take_entries sb dir 2 (room', out')).
  { unfold osfs_iterate. cbn [Z.eqb]. rewrite Hd. reflexivity. }
  rewrite E, iterate_take by lia.
  change (Z.to_nat (2 - 2)) with 0%nat. cbn [skipn]. unfold iterate_result.
  rewrite Nat.min_r by assumption.
  rewrite firstn_all2 by assumption.
  destruct (Nat.ltb_spec room' (length (dir_listing BLOCK_SIZE sb dir))); [lia|reflexivity].
Qed.

(** ** Runs on the reference configuration *)

Lemma dir_ready_mounted : dir_ready 4096 (mounted 4096 0) ROOT_INODE.
Proof.
  split; [split; [vm_compute; split; reflexivity|apply Nat.ltb_lt; vm_compute; reflexivity]|].
  split; [vm_compute; reflexivity|].
  split; [split; [vm_compute; reflexivity|vm_compute; discriminate]|].
  split; [vm_compute; discriminate|].
  intros _. vm_compute. split; [discriminate|reflexivity].
Qed.

Lemma dir_ready_file_state : dir_ready 4096 file_state ROOT_INODE.
Proof.
  split; [split; [vm_compute; split; reflexivity|apply Nat.ltb_lt; vm_compute; reflexivity]|].
  split; [vm_compute; reflexivity|].
  split; [split; [vm_compute; reflexivity|vm_compute; discriminate]|].
  split; [vm_compute; discriminate|].
  intros _. vm_compute. split; [discriminate|reflexivity].
Qed.

Lemma nul_free_name_a_txt : nul_free name_a_txt.
Proof. repeat constructor; discriminate. Qed.

Lemma nul_free_name_b : nul_free name_b.
Proof. repeat constructor; discriminate. Qed.

Lemma listing_file_state : dir_listing 4096 file_state ROOT_INODE = [(name_a_txt, 2)].
Proof. vm_compute. reflexivity. Qed.

Lemma listed_names_fit_file_state (e : list byte * Z) :
  In e (dir_listing 4096 file_state ROOT_INODE) ->
  Z.of_nat (length (fst e)) <= MAX_FILENAME_LEN.
Proof.
  rewrite listing_file_state. intros [<-|[]]. vm_compute. discriminate.
Qed.

Local Notation "'add_a_txt'" :=
  (osfs_add_dir_entry 4096 (mounted 4096 0) ROOT_INODE 2 name_a_txt).
Local Notation "'add_b'" :=
  (osfs_add_dir_entry 4096 file_state ROOT_INODE 3 name_b).

(** The number entered is 25, past the table of 20 inodes: the entry
    is made and the lookup of its name fails. *)
Local Notation "'add_wild'" :=
  (osfs_add_dir_entry 4096 (mounted 4096 0) ROOT_INODE 25 name_a_txt).

Lemma add_dir_entry_then_lookup_witness :
  osfs_lookup 4096 true (fst add_wild) ROOT_INODE name_a_txt = Err EFAULT.
Proof.
  assert (Hrun : add_wild = (fst add_wild, Ok tt))
    by (apply pair_eta; vm_compute; reflexivity).
  assert (Hlen : Z.of_nat (length name_a_txt) <= MAX_FILENAME_LEN)
    by (vm_compute; discriminate).
  refine (proj2 (add_dir_entry_then_lookup 4096 ltac:(lia) ltac:(lia) true
                   (mounted 4096 0) (fst add_wild) ROOT_INODE 25 name_a_txt
                   dir_ready_mounted nul_free_name_a_txt Hlen ltac:(lia) Hrun) _).
  right. vm_compute. discriminate.
Defined.

Lemma add_dir_entry_keeps_other_names_witness :
  lookup_scan 4096 (fst add_b) ROOT_INODE name_a_txt
  = lookup_scan 4096 file_state ROOT_INODE name_a_txt.
Proof.
  assert (Hrun : add_b = (fst add_b, Ok tt)) by (apply pair_eta; vm_compute; reflexivity).
  assert (Hib : i_blocks (inode_at file_state ROOT_INODE) <> 0) by (vm_compute; discriminate).
  assert (Hl1 : Z.of_nat (length name_b) <= MAX_FILENAME_LEN) by (vm_compute; discriminate).
  assert (Hl2 : Z.of_nat (length name_a_txt) <= MAX_FILENAME_LEN)
    by (vm_compute; discriminate).
  exact (proj1 (add_dir_entry_keeps_other_names 4096 ltac:(lia) ltac:(lia)
                  file_state (fst add_b) ROOT_INODE 3 name_b name_a_txt
                  dir_ready_file_state Hib nul_free_name_b Hl1 Hl2 ltac:(discriminate) Hrun)).
Defined.

Lemma listing_mounted : dir_listing 4096 (mounted 4096 0) ROOT_INODE = [].
Proof. vm_compute. reflexivity. Qed.

(** The first entry of the root after the mount: the directory block
    is allocated and zero-filled on the way. *)
Lemma add_dir_entry_appends_to_listing_witness :
  dir_listing 4096 (fst add_a_txt) ROOT_INODE
  = dir_listing 4096 (mounted 4096 0) ROOT_INODE ++ [(name_a_txt, 2)].
Proof.
  apply (add_dir_entry_appends_to_listing 4096 ltac:(lia) ltac:(lia)
           (mounted 4096 0) (fst add_a_txt) ROOT_INODE 2 name_a_txt).
  - exact dir_ready_mounted.
  - intros _. vm_compute. reflexivity.
  - rewrite listing_mounted. intros e [].
  - exact nul_free_name_a_txt.
  - vm_compute. discriminate.
  - lia.
  - apply pair_eta. vm_compute. reflexivity.
Defined.

Lemma add_dir_entry_names_stay_unique_witness :
  NoDup (map fst (dir_listing 4096 (fst add_a_txt) ROOT_INODE)).
Proof.
  apply (add_dir_entry_names_stay_unique 4096 ltac:(lia) ltac:(lia)
           (mounted 4096 0) (fst add_a_txt) ROOT_INODE 2 name_a_txt).
  - exact dir_ready_mounted.
  - intros _. vm_compute. reflexivity.
  - rewrite listing_mounted. intros e [].
  - rewrite listing_mounted. constructor.
  - exact nul_free_name_a_txt.
  - vm_compute. discriminate.
  - lia.
  - apply pair_eta. vm_compute. reflexivity.
Defined.

Lemma add_dir_entry_existing_name_witness :
  osfs_add_dir_entry 4096 file_state ROOT_INODE 3 name_a_txt
  = (file_state,
     Err (if MAX_DIR_ENTRIES 4096 <=? i_size (inode_at file_state ROOT_INODE) / DIR_ENTRY_SIZE
          then ENOSPC else EEXIST)).
Proof.
  apply (add_dir_entry_existing_name 4096 true file_state ROOT_INODE 3 name_a_txt).
  - vm_compute. discriminate.
  - vm_compute. discriminate.
Defined.

(** [dir_emit_dots] when both entries are taken. *)
Definition dots_taken (pos : Z) (a : nat * list (list byte * Z))
  : Z * (nat * list (list byte * Z)) * bool :=
  (2, a, true).

Lemma iterate_lists_from_witness :
  osfs_iterate 4096 dots_taken take_entries file_state ROOT_INODE 2 (5%nat, [])
  = (2 + Z.of_nat (Nat.min 5 (length (skipn (Z.to_nat (2 - 2)) (dir_listing 4096 file_state ROOT_INODE)))),
     ((5 - length (skipn (Z.to_nat (2 - 2)) (dir_listing 4096 file_state ROOT_INODE)))%nat,
      [] ++ firstn 5 (skipn (Z.to_nat (2 - 2)) (dir_listing 4096 file_state ROOT_INODE))),
     if (5 <? length (skipn (Z.to_nat (2 - 2)) (dir_listing 4096 file_state ROOT_INODE)))%nat
     then Err EINVAL else Ok tt).
Proof.
  apply (iterate_lists_from 4096 dots_taken file_state ROOT_INODE 2 5 []). lia.
Defined.

Lemma iterate_in_two_calls_witness :
  fst (fst (osfs_iterate 4096 dots_taken take_entries (fst add_b) ROOT_INODE
              (fst (fst (osfs_iterate 4096 dots_taken take_entries (fst add_b) ROOT_INODE 2
                           (1%nat, []))))
              (1%nat, snd (snd (fst (osfs_iterate 4096 dots_taken take_entries (fst add_b)
                                       ROOT_INODE 2 (1%nat, [])))))))
  = fst (fst (osfs_iterate 4096 dots_taken take_entries (fst add_b) ROOT_INODE 2
                ((1 + 1)%nat, []))).
Proof.
  exact (proj1 (iterate_in_two_calls 4096 dots_taken (fst add_b) ROOT_INODE 2 1 1 []
                  ltac:(lia) ltac:(lia))).
Defined.

Lemma iterate_whole_directory_witness :
  osfs_iterate 4096 dots_taken take_entries file_state ROOT_INODE 0 (5%nat, [])
  = (2 + Z.of_nat (length (dir_listing 4096 file_state ROOT_INODE)),
     ((5 - length (dir_listing 4096 file_state ROOT_INODE))%nat,
      [] ++ dir_listing 4096 file_state ROOT_INODE),
     Ok tt).
Proof.
  apply (iterate_whole_directory 4096 dots_taken file_state ROOT_INODE 5 5 [] []).
  - reflexivity.
  - rewrite listing_file_state. cbn. lia.
Defined.

Local Notation "'new_inode_run'" := (osfs_new_inode true 0 0 1 (mounted 4096 0) S_IFREG).

Lemma new_inode_gives_empty_file_witness :
  1 <= 2 < inode_count (mounted 4096 0)
  /\ test_bit 2 (inode_bitmap (mounted 4096 0)) = false.
Proof.
  destruct (new_inode_gives_empty_file true 0 0 1 (mounted 4096 0) (fst new_inode_run) S_IFREG 2)
    as (H1 & H2 & _).
  - apply pair_eta. vm_compute. reflexivity.
  - split; assumption.
Defined.

Lemma iget_after_new_inode_witness :
  osfs_iget true (fst new_inode_run) (2 ^ 32) = Err EFAULT
  /\ (exists vi, osfs_iget true (fst new_inode_run) 2 = Ok vi /\ v_ops vi = FileOps)
  /\ exists vk, osfs_iget true (fst new_inode_run) (2 + 1 * 2 ^ 32) = Ok vk
                /\ v_private vk = 2.
Proof.
  destruct (iget_after_new_inode true 0 0 1 (mounted 4096 0) (fst new_inode_run) S_IFREG 2)
    as (H1 & (vi & H2 & _ & _ & _ & _ & _ & H3) & _ & H4).
  - vm_compute. discriminate.
  - apply pair_eta. vm_compute. reflexivity.
  - split; [apply H1; left; vm_compute; reflexivity|].
    split; [exists vi; split; [exact H2|exact H3]|].
    destruct (H4 1) as (vk & K1 & _ & K2).
    exists vk. split; [exact K1|exact K2].
Defined.

Lemma create_then_lookup_witness :
  osfs_lookup 4096 false file_state ROOT_INODE name_a_txt = Err ENOMEM
  /\ 2 <> ROOT_INODE
  /\ test_bit 2 (inode_bitmap file_state) = true
  /\ inode_at file_state 2 = new_inode_record 2 S_IFREG 0 0 1.
Proof.
  assert (Hbit : test_bit ROOT_INODE (inode_bitmap (mounted 4096 0)) = true)
    by (vm_compute; reflexivity).
  assert (Hic : inode_count (mounted 4096 0) <= 2 ^ 32) by (vm_compute; discriminate).
  assert (Hrun : osfs_create 4096 true 0 0 1 (mounted 4096 0) ROOT_INODE name_a_txt S_IFREG
                 = (file_state, Ok 2)).
  { change file_state with (fst (osfs_create 4096 true 0 0 1 (mounted 4096 0) ROOT_INODE
                                   name_a_txt S_IFREG)).
    apply pair_eta. vm_compute. reflexivity. }
  exact (proj2 (create_then_lookup 4096 ltac:(lia) ltac:(lia) true 0 0 1
                  (mounted 4096 0) file_state ROOT_INODE name_a_txt S_IFREG 2
                  dir_ready_mounted Hbit Hic nul_free_name_a_txt Hrun)).
Defined.

(** * Files *)

Section Files.

Variable BLOCK_SIZE : Z.
Hypothesis BLOCK_SIZE_pos : 0 < BLOCK_SIZE.
Variable ino : Z.
Local Notation "'APB'" := (OSFS_ADDR_PER_BLOCK BLOCK_SIZE).

(** ** Reading changes nothing *)

Lemma get_block_read_state (sb : osfs_sb_info) (b : Z) :
  fst (osfs_get_block BLOCK_SIZE sb ino b false) = sb.
Proof.
  unfold osfs_get_block.
  destruct (osfs_get_osfs_inode sb ino); [|reflexivity].
  destruct (b <? OSFS_N_DIRECT).
  { unfold get_data_slot. rewrite andb_false_r. reflexivity. }
  cbv zeta.
  destruct (b - OSFS_N_DIRECT <? APB).
  { unfold get_index_slot.
    destruct (slot sb ino OSFS_N_DIRECT =? 0); cbn [negb]; [reflexivity|].
    unfold get_data_entry. rewrite andb_false_r. reflexivity. }
  destruct (b - OSFS_N_DIRECT - APB <? APB * APB); [|reflexivity].
  unfold get_index_slot.
  destruct (slot sb ino (OSFS_N_DIRECT + 1) =? 0); cbn [negb]; [reflexivity|].
  unfold get_index_entry.
  destruct (load_entry BLOCK_SIZE sb (slot sb ino (OSFS_N_DIRECT + 1))
              ((b - OSFS_N_DIRECT - APB) / APB) =? 0); cbn [negb]; [reflexivity|].
  unfold get_data_entry. rewrite andb_false_r. reflexivity.
Qed.

Lemma read_loop_state (uok : bool) (sb : osfs_sb_info) (fuel : nat) :
  forall pos len out,
    fst (fst (osfs_read_loop BLOCK_SIZE fuel uok sb ino pos len out)) = sb.
Proof.
  induction fuel as [|fuel IH]; intros pos len out; cbn [osfs_read_loop]; [reflexivity|].
  destruct (len <=? 0); [reflexivity|].
  pose proof (get_block_read_state sb (pos / BLOCK_SIZE)) as G.
  destruct (osfs_get_block BLOCK_SIZE sb ino (pos / BLOCK_SIZE) false) as [sb1 r].
  cbn [fst] in G. subst sb1.
  destruct uok; cbn [negb]; [apply IH|reflexivity].
Qed.

(** Neither [osfs_get_block] in read mode nor [osfs_read] changes the
    state: no block is allocated, no counter, bitmap, pointer, size or
    time stamp is written, whatever the arguments and whatever the
    outcome. *)
Theorem reading_changes_nothing (uok : bool) (sb : osfs_sb_info) (b len pos : Z) :
  fst (osfs_get_block BLOCK_SIZE sb ino b false) = sb
  /\ fst (fst (osfs_read BLOCK_SIZE uok sb ino len pos)) = sb.
Proof.
  split; [apply get_block_read_state|].
  unfold osfs_read.
  destruct (osfs_get_osfs_inode sb ino) as [ind|]; [|reflexivity].
  destruct (i_blocks ind =? 0); [reflexivity|].
  destruct (i_size ind <=? pos); [reflexivity|].
  apply read_loop_state.
Qed.

(** ** The largest file *)

Lemma get_block_too_big (sb : osfs_sb_info) (b : Z) (create : bool) :
  valid_ino sb ino -> max_blocks BLOCK_SIZE <= b ->
  osfs_get_block BLOCK_SIZE sb ino b create = (sb, Err EFBIG).
Proof.
  intros Hv Hb. unfold osfs_get_block. rewrite (valid_get_osfs_inode sb ino Hv).
  unfold max_blocks in Hb. pose proof (apb_nonneg BLOCK_SIZE BLOCK_SIZE_pos).
  pose proof (Z.square_nonneg APB).
  destruct (Z.ltb_spec b OSFS_N_DIRECT); [lia|]. cbv zeta.
  destruct (Z.ltb_spec (b - OSFS_N_DIRECT) APB); [lia|].
  destruct (Z.ltb_spec (b - OSFS_N_DIRECT - APB) (APB * APB)); [lia|].
  reflexivity.
Qed.

(** A write that starts at or after byte
    [(12 + APB + APB * APB) * BLOCK_SIZE], the end of the last block the
    three tiers can map, fails with [EFBIG] and leaves the state and the
    position as they were. *)
Theorem write_past_last_block (uok : bool) (now : Z) (sb : osfs_sb_info)
    (buf : list byte) (pos : Z) :
  osfs_get_osfs_inode sb ino <> None ->
  buf <> [] ->
  max_blocks BLOCK_SIZE * BLOCK_SIZE <= pos ->
  osfs_write BLOCK_SIZE uok now sb ino buf pos = (sb, pos, Err EFBIG).
Proof.
  intros Hv Hbuf Hpos. apply get_osfs_inode_valid in Hv.
  unfold osfs_write. rewrite (valid_get_osfs_inode sb ino Hv). cbv zeta.
  destruct buf as [|c buf]; [congruence|].
  replace (Z.to_nat (Z.of_nat (length (c :: buf)))) with (S (length buf))
    by (cbn [length]; lia).
  cbn [osfs_write_loop].
  destruct (Z.leb_spec (Z.of_nat (length (c :: buf))) 0) as [H|_]; [cbn [length] in H; lia|].
  rewrite get_block_too_big; [reflexivity|assumption|].
  apply Z.div_le_lower_bound; lia.
Qed.

(** ** What [osfs_get_block] answers in read mode *)

Lemma get_block_read_hole (sb : osfs_sb_info) (b : Z) :
  valid_ino sb ino -> 0 <= b < max_blocks BLOCK_SIZE ->
  ptr BLOCK_SIZE ino sb (path_of BLOCK_SIZE b) = 0 ->
  osfs_get_block BLOCK_SIZE sb ino b false = (sb, Ok 0)
  \/ osfs_get_block BLOCK_SIZE sb ino b false = (sb, Err ENOENT).
Proof.
  intros Hv Hb Hp. unfold osfs_get_block. rewrite (valid_get_osfs_inode sb ino Hv).
  unfold max_blocks, path_of in *. pose proof (apb_nonneg BLOCK_SIZE BLOCK_SIZE_pos).
  destruct (Z.ltb_spec b OSFS_N_DIRECT).
  { left. unfold get_data_slot. rewrite andb_false_r. cbn [ptr] in Hp. rewrite Hp. reflexivity. }
  cbv zeta.
  destruct (Z.ltb_spec (b - OSFS_N_DIRECT) APB).
  { cbn [ptr] in Hp. unfold get_index_slot. change OSFS_N_DIRECT with 12 in *.
    destruct (slot sb ino 12 =? 0); cbn [negb]; [right; reflexivity|].
    left. unfold get_data_entry. rewrite andb_false_r, Hp. reflexivity. }
  destruct (Z.ltb_spec (b - OSFS_N_DIRECT - APB) (APB * APB)); [|lia].
  cbn [ptr] in Hp. unfold get_index_slot.
  change (OSFS_N_DIRECT + 1) with 13 in *. change OSFS_N_DIRECT with 12 in *.
  destruct (slot sb ino 13 =? 0); cbn [negb]; [right; reflexivity|].
  unfold get_index_entry.
  destruct (load_entry BLOCK_SIZE sb (slot sb ino 13) ((b - 12 - APB) / APB) =? 0);
    cbn [negb]; [right; reflexivity|].
  left. unfold get_data_entry. rewrite andb_false_r, Hp. reflexivity.
Qed.

(** The three answers of read mode: the block that the tree maps the
    logical block to, or nothing (block number 0 or an error) when the
    logical block is a hole or lies past the last tier. *)
Lemma get_block_read_cases (sb : osfs_sb_info) (b : Z) :
  valid_ino sb ino -> 0 <= b ->
  (b < max_blocks BLOCK_SIZE
   /\ ptr BLOCK_SIZE ino sb (path_of BLOCK_SIZE b) <> 0
   /\ osfs_get_block BLOCK_SIZE sb ino b false
      = (sb, Ok (ptr BLOCK_SIZE ino sb (path_of BLOCK_SIZE b))))
  \/ ((max_blocks BLOCK_SIZE <= b \/ ptr BLOCK_SIZE ino sb (path_of BLOCK_SIZE b) = 0)
      /\ (osfs_get_block BLOCK_SIZE sb ino b false = (sb, Ok 0)
          \/ exists e, osfs_get_block BLOCK_SIZE sb ino b false = (sb, Err e))).
Proof.
  intros Hv Hb.
  destruct (Z.lt_ge_cases b (max_blocks BLOCK_SIZE)) as [Hlt|Hge].
  - destruct (Z.eq_dec (ptr BLOCK_SIZE ino sb (path_of BLOCK_SIZE b)) 0) as [E|E].
    + right. split; [right; assumption|].
      destruct (get_block_read_hole sb b Hv (conj Hb Hlt) E) as [G|G];
        [left; assumption|right; exists ENOENT; assumption].
    + left. split; [assumption|]. split; [assumption|].
      apply get_block_read_ptr; [assumption|assumption|lia|assumption].
  - right. split; [left; assumption|]. right. exists EFBIG.
    apply get_block_too_big; assumption.
Qed.

(** ** The bytes of a file *)

(** The byte at offset [x] of the file, read off the tree: the byte at
    offset [x mod BLOCK_SIZE] of the block that logical block
    [x / BLOCK_SIZE] is mapped to, and zero in a hole. *)
Definition file_byte (sb : osfs_sb_info) (x : Z) : byte :=
  if x / BLOCK_SIZE <? max_blocks BLOCK_SIZE then
    if ptr BLOCK_SIZE ino sb (path_of BLOCK_SIZE (x / BLOCK_SIZE)) =? 0 then Byte.x00
    else hd Byte.x00
           (load_bytes (data_blocks sb)
              (blk_addr BLOCK_SIZE (ptr BLOCK_SIZE ino sb (path_of BLOCK_SIZE (x / BLOCK_SIZE)))
               + x mod BLOCK_SIZE) 1)
  else Byte.x00.

Definition file_bytes (sb : osfs_sb_info) (pos : Z) (n : nat) : list byte :=
  map (fun k => file_byte sb (pos + Z.of_nat k)) (seq 0 n).

Lemma file_bytes_length (sb : osfs_sb_info) (pos : Z) (n : nat) :
  length (file_bytes sb pos n) = n.
Proof. unfold file_bytes. rewrite length_map, length_seq. reflexivity. Qed.

Lemma map_seq_shift {B : Type} (f : nat -> B) (a n : nat) :
  map f (seq a n) = map (fun k => f (a + k)%nat) (seq 0 n).
Proof.
  revert a f; induction n as [|n IH]; intros a f; cbn [seq map]; [reflexivity|].
  f_equal; [f_equal; lia|].
  rewrite (IH (S a)), (IH 1%nat). apply map_ext. intros k. f_equal. lia.
Qed.

Lemma file_bytes_split (sb : osfs_sb_info) (pos : Z) (a b : nat) :
  file_bytes sb pos (a + b) = file_bytes sb pos a ++ file_bytes sb (pos + Z.of_nat a) b.
Proof.
  unfold file_bytes. rewrite seq_app, map_app. f_equal.
  cbn [Nat.add]. rewrite map_seq_shift.
  apply map_ext. intros k. f_equal. lia.
Qed.

Lemma div_mod_in_block (pos k : Z) :
  0 <= pos -> 0 <= k -> pos mod BLOCK_SIZE + k < BLOCK_SIZE ->
  (pos + k) / BLOCK_SIZE = pos / BLOCK_SIZE
  /\ (pos + k) mod BLOCK_SIZE = pos mod BLOCK_SIZE + k.
Proof.
  intros Hp Hk Hb.
  pose proof (Z.div_mod pos BLOCK_SIZE ltac:(lia)) as D.
  pose proof (Z.mod_pos_bound pos BLOCK_SIZE BLOCK_SIZE_pos) as M.
  split; symmetry.
  - apply (Z.div_unique (pos + k) BLOCK_SIZE (pos / BLOCK_SIZE) (pos mod BLOCK_SIZE + k)); lia.
  - apply (Z.mod_unique (pos + k) BLOCK_SIZE (pos / BLOCK_SIZE) (pos mod BLOCK_SIZE + k)); lia.
Qed.

Lemma load_bytes_as_map (m : mem) (n : nat) :
  forall a, 0 <= a -> a + Z.of_nat n <= Z.of_nat (length m) ->
    load_bytes m a n
    = map (fun k => hd Byte.x00 (load_bytes m (a + Z.of_nat k) 1)) (seq 0 n).
Proof.
  induction n as [|n IH]; intros a Ha Hm; [reflexivity|].
  change (S n) with (1 + n)%nat at 1. rewrite load_bytes_split by assumption.
  cbn [seq map]. rewrite Z.add_0_r.
  assert (E : load_bytes m a 1 = [hd Byte.x00 (load_bytes m a 1)]).
  { assert (L : length (load_bytes m a 1) = 1%nat) by (apply load_bytes_length; lia).
    destruct (load_bytes m a 1) as [|c [|? ?]]; try discriminate. reflexivity. }
  rewrite E at 1. cbn [app]. f_equal.
  rewrite IH by lia. rewrite (map_seq_shift _ 1 n).
  apply map_ext. intros k. do 2 f_equal. lia.
Qed.

Lemma repeat_as_map {B : Type} (x : B) (n : nat) :
  repeat x n = map (fun _ => x) (seq 0 n).
Proof.
  generalize 0%nat. induction n as [|n IH]; intros a; [reflexivity|].
  cbn [repeat seq map]. f_equal. apply IH.
Qed.

(** The pointers of the leaves name blocks of the data area. *)
Definition leaves_in_area (sb : osfs_sb_info) : Prop :=
  forall b, 0 <= b < max_blocks BLOCK_SIZE ->
    ptr BLOCK_SIZE ino sb (path_of BLOCK_SIZE b) <> 0 ->
    0 <= ptr BLOCK_SIZE ino sb (path_of BLOCK_SIZE b) < block_count sb.

Lemma WF_leaves_in_area (sb : osfs_sb_info) : WF BLOCK_SIZE ino sb -> leaves_in_area sb.
Proof.
  intros Hwf b Hb Hp.
  destruct (wf_ptr BLOCK_SIZE ino sb Hwf (path_of BLOCK_SIZE b)) as [H _];
    [left; apply path_of_leaf; assumption|assumption|lia].
Qed.

Lemma block_in_area (sb : osfs_sb_info) (p : Z) :
  area_ok BLOCK_SIZE sb -> 0 <= p < block_count sb ->
  blk_addr BLOCK_SIZE p = p * BLOCK_SIZE
  /\ 0 <= p * BLOCK_SIZE
  /\ p * BLOCK_SIZE + BLOCK_SIZE <= Z.of_nat (length (data_blocks sb)).
Proof.
  intros Ha Hp.
  split; [apply (blk_addr_in_area BLOCK_SIZE BLOCK_SIZE_pos sb); assumption|].
  destruct Ha as [Ha _]. rewrite Ha.
  assert (0 <= p * BLOCK_SIZE) by (apply Z.mul_nonneg_nonneg; lia).
  assert ((p + 1) * BLOCK_SIZE <= block_count sb * BLOCK_SIZE)
    by (apply Z.mul_le_mono_nonneg_r; lia).
  lia.
Qed.

(** One round of the loop of [osfs_read] delivers the bytes of the file. *)
Lemma read_chunk (sb : osfs_sb_info) (pos : Z) (t : nat) :
  valid_ino sb ino -> area_ok BLOCK_SIZE sb -> leaves_in_area sb ->
  0 <= pos -> pos mod BLOCK_SIZE + Z.of_nat t <= BLOCK_SIZE ->
  exists r,
    osfs_get_block BLOCK_SIZE sb ino (pos / BLOCK_SIZE) false = (sb, r)
    /\ match r with
       | Err _ => zeros (Z.of_nat t)
       | Ok p =>
           if p =? 0 then zeros (Z.of_nat t)
           else load_bytes (data_blocks sb)
                  (blk_addr BLOCK_SIZE p + pos mod BLOCK_SIZE) t
       end = file_bytes sb pos t.
Proof.
  intros Hv Ha Hin Hp Ht.
  assert (Hb : 0 <= pos / BLOCK_SIZE) by (apply Z.div_pos; lia).
  pose proof (Z.mod_pos_bound pos BLOCK_SIZE BLOCK_SIZE_pos) as Hm.
  assert (Hsame : forall k, In k (seq 0 t) ->
            (pos + Z.of_nat k) / BLOCK_SIZE = pos / BLOCK_SIZE
            /\ (pos + Z.of_nat k) mod BLOCK_SIZE = pos mod BLOCK_SIZE + Z.of_nat k).
  { intros k Hk. apply in_seq in Hk. apply div_mod_in_block; lia. }
  assert (Hzero : (max_blocks BLOCK_SIZE <= pos / BLOCK_SIZE
                   \/ ptr BLOCK_SIZE ino sb (path_of BLOCK_SIZE (pos / BLOCK_SIZE)) = 0) ->
                  zeros (Z.of_nat t) = file_bytes sb pos t).
  { intros Hh. unfold zeros, file_bytes. rewrite Nat2Z.id, repeat_as_map.
    apply map_ext_in. intros k Hk. destruct (Hsame k Hk) as [Hd _].
    unfold file_byte. rewrite Hd.
    destruct (Z.ltb_spec (pos / BLOCK_SIZE) (max_blocks BLOCK_SIZE)); [|reflexivity].
    destruct Hh as [Hh|Hh]; [lia|]. rewrite Hh. reflexivity. }
  destruct (get_block_read_cases sb (pos / BLOCK_SIZE) Hv Hb)
    as [(Hlt & Hnz & G)|(Hh & [G|[e G]])].
  - exists (Ok (ptr BLOCK_SIZE ino sb (path_of BLOCK_SIZE (pos / BLOCK_SIZE)))).
    split; [assumption|].
    destruct (Z.eqb_spec (ptr BLOCK_SIZE ino sb (path_of BLOCK_SIZE (pos / BLOCK_SIZE))) 0);
      [contradiction|].
    destruct (block_in_area sb _ Ha (Hin _ (conj Hb Hlt) Hnz)) as (Hba & Hb0 & Hb1).
    rewrite load_bytes_as_map by (rewrite Hba; lia).
    unfold file_bytes. apply map_ext_in. intros k Hk. destruct (Hsame k Hk) as [Hd Hmo].
    unfold file_byte. rewrite Hd, Hmo.
    destruct (Z.ltb_spec (pos / BLOCK_SIZE) (max_blocks BLOCK_SIZE)); [|lia].
    destruct (Z.eqb_spec (ptr BLOCK_SIZE ino sb (path_of BLOCK_SIZE (pos / BLOCK_SIZE))) 0);
      [contradiction|].
    do 2 f_equal. lia.
  - exists (Ok 0). split; [assumption|]. cbn [Z.eqb]. apply Hzero. assumption.
  - exists (Err e). split; [assumption|]. apply Hzero. assumption.
Qed.

Lemma read_loop_file_bytes (sb : osfs_sb_info) :
  valid_ino sb ino -> area_ok BLOCK_SIZE sb -> leaves_in_area sb ->
  forall (fuel : nat) (pos len : Z) (out : list byte),
    0 <= pos -> 0 <= len -> (Z.to_nat len <= fuel)%nat ->
    osfs_read_loop BLOCK_SIZE fuel true sb ino pos len out
    = (sb, pos + len, Ok (out ++ file_bytes sb pos (Z.to_nat len))).
Proof.
  intros Hv Ha Hin. induction fuel as [|fuel IH]; intros pos len out Hp Hl Hf.
  - assert (len = 0) by lia. subst len. cbn. rewrite app_nil_r, Z.add_0_r. reflexivity.
  - cbn [osfs_read_loop].
    destruct (Z.leb_spec len 0) as [H0|H0].
    + assert (len = 0) by lia. subst len. cbn. rewrite app_nil_r, Z.add_0_r. reflexivity.
    + pose proof (Z.mod_pos_bound pos BLOCK_SIZE BLOCK_SIZE_pos) as Hm.
      set (t := Z.min len (BLOCK_SIZE - pos mod BLOCK_SIZE)).
      assert (Ht : 1 <= t <= len /\ pos mod BLOCK_SIZE + t <= BLOCK_SIZE) by (unfold t; lia).
      destruct (read_chunk sb pos (Z.to_nat t) Hv Ha Hin Hp ltac:(lia)) as (r & G & C).
      rewrite G. cbn [negb].
      rewrite Z2Nat.id in C by lia.
      rewrite C. rewrite IH by lia.
      rewrite <- app_assoc.
      replace (Z.to_nat len) with (Z.to_nat t + Z.to_nat (len - t))%nat by lia.
      rewrite file_bytes_split. rewrite Z2Nat.id by lia.
      do 2 f_equal. lia.
Qed.

Lemma read_view (sb : osfs_sb_info) (len pos : Z) :
  WF BLOCK_SIZE ino sb -> 0 <= pos -> 0 <= len ->
  osfs_read BLOCK_SIZE true sb ino len pos
  = (sb,
     pos + (if i_blocks (inode_at sb ino) =? 0 then 0
            else Z.max 0 (Z.min len (i_size (inode_at sb ino) - pos))),
     Ok (file_bytes sb pos
           (Z.to_nat (if i_blocks (inode_at sb ino) =? 0 then 0
                      else Z.max 0 (Z.min len (i_size (inode_at sb ino) - pos)))))).
Proof.
  intros Hwf Hp Hl. pose proof (wf_valid _ _ _ Hwf) as Hv.
  unfold osfs_read. rewrite (valid_get_osfs_inode sb ino Hv).
  destruct (i_blocks (inode_at sb ino) =? 0).
  { rewrite Z.add_0_r. reflexivity. }
  destruct (Z.leb_spec (i_size (inode_at sb ino)) pos) as [He|He].
  { replace (Z.max 0 (Z.min len (i_size (inode_at sb ino) - pos))) with 0 by lia.
    rewrite Z.add_0_r. reflexivity. }
  cbv zeta.
  replace (if i_size (inode_at sb ino) <? pos + len
           then i_size (inode_at sb ino) - pos else len)
    with (Z.max 0 (Z.min len (i_size (inode_at sb ino) - pos)))
    by (destruct (Z.ltb_spec (i_size (inode_at sb ino)) (pos + len)); lia).
  rewrite read_loop_file_bytes; try assumption; try lia.
  - reflexivity.
  - apply (wf_area _ _ _ Hwf).
  - apply WF_leaves_in_area. assumption.
Qed.

(** [osfs_read] delivers the bytes of the file from [pos] on, as many
    as were asked for and the size allows, advances the position by
    that number and leaves the state alone; a hole is delivered as
    zeros.  Nothing is delivered from a file whose [i_blocks] is 0, or
    at or after the end of the file. *)
Theorem read_returns_file_bytes (sb : osfs_sb_info) (len pos : Z) :
  WF BLOCK_SIZE ino sb -> 0 <= pos -> 0 <= len ->
  osfs_read BLOCK_SIZE true sb ino len pos
  = (sb,
     pos + (if i_blocks (inode_at sb ino) =? 0 then 0
            else Z.max 0 (Z.min len (i_size (inode_at sb ino) - pos))),
     Ok (file_bytes sb pos
           (Z.to_nat (if i_blocks (inode_at sb ino) =? 0 then 0
                      else Z.max 0 (Z.min len (i_size (inode_at sb ino) - pos)))))).
Proof. apply read_view. Qed.

(** ** What a failed allocation leaves behind *)

Lemma get_data_slot_err (s s' : osfs_sb_info) (k : Z) (e : errno) :
  get_data_slot s ino k true = (s', Err e) -> s' = s.
Proof.
  unfold get_data_slot. destruct (slot s ino k =? 0); cbn [andb]; [|discriminate].
  destruct (osfs_alloc_data_block s) as [s1 [blk|e1]] eqn:A; [discriminate|].
  intros [= <- _]. apply (alloc_data_block_err s s1 e1 A).
Qed.

Lemma get_index_slot_err (s s' : osfs_sb_info) (k : Z) (e : errno) :
  get_index_slot BLOCK_SIZE s ino k true = (s', Err e) -> s' = s.
Proof.
  unfold get_index_slot. destruct (slot s ino k =? 0); [|discriminate]. cbn [negb].
  destruct (osfs_alloc_data_block s) as [s1 [blk|e1]] eqn:A; [discriminate|].
  intros [= <- _]. apply (alloc_data_block_err s s1 e1 A).
Qed.

Lemma get_index_entry_err (s s' : osfs_sb_info) (tbl idx : Z) (e : errno) :
  get_index_entry BLOCK_SIZE s ino tbl idx true = (s', Err e) -> s' = s.
Proof.
  unfold get_index_entry. destruct (load_entry BLOCK_SIZE s tbl idx =? 0); [|discriminate].
  cbn [negb].
  destruct (osfs_alloc_data_block s) as [s1 [blk|e1]] eqn:A; [discriminate|].
  intros [= <- _]. apply (alloc_data_block_err s s1 e1 A).
Qed.

Lemma get_data_entry_err (s s' : osfs_sb_info) (tbl idx : Z) (e : errno) :
  get_data_entry BLOCK_SIZE s ino tbl idx true = (s', Err e) -> s' = s.
Proof.
  unfold get_data_entry. destruct (load_entry BLOCK_SIZE s tbl idx =? 0); cbn [andb];
    [|discriminate].
  destruct (osfs_alloc_data_block s) as [s1 [blk|e1]] eqn:A; [discriminate|].
  intros [= <- _]. apply (alloc_data_block_err s s1 e1 A).
Qed.

(** When [osfs_get_block] fails in create mode, the index blocks it
    allocated on the way stay allocated; the tree is still well formed
    and no leaf has changed. *)
Lemma get_block_create_err (sb sb' : osfs_sb_info) (b : Z) (e : errno) :
  WF BLOCK_SIZE ino sb -> 0 <= b ->
  osfs_get_block BLOCK_SIZE sb ino b true = (sb', Err e) ->
  WF BLOCK_SIZE ino sb' /\ Frame BLOCK_SIZE ino sb sb'
  /\ (forall lf, is_leaf BLOCK_SIZE lf ->
        ptr BLOCK_SIZE ino sb' lf = ptr BLOCK_SIZE ino sb lf).
Proof.
  intros Hwf Hb0 Hget.
  pose proof (wf_valid _ _ _ Hwf) as Hv.
  pose proof (apb_nonneg BLOCK_SIZE BLOCK_SIZE_pos) as Hapb.
  assert (Hsame : WF BLOCK_SIZE ino sb /\ Frame BLOCK_SIZE ino sb sb
                  /\ (forall lf, is_leaf BLOCK_SIZE lf ->
                        ptr BLOCK_SIZE ino sb lf = ptr BLOCK_SIZE ino sb lf)).
  { split; [assumption|]. split; [apply Frame_refl|]. reflexivity. }
  unfold osfs_get_block in Hget. rewrite (valid_get_osfs_inode sb ino Hv) in Hget.
  change (OSFS_N_DIRECT + 1) with 13 in *. change OSFS_N_DIRECT with 12 in *.
  destruct (Z.ltb_spec b 12) as [Hlt|Hge].
  { apply get_data_slot_err in Hget. subst sb'. exact Hsame. }
  cbv zeta in Hget.
  destruct (Z.ltb_spec (b - 12) APB) as [Hlt2|Hge2].
  { destruct (get_index_slot BLOCK_SIZE sb ino 12 true) as [s1 [tbl|e1]] eqn:E1.
    - apply (get_index_slot_create BLOCK_SIZE BLOCK_SIZE_pos ino) in E1;
        [|assumption|left; reflexivity].
      destruct E1 as (W1 & F1 & P1 & Vn1 & O1 & _).
      apply get_data_entry_err in Hget. subst sb'.
      split; [assumption|]. split; [assumption|].
      intros lf Hl. apply O1; [left; assumption|].
      intros ->. apply (leaf_not_index BLOCK_SIZE [12]); [assumption|left; reflexivity].
    - injection Hget as <- _. apply get_index_slot_err in E1. subst s1. exact Hsame. }
  destruct (Z.ltb_spec (b - 12 - APB) (APB * APB)) as [Hlt3|Hge3].
  2:{ injection Hget as <- _. exact Hsame. }
  destruct (get_index_slot BLOCK_SIZE sb ino 13 true) as [s1 [top|e1]] eqn:E1.
  2:{ injection Hget as <- _. apply get_index_slot_err in E1. subst s1. exact Hsame. }
  apply (get_index_slot_create BLOCK_SIZE BLOCK_SIZE_pos ino) in E1;
    [|assumption|right; reflexivity].
  destruct E1 as (W1 & F1 & P1 & Vn1 & O1 & _).
  assert (Hleaf1 : forall lf, is_leaf BLOCK_SIZE lf ->
            ptr BLOCK_SIZE ino s1 lf = ptr BLOCK_SIZE ino sb lf).
  { intros lf Hl. apply O1; [left; assumption|].
    intros ->. apply (leaf_not_index BLOCK_SIZE [13]); [assumption|right; reflexivity]. }
  cbv zeta in Hget.
  set (o := (b - 12 - APB) / APB) in *.
  set (i := (b - 12 - APB) mod APB) in *.
  assert (Hapb_pos : 0 < APB) by nia.
  assert (Ho : 0 <= o < APB).
  { unfold o. split; [apply Z.div_pos; lia | apply Z.div_lt_upper_bound; lia]. }
  rewrite <- P1 in Hget.
  destruct (get_index_entry BLOCK_SIZE s1 ino (ptr BLOCK_SIZE ino s1 [13]) o true)
    as [s2 [tbl|e2]] eqn:E2.
  2:{ injection Hget as <- _. apply get_index_entry_err in E2. subst s2.
      split; [assumption|]. split; assumption. }
  apply (get_index_entry_create BLOCK_SIZE BLOCK_SIZE_pos ino s1 s2 [13]) in E2;
    [|assumption|cbn; lia|congruence|congruence].
  destruct E2 as (W2 & F2 & P2 & Vn2 & O2 & _).
  apply get_data_entry_err in Hget. subst sb'.
  split; [assumption|]. split; [eapply Frame_trans; eassumption|].
  intros lf Hl. rewrite O2; [apply Hleaf1; assumption|left; assumption|].
  intros ->. apply (leaf_not_index BLOCK_SIZE [o; 13]); [assumption|cbn; lia].
Qed.

(** ** Writing *)

Lemma hd_firstn_skipn {B : Type} (d : B) (l : list B) (k : nat) :
  hd d (firstn 1 (skipn k l)) = nth k l d.
Proof.
  revert l; induction k as [|k IH]; intros [|c l]; try reflexivity.
  cbn [skipn nth]. apply IH.
Qed.

Lemma load_bytes_nth (m : mem) (a : Z) (n k : nat) :
  0 <= a -> (k < n)%nat ->
  hd Byte.x00 (load_bytes m (a + Z.of_nat k) 1) = nth k (load_bytes m a n) Byte.x00.
Proof.
  intros Ha Hk. unfold load_bytes.
  replace (Z.to_nat (a + Z.of_nat k)) with (k + Z.to_nat a)%nat by lia.
  rewrite <- skipn_skipn, hd_firstn_skipn, nth_firstn.
  destruct (Nat.ltb_spec k n); [reflexivity|lia].
Qed.

Lemma file_byte_past_tiers (sb : osfs_sb_info) (x : Z) :
  max_blocks BLOCK_SIZE <= x / BLOCK_SIZE -> file_byte sb x = Byte.x00.
Proof.
  intros H. unfold file_byte.
  destruct (Z.ltb_spec (x / BLOCK_SIZE) (max_blocks BLOCK_SIZE)); [lia|reflexivity].
Qed.

Lemma block_of_leaf (x : Z) :
  0 <= x -> x / BLOCK_SIZE < max_blocks BLOCK_SIZE ->
  is_leaf BLOCK_SIZE (path_of BLOCK_SIZE (x / BLOCK_SIZE)).
Proof.
  intros Hx Hlt. apply path_of_leaf; [assumption|].
  split; [apply Z.div_pos; lia|assumption].
Qed.

Lemma Frame_file_byte (s s' : osfs_sb_info) (x : Z) :
  Frame BLOCK_SIZE ino s s' -> 0 <= x ->
  ptr BLOCK_SIZE ino s (path_of BLOCK_SIZE (x / BLOCK_SIZE)) <> 0 ->
  file_byte s' x = file_byte s x.
Proof.
  intros (_ & F2 & F3 & _) Hx Hp. unfold file_byte.
  destruct (Z.ltb_spec (x / BLOCK_SIZE) (max_blocks BLOCK_SIZE)) as [Hlt|]; [|reflexivity].
  pose proof (block_of_leaf x Hx Hlt) as Hl.
  rewrite (F2 _ (or_introl Hl) Hp).
  destruct (Z.eqb_spec (ptr BLOCK_SIZE ino s (path_of BLOCK_SIZE (x / BLOCK_SIZE))) 0);
    [reflexivity|].
  f_equal. pose proof (Z.mod_pos_bound x BLOCK_SIZE BLOCK_SIZE_pos).
  apply F3; try assumption; lia.
Qed.

Lemma cnt_rel_i_blocks_le (s s' : osfs_sb_info) :
  cnt_rel ino s s' -> i_blocks (inode_at s ino) <= i_blocks (inode_at s' ino).
Proof. intros [[_ H]|[H _]]; lia. Qed.

(** What a run of the loop of [osfs_write] has done once it has stored
    the bytes [bs] from offset [pos] on. *)
Definition Written (s s' : osfs_sb_info) (pos : Z) (bs : list byte) : Prop :=
  WF BLOCK_SIZE ino s'
  /\ (forall k, (k < length bs)%nat ->
        file_byte s' (pos + Z.of_nat k) = nth k bs Byte.x00
        /\ (pos + Z.of_nat k) / BLOCK_SIZE < max_blocks BLOCK_SIZE
        /\ ptr BLOCK_SIZE ino s' (path_of BLOCK_SIZE ((pos + Z.of_nat k) / BLOCK_SIZE)) <> 0)
  /\ (forall x, 0 <= x -> x < pos \/ pos + Z.of_nat (length bs) <= x ->
        ptr BLOCK_SIZE ino s (path_of BLOCK_SIZE (x / BLOCK_SIZE)) <> 0 ->
        file_byte s' x = file_byte s x)
  /\ (forall lf, is_leaf BLOCK_SIZE lf -> ptr BLOCK_SIZE ino s lf <> 0 ->
        ptr BLOCK_SIZE ino s' lf = ptr BLOCK_SIZE ino s lf)
  /\ (forall lf, is_leaf BLOCK_SIZE lf ->
        (forall k, (k < length bs)%nat ->
           lf <> path_of BLOCK_SIZE ((pos + Z.of_nat k) / BLOCK_SIZE)) ->
        ptr BLOCK_SIZE ino s' lf = ptr BLOCK_SIZE ino s lf)
  /\ i_size (inode_at s' ino) = i_size (inode_at s ino)
  /\ i_blocks (inode_at s ino) <= i_blocks (inode_at s' ino)
  /\ (bs <> [] -> ptr BLOCK_SIZE ino s (path_of BLOCK_SIZE (pos / BLOCK_SIZE)) = 0 ->
      i_blocks (inode_at s ino) < i_blocks (inode_at s' ino)).

Lemma Written_nothing (s s' : osfs_sb_info) (pos : Z) :
  WF BLOCK_SIZE ino s' -> Frame BLOCK_SIZE ino s s' ->
  (forall lf, is_leaf BLOCK_SIZE lf -> ptr BLOCK_SIZE ino s' lf = ptr BLOCK_SIZE ino s lf) ->
  Written s s' pos [].
Proof.
  intros W F L.
  split; [assumption|].
  split; [intros k Hk; cbn in Hk; lia|].
  split; [intros x Hx _ Hp; apply Frame_file_byte; assumption|].
  split; [intros lf Hl _; apply L; assumption|].
  split; [intros lf Hl _; apply L; assumption|].
  destruct F as (_ & _ & _ & F4 & F5).
  split; [assumption|].
  split; [apply cnt_rel_i_blocks_le; assumption|].
  intros H; congruence.
Qed.

Lemma Written_trans (s s2 s' : osfs_sb_info) (pos : Z) (bs1 bs2 : list byte) :
  0 <= pos -> bs1 <> [] ->
  Written s s2 pos bs1 ->
  Written s2 s' (pos + Z.of_nat (length bs1)) bs2 ->
  Written s s' pos (bs1 ++ bs2).
Proof.
  intros Hp Hne (W1 & A1 & B1 & C1 & D1 & E1 & G1 & I1) (W2 & A2 & B2 & C2 & D2 & E2 & G2 & I2).
  split; [assumption|].
  split.
  { intros k Hk. rewrite length_app in Hk.
    destruct (Nat.lt_ge_cases k (length bs1)) as [Hk1|Hk1].
    - destruct (A1 k Hk1) as (Ha & Hb & Hc).
      assert (Hl : is_leaf BLOCK_SIZE (path_of BLOCK_SIZE ((pos + Z.of_nat k) / BLOCK_SIZE)))
        by (apply block_of_leaf; [lia|assumption]).
      split; [|split; [assumption|rewrite (C2 _ Hl Hc); assumption]].
      rewrite app_nth1 by assumption. rewrite <- Ha.
      apply B2; [lia|lia|assumption].
    - destruct (A2 (k - length bs1)%nat ltac:(lia)) as (Ha & Hb & Hc).
      replace (pos + Z.of_nat (length bs1) + Z.of_nat (k - length bs1))
        with (pos + Z.of_nat k) in * by lia.
      split; [|split; assumption].
      rewrite app_nth2 by assumption. assumption. }
  split.
  { intros x Hx Hout Hptr. rewrite length_app in Hout.
    destruct (Z.lt_ge_cases (x / BLOCK_SIZE) (max_blocks BLOCK_SIZE)) as [Hlt|Hge].
    - pose proof (block_of_leaf x Hx Hlt) as Hl.
      rewrite B2; [apply B1; try assumption; lia|assumption|lia|].
      rewrite (C1 _ Hl Hptr). assumption.
    - rewrite !file_byte_past_tiers by assumption. reflexivity. }
  split.
  { intros lf Hl Hnz. rewrite C2; [apply C1; assumption|assumption|].
    rewrite C1; assumption. }
  split.
  { intros lf Hl Hn. rewrite length_app in Hn. rewrite D2.
    - apply D1; [assumption|]. intros k Hk. apply Hn. lia.
    - assumption.
    - intros k Hk.
      replace (pos + Z.of_nat (length bs1) + Z.of_nat k)
        with (pos + Z.of_nat (length bs1 + k)) by lia.
      apply Hn. lia. }
  split; [congruence|].
  split; [lia|].
  intros _ Hz. specialize (I1 Hne Hz). lia.
Qed.

(** One round of the loop of [osfs_write]. *)
Lemma write_step_written (s s1 : osfs_sb_info) (pos v : Z) (bs : list byte) :
  WF BLOCK_SIZE ino s -> 0 <= pos -> bs <> [] ->
  pos mod BLOCK_SIZE + Z.of_nat (length bs) <= BLOCK_SIZE ->
  osfs_get_block BLOCK_SIZE s ino (pos / BLOCK_SIZE) true = (s1, Ok v) ->
  v <> 0
  /\ Written s
       (with_data_blocks s1
          (store_bytes (data_blocks s1) (blk_addr BLOCK_SIZE v + pos mod BLOCK_SIZE) bs))
       pos bs.
Proof.
  intros Hwf Hp Hne Hfit Hget.
  assert (Hb : 0 <= pos / BLOCK_SIZE) by (apply Z.div_pos; lia).
  pose proof (Z.mod_pos_bound pos BLOCK_SIZE BLOCK_SIZE_pos) as Hoff.
  destruct (get_block_create BLOCK_SIZE BLOCK_SIZE_pos ino s s1 (pos / BLOCK_SIZE) v Hwf Hb Hget)
    as (Hlt & W1 & F1 & P1 & Vn & O1 & I1).
  split; [assumption|].
  set (lf := path_of BLOCK_SIZE (pos / BLOCK_SIZE)) in *.
  assert (Hl : is_leaf BLOCK_SIZE lf) by (apply block_of_leaf; assumption).
  assert (Hnz1 : ptr BLOCK_SIZE ino s1 lf <> 0) by congruence.
  pose proof (data_store BLOCK_SIZE BLOCK_SIZE_pos ino s1 lf (pos mod BLOCK_SIZE) bs
                W1 Hl Hnz1 ltac:(lia) Hfit) as DS.
  cbv zeta in DS. rewrite P1 in DS. destruct DS as (W2 & Pt2 & RB & Oth).
  set (s2 := with_data_blocks s1
               (store_bytes (data_blocks s1) (blk_addr BLOCK_SIZE v + pos mod BLOCK_SIZE) bs))
    in *.
  destruct F1 as (F1a & F1b & F1c & F1d & F1e).
  assert (F1 : Frame BLOCK_SIZE ino s s1) by (repeat split; assumption).
  assert (Hlen : (0 < length bs)%nat) by (destruct bs; [congruence|cbn; lia]).
  split; [assumption|].
  split.
  { intros k Hk.
    destruct (div_mod_in_block pos (Z.of_nat k) Hp ltac:(lia) ltac:(lia)) as [Hd Hm].
    rewrite Hd. fold lf. split; [|split; [assumption|]].
    - unfold file_byte. rewrite Hd, Hm. fold lf.
      destruct (Z.ltb_spec (pos / BLOCK_SIZE) (max_blocks BLOCK_SIZE)); [|lia].
      rewrite (Pt2 lf (or_introl Hl)), P1.
      destruct (Z.eqb_spec v 0); [contradiction|].
      rewrite Z.add_assoc.
      rewrite (load_bytes_nth _ _ (length bs)); [rewrite RB; reflexivity| |assumption].
      pose proof (wrap32_range (v * BLOCK_SIZE)). unfold blk_addr. lia.
    - rewrite (Pt2 lf (or_introl Hl)). assumption. }
  split.
  { intros x Hx Hout Hptr.
    destruct (Z.lt_ge_cases (x / BLOCK_SIZE) (max_blocks BLOCK_SIZE)) as [Hxl|Hxg];
      [|rewrite !file_byte_past_tiers by assumption; reflexivity].
    pose proof (block_of_leaf x Hx Hxl) as Hlx.
    rewrite <- (Frame_file_byte s s1 x F1 Hx Hptr).
    pose proof (F1b _ (or_introl Hlx) Hptr) as Hp1.
    pose proof (Z.mod_pos_bound x BLOCK_SIZE BLOCK_SIZE_pos) as Hxm.
    unfold file_byte.
    destruct (Z.ltb_spec (x / BLOCK_SIZE) (max_blocks BLOCK_SIZE)); [|lia].
    rewrite (Pt2 _ (or_introl Hlx)).
    destruct (Z.eqb_spec (ptr BLOCK_SIZE ino s1 (path_of BLOCK_SIZE (x / BLOCK_SIZE))) 0);
      [reflexivity|].
    f_equal.
    destruct (path_eq_dec (path_of BLOCK_SIZE (x / BLOCK_SIZE)) lf) as [E|E].
    - assert (Hsame : x / BLOCK_SIZE = pos / BLOCK_SIZE).
      { apply (path_of_inj BLOCK_SIZE BLOCK_SIZE_pos); [split; [apply Z.div_pos; lia|assumption]
                                                         |split; assumption|exact E]. }
      rewrite E, P1.
      destruct (wf_ptr _ _ _ W1 lf (or_introl Hl) Hnz1) as [Hr _]. rewrite P1 in Hr.
      pose proof (Z.div_mod x BLOCK_SIZE ltac:(lia)) as Dx.
      pose proof (Z.div_mod pos BLOCK_SIZE ltac:(lia)) as Dp.
      rewrite Hsame in Dx.
      apply (poke_frame BLOCK_SIZE BLOCK_SIZE_pos s1 v (pos mod BLOCK_SIZE) bs v
               (x mod BLOCK_SIZE) 1);
        [apply (wf_area _ _ _ W1)|lia|lia|lia|assumption|lia|lia|].
      right. lia.
    - apply Oth; [assumption|assumption|assumption|lia|lia]. }
  split.
  { intros lf' Hl' Hnz. rewrite (Pt2 _ (or_introl Hl')). apply F1b; [left|]; assumption. }
  split.
  { intros lf' Hl' Hn. rewrite (Pt2 _ (or_introl Hl')). apply O1; [assumption|].
    specialize (Hn 0%nat Hlen). rewrite Z.add_0_r in Hn. exact Hn. }
  split; [exact F1d|].
  split; [apply (cnt_rel_i_blocks_le s s1); assumption|].
  intros _ Hz. apply I1. assumption.
Qed.

Lemma firstn_skipn_chunks {B : Type} (l : list B) (w t n : nat) :
  firstn t (skipn w l) ++ firstn n (skipn (w + t) l) = firstn (t + n) (skipn w l).
Proof.
  rewrite Nat.add_comm, <- skipn_skipn. apply firstn_app_skipn.
Qed.

(** The loop of [osfs_write], with a readable user buffer. *)
Lemma write_loop_written (buf : list byte) (fuel : nat) :
  forall (s : osfs_sb_info) (pos w len : Z) (s' : osfs_sb_info) (pos' w' : Z)
         (err : option errno),
    WF BLOCK_SIZE ino s -> 0 <= pos -> 0 <= w -> 0 <= len ->
    w + len = Z.of_nat (length buf) -> (Z.to_nat len <= fuel)%nat ->
    osfs_write_loop BLOCK_SIZE fuel true s ino buf pos w len = (s', pos', w', err) ->
    exists n : nat,
      w' = w + Z.of_nat n /\ pos' = pos + Z.of_nat n /\ Z.of_nat n <= len
      /\ Written s s' pos (firstn n (skipn (Z.to_nat w) buf))
      /\ (err <> None -> w' = 0).
Proof.
  induction fuel as [|fuel IH]; intros s pos w len s' pos' w' err Hwf Hp Hw Hl Hsum Hf Hrun.
  - cbn [osfs_write_loop] in Hrun. injection Hrun as <- <- <- <-.
    exists 0%nat. rewrite !Z.add_0_r. cbn [firstn].
    split; [reflexivity|]. split; [reflexivity|]. split; [lia|].
    split; [|congruence].
    apply Written_nothing; [assumption|apply Frame_refl|reflexivity].
  - cbn [osfs_write_loop] in Hrun.
    destruct (Z.leb_spec len 0) as [H0|H0].
    + injection Hrun as <- <- <- <-.
      exists 0%nat. rewrite !Z.add_0_r. cbn [firstn].
      split; [reflexivity|]. split; [reflexivity|]. split; [lia|].
      split; [|congruence].
      apply Written_nothing; [assumption|apply Frame_refl|reflexivity].
    + pose proof (Z.mod_pos_bound pos BLOCK_SIZE BLOCK_SIZE_pos) as Hm.
      set (t := Z.min len (BLOCK_SIZE - pos mod BLOCK_SIZE)) in *.
      assert (Ht : 1 <= t <= len /\ pos mod BLOCK_SIZE + t <= BLOCK_SIZE) by (unfold t; lia).
      assert (Hb : 0 <= pos / BLOCK_SIZE) by (apply Z.div_pos; lia).
      destruct (osfs_get_block BLOCK_SIZE s ino (pos / BLOCK_SIZE) true) as [s1 [v|e]] eqn:G.
      * set (chunk := firstn (Z.to_nat t) (skipn (Z.to_nat w) buf)) in *.
        assert (Hcl : length chunk = Z.to_nat t).
        { unfold chunk. rewrite length_firstn, length_skipn. lia. }
        assert (Hcne : chunk <> []) by (intros E; rewrite E in Hcl; cbn in Hcl; lia).
        destruct (write_step_written s s1 pos v chunk Hwf Hp Hcne ltac:(lia) G) as [Vn Wr].
        destruct (Z.eqb_spec v 0) as [|Hv0]; [contradiction|]. cbn [negb] in Hrun.
        pose proof Wr as (W2 & _).
        apply IH in Hrun; try assumption; try lia.
        destruct Hrun as (n & E1 & E2 & E3 & Wr2 & E4).
        exists (Z.to_nat t + n)%nat.
        split; [lia|]. split; [lia|]. split; [lia|].
        split; [|exact E4].
        rewrite <- firstn_skipn_chunks. fold chunk.
        eapply (Written_trans s _ s' pos chunk); [exact Hp|exact Hcne|exact Wr|].
        rewrite Hcl. replace (Z.to_nat w + Z.to_nat t)%nat with (Z.to_nat (w + t)) by lia.
        rewrite Z2Nat.id by lia. exact Wr2.
      * destruct (get_block_create_err s s1 (pos / BLOCK_SIZE) e Hwf Hb G) as (W1 & F1 & L1).
        injection Hrun as <- <- <- <-.
        exists 0%nat. rewrite !Z.add_0_r. cbn [firstn].
        split; [reflexivity|]. split; [reflexivity|]. split; [lia|].
        split; [apply Written_nothing; assumption|].
        destruct (Z.ltb_spec 0 w); [congruence|lia].
Qed.

(** The end of [osfs_write]: the size and the two time stamps. *)
Definition write_tail (sy : osfs_sb_info) (posf now : Z) : osfs_sb_info :=
  set_inode
    (if i_size (inode_at sy ino) <? posf
     then set_inode sy ino (with_i_size (inode_at sy ino) (wrap32 posf))
     else sy) ino
    (with_mctime
       (inode_at (if i_size (inode_at sy ino) <? posf
                  then set_inode sy ino (with_i_size (inode_at sy ino) (wrap32 posf))
                  else sy) ino) now).

Lemma write_tail_record (sy : osfs_sb_info) (posf now : Z) :
  valid_ino sy ino ->
  i_size (inode_at (write_tail sy posf now) ino)
  = (if i_size (inode_at sy ino) <? posf then wrap32 posf else i_size (inode_at sy ino))
  /\ i_mtime (inode_at (write_tail sy posf now) ino) = now
  /\ i_ctime (inode_at (write_tail sy posf now) ino) = now.
Proof.
  intros Hv. unfold write_tail.
  destruct (i_size (inode_at sy ino) <? posf).
  - rewrite inode_at_set_inode_same
      by (unfold set_inode; cbn; rewrite list_upd_length; apply Hv).
    rewrite inode_at_set_inode_same by apply Hv.
    repeat split.
  - rewrite inode_at_set_inode_same by apply Hv. repeat split.
Qed.

Lemma write_tail_file (sy : osfs_sb_info) (posf now : Z) :
  valid_ino sy ino ->
  (forall p, ptr BLOCK_SIZE ino (write_tail sy posf now) p = ptr BLOCK_SIZE ino sy p)
  /\ (forall x, file_byte (write_tail sy posf now) x = file_byte sy x)
  /\ i_blocks (inode_at (write_tail sy posf now) ino) = i_blocks (inode_at sy ino).
Proof.
  intros Hv.
  destruct (write_tail_view ino sy posf now Hv _ (write_tail sy posf now) eq_refl eq_refl)
    as (Hs & Hd & Hb & _).
  assert (Hp : forall p, ptr BLOCK_SIZE ino (write_tail sy posf now) p = ptr BLOCK_SIZE ino sy p)
    by (apply ptr_ext; assumption).
  split; [exact Hp|]. split; [|exact Hb].
  intros x. unfold file_byte. rewrite Hp, Hd. reflexivity.
Qed.

Lemma osfs_write_steps (uok : bool) (now : Z) (sb : osfs_sb_info) (buf : list byte) (pos : Z) :
  valid_ino sb ino ->
  osfs_write BLOCK_SIZE uok now sb ino buf pos
  = match osfs_write_loop BLOCK_SIZE (Z.to_nat (Z.of_nat (length buf))) uok sb ino buf pos 0
            (Z.of_nat (length buf)) with
    | (sb1, pos1, _, Some e) => (sb1, pos, Err e)
    | (sb1, pos1, bytes_written, None) => (write_tail sb1 pos1 now, pos1, Ok bytes_written)
    end.
Proof.
  intros Hv. unfold osfs_write. rewrite (valid_get_osfs_inode sb ino Hv). reflexivity.
Qed.

Lemma list_as_map_nth {B : Type} (d : B) (l : list B) :
  map (fun k => nth k l d) (seq 0 (length l)) = l.
Proof.
  induction l as [|c l IH]; [reflexivity|].
  cbn [length seq map nth]. f_equal.
  rewrite (map_seq_shift _ 1 (length l)). cbn [Nat.add nth]. exact IH.
Qed.

Lemma write_view (now : Z) (sb sb' : osfs_sb_info) (buf : list byte) (pos pos' n : Z) :
  WF BLOCK_SIZE ino sb -> 0 <= pos ->
  osfs_write BLOCK_SIZE true now sb ino buf pos = (sb', pos', Ok n) ->
  exists (s1 : osfs_sb_info) (k : nat),
    n = Z.of_nat k /\ (k <= length buf)%nat /\ pos' = pos + n
    /\ Written sb s1 pos (firstn k buf)
    /\ sb' = write_tail s1 pos' now.
Proof.
  intros Hwf Hp Hrun. pose proof (wf_valid _ _ _ Hwf) as Hv.
  rewrite (osfs_write_steps true now sb buf pos Hv) in Hrun.
  destruct (osfs_write_loop BLOCK_SIZE (Z.to_nat (Z.of_nat (length buf))) true sb ino buf pos 0
              (Z.of_nat (length buf))) as [[[s1 pos1] w'] [e|]] eqn:L; [discriminate|].
  injection Hrun as <- <- <-.
  apply write_loop_written in L; try assumption; try lia.
  destruct L as (k & E1 & E2 & E3 & Wr & _).
  exists s1, k. cbn [Z.to_nat skipn] in Wr.
  split; [lia|]. split; [lia|]. split; [lia|]. split; [exact Wr|reflexivity].
Qed.


(** What an [osfs_write] that returns an error leaves: a well-formed
    tree, the position, the size, every leaf pointer and every byte of
    the file as they were.  (Index blocks allocated before the failure
    stay allocated.) *)
Theorem write_error_keeps_file (now : Z) (sb sb' : osfs_sb_info) (buf : list byte)
    (pos pos' : Z) (e : errno) :
  WF BLOCK_SIZE ino sb -> 0 <= pos ->
  osfs_write BLOCK_SIZE true now sb ino buf pos = (sb', pos', Err e) ->
  WF BLOCK_SIZE ino sb'
  /\ pos' = pos
  /\ (forall lf, is_leaf BLOCK_SIZE lf -> ptr BLOCK_SIZE ino sb' lf = ptr BLOCK_SIZE ino sb lf)
  /\ (forall x, 0 <= x -> file_byte sb' x = file_byte sb x)
  /\ i_size (inode_at sb' ino) = i_size (inode_at sb ino).
Proof.
  intros Hwf Hp Hrun. pose proof (wf_valid _ _ _ Hwf) as Hv.
  rewrite (osfs_write_steps true now sb buf pos Hv) in Hrun.
  destruct (osfs_write_loop BLOCK_SIZE (Z.to_nat (Z.of_nat (length buf))) true sb ino buf pos 0
              (Z.of_nat (length buf))) as [[[s1 pos1] w'] [e1|]] eqn:L; [|discriminate].
  injection Hrun as <- <- <-.
  apply write_loop_written in L; try assumption; try lia.
  destruct L as (k & E1 & E2 & E3 & Wr & E4).
  assert (k = 0%nat) by (specialize (E4 ltac:(discriminate)); lia). subst k.
  cbn [firstn] in Wr. destruct Wr as (W1 & A1 & B1 & C1 & D1 & G1 & _).
  assert (Hleaf : forall lf, is_leaf BLOCK_SIZE lf ->
            ptr BLOCK_SIZE ino s1 lf = ptr BLOCK_SIZE ino sb lf).
  { intros lf Hl. apply D1; [assumption|]. intros j Hj. cbn in Hj. lia. }
  split; [assumption|]. split; [reflexivity|]. split; [exact Hleaf|].
  split; [|assumption].
  intros x Hx.
  destruct (Z.lt_ge_cases (x / BLOCK_SIZE) (max_blocks BLOCK_SIZE)) as [Hlt|Hge];
    [|rewrite !file_byte_past_tiers by assumption; reflexivity].
  pose proof (block_of_leaf x Hx Hlt) as Hl.
  destruct (Z.eq_dec (ptr BLOCK_SIZE ino sb (path_of BLOCK_SIZE (x / BLOCK_SIZE))) 0) as [Ez|Ez].
  - unfold file_byte. rewrite (Hleaf _ Hl), Ez. reflexivity.
  - apply B1; [assumption|cbn [length]; lia|assumption].
Qed.

(** Round trip at any offset, on any well-formed file: when a write of
    a non-empty buffer at [pos] has stored all of it, reading as many
    bytes at [pos] gives the buffer back.  This covers overwriting
    stored data and writing past the end. *)
Theorem write_then_read_at_offset (now : Z) (sb sb' : osfs_sb_info) (buf : list byte)
    (pos pos' : Z) :
  WF BLOCK_SIZE ino sb ->
  (i_blocks (inode_at sb ino) = 0 ->
   forall lf, is_leaf BLOCK_SIZE lf -> ptr BLOCK_SIZE ino sb lf = 0) ->
  0 <= pos -> buf <> [] -> pos + Z.of_nat (length buf) < 2 ^ 32 ->
  osfs_write BLOCK_SIZE true now sb ino buf pos = (sb', pos', Ok (Z.of_nat (length buf))) ->
  osfs_read BLOCK_SIZE true sb' ino (Z.of_nat (length buf)) pos
  = (sb', pos + Z.of_nat (length buf), Ok buf).
Proof.
  intros Hwf Hcnt Hp Hne H32 Hrun.
  destruct (write_view now sb sb' buf pos pos' _ Hwf Hp Hrun)
    as (s1 & k & Hk & _ & -> & (W1 & A1 & B1 & C1 & D1 & E1 & G1 & I1) & ->).
  apply Nat2Z.inj in Hk. subst k. rewrite firstn_all in *.
  pose proof (wf_valid _ _ _ W1) as Hv1.
  destruct (write_tail_file s1 (pos + Z.of_nat (length buf)) now Hv1) as (Tp & Tf & Tb).
  destruct (write_tail_record s1 (pos + Z.of_nat (length buf)) now Hv1) as (Ts & _).
  assert (Hlen : (0 < length buf)%nat) by (destruct buf; [congruence|cbn; lia]).
  assert (Hib : 0 < i_blocks (inode_at s1 ino)).
  { pose proof (wf_ib _ _ _ Hwf) as Hib0.
    destruct (A1 0%nat Hlen) as (_ & Hlt & _). rewrite Z.add_0_r in Hlt.
    destruct (Z.eq_dec (ptr BLOCK_SIZE ino sb (path_of BLOCK_SIZE (pos / BLOCK_SIZE))) 0)
      as [Ez|Ez].
    - specialize (I1 Hne Ez). lia.
    - assert (i_blocks (inode_at sb ino) <> 0).
      { intros E0. apply Ez. apply Hcnt; [assumption|]. apply block_of_leaf; assumption. }
      lia. }
  rewrite read_view; [|apply write_tail_WF; assumption|assumption|lia].
  rewrite Tb, Ts, E1.
  destruct (Z.eqb_spec (i_blocks (inode_at s1 ino)) 0); [lia|].
  assert (Hn : Z.max 0 (Z.min (Z.of_nat (length buf))
                 ((if i_size (inode_at sb ino) <? pos + Z.of_nat (length buf)
                   then wrap32 (pos + Z.of_nat (length buf))
                   else i_size (inode_at sb ino)) - pos))
               = Z.of_nat (length buf)).
  { destruct (Z.ltb_spec (i_size (inode_at sb ino)) (pos + Z.of_nat (length buf))).
    - rewrite wrap32_small by lia. lia.
    - lia. }
  rewrite Hn, Nat2Z.id. do 2 f_equal.
  unfold file_bytes. rewrite <- (list_as_map_nth Byte.x00 buf) at 2.
  apply map_ext_in. intros j Hj. apply in_seq in Hj.
  rewrite Tf. apply A1. lia.
Qed.


End Files.

(** ** Runs on the reference configuration *)

Lemma write_keeps_WF (BLOCK_SIZE : Z) (BLOCK_SIZE_pos : 0 < BLOCK_SIZE) (ino now : Z)
    (sb : osfs_sb_info) (buf : list byte) (pos : Z) (n : Z) :
  WF BLOCK_SIZE ino sb -> 0 <= pos ->
  snd (osfs_write BLOCK_SIZE true now sb ino buf pos) = Ok n ->
  WF BLOCK_SIZE ino (fst (fst (osfs_write BLOCK_SIZE true now sb ino buf pos))).
Proof.
  intros Hwf Hp Hrun. apply triple_eta in Hrun.
  destruct (write_view BLOCK_SIZE BLOCK_SIZE_pos ino now sb _ buf pos _ n Hwf Hp Hrun)
    as (s1 & k & _ & _ & _ & (W1 & _) & E).
  rewrite E. apply write_tail_WF; assumption.
Qed.

Lemma WF_file_state : WF 4096 2 file_state.
Proof.
  apply fresh_WF.
  - vm_compute. repeat split; try reflexivity. lia.
  - vm_compute. reflexivity.
  - vm_compute. reflexivity.
  - vm_compute. split; [reflexivity|discriminate].
  - vm_compute. reflexivity.
Qed.

Lemma WF_write_5000 : WF 4096 2 (fst (fst write_5000)).
Proof.
  apply (write_keeps_WF 4096 ltac:(lia) 2 3 file_state bytes_5000 0 5000).
  - exact WF_file_state.
  - lia.
  - vm_compute. reflexivity.
Qed.

Lemma file_state_no_block (lf : list Z) : ptr 4096 2 file_state lf = 0.
Proof. apply ptr_all_zero. apply fresh_slots. vm_compute. reflexivity. Qed.

(** One byte written at the first offset past the last block the
    tiers can name, in the empty file of [file_state]. *)
Local Notation "'past_the_tiers'" := (max_blocks 4096 * 4096).

Lemma write_past_last_block_witness :
  osfs_write 4096 true 3 file_state 2 [Byte.x41] past_the_tiers
  = (file_state, past_the_tiers, Err EFBIG).
Proof.
  apply (write_past_last_block 4096 ltac:(lia) 2 true 3 file_state [Byte.x41] past_the_tiers).
  - vm_compute. discriminate.
  - discriminate.
  - lia.
Defined.

(** Reading 200 bytes at offset 4000 of the file that holds the 5000
    bytes: they come from both blocks of the file. *)
Lemma read_returns_file_bytes_witness :
  osfs_read 4096 true (fst (fst write_5000)) 2 200 4000
  = (fst (fst write_5000),
     4000 + (if i_blocks (inode_at (fst (fst write_5000)) 2) =? 0 then 0
             else Z.max 0 (Z.min 200 (i_size (inode_at (fst (fst write_5000)) 2) - 4000))),
     Ok (file_bytes 4096 2 (fst (fst write_5000)) 4000
           (Z.to_nat
              (if i_blocks (inode_at (fst (fst write_5000)) 2) =? 0 then 0
               else Z.max 0 (Z.min 200 (i_size (inode_at (fst (fst write_5000)) 2) - 4000)))))).
Proof.
  apply (read_returns_file_bytes 4096 ltac:(lia) 2 (fst (fst write_5000)) 200 4000).
  - exact WF_write_5000.
  - lia.
  - lia.
Defined.


(** One byte written past the tiers of the file that holds the 5000
    bytes: the write fails and the file is as before. *)
Local Notation "'write_too_far'" :=
  (osfs_write 4096 true 4 (fst (fst write_5000)) 2 [Byte.x42] past_the_tiers).

Lemma write_error_keeps_file_witness :
  WF 4096 2 (fst (fst write_too_far))
  /\ snd (fst write_too_far) = past_the_tiers
  /\ i_size (inode_at (fst (fst write_too_far)) 2) = i_size (inode_at (fst (fst write_5000)) 2).
Proof.
  assert (Hrun : write_too_far = (fst (fst write_too_far), snd (fst write_too_far), Err EFBIG))
    by (apply triple_eta; vm_compute; reflexivity).
  assert (Hpos : 0 <= past_the_tiers) by (vm_compute; discriminate).
  pose proof (write_error_keeps_file 4096 ltac:(lia) 2 4 (fst (fst write_5000))
                (fst (fst write_too_far)) [Byte.x42] past_the_tiers (snd (fst write_too_far))
                EFBIG WF_write_5000 Hpos Hrun) as H.
  split; [exact (proj1 H)|].
  split; [exact (proj1 (proj2 H))|exact (proj2 (proj2 (proj2 (proj2 H))))].
Defined.

(** 5000 more bytes written at offset 4000 of the file that holds 5000
    bytes: the tail of the file is overwritten and the file grows into
    a third block. *)
Definition bytes_5000_b : list byte := repeat Byte.x42 (Z.to_nat 5000).
Local Notation "'write_over'" :=
  (osfs_write 4096 true 4 (fst (fst write_5000)) 2 bytes_5000_b 4000).

Lemma write_then_read_at_offset_witness :
  osfs_read 4096 true (fst (fst write_over)) 2 (Z.of_nat (length bytes_5000_b)) 4000
  = (fst (fst write_over), 4000 + Z.of_nat (length bytes_5000_b), Ok bytes_5000_b).
Proof.
  apply (write_then_read_at_offset 4096 ltac:(lia) 2 4 (fst (fst write_5000))
           (fst (fst write_over)) bytes_5000_b 4000 (snd (fst write_over))).
  - exact WF_write_5000.
  - intros H. vm_compute in H. discriminate.
  - lia.
  - discriminate.
  - vm_compute. reflexivity.
  - apply triple_eta. vm_compute. reflexivity.
Defined.

(** 5000 bytes written at offset 12293 of the empty file: blocks 0, 1
    and 2 of the file stay holes. *)
Local Notation "'write_far'" := (osfs_write 4096 true 3 file_state 2 bytes_5000 12293).


(** ** Mapping a logical block *)

Section Mapping.

Variable BLOCK_SIZE : Z.
Hypothesis BLOCK_SIZE_pos : 0 < BLOCK_SIZE.
Variable ino : Z.
Local Notation "'APB'" := (OSFS_ADDR_PER_BLOCK BLOCK_SIZE).

(** In create mode a mapped block is looked up, not allocated. *)
Lemma get_block_create_mapped (sb : osfs_sb_info) (b : Z) :
  valid_ino sb ino -> 0 <= b < max_blocks BLOCK_SIZE ->
  ptr BLOCK_SIZE ino sb (path_of BLOCK_SIZE b) <> 0 ->
  osfs_get_block BLOCK_SIZE sb ino b true
  = (sb, Ok (ptr BLOCK_SIZE ino sb (path_of BLOCK_SIZE b))).
Proof.
  intros Hv Hb Hp. unfold osfs_get_block. rewrite (valid_get_osfs_inode sb ino Hv).
  unfold max_blocks, path_of in *. pose proof (apb_nonneg BLOCK_SIZE BLOCK_SIZE_pos).
  change (OSFS_N_DIRECT + 1) with 13. change OSFS_N_DIRECT with 12 in *.
  destruct (Z.ltb_spec b 12).
  { unfold get_data_slot. cbn [ptr] in *.
    destruct (Z.eqb_spec (slot sb ino b) 0); [contradiction|reflexivity]. }
  cbv zeta.
  destruct (Z.ltb_spec (b - 12) APB).
  { cbn [ptr] in *. unfold get_index_slot.
    destruct (Z.eqb_spec (slot sb ino 12) 0); [exfalso; apply Hp; reflexivity|].
    unfold get_data_entry.
    destruct (Z.eqb_spec (load_entry BLOCK_SIZE sb (slot sb ino 12) (b - 12)) 0);
      [contradiction|reflexivity]. }
  destruct (Z.ltb_spec (b - 12 - APB) (APB * APB)); [|lia].
  cbn [ptr] in *. unfold get_index_slot.
  destruct (Z.eqb_spec (slot sb ino 13) 0); [exfalso; apply Hp; reflexivity|].
  unfold get_index_entry.
  destruct (Z.eqb_spec (load_entry BLOCK_SIZE sb (slot sb ino 13) ((b - 12 - APB) / APB)) 0);
    [exfalso; apply Hp; reflexivity|].
  unfold get_data_entry.
  destruct (Z.eqb_spec
              (load_entry BLOCK_SIZE sb
                 (load_entry BLOCK_SIZE sb (slot sb ino 13) ((b - 12 - APB) / APB))
                 ((b - 12 - APB) mod APB)) 0); [contradiction|reflexivity].
Qed.

(** A block number that the read mode answers names the leaf of [b]. *)
Lemma get_block_read_mapped (sb : osfs_sb_info) (b w : Z) :
  valid_ino sb ino -> 0 <= b ->
  osfs_get_block BLOCK_SIZE sb ino b false = (sb, Ok w) -> w <> 0 ->
  b < max_blocks BLOCK_SIZE /\ ptr BLOCK_SIZE ino sb (path_of BLOCK_SIZE b) = w.
Proof.
  intros Hv Hb Hget Hw.
  destruct (Z.lt_ge_cases b (max_blocks BLOCK_SIZE)) as [Hlt|Hge].
  2:{ rewrite (get_block_too_big BLOCK_SIZE BLOCK_SIZE_pos ino sb b false Hv Hge) in Hget.
      discriminate. }
  split; [assumption|].
  destruct (Z.eq_dec (ptr BLOCK_SIZE ino sb (path_of BLOCK_SIZE b)) 0) as [Ez|Ez].
  - destruct (get_block_read_hole BLOCK_SIZE BLOCK_SIZE_pos ino sb b Hv (conj Hb Hlt) Ez)
      as [E|E]; rewrite E in Hget; [|discriminate].
    injection Hget as <-. contradiction.
  - rewrite (get_block_read_ptr BLOCK_SIZE BLOCK_SIZE_pos ino sb b Hv (conj Hb Hlt) Ez) in Hget.
    injection Hget as <-. reflexivity.
Qed.

(** Once [osfs_get_block] has mapped logical block [b] of a well-formed
    file to block [v] (create mode), [v] is not 0 and the mapping is
    settled: asking again, in either mode, answers [v] and changes
    nothing.  The blocks that were mapped before keep their block
    numbers, and no other logical block is mapped to [v]. *)
Theorem get_block_mapping_settled (sb sb' : osfs_sb_info) (b v : Z) :
  WF BLOCK_SIZE ino sb -> 0 <= b ->
  osfs_get_block BLOCK_SIZE sb ino b true = (sb', Ok v) ->
  v <> 0
  /\ osfs_get_block BLOCK_SIZE sb' ino b false = (sb', Ok v)
  /\ osfs_get_block BLOCK_SIZE sb' ino b true = (sb', Ok v)
  /\ (forall b' w, 0 <= b' ->
        osfs_get_block BLOCK_SIZE sb ino b' false = (sb, Ok w) -> w <> 0 ->
        osfs_get_block BLOCK_SIZE sb' ino b' false = (sb', Ok w))
  /\ (forall b' w, 0 <= b' -> b' <> b ->
        osfs_get_block BLOCK_SIZE sb' ino b' false = (sb', Ok w) -> w <> 0 -> w <> v).
Proof.
  intros Hwf Hb Hget.
  destruct (get_block_create BLOCK_SIZE BLOCK_SIZE_pos ino sb sb' b v Hwf Hb Hget)
    as (Hlt & Hwf' & (_ & Fp & _) & Hp & Hv0 & _).
  pose proof (wf_valid _ _ _ Hwf) as Hv. pose proof (wf_valid _ _ _ Hwf') as Hv'.
  assert (Hpn : ptr BLOCK_SIZE ino sb' (path_of BLOCK_SIZE b) <> 0) by congruence.
  split; [assumption|].
  split.
  { rewrite (get_block_read_ptr BLOCK_SIZE BLOCK_SIZE_pos ino sb' b Hv' (conj Hb Hlt) Hpn).
    rewrite Hp. reflexivity. }
  split.
  { rewrite (get_block_create_mapped sb' b Hv' (conj Hb Hlt) Hpn). rewrite Hp. reflexivity. }
  split.
  - intros b' w Hb' Hr Hw.
    destruct (get_block_read_mapped sb b' w Hv Hb' Hr Hw) as (Hlt' & Hpw).
    pose proof (path_of_leaf BLOCK_SIZE BLOCK_SIZE_pos b' (conj Hb' Hlt')) as Hl.
    assert (E : ptr BLOCK_SIZE ino sb' (path_of BLOCK_SIZE b') = w).
    { rewrite Fp; [assumption|left; assumption|congruence]. }
    rewrite (get_block_read_ptr BLOCK_SIZE BLOCK_SIZE_pos ino sb' b' Hv' (conj Hb' Hlt'))
      by congruence.
    rewrite E. reflexivity.
  - intros b' w Hb' Hne Hr Hw Heq.
    destruct (get_block_read_mapped sb' b' w Hv' Hb' Hr Hw) as (Hlt' & Hpw).
    apply Hne.
    apply (path_of_inj BLOCK_SIZE BLOCK_SIZE_pos b' b (conj Hb' Hlt') (conj Hb Hlt)).
    apply (wf_inj _ _ _ Hwf').
    + left. apply path_of_leaf; [assumption|split; assumption].
    + left. apply path_of_leaf; [assumption|split; assumption].
    + congruence.
    + congruence.
Qed.

End Mapping.

(** Logical block 1500 of the empty file: behind the direct and the
    indirect tier, so that three blocks are allocated for it. *)
Local Notation "'map_1500'" := (osfs_get_block 4096 file_state 2 1500 true).

Lemma get_block_mapping_settled_witness :
  snd map_1500 <> Ok 0
  /\ osfs_get_block 4096 (fst map_1500) 2 1500 false = (fst map_1500, Ok 3).
Proof.
  assert (Hrun : map_1500 = (fst map_1500, Ok 3))
    by (apply pair_eta; vm_compute; reflexivity).
  pose proof (get_block_mapping_settled 4096 ltac:(lia) 2 file_state (fst map_1500) 1500 3
                WF_file_state ltac:(lia) Hrun) as H.
  split; [|exact (proj1 (proj2 H))].
  rewrite Hrun. cbn [snd]. intros [= E].
Defined.

(** ** The tier of a logical block *)

Section TierByRange.

Variable BLOCK_SIZE : Z.
Hypothesis BLOCK_SIZE_pos : 0 < BLOCK_SIZE.
Variable ino : Z.
Local Notation "'APB'" := (OSFS_ADDR_PER_BLOCK BLOCK_SIZE).

(** The four steps of [osfs_get_block] fail in create mode only when the
    allocator finds every block taken. *)
Lemma get_data_slot_full (s s' : osfs_sb_info) (k : Z) (e : errno) :
  get_data_slot s ino k true = (s', Err e) ->
  e = ENOSPC
  /\ forall j, 0 <= j < block_count s' -> test_bit j (block_bitmap s') = true.
Proof.
  unfold get_data_slot. destruct (slot s ino k =? 0); cbn [andb]; [|discriminate].
  destruct (osfs_alloc_data_block s) as [s1 [blk|e1]] eqn:A; [discriminate|].
  intros [= <- <-]. destruct (alloc_data_block_err s s1 e1 A) as (-> & -> & F).
  split; [reflexivity|exact F].
Qed.

Lemma get_index_slot_full (s s' : osfs_sb_info) (k : Z) (e : errno) :
  get_index_slot BLOCK_SIZE s ino k true = (s', Err e) ->
  e = ENOSPC
  /\ forall j, 0 <= j < block_count s' -> test_bit j (block_bitmap s') = true.
Proof.
  unfold get_index_slot. destruct (slot s ino k =? 0); cbn [negb]; [|discriminate].
  destruct (osfs_alloc_data_block s) as [s1 [blk|e1]] eqn:A; [discriminate|].
  intros [= <- <-]. destruct (alloc_data_block_err s s1 e1 A) as (-> & -> & F).
  split; [reflexivity|exact F].
Qed.

Lemma get_index_entry_full (s s' : osfs_sb_info) (tbl idx : Z) (e : errno) :
  get_index_entry BLOCK_SIZE s ino tbl idx true = (s', Err e) ->
  e = ENOSPC
  /\ forall j, 0 <= j < block_count s' -> test_bit j (block_bitmap s') = true.
Proof.
  unfold get_index_entry. destruct (load_entry BLOCK_SIZE s tbl idx =? 0);
    cbn [negb]; [|discriminate].
  destruct (osfs_alloc_data_block s) as [s1 [blk|e1]] eqn:A; [discriminate|].
  intros [= <- <-]. destruct (alloc_data_block_err s s1 e1 A) as (-> & -> & F).
  split; [reflexivity|exact F].
Qed.

Lemma get_data_entry_full (s s' : osfs_sb_info) (tbl idx : Z) (e : errno) :
  get_data_entry BLOCK_SIZE s ino tbl idx true = (s', Err e) ->
  e = ENOSPC
  /\ forall j, 0 <= j < block_count s' -> test_bit j (block_bitmap s') = true.
Proof.
  unfold get_data_entry. destruct (load_entry BLOCK_SIZE s tbl idx =? 0);
    cbn [andb]; [|discriminate].
  destruct (osfs_alloc_data_block s) as [s1 [blk|e1]] eqn:A; [discriminate|].
  intros [= <- <-]. destruct (alloc_data_block_err s s1 e1 A) as (-> & -> & F).
  split; [reflexivity|exact F].
Qed.

(** Below the size limit the create mode of [osfs_get_block] fails only
    for want of a free block. *)
Lemma get_block_create_full (sb sb' : osfs_sb_info) (b : Z) (e : errno) :
  osfs_get_osfs_inode sb ino <> None ->
  b < max_blocks BLOCK_SIZE ->
  osfs_get_block BLOCK_SIZE sb ino b true = (sb', Err e) ->
  e = ENOSPC
  /\ forall j, 0 <= j < block_count sb' -> test_bit j (block_bitmap sb') = true.
Proof.
  intros Hv Hb. unfold osfs_get_block, max_blocks in *.
  destruct (osfs_get_osfs_inode sb ino); [|congruence].
  destruct (Z.ltb_spec b OSFS_N_DIRECT); [apply get_data_slot_full|].
  cbv zeta.
  destruct (Z.ltb_spec (b - OSFS_N_DIRECT) APB).
  { destruct (get_index_slot BLOCK_SIZE sb ino OSFS_N_DIRECT true) as [s1 [t|e1]] eqn:E1.
    - apply get_data_entry_full.
    - intros [= <- <-]. exact (get_index_slot_full _ _ _ _ E1). }
  destruct (Z.ltb_spec (b - OSFS_N_DIRECT - APB) (APB * APB)); [|lia].
  destruct (get_index_slot BLOCK_SIZE sb ino (OSFS_N_DIRECT + 1) true) as [s1 [t|e1]] eqn:E1.
  2:{ intros [= <- <-]. exact (get_index_slot_full _ _ _ _ E1). }
  destruct (get_index_entry BLOCK_SIZE s1 ino t
              ((b - OSFS_N_DIRECT - APB) / APB) true) as [s2 [t2|e2]] eqn:E2.
  - apply get_data_entry_full.
  - intros [= <- <-]. exact (get_index_entry_full _ _ _ _ _ E2).
Qed.

(** C5.  For an inode with a record and a logical block [b],
    [osfs_get_block] selects the tier by the range of [b].

    Direct, [b < N_DIRECT]: read mode answers the pointer [i_block[b]];
    create mode answers it too, changing nothing, when it is not 0; and
    when create mode succeeds on a well-formed file the block it answers
    is not 0 and is the one stored in [i_block[b]] afterwards, the other
    direct pointers being as before.

    Single indirect, [b - N_DIRECT < ADDR_PER_BLOCK]: read mode answers
    [ENOENT] without the index block [i_block[12]] and entry
    [b - N_DIRECT] of it otherwise; create mode answers that entry,
    changing nothing, when index block and entry are there; and when
    create mode succeeds on a well-formed file the block it answers is
    not 0 and is entry [b - N_DIRECT] of the index block [i_block[12]]
    afterwards, no direct pointer having changed.

    Double indirect, [b - N_DIRECT - ADDR_PER_BLOCK] below
    [ADDR_PER_BLOCK] squared, with outer index
    [(b - N_DIRECT - ADDR_PER_BLOCK) / ADDR_PER_BLOCK] and inner index
    [(b - N_DIRECT - ADDR_PER_BLOCK) mod ADDR_PER_BLOCK]: read mode
    answers [ENOENT] without the top index block [i_block[13]] or
    without its outer entry, and the inner entry of the second-level
    block otherwise; create mode answers that entry, changing nothing,
    when all three are there; and when create mode succeeds on a
    well-formed file the block it answers is not 0 and is the inner entry
    of the block named by the outer entry of [i_block[13]] afterwards, no
    direct pointer and no pointer of the single-indirect tier having
    changed.

    At or beyond [N_DIRECT + ADDR_PER_BLOCK + ADDR_PER_BLOCK] squared
    the answer is [EFBIG] in either mode and the state stays as it is.
    Below that bound create mode fails only with [ENOSPC], and then no
    block is free. *)
Theorem get_block_tier_by_range (sb : osfs_sb_info) (b : Z) :
  osfs_get_osfs_inode sb ino <> None ->
  (0 <= b < OSFS_N_DIRECT ->
     osfs_get_block BLOCK_SIZE sb ino b false = (sb, Ok (slot sb ino b))
     /\ (slot sb ino b <> 0 ->
         osfs_get_block BLOCK_SIZE sb ino b true = (sb, Ok (slot sb ino b)))
     /\ (forall sb' v, WF BLOCK_SIZE ino sb ->
           osfs_get_block BLOCK_SIZE sb ino b true = (sb', Ok v) ->
           v <> 0 /\ slot sb' ino b = v
           /\ (forall k, 0 <= k < OSFS_N_DIRECT -> k <> b ->
                 slot sb' ino k = slot sb ino k)))
  /\ (OSFS_N_DIRECT <= b -> b - OSFS_N_DIRECT < APB ->
     osfs_get_block BLOCK_SIZE sb ino b false
       = (if slot sb ino OSFS_N_DIRECT =? 0 then (sb, Err ENOENT)
          else (sb, Ok (load_entry BLOCK_SIZE sb (slot sb ino OSFS_N_DIRECT)
                                   (b - OSFS_N_DIRECT))))
     /\ (slot sb ino OSFS_N_DIRECT <> 0 ->
         load_entry BLOCK_SIZE sb (slot sb ino OSFS_N_DIRECT) (b - OSFS_N_DIRECT) <> 0 ->
         osfs_get_block BLOCK_SIZE sb ino b true
         = (sb, Ok (load_entry BLOCK_SIZE sb (slot sb ino OSFS_N_DIRECT)
                                  (b - OSFS_N_DIRECT))))
     /\ (forall sb' v, WF BLOCK_SIZE ino sb ->
           osfs_get_block BLOCK_SIZE sb ino b true = (sb', Ok v) ->
           v <> 0 /\ slot sb' ino OSFS_N_DIRECT <> 0
           /\ load_entry BLOCK_SIZE sb' (slot sb' ino OSFS_N_DIRECT) (b - OSFS_N_DIRECT) = v
           /\ (forall k, 0 <= k < OSFS_N_DIRECT -> slot sb' ino k = slot sb ino k)))
  /\ (OSFS_N_DIRECT + APB <= b -> b - OSFS_N_DIRECT - APB < APB * APB ->
     osfs_get_block BLOCK_SIZE sb ino b false
       = (if slot sb ino (OSFS_N_DIRECT + 1) =? 0 then (sb, Err ENOENT)
          else
            if load_entry BLOCK_SIZE sb (slot sb ino (OSFS_N_DIRECT + 1))
                 ((b - OSFS_N_DIRECT - APB) / APB) =? 0
            then (sb, Err ENOENT)
            else (sb, Ok (load_entry BLOCK_SIZE sb
                            (load_entry BLOCK_SIZE sb (slot sb ino (OSFS_N_DIRECT + 1))
                               ((b - OSFS_N_DIRECT - APB) / APB))
                            ((b - OSFS_N_DIRECT - APB) mod APB))))
     /\ (slot sb ino (OSFS_N_DIRECT + 1) <> 0 ->
         load_entry BLOCK_SIZE sb (slot sb ino (OSFS_N_DIRECT + 1))
           ((b - OSFS_N_DIRECT - APB) / APB) <> 0 ->
         load_entry BLOCK_SIZE sb
           (load_entry BLOCK_SIZE sb (slot sb ino (OSFS_N_DIRECT + 1))
              ((b - OSFS_N_DIRECT - APB) / APB))
           ((b - OSFS_N_DIRECT - APB) mod APB) <> 0 ->
         osfs_get_block BLOCK_SIZE sb ino b true
         = (sb, Ok (load_entry BLOCK_SIZE sb
                      (load_entry BLOCK_SIZE sb (slot sb ino (OSFS_N_DIRECT + 1))
                         ((b - OSFS_N_DIRECT - APB) / APB))
                      ((b - OSFS_N_DIRECT - APB) mod APB))))
     /\ (forall sb' v, WF BLOCK_SIZE ino sb ->
           osfs_get_block BLOCK_SIZE sb ino b true = (sb', Ok v) ->
           v <> 0 /\ slot sb' ino (OSFS_N_DIRECT + 1) <> 0
           /\ load_entry BLOCK_SIZE sb' (slot sb' ino (OSFS_N_DIRECT + 1))
                ((b - OSFS_N_DIRECT - APB) / APB) <> 0
           /\ load_entry BLOCK_SIZE sb'
                (load_entry BLOCK_SIZE sb' (slot sb' ino (OSFS_N_DIRECT + 1))
                   ((b - OSFS_N_DIRECT - APB) / APB))
                ((b - OSFS_N_DIRECT - APB) mod APB) = v
           /\ (forall k, 0 <= k < OSFS_N_DIRECT -> slot sb' ino k = slot sb ino k)
           /\ (forall i, 0 <= i < APB ->
                 ptr BLOCK_SIZE ino sb' [i; OSFS_N_DIRECT]
                 = ptr BLOCK_SIZE ino sb [i; OSFS_N_DIRECT])))
  /\ (OSFS_N_DIRECT + APB + APB * APB <= b ->
      forall create, osfs_get_block BLOCK_SIZE sb ino b create = (sb, Err EFBIG))
  /\ (b < OSFS_N_DIRECT + APB + APB * APB ->
      forall sb' e, osfs_get_block BLOCK_SIZE sb ino b true = (sb', Err e) ->
        e = ENOSPC
        /\ forall j, 0 <= j < block_count sb' -> test_bit j (block_bitmap sb') = true).
Proof.
  intros Hino.
  assert (Hv : valid_ino sb ino).
  { destruct (osfs_get_osfs_inode sb ino) as [ind|] eqn:E; [|congruence].
    exact (proj1 (get_osfs_inode_some sb ino ind E)). }
  pose proof (apb_nonneg BLOCK_SIZE BLOCK_SIZE_pos) as Hapb.
  pose proof (Z.square_nonneg APB) as Hsq.
  pose proof (get_block_tiers BLOCK_SIZE BLOCK_SIZE_pos sb ino b false Hino)
    as (T1 & T2 & T3 & _).
  assert (Hleaf_dir : forall k, 0 <= k < OSFS_N_DIRECT -> is_leaf BLOCK_SIZE [k])
    by (intros k Hk; exact Hk).
  split; [|split; [|split; [|split]]].
  - intros Hb.
    assert (Hp : path_of BLOCK_SIZE b = [b]).
    { unfold path_of. destruct (Z.ltb_spec b OSFS_N_DIRECT); [reflexivity|lia]. }
    assert (Hm : 0 <= b < max_blocks BLOCK_SIZE) by (unfold max_blocks; lia).
    split; [exact (proj2 (T1 Hb))|].
    split.
    + intros Hs.
      pose proof (get_block_create_mapped BLOCK_SIZE BLOCK_SIZE_pos ino sb b Hv Hm) as M.
      rewrite Hp in M. exact (M Hs).
    + intros sb' v Hwf Hget.
      destruct (get_block_create BLOCK_SIZE BLOCK_SIZE_pos ino sb sb' b v Hwf
                  (proj1 Hb) Hget) as (_ & _ & _ & P & Vn & O & _).
      rewrite Hp in P, O.
      split; [exact Vn|]. split; [exact P|].
      intros k Hk Hne. apply (O [k] (Hleaf_dir k Hk)). congruence.
  - intros Hb1 Hb2.
    assert (Hp : path_of BLOCK_SIZE b = [b - OSFS_N_DIRECT; 12]).
    { unfold path_of. destruct (Z.ltb_spec b OSFS_N_DIRECT); [lia|].
      destruct (Z.ltb_spec (b - OSFS_N_DIRECT) APB); [reflexivity|lia]. }
    assert (Hm : 0 <= b < max_blocks BLOCK_SIZE)
      by (unfold max_blocks, OSFS_N_DIRECT in *; lia).
    split; [exact (proj2 (T2 Hb1 Hb2))|].
    split.
    + intros Hs He.
      pose proof (get_block_create_mapped BLOCK_SIZE BLOCK_SIZE_pos ino sb b Hv Hm) as M.
      rewrite Hp in M. cbn [ptr] in M. change 12 with OSFS_N_DIRECT in M.
      destruct (Z.eqb_spec (slot sb ino OSFS_N_DIRECT) 0); [contradiction|].
      exact (M He).
    + intros sb' v Hwf Hget.
      destruct (get_block_create BLOCK_SIZE BLOCK_SIZE_pos ino sb sb' b v Hwf
                  (proj1 Hm) Hget) as (_ & _ & _ & P & Vn & O & _).
      rewrite Hp in P, O. cbn [ptr] in P. change 12 with OSFS_N_DIRECT in P.
      split; [exact Vn|].
      destruct (Z.eqb_spec (slot sb' ino OSFS_N_DIRECT) 0); [congruence|].
      split; [assumption|]. split; [exact P|].
      intros k Hk. apply (O [k] (Hleaf_dir k Hk)). discriminate.
  - intros Hb1 Hb2.
    assert (Hp : path_of BLOCK_SIZE b
                 = [(b - OSFS_N_DIRECT - APB) mod APB; (b - OSFS_N_DIRECT - APB) / APB; 13]).
    { unfold path_of. destruct (Z.ltb_spec b OSFS_N_DIRECT); [lia|].
      destruct (Z.ltb_spec (b - OSFS_N_DIRECT) APB); [lia|reflexivity]. }
    assert (Hm : 0 <= b < max_blocks BLOCK_SIZE)
      by (unfold max_blocks, OSFS_N_DIRECT in *; lia).
    split; [exact (proj2 (T3 Hb1 Hb2))|].
    split.
    + intros Hs He1 He2.
      pose proof (get_block_create_mapped BLOCK_SIZE BLOCK_SIZE_pos ino sb b Hv Hm) as M.
      rewrite Hp in M. cbn [ptr] in M. change 13 with (OSFS_N_DIRECT + 1) in M.
      destruct (Z.eqb_spec (slot sb ino (OSFS_N_DIRECT + 1)) 0); [contradiction|].
      destruct (Z.eqb_spec (load_entry BLOCK_SIZE sb (slot sb ino (OSFS_N_DIRECT + 1))
                              ((b - OSFS_N_DIRECT - APB) / APB)) 0); [contradiction|].
      exact (M He2).
    + intros sb' v Hwf Hget.
      destruct (get_block_create BLOCK_SIZE BLOCK_SIZE_pos ino sb sb' b v Hwf
                  (proj1 Hm) Hget) as (_ & _ & _ & P & Vn & O & _).
      rewrite Hp in P, O. cbn [ptr] in P. change 13 with (OSFS_N_DIRECT + 1) in P.
      split; [exact Vn|].
      revert P.
      destruct (Z.eqb_spec (slot sb' ino (OSFS_N_DIRECT + 1)) 0);
        [change (0 =? 0) with true; cbv beta iota; congruence|].
      destruct (Z.eqb_spec (load_entry BLOCK_SIZE sb' (slot sb' ino (OSFS_N_DIRECT + 1))
                              ((b - OSFS_N_DIRECT - APB) / APB)) 0); [congruence|].
      intros P.
      split; [assumption|]. split; [assumption|]. split; [exact P|].
      split.
      * intros k Hk. apply (O [k] (Hleaf_dir k Hk)). discriminate.
      * intros i Hi. apply O; [split; [reflexivity|exact Hi]|discriminate].
  - intros Hb create.
    apply (get_block_too_big BLOCK_SIZE BLOCK_SIZE_pos ino sb b create Hv).
    exact Hb.
  - intros Hb sb' e Hget.
    exact (get_block_create_full sb sb' b e Hino Hb Hget).
Qed.

End TierByRange.

Lemma get_block_tier_by_range_witness :
  osfs_get_osfs_inode file_state 2 <> None
  /\ snd map_1500 = Ok 3
  /\ slot (fst map_1500) 2 (OSFS_N_DIRECT + 1) <> 0
  /\ load_entry 4096 (fst map_1500)
       (load_entry 4096 (fst map_1500) (slot (fst map_1500) 2 (OSFS_N_DIRECT + 1))
          ((1500 - OSFS_N_DIRECT - OSFS_ADDR_PER_BLOCK 4096) / OSFS_ADDR_PER_BLOCK 4096))
       ((1500 - OSFS_N_DIRECT - OSFS_ADDR_PER_BLOCK 4096) mod OSFS_ADDR_PER_BLOCK 4096)
     = 3.
Proof.
  assert (Hino : osfs_get_osfs_inode file_state 2 <> None) by (vm_compute; discriminate).
  assert (Hrun : map_1500 = (fst map_1500, Ok 3))
    by (apply pair_eta; vm_compute; reflexivity).
  assert (Hb1 : OSFS_N_DIRECT + OSFS_ADDR_PER_BLOCK 4096 <= 1500)
    by (vm_compute; discriminate).
  assert (Hb2 : 1500 - OSFS_N_DIRECT - OSFS_ADDR_PER_BLOCK 4096
                < OSFS_ADDR_PER_BLOCK 4096 * OSFS_ADDR_PER_BLOCK 4096)
    by (vm_compute; reflexivity).
  destruct (get_block_tier_by_range 4096 ltac:(lia) 2 file_state 1500 Hino)
    as (_ & _ & Hdbl & _).
  destruct (Hdbl Hb1 Hb2) as (_ & _ & Hc).
  destruct (Hc (fst map_1500) 3 WF_file_state Hrun) as (_ & Htop & _ & Hleaf & _).
  split; [exact Hino|].
  split; [rewrite Hrun; reflexivity|].
  split; [exact Htop|exact Hleaf].
Defined.

(** ** What [osfs_free_inode_blocks] releases *)

Section Release.

Variable BLOCK_SIZE : Z.
Variable ino : Z.
Local Notation "'APB'" := (OSFS_ADDR_PER_BLOCK BLOCK_SIZE).

(** From [sb] to [sb'] the blocks in [P] were released: their bits are
    clear, the other bits are as before, no bit was set and the data
    area was not written. *)
Definition Released (sb sb' : osfs_sb_info) (P : Z -> Prop) : Prop :=
  data_blocks sb' = data_blocks sb
  /\ (forall q, P q -> test_bit q (block_bitmap sb') = false)
  /\ (forall q, ~ P q -> test_bit q (block_bitmap sb') = test_bit q (block_bitmap sb))
  /\ (forall q, test_bit q (block_bitmap sb') = true -> test_bit q (block_bitmap sb) = true).

Lemma Released_same (sb sb' : osfs_sb_info) (P : Z -> Prop) :
  data_blocks sb' = data_blocks sb -> block_bitmap sb' = block_bitmap sb ->
  (forall q, ~ P q) -> Released sb sb' P.
Proof.
  intros Hd Hb Hn. split; [assumption|]. rewrite Hb.
  split; [intros q Hq; destruct (Hn q Hq)|]. split; intros; auto.
Qed.

Lemma Released_iff (sb sb' : osfs_sb_info) (P Q : Z -> Prop) :
  (forall q, P q <-> Q q) -> Released sb sb' P -> Released sb sb' Q.
Proof.
  intros H (R1 & R2 & R3 & R4). split; [assumption|].
  split; [intros q Hq; apply R2, H, Hq|].
  split; [intros q Hq; apply R3; intros Hp; apply Hq, H, Hp|assumption].
Qed.

Lemma Released_trans (a b c : osfs_sb_info) (P Q : Z -> Prop) :
  Released a b P -> Released b c Q -> Released a c (fun q => P q \/ Q q).
Proof.
  intros (A1 & A2 & A3 & A4) (B1 & B2 & B3 & B4).
  split; [congruence|]. split; [|split].
  - intros q [Hp|Hq]; [|apply B2; assumption].
    destruct (test_bit q (block_bitmap c)) eqn:E; [|reflexivity].
    apply B4 in E. rewrite (A2 q Hp) in E. discriminate.
  - intros q Hn. rewrite B3, A3; tauto.
  - intros q Hq. apply A4, B4, Hq.
Qed.

Lemma Released_free_block (sb : osfs_sb_info) (b : Z) :
  Released sb (osfs_free_data_block sb b) (fun q => q = b).
Proof.
  unfold Released, osfs_free_data_block, test_bit, clear_bit. cbn.
  split; [reflexivity|]. split; [|split].
  - intros q ->. apply Z.clearbit_eq.
  - intros q Hq. apply Z.clearbit_neq. congruence.
  - intros q Hq. apply Z.clearbit_iff in Hq. tauto.
Qed.

Lemma Released_set_slot (sb : osfs_sb_info) (k v : Z) :
  Released sb (set_slot sb ino k v) (fun _ => False).
Proof. apply Released_same; [reflexivity|reflexivity|tauto]. Qed.

(** The loop over the entries of index block [tbl]. *)
Lemma free_entries_fold_released (sb0 : osfs_sb_info) (tbl : Z) (l : list nat) :
  forall acc, data_blocks acc = data_blocks sb0 ->
    Released acc
      (fold_left
         (fun acc i =>
            if load_entry BLOCK_SIZE acc tbl (Z.of_nat i) =? 0 then acc
            else osfs_free_data_block acc (load_entry BLOCK_SIZE acc tbl (Z.of_nat i)))
         l acc)
      (fun q => q <> 0 /\ exists i, In i l /\ load_entry BLOCK_SIZE sb0 tbl (Z.of_nat i) = q).
Proof.
  induction l as [|a l IH]; intros acc Hd; cbn [fold_left].
  - apply Released_same; [reflexivity|reflexivity|]. intros q (_ & i & [] & _).
  - rewrite (load_entry_same_data BLOCK_SIZE sb0 acc tbl (Z.of_nat a) Hd).
    destruct (Z.eqb_spec (load_entry BLOCK_SIZE sb0 tbl (Z.of_nat a)) 0) as [E|E].
    + eapply Released_iff; [|apply (IH acc Hd)].
      intros q. split.
      * intros (Hq & i & Hi & <-). split; [assumption|]. exists i. split; [right; assumption|reflexivity].
      * intros (Hq & i & [<-|Hi] & <-); [congruence|].
        split; [assumption|]. exists i. split; [assumption|reflexivity].
    + eapply Released_iff;
        [|apply (Released_trans _ _ _ _ _
                   (Released_free_block acc (load_entry BLOCK_SIZE sb0 tbl (Z.of_nat a)))
                   (IH (osfs_free_data_block acc (load_entry BLOCK_SIZE sb0 tbl (Z.of_nat a)))
                       Hd))].
      intros q. split.
      * intros [->|(Hq & i & Hi & <-)].
        -- split; [assumption|]. exists a. split; [left; reflexivity|reflexivity].
        -- split; [assumption|]. exists i. split; [right; assumption|reflexivity].
      * intros (Hq & i & [<-|Hi] & <-); [left; reflexivity|].
        right. split; [assumption|]. exists i. split; [assumption|reflexivity].
Qed.

Lemma in_seq_index (n : Z) (i : nat) :
  In i (seq 0 (Z.to_nat n)) <-> 0 <= Z.of_nat i < n.
Proof. rewrite in_seq. lia. Qed.

Lemma free_entries_released (sb0 acc : osfs_sb_info) (tbl : Z) :
  data_blocks acc = data_blocks sb0 ->
  Released acc (free_entries BLOCK_SIZE acc tbl)
    (fun q => q <> 0 /\ exists i, 0 <= i < APB /\ load_entry BLOCK_SIZE sb0 tbl i = q).
Proof.
  intros Hd. unfold free_entries.
  eapply Released_iff; [|apply (free_entries_fold_released sb0 tbl _ acc Hd)].
  intros q. split.
  - intros (Hq & i & Hi & <-). apply in_seq_index in Hi.
    split; [assumption|]. exists (Z.of_nat i). split; [assumption|reflexivity].
  - intros (Hq & i & Hi & <-). split; [assumption|]. exists (Z.to_nat i).
    rewrite in_seq_index, Z2Nat.id by lia. split; [assumption|reflexivity].
Qed.

(** The loop over the direct pointers. *)
Lemma free_direct_step_released (acc : osfs_sb_info) (i : nat) :
  Released acc (free_direct_step ino acc i)
    (fun q => q <> 0 /\ q = slot acc ino (Z.of_nat i)).
Proof.
  unfold free_direct_step.
  destruct (Z.eqb_spec (slot acc ino (Z.of_nat i)) 0) as [E|E].
  - apply Released_same; [reflexivity|reflexivity|]. intros q [H1 H2]. congruence.
  - eapply Released_iff;
      [|apply (Released_trans _ _ _ _ _
                 (Released_free_block acc (slot acc ino (Z.of_nat i)))
                 (Released_set_slot _ (Z.of_nat i) 0))].
    intros q. split.
    + intros [->|[]]. split; [assumption|reflexivity].
    + intros [_ ->]. left. reflexivity.
Qed.

Lemma free_direct_fold_released (sb0 : osfs_sb_info) (l : list nat) :
  NoDup l ->
  forall acc, valid_ino acc ino ->
    (forall i, In i l -> slot acc ino (Z.of_nat i) = slot sb0 ino (Z.of_nat i)) ->
    Released acc (fold_left (free_direct_step ino) l acc)
      (fun q => q <> 0 /\ exists i, In i l /\ slot sb0 ino (Z.of_nat i) = q).
Proof.
  induction 1 as [|a l Ha Hl IH]; intros acc Hv Hs; cbn [fold_left].
  - apply Released_same; [reflexivity|reflexivity|]. intros q (_ & i & [] & _).
  - destruct (free_direct_step_spec ino acc a Hv) as (Hv1 & _ & Ho).
    assert (Hs1 : forall i, In i l ->
              slot (free_direct_step ino acc a) ino (Z.of_nat i) = slot sb0 ino (Z.of_nat i)).
    { intros i Hi. rewrite Ho; [apply Hs; right; assumption|lia|].
      intros E. apply Nat2Z.inj in E. subst i. contradiction. }
    eapply Released_iff;
      [|apply (Released_trans _ _ _ _ _ (free_direct_step_released acc a)
                 (IH _ Hv1 Hs1))].
    rewrite (Hs a (or_introl eq_refl)).
    intros q. split.
    + intros [[Hq ->]|(Hq & i & Hi & <-)].
      * split; [assumption|]. exists a. split; [left; reflexivity|reflexivity].
      * split; [assumption|]. exists i. split; [right; assumption|reflexivity].
    + intros (Hq & i & [<-|Hi] & <-); [left; split; [assumption|reflexivity]|].
      right. split; [assumption|]. exists i. split; [assumption|reflexivity].
Qed.

Lemma free_direct_released (sb : osfs_sb_info) :
  valid_ino sb ino ->
  Released sb (free_direct sb ino)
    (fun q => q <> 0 /\ exists k, 0 <= k < OSFS_N_DIRECT /\ slot sb ino k = q).
Proof.
  intros Hv. rewrite free_direct_eq.
  eapply Released_iff;
    [|apply (free_direct_fold_released sb _ (seq_NoDup _ _) sb Hv); reflexivity].
  intros q. split.
  - intros (Hq & i & Hi & <-). apply in_seq_index in Hi.
    split; [assumption|]. exists (Z.of_nat i). split; [assumption|reflexivity].
  - intros (Hq & i & Hi & <-). split; [assumption|]. exists (Z.to_nat i).
    rewrite in_seq_index, Z2Nat.id by lia. split; [assumption|reflexivity].
Qed.

(** The indirect tier: the blocks named by the index block, then the
    index block. *)
Lemma free_indirect_released (sb : osfs_sb_info) :
  Released sb (free_indirect BLOCK_SIZE sb ino)
    (fun q => q <> 0
              /\ (q = slot sb ino 12
                  \/ exists i, 0 <= i < APB /\ ptr BLOCK_SIZE ino sb [i; 12] = q)).
Proof.
  unfold free_indirect. change OSFS_N_DIRECT with 12. cbn [ptr].
  destruct (Z.eqb_spec (slot sb ino 12) 0) as [E|E].
  - apply Released_same; [reflexivity|reflexivity|].
    intros q (Hq & [H|(i & _ & H)]); congruence.
  - cbv zeta.
    rewrite (same_table_slot ino sb _ 12 (same_table_free_entries BLOCK_SIZE sb (slot sb ino 12))).
    eapply Released_iff;
      [|apply (Released_trans _ _ _ _ _
                 (Released_trans _ _ _ _ _
                    (free_entries_released sb sb (slot sb ino 12) eq_refl)
                    (Released_free_block _ (slot sb ino 12)))
                 (Released_set_slot _ 12 0))].
    cbv beta. intros q. split.
    + intros [[(Hq & H)| ->]|[]].
      * split; [assumption|]. right. assumption.
      * split; [assumption|]. left. reflexivity.
    + intros (Hq & [->|H]).
      * left. right. reflexivity.
      * left. left. split; assumption.
Qed.

(** The double-indirect tier: the outer loop. *)
Lemma free_dindirect_fold_released (sb0 : osfs_sb_info) (top : Z) (l : list nat) :
  forall acc, data_blocks acc = data_blocks sb0 ->
    Released acc
      (fold_left
         (fun acc i =>
            if load_entry BLOCK_SIZE acc top (Z.of_nat i) =? 0 then acc
            else
              let acc1 := free_entries BLOCK_SIZE acc (load_entry BLOCK_SIZE acc top (Z.of_nat i)) in
              osfs_free_data_block acc1 (load_entry BLOCK_SIZE acc1 top (Z.of_nat i)))
         l acc)
      (fun q => q <> 0
                /\ exists o, In o l
                     /\ load_entry BLOCK_SIZE sb0 top (Z.of_nat o) <> 0
                     /\ (q = load_entry BLOCK_SIZE sb0 top (Z.of_nat o)
                         \/ exists i, 0 <= i < APB
                              /\ load_entry BLOCK_SIZE sb0
                                   (load_entry BLOCK_SIZE sb0 top (Z.of_nat o)) i = q)).
Proof.
  induction l as [|a l IH]; intros acc Hd; cbn [fold_left].
  - apply Released_same; [reflexivity|reflexivity|]. intros q (_ & i & [] & _).
  - rewrite (load_entry_same_data BLOCK_SIZE sb0 acc top (Z.of_nat a) Hd).
    destruct (Z.eqb_spec (load_entry BLOCK_SIZE sb0 top (Z.of_nat a)) 0) as [E|E].
    + eapply Released_iff; [|apply (IH acc Hd)].
      intros q. split.
      * intros (Hq & o & Ho & H). split; [assumption|]. exists o. split; [right; assumption|exact H].
      * intros (Hq & o & [<-|Ho] & Hn & H); [congruence|].
        split; [assumption|]. exists o. split; [assumption|]. split; assumption.
    + cbv zeta.
      pose proof (free_entries_released sb0 acc (load_entry BLOCK_SIZE sb0 top (Z.of_nat a)) Hd)
        as R1.
      assert (Hd1 : data_blocks (free_entries BLOCK_SIZE acc
                                   (load_entry BLOCK_SIZE sb0 top (Z.of_nat a)))
                    = data_blocks sb0) by (rewrite (proj1 R1); exact Hd).
      rewrite (load_entry_same_data BLOCK_SIZE sb0 _ top (Z.of_nat a) Hd1).
      eapply Released_iff;
        [|apply (Released_trans _ _ _ _ _
                   (Released_trans _ _ _ _ _ R1
                      (Released_free_block _ (load_entry BLOCK_SIZE sb0 top (Z.of_nat a))))
                   (IH (osfs_free_data_block
                          (free_entries BLOCK_SIZE acc
                             (load_entry BLOCK_SIZE sb0 top (Z.of_nat a)))
                          (load_entry BLOCK_SIZE sb0 top (Z.of_nat a))) Hd1))].
      cbv beta. intros q. split.
      * intros [[(Hq & H)| ->]|(Hq & o & Ho & H)].
        -- split; [assumption|]. exists a. split; [left; reflexivity|].
           split; [assumption|right; assumption].
        -- split; [assumption|]. exists a. split; [left; reflexivity|].
           split; [assumption|left; reflexivity].
        -- split; [assumption|]. exists o. split; [right; assumption|exact H].
      * intros (Hq & o & [<-|Ho] & Hn & [->|H]).
        -- left. right. reflexivity.
        -- left. left. split; assumption.
        -- right. split; [assumption|]. exists o. split; [assumption|].
           split; [assumption|left; reflexivity].
        -- right. split; [assumption|]. exists o. split; [assumption|].
           split; [assumption|right; assumption].
Qed.

Lemma free_dindirect_released (sb : osfs_sb_info) :
  Released sb (free_dindirect BLOCK_SIZE sb ino)
    (fun q => q <> 0
              /\ (q = slot sb ino 13
                  \/ (exists o, 0 <= o < APB /\ ptr BLOCK_SIZE ino sb [o; 13] = q)
                  \/ exists o i, 0 <= o < APB /\ 0 <= i < APB
                                 /\ ptr BLOCK_SIZE ino sb [i; o; 13] = q)).
Proof.
  unfold free_dindirect. change (OSFS_N_DIRECT + 1) with 13. cbn [ptr].
  destruct (Z.eqb_spec (slot sb ino 13) 0) as [E|E].
  - apply Released_same; [reflexivity|reflexivity|].
    intros q (Hq & [H|[(o & _ & H)|(o & i & _ & _ & H)]]); cbv beta iota in H;
      try change (0 =? 0) with true in H; cbv beta iota in H; congruence.
  - cbv zeta.
    rewrite (same_table_slot ino sb _ 13
               (same_table_free_dindirect_fold BLOCK_SIZE (slot sb ino 13) _ sb)).
    eapply Released_iff;
      [|apply (Released_trans _ _ _ _ _
                 (Released_trans _ _ _ _ _
                    (free_dindirect_fold_released sb (slot sb ino 13) _ sb eq_refl)
                    (Released_free_block _ (slot sb ino 13)))
                 (Released_set_slot _ 13 0))].
    cbv beta. intros q. split.
    + intros [[(Hq & o & Ho & Hn & H)| ->]|[]].
      * apply in_seq_index in Ho. split; [assumption|]. right.
        destruct H as [->|(i & Hi & H)].
        -- left. exists (Z.of_nat o). split; [assumption|reflexivity].
        -- right. exists (Z.of_nat o), i. split; [assumption|]. split; [assumption|].
           destruct (Z.eqb_spec (load_entry BLOCK_SIZE sb (slot sb ino 13) (Z.of_nat o)) 0);
             [contradiction|assumption].
      * split; [assumption|]. left. reflexivity.
    + intros (Hq & [->|[(o & Ho & H)|(o & i & Ho & Hi & H)]]).
      * left. right. reflexivity.
      * left. left. split; [assumption|]. exists (Z.to_nat o).
        rewrite in_seq_index, Z2Nat.id by lia. split; [assumption|].
        split; [congruence|left; symmetry; assumption].
      * destruct (Z.eqb_spec (load_entry BLOCK_SIZE sb (slot sb ino 13) o) 0) as [Ez|Ez];
          [congruence|].
        left. left. split; [assumption|]. exists (Z.to_nat o).
        rewrite in_seq_index, Z2Nat.id by lia. split; [assumption|].
        split; [assumption|]. right. exists i. split; assumption.
Qed.

Lemma free_inode_blocks_released (sb : osfs_sb_info) :
  valid_ino sb ino ->
  Released sb (osfs_free_inode_blocks BLOCK_SIZE sb ino)
    (fun q => q <> 0 /\ exists p, vpath BLOCK_SIZE p /\ ptr BLOCK_SIZE ino sb p = q).
Proof.
  intros Hv. unfold osfs_free_inode_blocks.
  rewrite (valid_get_osfs_inode sb ino Hv). cbv zeta.
  pose proof (free_direct_released sb Hv) as R1.
  destruct (free_direct_spec ino sb Hv) as (Hv1 & _ & Hk1 & _).
  revert R1 Hv1 Hk1. generalize (free_direct sb ino). intros s1 R1 Hv1 Hk1.
  pose proof (free_indirect_released s1) as R2.
  destruct (free_indirect_spec BLOCK_SIZE ino s1 Hv1) as (Hv2 & _ & Hk2).
  revert R2 Hv2 Hk2. generalize (free_indirect BLOCK_SIZE s1 ino). intros s2 R2 Hv2 Hk2.
  pose proof (free_dindirect_released s2) as R3.
  revert R3. generalize (free_dindirect BLOCK_SIZE s2 ino). intros s3 R3.
  assert (R4 : Released s3 (set_inode s3 ino (with_i_blocks (inode_at s3 ino) 0))
                 (fun _ => False))
    by (apply Released_same; [reflexivity|reflexivity|tauto]).
  revert R4. generalize (set_inode s3 ino (with_i_blocks (inode_at s3 ino) 0)).
  intros s4 R4.
  pose proof (proj1 R1) as D1. pose proof (proj1 R2) as D2.
  assert (D2' : data_blocks s2 = data_blocks sb) by congruence.
  assert (K12 : slot s1 ino 12 = slot sb ino 12) by (apply Hk1; lia).
  assert (K13 : slot s2 ino 13 = slot sb ino 13)
    by (rewrite Hk2 by lia; apply Hk1; lia).
  assert (P12 : forall i, ptr BLOCK_SIZE ino s1 [i; 12] = ptr BLOCK_SIZE ino sb [i; 12]).
  { intros i. cbn [ptr]. rewrite K12.
    rewrite (load_entry_same_data BLOCK_SIZE sb s1 _ _ D1). reflexivity. }
  assert (P13 : forall o, ptr BLOCK_SIZE ino s2 [o; 13] = ptr BLOCK_SIZE ino sb [o; 13]).
  { intros o. cbn [ptr]. rewrite K13.
    rewrite (load_entry_same_data BLOCK_SIZE sb s2 _ _ D2'). reflexivity. }
  assert (P13' : forall o i,
            ptr BLOCK_SIZE ino s2 [i; o; 13] = ptr BLOCK_SIZE ino sb [i; o; 13]).
  { intros o i. rewrite !(ptr_cons BLOCK_SIZE ino _ i [o; 13]) by discriminate.
    rewrite P13. rewrite (load_entry_same_data BLOCK_SIZE sb s2 _ _ D2'). reflexivity. }
  eapply Released_iff;
    [|exact (Released_trans _ _ _ _ _
               (Released_trans _ _ _ _ _ (Released_trans _ _ _ _ _ R1 R2) R3) R4)].
  cbv beta. intros q. split.
  - intros [[[(Hq & k & Hk & H)|(Hq & H)]|(Hq & H)]|[]]; (split; [assumption|]).
    + exists [k]. split; [left; exact Hk|exact H].
    + destruct H as [->|(i & Hi & H)].
      * exists [12]. split; [right; left; reflexivity|symmetry; exact K12].
      * exists [i; 12]. split; [left; split; [reflexivity|exact Hi]|].
        rewrite <- P12. exact H.
    + destruct H as [->|[(o & Ho & H)|(o & i & Ho & Hi & H)]].
      * exists [13]. split; [right; right; reflexivity|symmetry; exact K13].
      * exists [o; 13]. split; [right; split; [reflexivity|exact Ho]|].
        rewrite <- P13. exact H.
      * exists [i; o; 13].
        split; [left; split; [reflexivity|split; assumption]|].
        rewrite <- P13'. exact H.
  - intros (Hq & p & Hp & H).
    destruct p as [|a [|b [|c [|d r]]]]; unfold vpath, is_leaf, is_index in Hp;
      try tauto.
    + destruct Hp as [Hp|[->| ->]].
      * left. left. left. split; [assumption|]. exists a. split; assumption.
      * left. left. right. split; [assumption|]. left. rewrite K12. symmetry. exact H.
      * left. right. split; [assumption|]. left. rewrite K13. symmetry. exact H.
    + destruct Hp as [[-> Hp]|[-> Hp]].
      * left. left. right. split; [assumption|]. right. exists a.
        split; [assumption|]. rewrite P12. exact H.
      * left. right. split; [assumption|]. right. left. exists a.
        split; [assumption|]. rewrite P13. exact H.
    + destruct Hp as [(-> & Ho & Hi)|[]].
      left. right. split; [assumption|]. right. right. exists b, a.
      split; [assumption|]. split; [assumption|]. rewrite P13'. exact H.
Qed.

(** On a well-formed file, where every non-zero pointer of the tree
    names a block below [block_count], [osfs_free_inode_blocks]
    releases the blocks of the tree and no other: the bit of every
    block named by a non-zero pointer of the tree (direct pointers,
    both index pointers, the entries of the index blocks) is clear
    afterwards, index blocks included; the bit of every other block,
    block 0 among them, is as before; no bit is set, and the data area
    is not written. *)
Theorem free_inode_blocks_releases_tree (sb : osfs_sb_info) :
  WF BLOCK_SIZE ino sb ->
  (forall p, vpath BLOCK_SIZE p -> ptr BLOCK_SIZE ino sb p <> 0 ->
     test_bit (ptr BLOCK_SIZE ino sb p)
       (block_bitmap (osfs_free_inode_blocks BLOCK_SIZE sb ino)) = false)
  /\ (forall q,
        (forall p, vpath BLOCK_SIZE p -> ptr BLOCK_SIZE ino sb p <> 0 ->
                   ptr BLOCK_SIZE ino sb p <> q) ->
        test_bit q (block_bitmap (osfs_free_inode_blocks BLOCK_SIZE sb ino))
        = test_bit q (block_bitmap sb))
  /\ (forall q,
        test_bit q (block_bitmap (osfs_free_inode_blocks BLOCK_SIZE sb ino)) = true ->
        test_bit q (block_bitmap sb) = true)
  /\ data_blocks (osfs_free_inode_blocks BLOCK_SIZE sb ino) = data_blocks sb.
Proof.
  intros Hwf.
  destruct (free_inode_blocks_released sb (wf_valid _ _ _ Hwf)) as (R1 & R2 & R3 & R4).
  split; [|split; [|split; assumption]].
  - intros p Hp Hn. apply R2. split; [assumption|]. exists p. split; [assumption|reflexivity].
  - intros q Hq. apply R3. intros (Hq0 & p & Hp & E).
    apply (Hq p Hp); congruence.
Qed.

End Release.

(** The file that holds the 5000 bytes has its two blocks in the
    direct pointers 0 and 1. *)
Lemma free_inode_blocks_releases_tree_witness :
  WF 4096 2 (fst (fst write_5000))
  /\ test_bit (ptr 4096 2 (fst (fst write_5000)) [1])
       (block_bitmap (osfs_free_inode_blocks 4096 (fst (fst write_5000)) 2)) = false
  /\ data_blocks (osfs_free_inode_blocks 4096 (fst (fst write_5000)) 2)
     = data_blocks (fst (fst write_5000)).
Proof.
  pose proof (free_inode_blocks_releases_tree 4096 2 (fst (fst write_5000)) WF_write_5000)
    as H.
  split; [exact WF_write_5000|]. split; [|exact (proj2 (proj2 (proj2 H)))].
  apply (proj1 H).
  - left. cbv. split; congruence.
  - vm_compute. discriminate.
Defined.

(** ** A write stays inside its file *)

Section Isolation.

Variable BLOCK_SIZE : Z.
Hypothesis BLOCK_SIZE_pos : 0 < BLOCK_SIZE.
Variable ino : Z.
Local Notation "'APB'" := (OSFS_ADDR_PER_BLOCK BLOCK_SIZE).

(** A block in use that the tree of [ino] does not name. *)
Definition foreign (sb : osfs_sb_info) (t : Z) : Prop :=
  0 <= t < block_count sb
  /\ test_bit t (block_bitmap sb) = true
  /\ forall p, vpath BLOCK_SIZE p -> ptr BLOCK_SIZE ino sb p <> 0 ->
               ptr BLOCK_SIZE ino sb p <> t.

(** The inode table keeps its size. *)
Definition same_shape (s s' : osfs_sb_info) : Prop :=
  inode_count s' = inode_count s
  /\ length (inode_table s') = length (inode_table s).

Lemma same_shape_refl (s : osfs_sb_info) : same_shape s s.
Proof. split; reflexivity. Qed.

Lemma same_shape_trans (a b c : osfs_sb_info) :
  same_shape a b -> same_shape b c -> same_shape a c.
Proof. intros [H1 H2] [H3 H4]. split; congruence. Qed.

Lemma same_shape_set_inode (s : osfs_sb_info) (j : Z) (ind : osfs_inode) :
  same_shape s (set_inode s j ind).
Proof. split; [reflexivity|]. unfold set_inode. cbn. apply list_upd_length. Qed.

(** What is not of the file stays: the other inode records, the bits
    that are set, the bytes of the foreign blocks; a block that the
    tree names now and did not name before was free before, the tree
    keeps the blocks it named, and a bit that is set now and was not
    set before is the bit of a block of the tree. *)
Definition Apart (s s' : osfs_sb_info) : Prop :=
  block_count s' = block_count s
  /\ same_shape s s'
  /\ (forall j, j <> ino -> inode_at s' j = inode_at s j)
  /\ (forall t, test_bit t (block_bitmap s) = true -> test_bit t (block_bitmap s') = true)
  /\ (forall p, vpath BLOCK_SIZE p -> ptr BLOCK_SIZE ino s' p <> 0 ->
        ptr BLOCK_SIZE ino s' p = ptr BLOCK_SIZE ino s p
        \/ test_bit (ptr BLOCK_SIZE ino s' p) (block_bitmap s) = false)
  /\ (forall t off n, foreign s t -> 0 <= off -> off + Z.of_nat n <= BLOCK_SIZE ->
        load_bytes (data_blocks s') (blk_addr BLOCK_SIZE t + off) n
        = load_bytes (data_blocks s) (blk_addr BLOCK_SIZE t + off) n)
  /\ (forall p, vpath BLOCK_SIZE p -> ptr BLOCK_SIZE ino s p <> 0 ->
        ptr BLOCK_SIZE ino s' p = ptr BLOCK_SIZE ino s p)
  /\ (forall t, test_bit t (block_bitmap s') = true ->
        test_bit t (block_bitmap s) = true
        \/ (t <> 0 /\ exists p, vpath BLOCK_SIZE p /\ ptr BLOCK_SIZE ino s' p = t)).

Lemma Apart_refl (s : osfs_sb_info) : Apart s s.
Proof.
  split; [reflexivity|]. split; [apply same_shape_refl|].
  split; [reflexivity|]. split; [auto|].
  split; [intros; left; reflexivity|]. split; [reflexivity|].
  split; [reflexivity|auto].
Qed.

Lemma Apart_foreign (a b : osfs_sb_info) (t : Z) :
  Apart a b -> foreign a t -> foreign b t.
Proof.
  intros (A1 & _ & _ & A3 & A4 & _) (F1 & F2 & F3).
  split; [rewrite A1; assumption|]. split; [apply A3; assumption|].
  intros p Hp Hn E. destruct (A4 p Hp Hn) as [H|H].
  - apply (F3 p Hp); congruence.
  - rewrite E in H. congruence.
Qed.

Lemma Apart_trans (a b c : osfs_sb_info) : Apart a b -> Apart b c -> Apart a c.
Proof.
  intros Hab Hbc.
  pose proof (Apart_foreign a b) as Hf.
  pose proof Hab as (A1 & A0 & A2 & A3 & A4 & A5 & A6 & A7).
  destruct Hbc as (B1 & B0 & B2 & B3 & B4 & B5 & B6 & B7).
  split; [congruence|]. split; [eapply same_shape_trans; eassumption|].
  split; [intros j Hj; rewrite B2, A2; auto|].
  split; [auto|]. split; [|split; [|split]].
  - intros p Hp Hn. destruct (B4 p Hp Hn) as [H|H].
    + rewrite H in *. apply A4; assumption.
    + right. destruct (test_bit (ptr BLOCK_SIZE ino c p) (block_bitmap a)) eqn:E;
        [|reflexivity].
      apply A3 in E. congruence.
  - intros t off n Ht Ho1 Ho2. rewrite B5; [apply A5; assumption| |assumption|assumption].
    apply (Hf t Hab Ht).
  - intros p Hp Hn. rewrite B6; [apply A6; assumption|assumption|].
    rewrite A6; assumption.
  - intros t Ht. destruct (B7 t Ht) as [H|H]; [|right; assumption].
    destruct (A7 t H) as [H'|(Hn & p & Hp & E)]; [left; assumption|].
    right. split; [assumption|]. exists p. split; [assumption|].
    rewrite B6; [assumption|assumption|congruence].
Qed.

Lemma inode_at_set_inode_other (s : osfs_sb_info) (j : Z) (ind : osfs_inode) :
  0 < ino -> j <> ino -> inode_at (set_inode s ino ind) j = inode_at s j.
Proof.
  intros Hi Hj. unfold inode_at, set_inode. cbn.
  apply nth_list_upd_other. lia.
Qed.

(** The part of [Apart] that [Ensured] gives. *)
Lemma Ensured_Apart (s s' : osfs_sb_info) (p0 : list Z) (v : Z) :
  vpath BLOCK_SIZE p0 ->
  Ensured BLOCK_SIZE ino s s' p0 v ->
  same_shape s s' ->
  (forall j, j <> ino -> inode_at s' j = inode_at s j) ->
  (forall t off n, foreign s t -> 0 <= off -> off + Z.of_nat n <= BLOCK_SIZE ->
     load_bytes (data_blocks s') (blk_addr BLOCK_SIZE t + off) n
     = load_bytes (data_blocks s) (blk_addr BLOCK_SIZE t + off) n) ->
  Apart s s'.
Proof.
  intros Hp0 (W & (Fc & Fp & _) & P & Vn & O & _ & S & N) Hsh Ht Hd.
  destruct (Z.eq_dec (ptr BLOCK_SIZE ino s p0) 0) as [Ez|Ez];
    [|rewrite (S Ez); apply Apart_refl].
  destruct (N Ez) as (Nb & Nm & _).
  assert (Hv : 0 < v) by (destruct (wf_ptr _ _ _ W p0 Hp0) as [H _]; [congruence|lia]).
  split; [assumption|]. split; [assumption|]. split; [assumption|].
  split; [|split; [|split; [assumption|split; [assumption|]]]].
  - intros t Hb. rewrite Nm, test_bit_set_bit by lia. rewrite Hb. apply orb_true_r.
  - intros p Hp Hn. destruct (path_eq_dec p p0) as [->|Hne].
    + right. rewrite P. assumption.
    + left. apply O; assumption.
  - intros t. rewrite Nm, test_bit_set_bit by lia.
    destruct (Z.eqb_spec v t) as [<-|Hne]; cbn [orb]; [|left; assumption].
    intros _. right. split; [assumption|]. exists p0. split; assumption.
Qed.

(** *** The four steps of [osfs_get_block] *)

Ltac shape :=
  repeat match goal with x := _ : osfs_sb_info |- _ => subst x end;
  split;
  [reflexivity
  |unfold inc_i_blocks, zero_block, store_entry, set_slot, set_inode;
   cbn [inode_table with_inode_table with_data_blocks with_block_alloc];
   rewrite ?list_upd_length; reflexivity].

Lemma get_data_slot_apart (s s' : osfs_sb_info) (k : Z) (r : result Z) :
  WF BLOCK_SIZE ino s -> 0 <= k < OSFS_N_DIRECT ->
  get_data_slot s ino k true = (s', r) -> Apart s s'.
Proof.
  intros Hwf Hk Hget. destruct r as [v|e];
    [|rewrite (get_data_slot_err ino s s' k e Hget); apply Apart_refl].
  pose proof (get_data_slot_create BLOCK_SIZE BLOCK_SIZE_pos ino s s' k v Hwf Hk Hget) as En.
  destruct (wf_valid _ _ _ Hwf) as [[Hi _] _].
  revert Hget. unfold get_data_slot.
  destruct (slot s ino k =? 0); cbn [andb]; [|intros [= <- _]; apply Apart_refl].
  destruct (osfs_alloc_data_block s) as [s1 [q|e]] eqn:Ea; [|discriminate].
  apply alloc_data_block_ok in Ea. destruct Ea as (_ & _ & _ & ->).
  intros [= E _]. apply (Ensured_Apart s s' [k] v); [left; exact Hk|exact En| | |].
  - rewrite <- E. shape.
  - intros j Hj. rewrite <- E. unfold inc_i_blocks, set_slot.
    rewrite !inode_at_set_inode_other by assumption. reflexivity.
  - intros t off n _ _ _. rewrite <- E. reflexivity.
Qed.

Lemma get_index_slot_apart (s s' : osfs_sb_info) (k : Z) (r : result Z) :
  WF BLOCK_SIZE ino s -> k = 12 \/ k = 13 ->
  get_index_slot BLOCK_SIZE s ino k true = (s', r) -> Apart s s'.
Proof.
  intros Hwf Hk Hget. destruct r as [v|e];
    [|rewrite (get_index_slot_err BLOCK_SIZE ino s s' k e Hget); apply Apart_refl].
  pose proof (get_index_slot_create BLOCK_SIZE BLOCK_SIZE_pos ino s s' k v Hwf Hk Hget) as En.
  destruct (wf_valid _ _ _ Hwf) as [[Hi _] Vt].
  pose proof (wf_area _ _ _ Hwf) as Har.
  pose proof (wf_slots _ _ _ Hwf) as Hs.
  revert Hget. unfold get_index_slot.
  destruct (slot s ino k =? 0); cbn [negb]; [|intros [= <- _]; apply Apart_refl].
  destruct (osfs_alloc_data_block s) as [s1 [q|e]] eqn:Ea; [|discriminate].
  apply alloc_data_block_ok in Ea. destruct Ea as (Hq & Hfresh & _ & ->).
  set (s1 := with_block_alloc s (set_bit q (block_bitmap s)) (wrap32 (nr_free_blocks s - 1))).
  set (s2 := set_slot s1 ino k q).
  assert (Hv2 : slot s2 ino k = q).
  { apply slot_set_slot_same; [exact Vt|].
    change (inode_at s1 ino) with (inode_at s ino). lia. }
  cbv zeta. fold s2. rewrite Hv2.
  intros [= E _]. apply (Ensured_Apart s s' [k] v); [right; exact Hk|exact En| | |].
  - rewrite <- E. shape.
  - intros j Hj. rewrite <- E. unfold inc_i_blocks, zero_block, s2, set_slot.
    rewrite inode_at_set_inode_other by assumption.
    change (inode_at (with_data_blocks ?x ?y) j) with (inode_at x j).
    rewrite inode_at_set_inode_other by assumption. reflexivity.
  - intros t off n (Ht & Hb & _) Ho1 Ho2. rewrite <- E.
    change (data_blocks (inc_i_blocks (zero_block BLOCK_SIZE s2 q) ino))
      with (data_blocks (zero_block BLOCK_SIZE s2 q)).
    rewrite zero_block_poke.
    rewrite (poke_frame BLOCK_SIZE BLOCK_SIZE_pos s2 q 0 (zeros BLOCK_SIZE) t off n);
      try assumption; try lia.
    + reflexivity.
    + rewrite zeros_length; lia.
    + left. intros ->. congruence.
Qed.

(** A store into entry [i0] of the index block [T], with the new block
    zero-filled or not. *)
Lemma entry_store_foreign (s : osfs_sb_info) (T i0 q : Z) (zero : bool)
    (t off : Z) (n : nat) :
  area_ok BLOCK_SIZE s -> 0 <= T < block_count s -> 0 <= q < block_count s ->
  0 <= i0 < APB -> 0 <= t < block_count s -> t <> T -> t <> q ->
  0 <= off -> off + Z.of_nat n <= BLOCK_SIZE ->
  load_bytes
    (data_blocks (if zero then zero_block BLOCK_SIZE (store_entry BLOCK_SIZE s T i0 q) q
                  else store_entry BLOCK_SIZE s T i0 q))
    (blk_addr BLOCK_SIZE t + off) n
  = load_bytes (data_blocks s) (blk_addr BLOCK_SIZE t + off) n.
Proof.
  intros Har HT Hq Hi Ht HtT Htq Ho1 Ho2.
  pose proof (apb_bytes BLOCK_SIZE) as Hb.
  assert (E1 : load_bytes (data_blocks (store_entry BLOCK_SIZE s T i0 q))
                 (blk_addr BLOCK_SIZE t + off) n
               = load_bytes (data_blocks s) (blk_addr BLOCK_SIZE t + off) n).
  { rewrite store_entry_poke.
    apply (poke_frame BLOCK_SIZE BLOCK_SIZE_pos); try assumption;
      try (rewrite length_le_split); try lia. }
  destruct zero; [|exact E1].
  rewrite zero_block_poke, <- E1.
  apply (poke_frame BLOCK_SIZE BLOCK_SIZE_pos); try assumption; try lia.
  - rewrite store_entry_poke. apply area_ok_poke. assumption.
  - rewrite zeros_length; lia.
Qed.

Lemma get_index_entry_apart (s s' : osfs_sb_info) (par0 : list Z) (o : Z) (r : result Z) :
  WF BLOCK_SIZE ino s -> is_index BLOCK_SIZE (o :: par0) -> par0 <> [] ->
  ptr BLOCK_SIZE ino s par0 <> 0 ->
  get_index_entry BLOCK_SIZE s ino (ptr BLOCK_SIZE ino s par0) o true = (s', r) ->
  Apart s s'.
Proof.
  intros Hwf Hidx Hne Hpz Hget. destruct r as [v|e];
    [|rewrite (get_index_entry_err BLOCK_SIZE ino s s' _ o e Hget); apply Apart_refl].
  pose proof (get_index_entry_create BLOCK_SIZE BLOCK_SIZE_pos ino s s' par0 o v
                Hwf Hidx Hne Hpz Hget) as En.
  assert (Hvp : vpath BLOCK_SIZE (o :: par0)) by (right; assumption).
  destruct (vpath_parent BLOCK_SIZE o par0 Hvp Hne) as [Hidx0 Ho].
  destruct (wf_ptr _ _ _ Hwf par0 (or_intror Hidx0) Hpz) as [HT HTb].
  destruct (wf_valid _ _ _ Hwf) as [[Hi _] Vt].
  pose proof (wf_area _ _ _ Hwf) as Har.
  pose proof (block_count_bound BLOCK_SIZE BLOCK_SIZE_pos s Har) as Hbc32.
  revert Hget. set (T := ptr BLOCK_SIZE ino s par0) in *. unfold get_index_entry.
  destruct (load_entry BLOCK_SIZE s T o =? 0); cbn [negb]; [|intros [= <- _]; apply Apart_refl].
  destruct (osfs_alloc_data_block s) as [s1 [q|e]] eqn:Ea; [|discriminate].
  apply alloc_data_block_ok in Ea. destruct Ea as (Hq & Hfresh & _ & ->).
  set (s1 := with_block_alloc s (set_bit q (block_bitmap s)) (wrap32 (nr_free_blocks s - 1))).
  assert (Har1 : area_ok BLOCK_SIZE s1) by exact Har.
  assert (HT1 : 0 <= T < block_count s1)
    by (change (block_count s1) with (block_count s); lia).
  assert (Hq1 : 0 <= q < block_count s1) by exact Hq.
  assert (Hv2 : load_entry BLOCK_SIZE (store_entry BLOCK_SIZE s1 T o q) T o = q).
  { apply (load_entry_store_entry_same BLOCK_SIZE BLOCK_SIZE_pos); try assumption; lia. }
  cbv zeta. rewrite Hv2.
  intros [= E _]. apply (Ensured_Apart s s' (o :: par0) v); [exact Hvp|exact En| | |].
  - rewrite <- E. shape.
  - intros j Hj. rewrite <- E. unfold inc_i_blocks.
    rewrite inode_at_set_inode_other by assumption. reflexivity.
  - intros t off n (Ht & Hb & Hf) Ho1 Ho2. rewrite <- E.
    change (data_blocks (inc_i_blocks ?x ino)) with (data_blocks x).
    apply (entry_store_foreign s1 T o q true t off n); try assumption;
      try (change (block_count s1) with (block_count s)); try lia.
    + intros ->. apply (Hf par0 (or_intror Hidx0) Hpz). reflexivity.
    + intros ->. congruence.
Qed.

Lemma get_data_entry_apart (s s' : osfs_sb_info) (par0 : list Z) (i0 : Z) (r : result Z) :
  WF BLOCK_SIZE ino s -> is_leaf BLOCK_SIZE (i0 :: par0) -> par0 <> [] ->
  ptr BLOCK_SIZE ino s par0 <> 0 ->
  get_data_entry BLOCK_SIZE s ino (ptr BLOCK_SIZE ino s par0) i0 true = (s', r) ->
  Apart s s'.
Proof.
  intros Hwf Hlf Hne Hpz Hget. destruct r as [v|e];
    [|rewrite (get_data_entry_err BLOCK_SIZE ino s s' _ i0 e Hget); apply Apart_refl].
  pose proof (get_data_entry_create BLOCK_SIZE BLOCK_SIZE_pos ino s s' par0 i0 v
                Hwf Hlf Hne Hpz Hget) as En.
  assert (Hvp : vpath BLOCK_SIZE (i0 :: par0)) by (left; assumption).
  destruct (vpath_parent BLOCK_SIZE i0 par0 Hvp Hne) as [Hidx0 Ho].
  destruct (wf_ptr _ _ _ Hwf par0 (or_intror Hidx0) Hpz) as [HT HTb].
  destruct (wf_valid _ _ _ Hwf) as [[Hi _] Vt].
  pose proof (wf_area _ _ _ Hwf) as Har.
  revert Hget. set (T := ptr BLOCK_SIZE ino s par0) in *. unfold get_data_entry.
  destruct (load_entry BLOCK_SIZE s T i0 =? 0); cbn [andb]; [|intros [= <- _]; apply Apart_refl].
  destruct (osfs_alloc_data_block s) as [s1 [q|e]] eqn:Ea; [|discriminate].
  apply alloc_data_block_ok in Ea. destruct Ea as (Hq & Hfresh & _ & ->).
  set (s1 := with_block_alloc s (set_bit q (block_bitmap s)) (wrap32 (nr_free_blocks s - 1))).
  assert (Har1 : area_ok BLOCK_SIZE s1) by exact Har.
  assert (HT1 : 0 <= T < block_count s1)
    by (change (block_count s1) with (block_count s); lia).
  assert (Hq1 : 0 <= q < block_count s1) by exact Hq.
  cbv zeta.
  intros [= E _]. apply (Ensured_Apart s s' (i0 :: par0) v); [exact Hvp|exact En| | |].
  - rewrite <- E. shape.
  - intros j Hj. rewrite <- E. unfold inc_i_blocks.
    rewrite inode_at_set_inode_other by assumption. reflexivity.
  - intros t off n (Ht & Hb & Hf) Ho1 Ho2. rewrite <- E.
    change (data_blocks (inc_i_blocks ?x ino)) with (data_blocks x).
    apply (entry_store_foreign s1 T i0 q false t off n); try assumption;
      try (change (block_count s1) with (block_count s)); try lia.
    + intros ->. apply (Hf par0 (or_intror Hidx0) Hpz). reflexivity.
    + intros ->. congruence.
Qed.

(** [osfs_get_block] in create mode, whatever it answers. *)
Lemma get_block_apart (s s' : osfs_sb_info) (b : Z) (r : result Z) :
  WF BLOCK_SIZE ino s -> 0 <= b ->
  osfs_get_block BLOCK_SIZE s ino b true = (s', r) -> Apart s s'.
Proof.
  intros Hwf Hb0 Hget.
  pose proof (wf_valid _ _ _ Hwf) as Hv.
  pose proof (apb_nonneg BLOCK_SIZE BLOCK_SIZE_pos) as Hapb.
  revert Hget. unfold osfs_get_block. rewrite (valid_get_osfs_inode s ino Hv).
  change (OSFS_N_DIRECT + 1) with 13. change OSFS_N_DIRECT with 12.
  destruct (Z.ltb_spec b 12) as [Hlt|Hge].
  { intros Hget. apply (get_data_slot_apart s s' b r Hwf); [unfold OSFS_N_DIRECT; lia|exact Hget]. }
  cbv zeta.
  destruct (Z.ltb_spec (b - 12) APB) as [Hlt2|Hge2].
  { destruct (get_index_slot BLOCK_SIZE s ino 12 true) as [s1 [tbl|e]] eqn:E1.
    - pose proof (get_index_slot_apart s s1 12 _ Hwf (or_introl eq_refl) E1) as A1.
      apply (get_index_slot_create BLOCK_SIZE BLOCK_SIZE_pos) in E1;
        [|assumption|left; reflexivity].
      destruct E1 as (W1 & _ & P1 & Vn1 & _).
      rewrite <- P1. intros Hget.
      apply (Apart_trans s s1 s' A1).
      apply (get_data_entry_apart s1 s' [12] (b - 12) r); try assumption;
        [cbn; lia|congruence|congruence].
    - intros [= <- _]. apply (get_index_slot_apart s s1 12 _ Hwf (or_introl eq_refl) E1). }
  destruct (Z.ltb_spec (b - 12 - APB) (APB * APB)) as [Hlt3|Hge3];
    [|intros [= <- _]; apply Apart_refl].
  destruct (get_index_slot BLOCK_SIZE s ino 13 true) as [s1 [top|e]] eqn:E1.
  2:{ intros [= <- _]. apply (get_index_slot_apart s s1 13 _ Hwf (or_intror eq_refl) E1). }
  pose proof (get_index_slot_apart s s1 13 _ Hwf (or_intror eq_refl) E1) as A1.
  apply (get_index_slot_create BLOCK_SIZE BLOCK_SIZE_pos) in E1;
    [|assumption|right; reflexivity].
  destruct E1 as (W1 & _ & P1 & Vn1 & _).
  set (o := (b - 12 - APB) / APB) in *.
  set (i := (b - 12 - APB) mod APB) in *.
  assert (Hapb_pos : 0 < APB) by nia.
  assert (Ho : 0 <= o < APB).
  { unfold o. split; [apply Z.div_pos; lia | apply Z.div_lt_upper_bound; lia]. }
  assert (Hi : 0 <= i < APB) by (unfold i; apply Z.mod_pos_bound; lia).
  rewrite <- P1.
  destruct (get_index_entry BLOCK_SIZE s1 ino (ptr BLOCK_SIZE ino s1 [13]) o true)
    as [s2 [tbl|e]] eqn:E2.
  2:{ intros [= <- _]. apply (Apart_trans s s1 s2 A1).
      apply (get_index_entry_apart s1 s2 [13] o (Err e) W1);
        [cbn; lia|congruence|congruence|exact E2]. }
  assert (A2 : Apart s1 s2)
    by (apply (get_index_entry_apart s1 s2 [13] o (Ok tbl) W1);
        [cbn; lia|congruence|congruence|exact E2]).
  apply (get_index_entry_create BLOCK_SIZE BLOCK_SIZE_pos ino s1 s2 [13]) in E2;
    [|assumption|cbn; lia|congruence|congruence].
  destruct E2 as (W2 & _ & P2 & Vn2 & _).
  rewrite <- P2. intros Hget.
  apply (Apart_trans s s2 s'); [apply (Apart_trans s s1 s2); assumption|].
  apply (get_data_entry_apart s2 s' [o; 13] i r); try assumption;
    [cbn; lia|congruence|congruence].
Qed.

(** The loop of [osfs_write]. *)
Lemma write_loop_apart (buf : list byte) (fuel : nat) :
  forall (s : osfs_sb_info) (pos w len : Z) (s' : osfs_sb_info) (pos' w' : Z)
         (err : option errno),
    WF BLOCK_SIZE ino s -> 0 <= pos ->
    osfs_write_loop BLOCK_SIZE fuel true s ino buf pos w len = (s', pos', w', err) ->
    WF BLOCK_SIZE ino s' /\ Apart s s'.
Proof.
  induction fuel as [|fuel IH]; intros s pos w len s' pos' w' err Hwf Hp Hrun.
  - cbn [osfs_write_loop] in Hrun. injection Hrun as <- <- <- <-.
    split; [assumption|apply Apart_refl].
  - cbn [osfs_write_loop] in Hrun.
    destruct (Z.leb_spec len 0) as [H0|H0].
    + injection Hrun as <- <- <- <-. split; [assumption|apply Apart_refl].
    + pose proof (Z.mod_pos_bound pos BLOCK_SIZE BLOCK_SIZE_pos) as Hm.
      set (t := Z.min len (BLOCK_SIZE - pos mod BLOCK_SIZE)) in *.
      assert (Ht : 1 <= t <= len /\ pos mod BLOCK_SIZE + t <= BLOCK_SIZE) by (unfold t; lia).
      assert (Hb : 0 <= pos / BLOCK_SIZE) by (apply Z.div_pos; lia).
      destruct (osfs_get_block BLOCK_SIZE s ino (pos / BLOCK_SIZE) true) as [s1 [v|e]] eqn:G.
      * pose proof (get_block_apart s s1 _ _ Hwf Hb G) as A1.
        destruct (get_block_create BLOCK_SIZE BLOCK_SIZE_pos ino s s1 _ v Hwf Hb G)
          as (Hlt & W1 & _ & P1 & Vn & _).
        destruct (Z.eqb_spec v 0) as [|Hv0]; [contradiction|]. cbn [negb] in Hrun.
        set (chunk := firstn (Z.to_nat t) (skipn (Z.to_nat w) buf)) in *.
        assert (Hcl : Z.of_nat (length chunk) <= t).
        { unfold chunk. rewrite length_firstn. lia. }
        set (lf := path_of BLOCK_SIZE (pos / BLOCK_SIZE)) in *.
        assert (Hl : is_leaf BLOCK_SIZE lf)
          by (apply path_of_leaf; [assumption|split; assumption]).
        assert (Hnz1 : ptr BLOCK_SIZE ino s1 lf <> 0) by congruence.
        pose proof (data_store BLOCK_SIZE BLOCK_SIZE_pos ino s1 lf (pos mod BLOCK_SIZE) chunk
                      W1 Hl Hnz1 ltac:(lia) ltac:(lia)) as DS.
        cbv zeta in DS. rewrite P1 in DS. destruct DS as (W2 & Pt2 & _).
        destruct (wf_ptr _ _ _ W1 lf (or_introl Hl) Hnz1) as [Hvr _]. rewrite P1 in Hvr.
        assert (A2 : Apart s1
                       (with_data_blocks s1
                          (store_bytes (data_blocks s1)
                             (blk_addr BLOCK_SIZE v + pos mod BLOCK_SIZE) chunk))).
        { split; [reflexivity|]. split; [split; reflexivity|].
          split; [reflexivity|]. split; [auto|].
          split; [intros p Hpp _; left; apply Pt2; assumption|].
          split; [|split; [intros p Hpp _; apply Pt2; assumption|auto]].
          intros t0 off n (Ht0 & _ & Hf) Ho1 Ho2.
          apply (poke_frame BLOCK_SIZE BLOCK_SIZE_pos s1 v (pos mod BLOCK_SIZE) chunk t0 off n);
            try assumption; try lia.
          - apply (wf_area _ _ _ W1).
          - left. intros ->. apply (Hf lf (or_introl Hl) Hnz1). exact P1. }
        apply IH in Hrun; [|assumption|lia].
        destruct Hrun as [W3 A3]. split; [assumption|].
        apply (Apart_trans s s1 s' A1). eapply Apart_trans; eassumption.
      * pose proof (get_block_apart s s1 _ _ Hwf Hb G) as A1.
        destruct (get_block_create_err BLOCK_SIZE BLOCK_SIZE_pos ino s s1 _ e Hwf Hb G)
          as (W1 & _).
        injection Hrun as <- <- <- <-. split; assumption.
Qed.

Lemma write_tail_apart (s : osfs_sb_info) (posf now : Z) :
  WF BLOCK_SIZE ino s -> Apart s (write_tail ino s posf now).
Proof.
  intros Hwf. pose proof (wf_valid _ _ _ Hwf) as Hv. destruct Hv as [[Hi Hc] Vt].
  destruct (write_tail_file BLOCK_SIZE ino s posf now (conj (conj Hi Hc) Vt)) as (Tp & _).
  destruct (write_tail_view ino s posf now (conj (conj Hi Hc) Vt) _
              (write_tail ino s posf now) eq_refl eq_refl) as (_ & Hd & _ & Hbm & _).
  split.
  { unfold write_tail. destruct (i_size (inode_at s ino) <? posf); reflexivity. }
  split.
  { unfold write_tail. eapply same_shape_trans; [|apply same_shape_set_inode].
    destruct (i_size (inode_at s ino) <? posf);
      [apply same_shape_set_inode|apply same_shape_refl]. }
  split.
  { intros j Hj. unfold write_tail.
    rewrite inode_at_set_inode_other by assumption.
    destruct (i_size (inode_at s ino) <? posf); [|reflexivity].
    apply inode_at_set_inode_other; assumption. }
  rewrite Hbm, Hd.
  split; [auto|]. split; [intros p _ _; left; apply Tp|]. split; [reflexivity|].
  split; [intros p _ _; apply Tp|auto].
Qed.

Lemma write_apart (now : Z) (sb sb' : osfs_sb_info) (buf : list byte) (pos pos' : Z)
    (r : result Z) :
  WF BLOCK_SIZE ino sb -> 0 <= pos ->
  osfs_write BLOCK_SIZE true now sb ino buf pos = (sb', pos', r) ->
  WF BLOCK_SIZE ino sb' /\ Apart sb sb'.
Proof.
  intros Hwf Hp Hrun. pose proof (wf_valid _ _ _ Hwf) as Hv.
  rewrite (osfs_write_steps BLOCK_SIZE ino true now sb buf pos Hv) in Hrun.
  destruct (osfs_write_loop BLOCK_SIZE (Z.to_nat (Z.of_nat (length buf))) true sb ino buf pos 0
              (Z.of_nat (length buf))) as [[[s1 pos1] w'] err] eqn:L.
  apply write_loop_apart in L; [|assumption|assumption].
  destruct L as [W1 A1].
  destruct err as [e|]; injection Hrun as <- _ _; [split; assumption|].
  split; [apply write_tail_WF; assumption|].
  apply (Apart_trans sb s1 _ A1). apply write_tail_apart. assumption.
Qed.

(** [osfs_write] stays inside its file: it leaves every other inode
    record as it was, clears no bit of the block bitmap, and changes no
    byte of a block that was in use and that no pointer of the file's
    tree named, whether the write succeeds, is cut short or fails. *)
Theorem write_stays_in_its_file (now : Z) (sb sb' : osfs_sb_info) (buf : list byte)
    (pos pos' : Z) (r : result Z) :
  WF BLOCK_SIZE ino sb -> 0 <= pos ->
  osfs_write BLOCK_SIZE true now sb ino buf pos = (sb', pos', r) ->
  (forall j, j <> ino -> inode_at sb' j = inode_at sb j)
  /\ (forall t, test_bit t (block_bitmap sb) = true -> test_bit t (block_bitmap sb') = true)
  /\ (forall t off n,
        0 <= t < block_count sb -> test_bit t (block_bitmap sb) = true ->
        (forall p, vpath BLOCK_SIZE p -> ptr BLOCK_SIZE ino sb p <> 0 ->
                   ptr BLOCK_SIZE ino sb p <> t) ->
        0 <= off -> off + Z.of_nat n <= BLOCK_SIZE ->
        load_bytes (data_blocks sb') (blk_addr BLOCK_SIZE t + off) n
        = load_bytes (data_blocks sb) (blk_addr BLOCK_SIZE t + off) n).
Proof.
  intros Hwf Hp Hrun.
  destruct (write_apart now sb sb' buf pos pos' r Hwf Hp Hrun)
    as (_ & _ & _ & A2 & A3 & _ & A5 & _).
  split; [assumption|]. split; [assumption|].
  intros t off n Ht Hb Hf Ho1 Ho2. apply A5; [|assumption|assumption].
  split; [assumption|]. split; assumption.
Qed.

(** *** Another file *)

(** No block of the tree of [a] is a block of the tree of [b]. *)
Definition trees_apart (a b : Z) (sb : osfs_sb_info) : Prop :=
  forall p q, vpath BLOCK_SIZE p -> vpath BLOCK_SIZE q ->
    ptr BLOCK_SIZE a sb p <> 0 -> ptr BLOCK_SIZE a sb p <> ptr BLOCK_SIZE b sb q.

Section OtherFile.

Variable other : Z.
Hypothesis other_ne : other <> ino.
Variables s s' : osfs_sb_info.
Hypothesis WF_other : WF BLOCK_SIZE other s.
Hypothesis Hapart : trees_apart ino other s.
Hypothesis Hstep : Apart s s'.

Lemma other_block_foreign (q : list Z) :
  vpath BLOCK_SIZE q -> ptr BLOCK_SIZE other s q <> 0 ->
  foreign s (ptr BLOCK_SIZE other s q).
Proof.
  intros Hq Hn. destruct (wf_ptr _ _ _ WF_other q Hq Hn) as [Hr Hb].
  split; [lia|]. split; [assumption|].
  intros p Hp Hpn. apply Hapart; assumption.
Qed.

Lemma other_ptr_kept (p : list Z) :
  vpath BLOCK_SIZE p -> ptr BLOCK_SIZE other s' p = ptr BLOCK_SIZE other s p.
Proof.
  destruct Hstep as (_ & _ & A2 & _ & _ & A5 & _).
  induction p as [|i par IH]; intros Hp; [reflexivity|].
  destruct par as [|j r].
  - cbn [ptr]. unfold slot. rewrite (A2 other other_ne). reflexivity.
  - assert (Hne : j :: r <> []) by discriminate.
    destruct (vpath_parent BLOCK_SIZE i (j :: r) Hp Hne) as [Hidx Hi].
    rewrite !(ptr_cons BLOCK_SIZE other _ i (j :: r)) by assumption.
    rewrite (IH (or_intror Hidx)).
    destruct (Z.eqb_spec (ptr BLOCK_SIZE other s (j :: r)) 0) as [E|E]; [reflexivity|].
    unfold load_entry, load32. f_equal.
    pose proof (apb_bytes BLOCK_SIZE).
    apply A5; [apply other_block_foreign; [right; assumption|assumption]|lia|lia].
Qed.

Lemma other_file_byte_kept (x : Z) :
  0 <= x -> file_byte BLOCK_SIZE other s' x = file_byte BLOCK_SIZE other s x.
Proof.
  intros Hx. destruct Hstep as (_ & _ & _ & _ & _ & A5 & _). unfold file_byte.
  destruct (Z.ltb_spec (x / BLOCK_SIZE) (max_blocks BLOCK_SIZE)) as [Hlt|]; [|reflexivity].
  pose proof (block_of_leaf BLOCK_SIZE BLOCK_SIZE_pos x Hx Hlt) as Hl.
  rewrite (other_ptr_kept _ (or_introl Hl)).
  destruct (Z.eqb_spec (ptr BLOCK_SIZE other s (path_of BLOCK_SIZE (x / BLOCK_SIZE))) 0)
    as [E|E]; [reflexivity|].
  f_equal. pose proof (Z.mod_pos_bound x BLOCK_SIZE BLOCK_SIZE_pos).
  apply A5; [apply other_block_foreign; [left; assumption|assumption]|lia|lia].
Qed.

Lemma other_WF_kept : area_ok BLOCK_SIZE s' -> WF BLOCK_SIZE other s'.
Proof.
  intros Har. destruct Hstep as (A1 & (S1 & S2) & A2 & A3 & _ & _).
  pose proof (A2 other other_ne) as Hrec.
  destruct (wf_valid _ _ _ WF_other) as [Hv1 Hv2].
  constructor.
  - split; [rewrite S1; assumption|rewrite S2; assumption].
  - rewrite Hrec. apply (wf_slots _ _ _ WF_other).
  - assumption.
  - rewrite Hrec. apply (wf_ib _ _ _ WF_other).
  - rewrite Hrec, A1. apply (wf_ibc _ _ _ WF_other).
  - rewrite Hrec. intros j Hj. apply A3. apply (wf_high _ _ _ WF_other). assumption.
  - intros p Hp. rewrite (other_ptr_kept p Hp). intros Hn.
    destruct (wf_ptr _ _ _ WF_other p Hp Hn) as [Hr Hb].
    split; [rewrite A1; assumption|apply A3; assumption].
  - intros p q Hp Hq. rewrite (other_ptr_kept p Hp), (other_ptr_kept q Hq).
    apply (wf_inj _ _ _ WF_other); assumption.
Qed.

Lemma trees_apart_kept : trees_apart ino other s'.
Proof.
  destruct Hstep as (_ & _ & _ & _ & A4 & _).
  intros p q Hp Hq Hn. rewrite (other_ptr_kept q Hq).
  destruct (A4 p Hp Hn) as [E|E].
  - rewrite E in *. apply Hapart; assumption.
  - intros Heq.
    destruct (Z.eq_dec (ptr BLOCK_SIZE other s q) 0) as [Ez|Ez]; [congruence|].
    destruct (wf_ptr _ _ _ WF_other q Hq Ez) as [_ Hb]. congruence.
Qed.

End OtherFile.

(** Writing to one file leaves every other file as it is.  When the
    trees of the two files share no block, a write to [ino], whatever
    its outcome, keeps the record and the tree of the other file, its
    tree stays well formed and apart from the tree of [ino], and
    [osfs_read] on the other file delivers what it delivered before,
    at every position. *)
Theorem write_leaves_other_file (other now : Z) (sb sb' : osfs_sb_info)
    (buf : list byte) (pos pos' : Z) (r : result Z) :
  other <> ino ->
  WF BLOCK_SIZE ino sb -> WF BLOCK_SIZE other sb -> trees_apart ino other sb ->
  0 <= pos ->
  osfs_write BLOCK_SIZE true now sb ino buf pos = (sb', pos', r) ->
  WF BLOCK_SIZE other sb'
  /\ trees_apart ino other sb'
  /\ inode_at sb' other = inode_at sb other
  /\ (forall len p, 0 <= p -> 0 <= len ->
        snd (fst (osfs_read BLOCK_SIZE true sb' other len p))
        = snd (fst (osfs_read BLOCK_SIZE true sb other len p))
        /\ snd (osfs_read BLOCK_SIZE true sb' other len p)
           = snd (osfs_read BLOCK_SIZE true sb other len p)).
Proof.
  intros Hne Hwf Hwo Hta Hp Hrun.
  destruct (write_apart now sb sb' buf pos pos' r Hwf Hp Hrun) as (W' & A).
  pose proof (other_WF_kept other Hne sb sb' Hwo Hta A (wf_area _ _ _ W')) as Wo'.
  pose proof A as (_ & _ & A2 & _).
  split; [assumption|]. split; [apply (trees_apart_kept other Hne sb sb'); assumption|].
  split; [apply A2; assumption|].
  intros len p Hp0 Hl0.
  rewrite !(read_view BLOCK_SIZE BLOCK_SIZE_pos other) by assumption.
  cbn [fst snd]. rewrite (A2 other Hne). split; [reflexivity|]. f_equal.
  unfold file_bytes. apply map_ext. intros k.
  apply (other_file_byte_kept other Hne sb sb' Hwo Hta A). lia.
Qed.

End Isolation.

(** The root directory (inode 1, block 0) while 5000 bytes are written
    to the file of inode 2. *)
Lemma write_stays_in_its_file_witness :
  inode_at (fst (fst write_5000)) ROOT_INODE = inode_at file_state ROOT_INODE
  /\ load_bytes (data_blocks (fst (fst write_5000))) (blk_addr 4096 0 + 0) 260
     = load_bytes (data_blocks file_state) (blk_addr 4096 0 + 0) 260.
Proof.
  assert (Hrun : write_5000 = (fst (fst write_5000), snd (fst write_5000), Ok 5000))
    by (apply triple_eta; vm_compute; reflexivity).
  destruct (write_stays_in_its_file 4096 ltac:(lia) 2 3 file_state (fst (fst write_5000))
              bytes_5000 0 (snd (fst write_5000)) (Ok 5000) WF_file_state ltac:(lia) Hrun)
    as (H1 & _ & H3).
  split; [apply H1; discriminate|].
  apply H3.
  - vm_compute. split; [discriminate|reflexivity].
  - vm_compute. reflexivity.
  - intros p _ Hn. destruct (Hn (file_state_no_block p)).
  - lia.
  - lia.
Defined.

(** A second file, [b] (inode 3), that holds 5000 bytes, beside the
    empty file of inode 2. *)
Definition two_files : osfs_sb_info :=
  fst (fst (osfs_write 4096 true 3
              (fst (osfs_create 4096 true 0 0 2 file_state ROOT_INODE name_b S_IFREG))
              3 bytes_5000 0)).

Local Notation "'write_beside'" := (osfs_write 4096 true 4 two_files 2 bytes_5000_b 0).

Lemma WF_two_files_2 : WF 4096 2 two_files.
Proof.
  apply fresh_WF.
  - vm_compute. repeat split; try reflexivity. lia.
  - vm_compute. reflexivity.
  - vm_compute. reflexivity.
  - vm_compute. split; [reflexivity|discriminate].
  - vm_compute. reflexivity.
Qed.

Lemma WF_two_files_3 : WF 4096 3 two_files.
Proof.
  apply (write_keeps_WF 4096 ltac:(lia) 3 3 _ bytes_5000 0 5000).
  - apply fresh_WF.
    + vm_compute. repeat split; try reflexivity. lia.
    + vm_compute. reflexivity.
    + vm_compute. reflexivity.
    + vm_compute. split; [reflexivity|discriminate].
    + vm_compute. reflexivity.
  - lia.
  - vm_compute. reflexivity.
Qed.

Lemma trees_apart_two_files : trees_apart 4096 2 3 two_files.
Proof.
  intros p q _ _ Hn. destruct Hn.
  apply ptr_all_zero. apply fresh_slots. vm_compute. reflexivity.
Qed.

Lemma write_leaves_other_file_witness :
  inode_at (fst (fst write_beside)) 3 = inode_at two_files 3
  /\ snd (osfs_read 4096 true (fst (fst write_beside)) 3 5000 0)
     = snd (osfs_read 4096 true two_files 3 5000 0).
Proof.
  assert (Hrun : write_beside
                 = (fst (fst write_beside), snd (fst write_beside), Ok 5000))
    by (apply triple_eta; vm_compute; reflexivity).
  destruct (write_leaves_other_file 4096 ltac:(lia) 2 3 4 two_files (fst (fst write_beside))
              bytes_5000_b 0 (snd (fst write_beside)) (Ok 5000)
              ltac:(discriminate) WF_two_files_2 WF_two_files_3 trees_apart_two_files
              ltac:(lia) Hrun)
    as (_ & _ & H3 & H4).
  split; [exact H3|].
  exact (proj2 (H4 5000 0 ltac:(lia) ltac:(lia))).
Defined.

(** ** Writing, then freeing *)

(** Whatever [osfs_write] did to a well-formed file, successfully, cut
    short or failing, [osfs_free_inode_blocks] afterwards leaves the
    block bitmap as freeing the file before the write would have left
    it: every block the write allocated, index blocks included, is
    given back and no other bit changes.  For a file that had no block
    this is the bitmap from before the write. *)
Theorem free_after_write_gives_blocks_back (BLOCK_SIZE : Z) (ino now : Z)
    (sb sb' : osfs_sb_info) (buf : list byte) (pos pos' : Z) (r : result Z) :
  0 < BLOCK_SIZE ->
  WF BLOCK_SIZE ino sb -> 0 <= pos ->
  osfs_write BLOCK_SIZE true now sb ino buf pos = (sb', pos', r) ->
  (forall q, test_bit q (block_bitmap (osfs_free_inode_blocks BLOCK_SIZE sb' ino))
             = test_bit q (block_bitmap (osfs_free_inode_blocks BLOCK_SIZE sb ino)))
  /\ ((forall p, vpath BLOCK_SIZE p -> ptr BLOCK_SIZE ino sb p = 0) ->
      forall q, test_bit q (block_bitmap (osfs_free_inode_blocks BLOCK_SIZE sb' ino))
                = test_bit q (block_bitmap sb)).
Proof.
  intros BLOCK_SIZE_pos Hwf Hp Hrun.
  destruct (write_apart BLOCK_SIZE BLOCK_SIZE_pos ino now sb sb' buf pos pos' r Hwf Hp Hrun)
    as (Hwf' & _ & _ & _ & A3 & A4 & _ & A6 & A7).
  destruct (free_inode_blocks_released BLOCK_SIZE ino sb (wf_valid _ _ _ Hwf))
    as (_ & R2 & R3 & R4).
  destruct (free_inode_blocks_released BLOCK_SIZE ino sb' (wf_valid _ _ _ Hwf'))
    as (_ & R2' & R3' & R4').
  revert R2 R3 R4 R2' R3' R4'.
  generalize (block_bitmap (osfs_free_inode_blocks BLOCK_SIZE sb ino)) as fb.
  generalize (block_bitmap (osfs_free_inode_blocks BLOCK_SIZE sb' ino)) as fb'.
  intros fb' fb R2 R3 R4 R2' R3' R4'.
  assert (Hup : forall q, test_bit q fb = true -> test_bit q fb' = true).
  { intros q Hb.
    assert (Hn : ~ (q <> 0 /\ exists p, vpath BLOCK_SIZE p /\ ptr BLOCK_SIZE ino sb p = q))
      by (intros HP; rewrite (R2 q HP) in Hb; discriminate).
    pose proof (R4 q Hb) as Hs.
    rewrite R3'; [apply A3; assumption|].
    intros (Hq & p & Hvp & E).
    destruct (A4 p Hvp ltac:(congruence)) as [E'|E'].
    - apply Hn. split; [assumption|]. exists p. split; [assumption|congruence].
    - rewrite E in E'. congruence. }
  assert (Hdown : forall q, test_bit q fb' = true -> test_bit q fb = true).
  { intros q Hb.
    assert (Hn : ~ (q <> 0 /\ exists p, vpath BLOCK_SIZE p /\ ptr BLOCK_SIZE ino sb' p = q))
      by (intros HP; rewrite (R2' q HP) in Hb; discriminate).
    destruct (A7 q (R4' q Hb)) as [Hs|HP]; [|contradiction].
    rewrite R3; [assumption|].
    intros (Hq & p & Hvp & E). apply Hn. split; [assumption|]. exists p.
    split; [assumption|]. rewrite A6; [assumption|assumption|congruence]. }
  assert (Heq : forall q, test_bit q fb' = test_bit q fb).
  { intros q. destruct (test_bit q fb') eqn:E1, (test_bit q fb) eqn:E2; try reflexivity.
    - apply Hdown in E1. congruence.
    - apply Hup in E2. congruence. }
  split; [exact Heq|].
  intros Hempty q. rewrite Heq. apply R3.
  intros (Hq & p & Hvp & E). rewrite (Hempty p Hvp) in E. congruence.
Qed.

(** The write of more than the free blocks hold, to the empty file:
    after [osfs_free_inode_blocks] the bitmap is that of [file_state]. *)
Lemma free_after_write_gives_blocks_back_witness :
  block_bitmap (fst (fst write_19_blocks)) <> block_bitmap file_state
  /\ forall q, test_bit q (block_bitmap
                            (osfs_free_inode_blocks 4096 (fst (fst write_19_blocks)) 2))
               = test_bit q (block_bitmap file_state).
Proof.
  split; [vm_compute; discriminate|].
  assert (Hrun : write_19_blocks
                 = (fst (fst write_19_blocks), snd (fst write_19_blocks),
                    snd write_19_blocks)).
  { destruct write_19_blocks as [[a b] c]. reflexivity. }
  apply (proj2 (free_after_write_gives_blocks_back 4096 2 3 file_state
                  (fst (fst write_19_blocks)) bytes_19_blocks 0
                  (snd (fst write_19_blocks)) (snd write_19_blocks)
                  ltac:(lia) WF_file_state ltac:(lia) Hrun)).
  intros p _. apply file_state_no_block.
Defined.
